(* ===== verification/_CoqProject ===== *)
-Q . S2P
Prelude.v
GoStd.v
GoUrl.v
External.v
Concrete.v
Pkcs11.v
Pkcs11Key.v
Piv.v
OciSignature.v
OciSignatures.v
OciEntity.v
OciRemote.v
Tuf.v
Tlog.v
Ctl.v
Verify.v
Keys.v
Sign.v
Credentials.v
Attest.v
Blob.v
VerifyCmd.v
RegistryCmds.v
Tree.v
Scan.v
PolicyCmd.v
Options.v
CommandLine.v
Policy.v
Webhook.v
Reconciler.v
ConfigStore.v
Objects.v
Controller.v
Clients.v
Helpers.v
Informers.v
ControllerSetup.v
WebhookMain.v
