(* ===== verification/Prelude.v ===== *)
(** * A verification of cosign

    cosign signs container images, stores the signatures beside the images in
    the registry, and verifies them with keys, Fulcio certificates and the
    transparency log Rekor; a Kubernetes webhook admits only images that satisfy
    the cluster's policies.  This library models those parts of the Go sources
    and proves what makes them correct.

    ** The program and its parts

    - [GoStd]: what the sources use of Go's standard library (strings, hex,
      base64, paths, os.Expand), executable, with round trips; [GoUrl]: net/url
      and strconv.
    - [External]: types and calls of code outside the repository.  The class
      [Ext] has a member per call (x509, PEM, JSON, sigstore, Rekor types); every
      component is parametric in it.  [Concrete] is one executable instance, on
      which the witnesses run.
    - [Pkcs11] (pkg/cosign/pkcs11key/util.go): PKCS #11 URIs; [Pkcs11Key]
      (pkcs11key.go, cmd/cosign/cli/pkcs11cli): keys on such tokens and their
      listing; [Piv] (pkg/cosign/pivkey, cmd/cosign/cli/pivcli): PIV tokens, as a
      card that the commands of piv-tool change.
    - [OciSignature] (pkg/oci/static, pkg/oci/signature,
      pkg/oci/mutate/signature.go): the three implementations of oci.Signature
      as a tagged union, their accessors, and the options that build them.
    - [OciSignatures] (pkg/oci/mutate/signatures.go, pkg/oci/empty,
      pkg/cosign/remote): sets of signatures, appending, replacing, duplicates.
    - [OciEntity] (pkg/oci/mutate/mutate.go and map.go, pkg/oci/walk): images and
      indices with attached signatures, [Map] and the walk.
    - [OciRemote] (pkg/oci/remote, pkg/oci/layout): tags, reading entities from a
      registry, publishing signatures, layouts on disk.
    - [Tuf] (pkg/cosign/tuf, cmd/cosign/cli/initialize): the TUF client (stores,
      updates, authenticated targets), the initialize command, and root policies
      with their thresholds.
    - [Tlog] (pkg/cosign/tlog.go): the Rekor client.
    - [Ctl] (cmd/cosign/cli/fulcio/fulcioverifier, fulcioroots): certificate
      timestamps and the Fulcio root pools.
    - [Verify] (pkg/cosign/verify.go, verifiers.go): verification.
    - [Keys] (pkg/cosign/keys.go, pkg/signature/keys.go, pkg/cosign/git,
      pkg/cosign/kubernetes/secret.go): key pairs and key references, in files,
      cluster secrets, GitLab and GitHub.
    - [Sign] (internal/pkg/cosign, cmd/cosign/cli/fulcio, cmd/cosign/cli/sign):
      signers and the sign command.
    - [Credentials] (pkg/providers, passwords of pkg/cosign/common.go,
      cmd/cosign/cli/publickey): identity providers, passwords, the public-key
      command.
    - [Attest] (pkg/cosign/attestation, cmd/cosign/cli/attest): in-toto
      statements and the attest command.
    - [Blob] (cmd/cosign/cli/sign/sign_blob.go, verify/verify_blob.go,
      pkg/cosign/fetch.go): signing and verifying blobs, fetching signatures.
    - [VerifyCmd] (cmd/cosign/cli/verify, pkg/policy, pkg/cosign/rego,
      pkg/cosign/cue): the verify and verify-attestation commands.
    - [RegistryCmds] (cmd/cosign/cli: copy, clean, triangulate, download, attach,
      upload, save, load; pkg/cosign/remote/index.go): commands on registries;
      [Tree] (cmd/cosign/cli/tree.go): the listing of what a registry holds for an
      image.
    - [Scan] (cmd/cosign/cli/manifest, cmd/cosign/cli/dockerfile): verification of
      the images of a manifest or a Dockerfile.
    - [PolicyCmd] (pkg/sget, cmd/cosign/cli/policy_init.go): sget, policy init and
      policy sign.
    - [Options] (cmd/cosign/main.go, cmd/cosign/cli/options): the arguments, the
      option structures with their flags, and the tree of commands; [CommandLine]
      (cmd/cosign/cli, cmd/sget/cli): what each command runs with its options.
    - [Policy] (pkg/apis, the clusterimagepolicy package of the webhook): policies,
      their validation, matching and conversion.
    - [Webhook] (pkg/cosign/kubernetes/webhook): admission.
    - [Reconciler] (pkg/reconciler/clusterimagepolicy): the reconciler that
      publishes policies for the webhook; [Objects] (zz_generated.deepcopy.go):
      the same on structures in memory, with pointers and copies; [Controller]
      (pkg/client/injection/reconciler): the loop around it, with finalizers,
      leadership and a cache of the policies that lags behind, as a transition system in
      which one run of the reconciler is one step.  The reconciler reads the config map
      through a lister, whose copy is apart from what the server holds, and each run has
      surroundings of its own (secrets, keys, answers of the server).
    - [ConfigStore] (pkg/apis/config/store.go): the webhook's configuration, between
      the reconciler and admission.
    - [Clients] (pkg/client/clientset, pkg/client/injection/client): the typed
      client of policies, the one over the dynamic client and the fake, as the
      requests they send; [Informers] (pkg/client/informers, pkg/client/listers,
      pkg/client/injection/informers): shared informers, their factories and what
      the injection packages put into a context.
    - [ControllerSetup] (pkg/reconciler/clusterimagepolicy/controller.go and the
      generated controller.go): how the controller is made and what the events of
      the cluster make it do; [WebhookMain] (cmd/cosign/webhook,
      cmd/cosign/policy_webhook): what the two processes register.
    - [Helpers]: small packages: annotations, certificate extensions, signer
      options, the empty signed image, the configuration of the cluster's client.

    Components meet at interfaces: [Verify], [Tlog] and [Ctl] take the trusted
    targets from a class [TrustRoot], whose laws the TUF client of [Tuf]
    discharges ([tuf_TrustRootLaws]); [OciSignatures] and [OciRemote] state what
    they rely on of ggcr and of a registry as [GgcrLaws] and [RegistryLaws];
    [Keys] does so for encodings and encryption ([KeyLaws]), [Reconciler] for
    JSON and patches ([ReconcileLaws]), [Attest] and [Blob] for envelopes
    ([AttestLaws], [BlobLaws]), [RegistryCmds] for copies, deletions and layers
    ([CopyLaws], [FileLaws]), [PolicyCmd] for keys of policies ([PolicyLaws]),
    [Options] for the flag library ([PflagLaws]), [ConfigStore] for knative's store
    ([StoreLaws]), [Clients] for client-go ([ClientLaws]), [ControllerSetup] and
    [WebhookMain] for knative's queues, trackers and admission ([KnativeLaws],
    [WebhookLaws]).
    Each class of laws has an instance.

    ** Conventions

    A Go [string] or [[]byte] is a byte string.  A call that may fail returns
    [res]: a value, an error with its message and its kind, or a panic (a nil
    dereference, a failed assertion, an explicit panic).  Code that changes
    state is in the monad [M] over its state: the check options that verification
    updates through a pointer ([CheckOpts]), the registry ([Reg]), the registry
    and written files ([SignWorld]), secrets and files ([KeyWorld]), the pools and
    the printed lines ([CmdWorld], with the former in [PolicyWorld]), the stores
    on disk and the clock ([World]), the process-wide pools ([RootsVars]), the
    cluster's config map, the lister's copy of it and trackers ([Cluster]), a PIV card ([Device]), a flag
    set ([FlagSet]), the API server and the object a caller passed by pointer
    ([ClientWorld]), factories, informers and captured variables ([InfWorld]), and
    memory ([Store]), where a pointer is an address.  Where Go compares pointers,
    entities carry identities; where Go ranges over a map and the order can be
    observed, the order is explicit.

    ** What the theorems show

    - Verification is sound: an image, an attestation, a log entry, a certificate
      timestamp or a TUF target is accepted only with the evidence that the code
      promises ([VerifyImageSignatures_sound], [VerifyImageAttestations_sound],
      [VerifyTLogEntry_sound], [VerifySCT_sound], [GetTargetsByMeta_authentic]);
      verifying a set is verifying each member on its own
      ([verifySignatures_correct]).
    - The commands pass this on: when one ends without an error, every image
      it was given, that a manifest names or that a FROM line names was verified
      ([Exec_sound], [attestation_Exec_sound], [VerifyManifest_sound],
      [VerifyDockerfile_sound]), from the flags on the command line on
      ([verify_command_line]), a blob was signed ([VerifyBlobCmd_sound]), and
      what sget returns is the layer of the verified digest ([SecureGet_sound]);
      Rego policies fail closed ([rego_fails_closed]).
    - Admission is sound: a workload is admitted only if every container's image
      is a digest that satisfies every matching policy ([admission_sound]); the
      controller refines an abstract one, which for each run says from the secrets, the
      lister's copy and the answers of the server which entry is written, withdrawn or
      left ([reconciler_refines]); with a lister that is up to date what it writes is
      what the webhook reads ([reconciled_policy_delivered]), so a workload that is
      admitted once the webhook has read it satisfies the policy, if its authorities are
      effective ([policy_enforced], [requests_see_last_good]).  Through both webhooks of the process, what was
      submitted by tag runs by the digest that the tag named, and that digest
      satisfies the policy ([cosigned_enforces]).  In memory it computes the same and changes
      no object that others share ([inline_in_memory]); under the loop around it
      every published policy belongs to an object that still has the finalizer, in
      every reachable state, if the lister shows the entry of a policy when its deletion
      is reconciled ([finalizer_invariant]; [stale_lister_outlives] shows that this is
      needed), and a deletion can always be completed ([deletion_completes]).  Events of policies and of the config map
      queue the policies they concern ([controller_notices]), and so do those of the
      secrets that a policy names ([secret_changes_requeue]).  Informers are shared
      and run once ([informers_shared]); the two clients of policies come to
      the same but for Watch and patches of subresources ([dynamic_for_typed]), and
      timeouts stay in range ([list_timeout_bounds]).
    - Signing is correct: what is signed is published under the tag of the digest
      and read back ([sign_publish]), then verified ([sign_then_verify]); the
      signers attach the payload, key, certificate and log entry they should
      ([signers_correct], [SignerFromKeyOpts_sound]); a walk signs the preorder
      of an index ([walk_sign_correct], [walk_preorder]).  Attestations and blobs
      likewise come back verified ([attest_then_verify], [sign_blob_roundtrip]).
    - Commands on registries do what they say: a copy is complete
      ([copy_complete]), clean deletes what it names and nothing else
      ([clean_selected]), an attached SBOM is downloaded unchanged
      ([sbom_roundtrip]), tree lists every layer ([tree_lists]); exactly the maintainers of a policy may sign it
      ([policy_maintainers], [AddOrUpdateSignature_correct]); a token is obtained
      whenever an enabled provider has one ([Provide_live]), and the public-key
      command gives the public half of a key file ([public_key_of_pair]);
      initialize reports the root that it trusted ([DoInitialize_status]).
    - Tokens: the listing of a PKCS #11 token ends and is complete
      ([list_keys_complete]), and the URI that it prints opens the key
      ([listed_uri_opens_key]); a PIV card is unchanged unless every question was
      answered with yes, also with --no-input ([piv_declined_unchanged]), and its signatures verify
      ([piv_sign_verify]).
    - The command line: every command can be built and run ([commands_build]),
      arguments come out in POSIX form ([fix_args_posix]), and generate prints
      what sign signs ([generate_is_signed]).  [Map] keeps the kinds of what it
      visits, so no type assertion fails ([Map_type_safe]).
    - Representations agree: accessors and published annotations
      ([built_consistent]), tags ([normalize_inj]), key pairs
      ([key_pair_roundtrip], [k8s_key_pair_roundtrip],
      [gitlab_key_pair_roundtrip]), PKCS #11 URIs
      ([pkcs11_uri_roundtrip], [pkcs11_slot_bounds]), annotations
      ([annotations_roundtrip], [annotations_agree]), validation and use of
      policies ([Validate_correct], [IsValidKey_iff_keys], [GlobMatch_valid],
      [GetMatchingPolicies_correct]).
    - A last group records where the code does not do what its comments or
      messages say, for example [bundle_mismatch_accepted],
      [identities_skip_SCT], [ineffective_policy_admits],
      [malformed_secret_falls_back], [blob_log_evidence_unrelated],
      [policies_vacuous], [unset_variable_panics], [policy_upload],
      [policy_sign_needs_signature], [stdin_argument_lost],
      [generate_key_touch_policy], [piv_attestation_crashes],
      [github_secrets_plain], [public_key_outfile], [sget_prints_unchecked],
      [filtered_last_selector], [secure_port_ignored], [mutate_stale_chain],
      [stale_lister_outlives], [copy_ignores_prefix].

    ** Bounds and fuel

    Loops over lists are structural.  [Map] takes fuel, and [walk_preorder] and
    [walk_sign_correct] prove that the depth of the tree is enough; entities read
    from a registry are unfolded to a given depth, beyond which a nested index
    is an error, and every theorem holds for every depth.  PEM parsing takes the
    length of its input, which each block shortens ([parsePEM_fuel]).  The walks of
    copy and sign take the depth of the entity.  The search for the keys of a token
    takes fuel, of which one more than a twentieth of the keys is enough
    ([list_keys_complete]).  Numbers
    that the sources compare (log indices, times, thresholds, versions) are [Z].

    ** What is not modelled

    Code outside the repository is a parameter: the flag and command libraries,
    client-go and knative, the drivers of hardware tokens, KMS, git and token
    services, the CUE, Rego and YAML libraries.  Of the repository's own code these
    are left out: test utilities and mocks (pkg/cosign/tuf/testutils.go, the fake
    injections, mock_rekor_client.go), the generators of documentation and schemas
    (cmd/help, cmd/schema), the stubs of builds without token support (disabled.go),
    the registration of types in schemes, help texts, warnings and progress messages.
    Contexts carry values where the code reads them; cancellation, timeouts of whole
    commands and logging are dropped.  Text that is not ASCII is left to parameters
    where Go treats it by runes.  Signature schemes are parameters: nothing is proved
    about cryptography.

    ** This file

    Errors, results, the state monad and their automation. *)
From stdpp Require Export base gmap strings list fin_maps.
From Stdlib Require Export ZArith.

#[global] Set Default Goal Selector "!".

(** ** Bytes and strings

    A Go [string] and a Go [[]byte] are both finite byte sequences: both are
    modelled by [string], whose [ascii] characters are the 256 bytes.  Where
    the code distinguishes a nil slice from an empty one, the model uses
    [option]. *)

Abbreviation bytes := string.

(** ** Errors

    [error_New m] is [errors.New(m)] or [fmt.Errorf] without [%w];
    [error_Wrapped m c] is any wrapping error with rendered message [m] and
    cause [c]; [error_Kind k m] is an error that callers discriminate on. *)

Inductive errkind :=
  | kind_transport (StatusCode : Z)     (* ggcr transport.Error *)
  | kind_NotExist                       (* os.IsNotExist *)
  | kind_k8sNotFound                    (* apierrs.IsNotFound *)
  | kind_SkipChildren                   (* mutate.ErrSkipChildren *)
  | kind_Conflict (Location : string)   (* rekor CreateLogEntryConflict *)
  | kind_LatestSnapshot                 (* go-tuf client.IsLatestSnapshot *)
  | kind_Help                           (* flag.ErrHelp *)
  | kind_PubKeyParse                    (* options.PubKeyParseError *)
  | kind_KeyParse                       (* options.KeyParseError *)
  | kind_EOF.                           (* io.EOF *)

Inductive error :=
  | error_New (msg : string)
  | error_Wrapped (msg : string) (cause : error)
  | error_Kind (k : errkind) (msg : string).

#[global] Instance errkind_eq_dec : EqDecision errkind.
Proof. solve_decision. Defined.
#[global] Instance error_eq_dec : EqDecision error.
Proof. solve_decision. Defined.

Definition flag_ErrHelp : error := error_Kind kind_Help "flag: help requested".

(** [err.Error()] *)
Definition Error (e : error) : string :=
  match e with
  | error_New m | error_Wrapped m _ | error_Kind _ m => m
  end.

(** [errors.Wrap] of pkg/errors: nil stays nil. *)
Definition errors_Wrap (e : option error) (msg : string) : option error :=
  match e with
  | None => None
  | Some c => Some (error_Wrapped (msg +:+ ": " +:+ Error c) c)
  end.

(** The kind found by [errors.As] / [errors.Is], which unwrap. *)
Fixpoint errors_kind (e : error) : option errkind :=
  match e with
  | error_New _ => None
  | error_Wrapped _ c => errors_kind c
  | error_Kind k _ => Some k
  end.

(** [os.IsNotExist] and [apierrs.IsNotFound] do not unwrap. *)
Definition os_IsNotExist (e : error) : bool :=
  match e with error_Kind kind_NotExist _ => true | _ => false end.

Definition apierrs_IsNotFound (e : error) : bool :=
  match e with error_Kind kind_k8sNotFound _ => true | _ => false end.

Definition errors_Is_SkipChildren (e : error) : bool :=
  bool_decide (errors_kind e = Some kind_SkipChildren).

(** [errors.As(err, &te) && te.StatusCode == http.StatusNotFound] *)
Definition is_transport_404 (e : error) : bool :=
  bool_decide (errors_kind e = Some (kind_transport 404)).

(** ** Results

    A Go call that returns [(T, error)] gives [Ok v] (a nil error), [Err e] or
    [Panic]: a nil dereference, a failed type assertion or an index out of
    range.  A function that returns only [error] gives [res unit]. *)

Inductive res (A : Type) :=
  | Ok (a : A)
  | Err (e : error)
  | Panic (why : string).
Arguments Ok {_} _.
Arguments Err {_} _.
Arguments Panic {_} _.

#[global] Instance res_ret : MRet res := λ A a, Ok a.
#[global] Instance res_bind : MBind res := λ A B f m,
  match m with Ok a => f a | Err e => Err e | Panic w => Panic w end.
#[global] Instance res_fmap : FMap res := λ A B f m,
  match m with Ok a => Ok (f a) | Err e => Err e | Panic w => Panic w end.
#[global] Instance res_eq_dec `{EqDecision A} : EqDecision (res A).
Proof. solve_decision. Defined.

(** [errors.Wrap(err, msg)] on an error return. *)
Definition wrap {A} (msg : string) (m : res A) : res A :=
  match m with
  | Err c => Err (error_Wrapped (msg +:+ ": " +:+ Error c) c)
  | m => m
  end.

(** [fmt.Errorf("...: %w", err)] and the other rewrites of an error. *)
Definition map_err {A} (f : error → error) (m : res A) : res A :=
  match m with Err c => Err (f c) | m => m end.

(** Both outcomes of a call are handled, a panic goes through. *)
Definition catch {A B} (m : res A) (h : error → res B) (k : A → res B) : res B :=
  match m with Ok a => k a | Err e => h e | Panic w => Panic w end.

(** [if !b { return err }] *)
Definition ensure (b : bool) (e : error) : res unit := if b then Ok () else Err e.

(** A nil pointer or interface is dereferenced. *)
Definition deref {A} (o : option A) : res A :=
  match o with Some a => Ok a | None => Panic "nil dereference" end.

(** [x.(string)] on an [interface{}] holding a JSON value. *)
Definition is_ok {A} (m : res A) : bool := match m with Ok _ => true | _ => false end.
Definition is_panic {A} (m : res A) : bool := match m with Panic _ => true | _ => false end.

(** The (value, error) pair of a call whose value is used beside its error. *)
Definition err_of {A} (m : res A) : option error :=
  match m with Err e => Some e | _ => None end.

Lemma bind_Ok {A B} (m : res A) (f : A → res B) b :
  m ≫= f = Ok b ↔ ∃ a, m = Ok a ∧ f a = Ok b.
Proof. destruct m; cbn; naive_solver. Qed.

Lemma fmap_Ok {A B} (m : res A) (f : A → B) b :
  f <$> m = Ok b ↔ ∃ a, m = Ok a ∧ b = f a.
Proof. destruct m; cbn; naive_solver. Qed.

Lemma wrap_Ok {A} msg (m : res A) a : wrap msg m = Ok a ↔ m = Ok a.
Proof. by destruct m. Qed.

Lemma map_err_Ok {A} f (m : res A) a : map_err f m = Ok a ↔ m = Ok a.
Proof. by destruct m. Qed.

Lemma ensure_Ok b e u : ensure b e = Ok u ↔ b = true.
Proof. destruct b, u; naive_solver. Qed.

Lemma deref_Ok {A} (o : option A) a : deref o = Ok a ↔ o = Some a.
Proof. destruct o; naive_solver. Qed.

Lemma errors_Wrap_None e msg : errors_Wrap e msg = None ↔ e = None.
Proof. by destruct e. Qed.

(** ** Automation *)

Create HintDb go discriminated.
Create Rewrite HintDb go.
#[export] Hint Rewrite @bind_Ok @fmap_Ok @wrap_Ok @map_err_Ok ensure_Ok @deref_Ok
  errors_Wrap_None : go.

(** Invert every hypothesis [_ = Ok _] built from the monad's operations. *)
Ltac go_inv1 :=
  match goal with
  | H : _ ≫= _ = Ok _ |- _ => apply bind_Ok in H as (?&?&?)
  | H : _ <$> _ = Ok _ |- _ => apply fmap_Ok in H as (?&?&?)
  | H : wrap _ _ = Ok _ |- _ => apply wrap_Ok in H
  | H : map_err _ _ = Ok _ |- _ => apply map_err_Ok in H
  | H : ensure _ _ = Ok _ |- _ => apply ensure_Ok in H
  | H : deref _ = Ok _ |- _ => apply deref_Ok in H
  | H : Ok _ = Ok _ |- _ => injection H as H; subst
  | H : mret _ = Ok _ |- _ => injection H as H; subst
  | H : Err _ = Ok _ |- _ => discriminate H
  | H : Panic _ = Ok _ |- _ => discriminate H
  | H : () = () |- _ => clear H
  end.
Ltac go_inv := repeat (go_inv1; simplify_eq/=).

(** Case on the scrutinee of a match in a hypothesis [_ = Ok _], dropping the
    branches that fail, until none is left. *)
Ltac go_case :=
  repeat (go_inv; match goal with
  | H : context [match ?x with _ => _ end] |- _ =>
      lazymatch type of H with _ = Ok _ => destruct x eqn:?; simplify_eq/= end
  end); go_inv.

(** ** Stateful calls

    A call that reads and changes a world [W] and may fail: the changes made
    before a failure stay. *)

Definition M (W A : Type) : Type := W → W * res A.
#[global] Instance M_ret W : MRet (M W) := λ A a w, (w, Ok a).
#[global] Instance M_bind W : MBind (M W) := λ A B f m w,
  match m w with
  | (w, Ok a) => f a w
  | (w, Err e) => (w, Err e)
  | (w, Panic x) => (w, Panic x)
  end.
Definition lift {W A} (r : res A) : M W A := λ w, (w, r).
Definition gets {W A} (f : W → A) : M W A := λ w, (w, Ok (f w)).
Definition modify {W} (f : W → W) : M W unit := λ w, (f w, Ok ()).
(** A call that only reads the world. *)
Definition reads {W A} (f : W → res A) : M W A := λ w, (w, f w).
(** The error of a call is rewritten. *)
Definition M_wrap {W A} (msg : string) (m : M W A) : M W A := λ w,
  let '(w, r) := m w in (w, wrap msg r).
(** Both outcomes are handled. *)
Definition M_try {W A} (m : M W A) : M W (res A) := λ w,
  match m w with
  | (w, Panic x) => (w, Panic x)
  | (w, r) => (w, Ok r)
  end.

Lemma M_bind_Ok {W A B} (m : M W A) (f : A → M W B) w w' b :
  (m ≫= f) w = (w', Ok b) ↔ ∃ w1 a, m w = (w1, Ok a) ∧ f a w1 = (w', Ok b).
Proof. unfold mbind, M_bind. destruct (m w) as [w1 [a| |]]; naive_solver. Qed.
Lemma M_bind_Err {W A B} (m : M W A) (f : A → M W B) w w' e :
  (m ≫= f) w = (w', Err e) ↔
  m w = (w', Err e) ∨ ∃ w1 a, m w = (w1, Ok a) ∧ f a w1 = (w', Err e).
Proof. unfold mbind, M_bind. destruct (m w) as [w1 [a| |]]; naive_solver. Qed.
Lemma lift_Ok {W A} (r : res A) (w w' : W) a : lift r w = (w', Ok a) ↔ r = Ok a ∧ w' = w.
Proof. unfold lift. naive_solver. Qed.
Lemma M_wrap_Ok {W A} msg (m : M W A) w w' a :
  M_wrap msg m w = (w', Ok a) ↔ m w = (w', Ok a).
Proof. unfold M_wrap. destruct (m w) as [? [| |]]; naive_solver. Qed.
Lemma M_ret_Ok {W A} (a b : A) (w w' : W) :
  (mret a : M W A) w = (w', Ok b) ↔ b = a ∧ w' = w.
Proof. unfold mret, M_ret. naive_solver. Qed.
Lemma gets_Ok {W A} (f : W → A) w w' b : gets f w = (w', Ok b) ↔ b = f w ∧ w' = w.
Proof. unfold gets. naive_solver. Qed.
Lemma reads_Ok {W A} (f : W → res A) w w' b : reads f w = (w', Ok b) ↔ f w = Ok b ∧ w' = w.
Proof. unfold reads. split; [by intros [= -> ->]|by intros [-> ->]]. Qed.
Lemma modify_Ok {W} (f : W → W) w w' u : modify f w = (w', Ok u) ↔ w' = f w.
Proof. unfold modify. destruct u. naive_solver. Qed.

(** A run that evaluates to a success has a final world and a value. *)
Lemma ok_run {W A} (r : W * res A) : is_ok (snd r) = true → ∃ w a, r = (w, Ok a).
Proof. destruct r as [w [a| |]]; naive_solver. Qed.
Lemma ok_res {A} (r : res A) : is_ok r = true → ∃ a, r = Ok a.
Proof. destruct r; naive_solver. Qed.

(** Invert every hypothesis [_ w = (w', Ok _)] built from these. *)
Ltac M_inv1 :=
  match goal with
  | H : (_ ≫= _) _ = (_, Ok _) |- _ => apply M_bind_Ok in H as (?&?&?&?)
  | H : lift _ _ = (_, Ok _) |- _ => apply lift_Ok in H as (?&?)
  | H : M_wrap _ _ _ = (_, Ok _) |- _ => apply M_wrap_Ok in H
  | H : reads _ _ = (_, Ok _) |- _ => apply reads_Ok in H as (?&?)
  | H : gets _ _ = (_, Ok _) |- _ => apply gets_Ok in H as (?&?)
  | H : modify _ _ = (_, Ok _) |- _ => apply modify_Ok in H
  | H : mret _ _ = (_, Ok _) |- _ => apply M_ret_Ok in H as (?&?)
  end.
Ltac M_inv :=
  repeat (M_inv1; simplify_eq/=; go_inv);
  repeat match goal with u : unit |- _ => destruct u end.

(** ** Environment and standard library *)

Declare Scope go_scope.
Delimit Scope go_scope with go.

Definition str_eqb (s t : string) : bool := bool_decide (s = t).
Infix "=?s" := str_eqb (at level 70) : go_scope.
#[global] Open Scope go_scope.

Lemma str_eqb_eq s t : (s =?s t) = true ↔ s = t.
Proof. apply bool_decide_eq_true. Qed.
Lemma str_eqb_neq s t : (s =?s t) = false ↔ s ≠ t.
Proof. apply bool_decide_eq_false. Qed.
Lemma str_eqb_refl s : (s =?s s) = true.
Proof. by apply str_eqb_eq. Qed.
#[export] Hint Rewrite str_eqb_eq str_eqb_neq str_eqb_refl : go.

(** The last element of a slice and the rest: [xs[:len(xs)-1]], [xs[len(xs)-1]]. *)
Definition slice_init {A} (l : list A) : list A := take (length l - 1) l.

(** [append] to a slice held in a map: [m[k] = append(m[k], xs...)]. *)
Definition map_append {A} (k : string) (xs : list A) (m : gmap string (list A)) :
    gmap string (list A) :=
  <[k := default [] (m !! k) ++ xs]> m.
