(* ===== verification/GoStd.v ===== *)
(** * The parts of Go's standard library the components use

    [strings] (prefixes, suffixes, splitting, counting), [encoding/hex] and
    [encoding/base64], as executable functions on byte strings, with the
    lemmas the components need: round trips and membership of the results. *)
From S2P Require Import Prelude.
From Stdlib Require Export Ascii.
From Stdlib Require Import NArith.

(** ** Package strings *)

Definition strings_HasPrefix (s p : string) : bool := String.prefix p s.

Fixpoint strings_HasSuffix (s p : string) : bool :=
  (s =?s p) || match s with "" => false | String _ s' => strings_HasSuffix s' p end.

Definition strings_TrimPrefix (s p : string) : string :=
  if strings_HasPrefix s p
  then String.substring (String.length p) (String.length s - String.length p) s else s.

Definition strings_TrimSuffix (s p : string) : string :=
  if strings_HasSuffix s p then String.substring 0 (String.length s - String.length p) s else s.

Fixpoint strings_Contains (s sub : string) : bool :=
  strings_HasPrefix s sub
  || match s with "" => false | String _ s' => strings_Contains s' sub end.

Definition nl : string := String (ascii_of_nat 10) "".

(** %q in messages, for a string with no character to escape. *)
Definition quoted (s : string) : string :=
  let q := String (ascii_of_nat 34) "" in q +:+ s +:+ q.

(** [strings.Count(s, string(c))] *)
Fixpoint strings_Count (s : string) (c : ascii) : nat :=
  match s with
  | "" => 0
  | String a s' => (if decide (a = c) then 1 else 0) + strings_Count s' c
  end.

(** [strings.Split(s, string(c))] *)
Fixpoint strings_Split (s : string) (c : ascii) : list string :=
  match s with
  | "" => [""]
  | String a s' =>
      if decide (a = c) then "" :: strings_Split s' c
      else match strings_Split s' c with
           | [] => [String a ""]
           | w :: ws => String a w :: ws
           end
  end.

(** [strings.SplitN(s, string(c), 2)] *)
Fixpoint strings_SplitN2 (s : string) (c : ascii) : list string :=
  match s with
  | "" => [""]
  | String a s' =>
      if decide (a = c) then [""; s']
      else match strings_SplitN2 s' c with
           | [] => [String a ""]
           | w :: ws => String a w :: ws
           end
  end.

(** The text before and after the first occurrence of a separator. *)
Fixpoint strings_Cut (s sep : string) : option (string * string) :=
  if strings_HasPrefix s sep then Some ("", strings_TrimPrefix s sep)
  else match s with
       | "" => None
       | String a s' =>
           match strings_Cut s' sep with
           | Some (before, after) => Some (String a before, after)
           | None => None
           end
       end.

(** [strings.Split(s, sep)] for a separator that is not empty: every step
    consumes it, so the length of [s] is enough fuel. *)
Fixpoint split_loop (fuel : nat) (s sep : string) : list string :=
  match fuel, strings_Cut s sep with
  | S fuel, Some (before, after) => before :: split_loop fuel after sep
  | _, _ => [s]
  end.
Definition strings_SplitSep (s sep : string) : list string := split_loop (String.length s) s sep.

Fixpoint strings_Join (l : list string) (sep : string) : string :=
  match l with
  | [] => ""
  | [w] => w
  | w :: ws => w +:+ sep +:+ strings_Join ws sep
  end.

#[global] Arguments String.append !_ _ : simpl nomatch.

Lemma append_nil_r (s : string) : s +:+ "" = s.
Proof. induction s as [|a s IH]; [done|]. cbn. by f_equal. Qed.

Lemma append_assoc (s t u : string) : (s +:+ t) +:+ u = s +:+ (t +:+ u).
Proof. induction s as [|a s IH]; [done|]. cbn. by f_equal. Qed.

Lemma length_append (s t : string) :
  String.length (s +:+ t) = String.length s + String.length t.
Proof. induction s as [|a s IH]; [done|]. cbn. by f_equal. Qed.

Lemma append_inj_l (s t u : string) : s +:+ t = s +:+ u → t = u.
Proof. induction s as [|a s IH]; [done|]. cbn. intros [=]; auto. Qed.

Lemma append_inj_r (s t u : string) : s +:+ u = t +:+ u → s = t.
Proof.
  revert t. induction s as [|a s IH]; intros [|b t] H; try done.
  - apply (f_equal String.length) in H. revert H. cbn. rewrite length_append. lia.
  - apply (f_equal String.length) in H. revert H. cbn. rewrite length_append. lia.
  - cbn in H. injection H as -> H. f_equal. eauto.
Qed.

Lemma substring_all (s : string) : String.substring 0 (String.length s) s = s.
Proof. induction s as [|a s IH]; [done|]. cbn. by f_equal. Qed.

Lemma substring_append_l (p r : string) :
  String.substring 0 (String.length p) (p +:+ r) = p.
Proof. induction p as [|a p IH]; [by destruct r|]. cbn. by f_equal. Qed.

Lemma substring_append_r (p r : string) :
  String.substring (String.length p) (String.length r) (p +:+ r) = r.
Proof. induction p as [|a p IH]; [apply substring_all|]. done. Qed.

Lemma HasPrefix_spec s p : strings_HasPrefix s p = true ↔ ∃ r, s = p +:+ r.
Proof.
  unfold strings_HasPrefix. revert s.
  induction p as [|a p IH]; intros s.
  { split; [intros _; by exists s|by destruct s]. }
  destruct s as [|b s]; cbn; [split; [done|by intros [? ?]]|].
  destruct (ascii_dec a b) as [->|Hne].
  - rewrite IH. split; intros [r Hr]; exists r; simplify_eq/=; done.
  - split; [done|]. intros [r Hr]. simplify_eq/=.
Qed.

Lemma HasSuffix_spec s p : strings_HasSuffix s p = true ↔ ∃ q, s = q +:+ p.
Proof.
  induction s as [|a s IH]; cbn; rewrite orb_true_iff, str_eqb_eq.
  - split; [intros [<-|]; [by exists ""|done]|].
    intros [[|] ?]; naive_solver.
  - rewrite IH. split.
    + intros [<-|[q ->]]; [by exists ""|by exists (String a q)].
    + intros [[|b q] H]; [by left|]. cbn in H. injection H as -> ->. right; eauto.
Qed.

Lemma TrimSuffix_append q p : strings_TrimSuffix (q +:+ p) p = q.
Proof.
  unfold strings_TrimSuffix.
  rewrite (proj2 (HasSuffix_spec _ _) (ex_intro _ q eq_refl)).
  rewrite length_append.
  replace (String.length q + String.length p - String.length p) with (String.length q) by lia.
  apply substring_append_l.
Qed.

Lemma TrimPrefix_append p r : strings_TrimPrefix (p +:+ r) p = r.
Proof.
  unfold strings_TrimPrefix.
  rewrite (proj2 (HasPrefix_spec _ _) (ex_intro _ r eq_refl)).
  rewrite length_append.
  replace (String.length p + String.length r - String.length p) with (String.length r) by lia.
  apply substring_append_r.
Qed.

Lemma Count_append s t c : strings_Count (s +:+ t) c = strings_Count s c + strings_Count t c.
Proof. induction s as [|a s IH]; [done|]. cbn. rewrite IH. lia. Qed.

Lemma Split_no_sep s c : strings_Count s c = 0 → strings_Split s c = [s].
Proof.
  induction s as [|a s IH]; cbn; [done|]. case_decide; [done|]. intros Hc. by rewrite IH.
Qed.

Lemma Split_append s t c :
  strings_Count s c = 0 → strings_Split (s +:+ String c t) c = s :: strings_Split t c.
Proof.
  induction s as [|a s IH]; cbn.
  - intros _. by rewrite decide_True.
  - case_decide; [done|]. intros H'. by rewrite IH.
Qed.

(** ** Package encoding/hex *)

Definition hex_digit (n : nat) : ascii :=
  ascii_of_nat (if n <? 10 then 48 + n else 87 + n).

Definition hex_value (c : ascii) : option nat :=
  let n := nat_of_ascii c in
  if (48 <=? n) && (n <=? 57) then Some (n - 48)
  else if (97 <=? n) && (n <=? 102) then Some (n - 87)
  else if (65 <=? n) && (n <=? 70) then Some (n - 55)
  else None.

Fixpoint hex_EncodeToString (s : bytes) : string :=
  match s with
  | "" => ""
  | String a s' =>
      String (hex_digit (nat_of_ascii a / 16))
        (String (hex_digit (nat_of_ascii a mod 16)) (hex_EncodeToString s'))
  end.

(** [hex.DecodeString] returns the bytes decoded before the first error
    beside the error: an invalid digit, or an odd length. *)
Fixpoint hex_DecodeString (s : string) : bytes * option error :=
  match s with
  | "" => ("", None)
  | String a "" =>
      match hex_value a with
      | None => ("", Some (error_New "encoding/hex: invalid byte"))
      | Some _ => ("", Some (error_New "encoding/hex: odd length hex string"))
      end
  | String a (String b s') =>
      match hex_value a, hex_value b with
      | Some x, Some y =>
          let (r, e) := hex_DecodeString s' in (String (ascii_of_nat (16 * x + y)) r, e)
      | _, _ => ("", Some (error_New "encoding/hex: invalid byte"))
      end
  end.

Lemma hex_byte_roundtrip (a : ascii) :
  hex_value (hex_digit (nat_of_ascii a / 16)) = Some (nat_of_ascii a / 16)
  ∧ hex_value (hex_digit (nat_of_ascii a mod 16)) = Some (nat_of_ascii a mod 16)
  ∧ ascii_of_nat (16 * (nat_of_ascii a / 16) + nat_of_ascii a mod 16) = a.
Proof. by destruct a as [[] [] [] [] [] [] [] []]. Qed.

Lemma hex_decode_encode (s : bytes) : hex_DecodeString (hex_EncodeToString s) = (s, None).
Proof.
  induction s as [|a s IH]; [done|]. cbn [hex_EncodeToString hex_DecodeString].
  destruct (hex_byte_roundtrip a) as (-> & -> & Ha). by rewrite IH, Ha.
Qed.

Lemma hex_encode_inj s t : hex_EncodeToString s = hex_EncodeToString t → s = t.
Proof.
  intros H. pose proof (hex_decode_encode s) as Hs. rewrite H, hex_decode_encode in Hs.
  naive_solver.
Qed.

(** ** Package encoding/base64, [StdEncoding] *)

(** Six bits, most significant first. *)
Inductive sextet := Sx (b5 b4 b3 b2 b1 b0 : bool).

Definition bit (b : bool) (w : nat) : nat := if b then w else 0.

Definition sextet_val (x : sextet) : nat :=
  let '(Sx b5 b4 b3 b2 b1 b0) := x in
  bit b5 32 + bit b4 16 + bit b3 8 + bit b2 4 + bit b1 2 + bit b0 1.

Definition sextet_of (n : nat) : sextet :=
  Sx (Nat.testbit n 5) (Nat.testbit n 4) (Nat.testbit n 3)
     (Nat.testbit n 2) (Nat.testbit n 1) (Nat.testbit n 0).

(** The alphabet A-Z a-z 0-9 + / *)
Definition b64_char (x : sextet) : ascii :=
  let n := sextet_val x in
  ascii_of_nat (if n <? 26 then 65 + n else if n <? 52 then 71 + n
                else if n <? 62 then n - 4 else if n =? 62 then 43 else 47).

Definition b64_value (c : ascii) : option sextet :=
  let n := nat_of_ascii c in
  if (65 <=? n) && (n <=? 90) then Some (sextet_of (n - 65))
  else if (97 <=? n) && (n <=? 122) then Some (sextet_of (n - 71))
  else if (48 <=? n) && (n <=? 57) then Some (sextet_of (n + 4))
  else if n =? 43 then Some (sextet_of 62)
  else if n =? 47 then Some (sextet_of 63)
  else None.

Definition b64_pad : ascii := "="%char.

(** The four sextets of three bytes and back; [ascii] is least significant
    bit first. *)
Definition sx1 (a : ascii) : sextet :=
  let '(Ascii _ _ a2 a3 a4 a5 a6 a7) := a in Sx a7 a6 a5 a4 a3 a2.
Definition sx2 (a b : ascii) : sextet :=
  let '(Ascii a0 a1 _ _ _ _ _ _) := a in
  let '(Ascii _ _ _ _ b4 b5 b6 b7) := b in Sx a1 a0 b7 b6 b5 b4.
Definition sx3 (b c : ascii) : sextet :=
  let '(Ascii b0 b1 b2 b3 _ _ _ _) := b in
  let '(Ascii _ _ _ _ _ _ c6 c7) := c in Sx b3 b2 b1 b0 c7 c6.
Definition sx4 (c : ascii) : sextet :=
  let '(Ascii c0 c1 c2 c3 c4 c5 _ _) := c in Sx c5 c4 c3 c2 c1 c0.

Definition by1 (x y : sextet) : ascii :=
  let '(Sx x5 x4 x3 x2 x1 x0) := x in
  let '(Sx y5 y4 _ _ _ _) := y in Ascii y4 y5 x0 x1 x2 x3 x4 x5.
Definition by2 (y z : sextet) : ascii :=
  let '(Sx _ _ y3 y2 y1 y0) := y in
  let '(Sx z5 z4 z3 z2 _ _) := z in Ascii z2 z3 z4 z5 y0 y1 y2 y3.
Definition by3 (z w : sextet) : ascii :=
  let '(Sx _ _ _ _ z1 z0) := z in
  let '(Sx w5 w4 w3 w2 w1 w0) := w in Ascii w0 w1 w2 w3 w4 w5 z0 z1.

Fixpoint b64_encode (l : list ascii) : list ascii :=
  match l with
  | [] => []
  | [a] => [b64_char (sx1 a); b64_char (sx2 a zero); b64_pad; b64_pad]
  | [a; b] => [b64_char (sx1 a); b64_char (sx2 a b); b64_char (sx3 b zero); b64_pad]
  | a :: b :: c :: r =>
      b64_char (sx1 a) :: b64_char (sx2 a b) :: b64_char (sx3 b c) :: b64_char (sx4 c)
      :: b64_encode r
  end.

Fixpoint b64_decode (l : list ascii) : option (list ascii) :=
  match l with
  | [] => Some []
  | a :: b :: c :: d :: r =>
      x ← b64_value a; y ← b64_value b;
      if decide (c = b64_pad) then
        if decide (d = b64_pad ∧ r = []) then Some [by1 x y] else None
      else
        z ← b64_value c;
        if decide (d = b64_pad) then
          if decide (r = []) then Some [by1 x y; by2 y z] else None
        else
          w ← b64_value d; rest ← b64_decode r;
          Some (by1 x y :: by2 y z :: by3 z w :: rest)
  | _ => None
  end.

(** Carriage returns and line feeds are skipped by the decoder. *)
Definition is_newline (c : ascii) : bool :=
  let n := nat_of_ascii c in (n =? 10) || (n =? 13).

Definition base64_EncodeToString (s : bytes) : string :=
  String.string_of_list_ascii (b64_encode (String.list_ascii_of_string s)).

(** The offset of the offending byte is left out of the message. *)
Definition base64_DecodeString (s : string) : res bytes :=
  match b64_decode (filter (λ c, is_newline c = false) (String.list_ascii_of_string s)) with
  | Some l => Ok (String.string_of_list_ascii l)
  | None => Err (error_New "illegal base64 data at input byte")
  end.

Lemma b64_value_char x : b64_value (b64_char x) = Some x.
Proof. by destruct x as [[] [] [] [] [] []]. Qed.

Lemma b64_char_ne_pad x : b64_char x ≠ b64_pad.
Proof. by destruct x as [[] [] [] [] [] []]. Qed.

Lemma b64_char_not_newline x : is_newline (b64_char x) = false.
Proof. by destruct x as [[] [] [] [] [] []]. Qed.

Lemma by1_sx a b : by1 (sx1 a) (sx2 a b) = a.
Proof. by destruct a, b. Qed.
Lemma by2_sx a b c : by2 (sx2 a b) (sx3 b c) = b.
Proof. by destruct a, b, c. Qed.
Lemma by3_sx b c : by3 (sx3 b c) (sx4 c) = c.
Proof. by destruct b, c. Qed.

(** Induction on a list three elements at a time. *)
Lemma list_ind3 {A} (P : list A → Prop) :
  P [] → (∀ a, P [a]) → (∀ a b, P [a; b]) →
  (∀ a b c l, P l → P (a :: b :: c :: l)) → ∀ l, P l.
Proof.
  intros H0 H1 H2 H3. fix IH 1.
  intros [|a [|b [|c l]]]; [exact H0|apply H1|apply H2|apply H3, IH].
Qed.

Lemma b64_decode_encode l : b64_decode (b64_encode l) = Some l.
Proof.
  induction l as [|a|a b|a b c l IH] using list_ind3; [done| | |];
    cbn [b64_encode b64_decode];
    rewrite ?b64_value_char; cbn;
    rewrite ?(decide_False (P := b64_char _ = b64_pad)) by apply b64_char_ne_pad;
    rewrite ?b64_value_char; cbn.
  - by rewrite by1_sx.
  - by rewrite by1_sx, by2_sx.
  - rewrite IH. cbn. by rewrite by1_sx, by2_sx, by3_sx.
Qed.

Lemma b64_encode_no_newline l :
  filter (λ c, is_newline c = false) (b64_encode l) = b64_encode l.
Proof.
  induction l as [|a|a b|a b c l IH] using list_ind3; [done| | |]; cbn [b64_encode];
    repeat rewrite filter_cons_True by (apply b64_char_not_newline || done); try done.
  by rewrite IH.
Qed.

(** Every encoded byte string decodes to itself. *)
Lemma base64_decode_encode (s : bytes) :
  base64_DecodeString (base64_EncodeToString s) = Ok s.
Proof.
  unfold base64_DecodeString, base64_EncodeToString.
  rewrite String.list_ascii_of_string_of_list_ascii, b64_encode_no_newline, b64_decode_encode.
  by rewrite String.string_of_list_ascii_of_string.
Qed.

Lemma base64_encode_empty (s : bytes) : base64_EncodeToString s = "" ↔ s = "".
Proof.
  split; [|by intros ->]. intros H. pose proof (base64_decode_encode s) as Hs.
  rewrite H in Hs. cbn in Hs. by injection Hs.
Qed.

Lemma base64_encode_inj s t : base64_EncodeToString s = base64_EncodeToString t → s = t.
Proof.
  intros H. pose proof (base64_decode_encode s) as Hs. rewrite H, base64_decode_encode in Hs.
  by injection Hs.
Qed.

Example base64_man : base64_EncodeToString "Man!" = "TWFuIQ==".
Proof. reflexivity. Qed.

(** A separator that neither part contains splits a string in one way. *)
Lemma append_sep_inj (c : ascii) a a' x x' :
  strings_Count a c = 0 → strings_Count a' c = 0 →
  a +:+ String c x = a' +:+ String c x' → a = a' ∧ x = x'.
Proof.
  revert a'. induction a as [|d a IH]; intros [|d' a'] Ha Ha' H; cbn in *.
  - by simplify_eq.
  - repeat case_decide; simplify_eq; lia.
  - repeat case_decide; simplify_eq; lia.
  - injection H as -> H. destruct (IH a' ltac:(lia) ltac:(lia) H) as [-> ->]. done.
Qed.

(** ** strings.ToLower, strconv.ParseBool, filepath.Join *)

Definition lower_ascii (c : ascii) : ascii :=
  let n := nat_of_ascii c in
  if (65 <=? n)%nat && (n <=? 90)%nat then ascii_of_nat (n + 32) else c.

Fixpoint string_map (f : ascii → ascii) (s : string) : string :=
  match s with EmptyString => "" | String c s => String (f c) (string_map f s) end.

Fixpoint is_ASCII (s : string) : bool :=
  match s with
  | EmptyString => true
  | String c s => (nat_of_ascii c <? 128)%nat && is_ASCII s
  end.

(** Go maps an ASCII string byte by byte; otherwise it maps runes, which is
    left to [unicode_lower]. *)
Definition strings_ToLower (unicode_lower : string → string) (s : string) : string :=
  if is_ASCII s then string_map lower_ascii s else unicode_lower s.

Definition strconv_ParseBool (s : string) : option bool :=
  if bool_decide (s ∈ ["1"; "t"; "T"; "TRUE"; "true"; "True"]) then Some true
  else if bool_decide (s ∈ ["0"; "f"; "F"; "FALSE"; "false"; "False"]) then Some false
  else None.

(** One component of a slash-separated path; [stack] is the reversed output. *)
Definition clean_step (rooted : bool) (stack : list string) (c : string) : list string :=
  if (c =?s "") || (c =?s ".") then stack
  else if c =?s ".." then
    match stack with
    | [] => if rooted then [] else [".."]
    | top :: rest => if top =?s ".." then ".." :: stack else rest
    end
  else c :: stack.

Definition filepath_Clean (p : string) : string :=
  let rooted := strings_HasPrefix p "/" in
  let out := strings_Join (rev (foldl (clean_step rooted) [] (strings_Split p "/"%char))) "/" in
  if rooted then "/" +:+ out else if out =?s "" then "." else out.

Definition filepath_Join (elem : list string) : string :=
  match filter (λ e, e ≠ "") elem with
  | [] => ""
  | es => filepath_Clean (strings_Join es "/")
  end.

Example filepath_Join_ex : filepath_Join ["/a/b/"; ""; "../c"; "./d"] = "/a/c/d".
Proof. reflexivity. Qed.

(** bytes.ReplaceAll(b, "\r\n", "\n") *)
Fixpoint replace_crlf (s : string) : string :=
  match s with
  | EmptyString => ""
  | String c s' =>
      match s' with
      | String d s'' =>
          if bool_decide (c = "013"%char) && bool_decide (d = "010"%char)
          then String d (replace_crlf s'') else String c (replace_crlf s')
      | EmptyString => String c ""
      end
  end.

(** ** strings.TrimSpace and filepath.Ext *)

Definition is_space (c : ascii) : bool :=
  let n := nat_of_ascii c in (n =? 32)%nat || ((9 <=? n)%nat && (n <=? 13)%nat).
Fixpoint trim_left (s : string) : string :=
  match s with
  | String c s' => if is_space c then trim_left s' else s
  | "" => ""
  end.
(** The end of a string without its spaces. *)
Fixpoint trim_right (s : string) : string :=
  match s with
  | String c s' =>
      match trim_right s' with
      | "" => if is_space c then "" else String c ""
      | t => String c t
      end
  | "" => ""
  end.
(** Other spaces of Unicode are the business of [unicode_trim]. *)
Definition strings_TrimSpace (unicode_trim : string → string) (s : string) : string :=
  if is_ASCII s then trim_right (trim_left s) else unicode_trim s.

(** From the last dot of the last element on. *)
Fixpoint ext_loop (s acc : string) : string :=
  match s with
  | "" => acc
  | String c s' =>
      if Ascii.eqb c "/"%char then ext_loop s' ""
      else if Ascii.eqb c "."%char then ext_loop s' s
      else ext_loop s' acc
  end.
Definition filepath_Ext (path : string) : string := ext_loop path "".

(** ** strings.Fields, strings.EqualFold and os.Expand *)

(** The words of an ASCII string; [w] is the word being read, reversed. *)
Fixpoint fields_loop (s w : string) : list string :=
  match s with
  | "" => if w =?s "" then [] else [w]
  | String c s' =>
      if is_space c then (if w =?s "" then fields_loop s' "" else w :: fields_loop s' "")
      else fields_loop s' (w +:+ String c "")
  end.
Definition strings_Fields (unicode_fields : string → list string) (s : string) : list string :=
  if is_ASCII s then fields_loop s "" else unicode_fields s.

(** strings.EqualFold(s, t) for an ASCII [t]: apart from case, the long s
    (U+017F) folds to "s" and the Kelvin sign (U+212A) to "k". *)
Fixpoint fold_case (s : string) : string :=
  match s with
  | "" => ""
  | String c s1 =>
      match s1 with
      | String d s2 =>
          if bool_decide (c = "197"%char) && bool_decide (d = "191"%char) then String "s" (fold_case s2)
          else match s2 with
               | String e s3 =>
                   if bool_decide (c = "226"%char) && bool_decide (d = "132"%char)
                      && bool_decide (e = "170"%char)
                   then String "k" (fold_case s3) else String (lower_ascii c) (fold_case s1)
               | "" => String (lower_ascii c) (fold_case s1)
               end
      | "" => String (lower_ascii c) ""
      end
  end.
Definition strings_EqualFold (s t : string) : bool := fold_case s =?s fold_case t.

Definition is_digit_ascii (c : ascii) : bool :=
  let n := nat_of_ascii c in (48 <=? n)%nat && (n <=? 57)%nat.
Definition isShellSpecialVar (c : ascii) : bool :=
  bool_decide (c ∈ ["*"; "#"; "$"; "@"; "!"; "?"; "-"]%char) || is_digit_ascii c.
Definition isAlphaNum (c : ascii) : bool :=
  let n := nat_of_ascii c in
  bool_decide (c = "_"%char) || is_digit_ascii c
  || ((97 <=? n)%nat && (n <=? 122)%nat) || ((65 <=? n)%nat && (n <=? 90)%nat).

(** The text before a closing brace. *)
Fixpoint to_brace (s : string) : option string :=
  match s with
  | "" => None
  | String c s' => if Ascii.eqb c "}"%char then Some "" else String c <$> to_brace s'
  end.
Fixpoint alphanums (s : string) : string :=
  match s with
  | String c s' => if isAlphaNum c then String c (alphanums s') else ""
  | "" => ""
  end.

(** The name that begins a non-empty string, and the bytes it takes. *)
Definition getShellName (s : string) : string * nat :=
  match s with
  | String "{" s' =>
      match s' with
      | String c (String "}" _) =>
          if isShellSpecialVar c then (String c "", 3)
          else match to_brace s' with
               | Some "" => ("", 2)
               | Some name => (name, String.length name + 2)
               | None => ("", 1)
               end
      | _ => match to_brace s' with
             | Some "" => ("", 2)
             | Some name => (name, String.length name + 2)
             | None => ("", 1)
             end
      end
  | String c _ =>
      if isShellSpecialVar c then (String c "", 1)
      else let name := alphanums s in (name, String.length name)
  | "" => ("", 0)
  end.

(** [skip] counts the bytes of a name that was replaced. *)
Fixpoint expand_loop (mapping : string → string) (skip : nat) (s : string) : string :=
  match s with
  | "" => ""
  | String c s' =>
      match skip with
      | S skip => expand_loop mapping skip s'
      | 0 =>
          if Ascii.eqb c "$"%char && negb (s' =?s "") then
            let '(name, w) := getShellName s' in
            (if name =?s "" then (if (0 <? w)%nat then "" else String c "") else mapping name)
              +:+ expand_loop mapping w s'
          else String c (expand_loop mapping 0 s')
      end
  end.
Definition os_Expand (mapping : string → string) (s : string) : string := expand_loop mapping 0 s.

Example os_Expand_ex :
  os_Expand (λ n, "<" +:+ n +:+ ">") "a $b-${c d}$$x${}$ ${1}%$" = "a <b>-<c d><$>x$ <1>%$".
Proof. reflexivity. Qed.
Example strings_EqualFold_ex : strings_EqualFold "aS" "AS" = true.
Proof. reflexivity. Qed.
Example strings_Fields_ex : strings_Fields (λ s, [s]) " FROM  a AS b " = ["FROM"; "a"; "AS"; "b"].
Proof. reflexivity. Qed.

Lemma is_ASCII_append s t : is_ASCII (s +:+ t) = is_ASCII s && is_ASCII t.
Proof. induction s as [|c s IH]; cbn; [done|]. by rewrite IH, andb_assoc. Qed.

(** Words are non-empty and have no spaces. *)
Fixpoint no_space (s : string) : bool :=
  match s with "" => true | String c s => negb (is_space c) && no_space s end.
Definition word (w : string) : Prop := w ≠ "" ∧ no_space w = true.

Lemma fields_loop_word w acc rest :
  no_space w = true → fields_loop (w +:+ rest) acc = fields_loop rest (acc +:+ w).
Proof.
  induction w as [|c w IH] in acc |- *; cbn; intros H.
  - f_equal. induction acc; cbn; congruence.
  - apply andb_true_iff in H as [Hc H]. apply negb_true_iff in Hc. rewrite Hc, IH by done.
    f_equal. induction acc; cbn; congruence.
Qed.

Lemma fields_loop_Join ws :
  Forall word ws → fields_loop (strings_Join ws " ") "" = ws.
Proof.
  induction 1 as [|w ws [Hw Hs] Hws IH]; [done|].
  assert (Hne : (w =?s "") = false) by by apply str_eqb_neq.
  destruct ws as [|w' ws].
  - cbn. rewrite <-(append_nil_r w) at 1. rewrite fields_loop_word by done. cbn. by rewrite Hne.
  - change (strings_Join (w :: w' :: ws) " ") with (w +:+ " " +:+ strings_Join (w' :: ws) " ").
    rewrite fields_loop_word by done. cbn [fields_loop String.append]. cbn [is_space]. rewrite Hne.
    by rewrite IH.
Qed.

Lemma expand_plain mapping s : strings_Count s "$" = 0 → os_Expand mapping s = s.
Proof.
  unfold os_Expand. induction s as [|c s IH]; cbn; [done|]. case_decide as Hc; [done|]. intros Hs.
  destruct (Ascii.eqb_spec c "$"%char); [done|]. cbn. by rewrite IH.
Qed.
