(* ===== verification/GoUrl.v ===== *)
(** * net/url and strconv, as far as the sources use them

    [url.Parse] of opaque URLs, [url.ParseQuery], [url.QueryUnescape],
    [strconv.Atoi] and the decimal form of an int. *)
From S2P Require Import Prelude GoStd.

(** ** strconv *)

Definition int_min : Z := (- 2 ^ 63)%Z.
Definition int_max : Z := (2 ^ 63 - 1)%Z.

Definition dec_value (c : ascii) : option Z :=
  let n := nat_of_ascii c in
  if (48 <=? n)%nat && (n <=? 57)%nat then Some (Z.of_nat n - 48)%Z else None.

Fixpoint dec_loop (s : string) (acc : Z) : option Z :=
  match s with
  | "" => Some acc
  | String c s' => d ← dec_value c; dec_loop s' (acc * 10 + d)%Z
  end.

(** An optional sign, then at least one digit; the value must be an int. *)
Definition strconv_Atoi (s : string) : res Z :=
  let '(neg, ds) := match s with
                    | String "-" s' => (true, s')
                    | String "+" s' => (false, s')
                    | _ => (false, s)
                    end in
  if ds =?s "" then Err (error_New "invalid syntax") else
  match dec_loop ds 0 with
  | None => Err (error_New "invalid syntax")
  | Some n =>
      let v := if neg : bool then (- n)%Z else n in
      if bool_decide (int_min ≤ v ≤ int_max)%Z then Ok v
      else Err (error_New "value out of range")
  end.

Definition dec_digit (d : Z) : ascii := ascii_of_nat (Z.to_nat (48 + d)).

(** The digits of [n] before [acc]. *)
Fixpoint dec_print (fuel : nat) (n : Z) (acc : string) : string :=
  match fuel with
  | 0 => acc
  | S fuel =>
      let acc := String (dec_digit (n mod 10)) acc in
      if bool_decide (n < 10)%Z then acc else dec_print fuel (n / 10) acc
  end.

(** fmt.Sprintf("%d", z): an int has at most 19 digits. *)
Definition strconv_Itoa (z : Z) : string :=
  if bool_decide (z < 0)%Z then "-" +:+ dec_print 20 (- z) "" else dec_print 20 z "".

Lemma dec_digit_value d : (0 ≤ d < 10)%Z → dec_value (dec_digit d) = Some d.
Proof.
  intros Hd. assert (d ∈ [0;1;2;3;4;5;6;7;8;9]%Z) as Hin by (rewrite !elem_of_cons; lia).
  repeat (apply elem_of_cons in Hin as [->|Hin]; [done|]). by apply elem_of_nil in Hin.
Qed.

Lemma dec_print_loop fuel : ∀ n acc, (0 ≤ n < 10 ^ Z.of_nat fuel)%Z → 0 < fuel →
  dec_loop (dec_print fuel n acc) 0 = dec_loop acc n.
Proof.
  induction fuel as [|fuel IH]; intros n acc Hn Hf; [lia|]. cbn [dec_print].
  case_bool_decide as Hlt.
  - cbn [dec_loop]. rewrite Z.mod_small by lia. rewrite dec_digit_value by lia. done.
  - destruct fuel as [|fuel]; [cbn in Hn; lia|]. rewrite IH; [|split; [apply Z.div_pos; lia|]|lia].
    + cbn [dec_loop]. rewrite dec_digit_value by (apply Z.mod_pos_bound; lia). cbn [mbind option_bind].
      f_equal. pose proof (Z.div_mod n 10). lia.
    + apply Z.div_lt_upper_bound; [lia|].
      replace (Z.of_nat (S (S fuel))) with (Z.succ (Z.of_nat (S fuel))) in Hn by lia.
      rewrite Z.pow_succ_r in Hn by lia. lia.
Qed.

(** A printed number starts with a digit. *)
Lemma dec_print_head fuel : ∀ n acc, (0 ≤ n)%Z → 0 < fuel →
  ∃ d s, (0 ≤ d < 10)%Z ∧ dec_print fuel n acc = String (dec_digit d) s.
Proof.
  induction fuel as [|fuel IH]; intros n acc Hn Hf; [lia|]. cbn [dec_print].
  case_bool_decide; [eexists _, _; split; [|done]; apply Z.mod_pos_bound; lia|].
  destruct fuel as [|fuel]; [cbn; eexists _, _; split; [|done]; apply Z.mod_pos_bound; lia|].
  apply IH; [apply Z.div_pos; lia|lia].
Qed.

Lemma atoi_digit d s : (0 ≤ d < 10)%Z →
  strconv_Atoi (String (dec_digit d) s)
  = match dec_loop (String (dec_digit d) s) 0 with
    | None => Err (error_New "invalid syntax")
    | Some n => if bool_decide (int_min ≤ n ≤ int_max)%Z then Ok n
                else Err (error_New "value out of range")
    end.
Proof.
  intros Hd. assert (d ∈ [0;1;2;3;4;5;6;7;8;9]%Z) as Hin by (rewrite !elem_of_cons; lia).
  repeat (apply elem_of_cons in Hin as [->|Hin]; [done|]). by apply elem_of_nil in Hin.
Qed.

Lemma atoi_itoa z : (int_min ≤ z ≤ int_max)%Z → strconv_Atoi (strconv_Itoa z) = Ok z.
Proof.
  intros Hz. assert (Hb : (Z.abs z < 10 ^ Z.of_nat 20)%Z) by (unfold int_min, int_max in Hz; lia).
  unfold strconv_Itoa. case_bool_decide as Hs.
  - destruct (dec_print_head 20 (- z) "") as (d & s & Hd & He); [lia|lia|].
    assert (Hp : dec_loop (dec_print 20 (- z) "") 0 = Some (- z)%Z) by (by rewrite dec_print_loop by lia).
    unfold strconv_Atoi. cbn [String.append]. rewrite He in *.
    change (String (dec_digit d) s =?s "") with false. rewrite Hp, Z.opp_involutive.
    by rewrite bool_decide_true.
  - destruct (dec_print_head 20 z "") as (d & s & Hd & He); [lia|lia|].
    assert (Hp : dec_loop (dec_print 20 z "") 0 = Some z) by (by rewrite dec_print_loop by lia).
    rewrite He in *. rewrite atoi_digit, Hp by done. by rewrite bool_decide_true.
Qed.

Lemma atoi_bounds s z : strconv_Atoi s = Ok z → (int_min ≤ z ≤ int_max)%Z.
Proof.
  unfold strconv_Atoi. intros H. repeat case_match; simplify_eq/=;
    match goal with H : bool_decide _ = true |- _ => by apply bool_decide_eq_true in H end.
Qed.

(** ** net/url *)

(** Unescaping: in a query a plus sign is a space. *)
Fixpoint unescape (query : bool) (s : string) : res string :=
  match s with
  | "" => Ok ""
  | String "%" s' =>
      match s' with
      | String a (String b s'') =>
          match hex_value a, hex_value b with
          | Some x, Some y => r ← unescape query s''; Ok (String (ascii_of_nat (16 * x + y)) r)
          | _, _ => Err (error_New "invalid URL escape")
          end
      | _ => Err (error_New "invalid URL escape")
      end
  | String c s' =>
      r ← unescape query s';
      Ok (String (if query && Ascii.eqb c "+" then " "%char else c) r)
  end.
Definition url_QueryUnescape : string → res string := unescape true.

(** [url.Values] *)
Definition Values := gmap string (list string).
Definition Values_Get (v : Values) (key : string) : string :=
  match v !! key with Some (x :: _) => x | _ => "" end.

(** The pairs of a query, the first error kept beside them. *)
Fixpoint query_loop (segments : list string) (m : Values) (err : option error) :
    Values * option error :=
  match segments with
  | [] => (m, err)
  | seg :: segments' =>
      let fail e := query_loop segments' m (match err with None => Some e | _ => err end) in
      if strings_Contains seg ";" then fail (error_New "invalid semicolon separator in query")
      else if seg =?s "" then query_loop segments' m err
      else
        let '(key, value) := match strings_SplitN2 seg "="%char with
                             | [k; v] => (k, v)
                             | _ => (seg, "")
                             end in
        match url_QueryUnescape key, url_QueryUnescape value with
        | Ok k, Ok v => query_loop segments' (map_append k [v] m) err
        | Err e, _ | Ok _, Err e => fail e
        | _, _ => fail (error_New "unreachable")           (* unescaping does not panic *)
        end
  end.
Definition url_ParseQuery (query : string) : res Values :=
  match query_loop (strings_Split query "&"%char) ∅ None with
  | (m, None) => Ok m
  | (_, Some e) => Err e
  end.

Record URL := mkURL { u_Scheme : string; u_Opaque : string; u_RawQuery : string }.

Definition is_letter (c : ascii) : bool :=
  let n := nat_of_ascii c in
  ((65 <=? n) && (n <=? 90))%nat || ((97 <=? n) && (n <=? 122))%nat.
Definition is_ctl (c : ascii) : bool :=
  let n := nat_of_ascii c in (n <? 32)%nat || (n =? 127)%nat.
Fixpoint has_ctl (s : string) : bool :=
  match s with "" => false | String c s' => is_ctl c || has_ctl s' end.

(** The scheme and the rest; [None] without a scheme. *)
Fixpoint getScheme (first : bool) (s : string) : res (option (string * string)) :=
  match s with
  | "" => Ok None
  | String c s' =>
      let next := r ← getScheme false s';
                  Ok (match r with Some (sch, rest) => Some (String c sch, rest) | None => None end) in
      if is_letter c then next
      else if bool_decide (is_Some (dec_value c)) || Ascii.eqb c "+" || Ascii.eqb c "-" || Ascii.eqb c "." then
        if first then Ok None else next
      else if Ascii.eqb c ":" then
        if first then Err (error_New "missing protocol scheme") else Ok (Some ("", s'))
      else Ok None
  end.

Definition cut_char (s : string) (c : ascii) : string * string :=
  match strings_SplitN2 s c with [a; b] => (a, b) | _ => (s, "") end.

(** [url.Parse].  URLs that are not opaque also have an authority and a path,
    which [hierarchical] checks. *)
Definition url_Parse (hierarchical : string → res unit) (rawURL : string) : res URL :=
  let '(u, frag) := cut_char rawURL "#"%char in
  if has_ctl u then Err (error_New "invalid control character in URL") else
  sch ← getScheme true u;
  url ← match sch with
        | Some (scheme, rest) =>
            let '(rest, query) := cut_char rest "?"%char in
            if strings_HasPrefix rest "/"
            then hierarchical rest;; Ok (mkURL (string_map lower_ascii scheme) "" query)
            else Ok (mkURL (string_map lower_ascii scheme) rest query)
        | None => hierarchical u;; Ok (mkURL "" "" "")
        end;
  _ ← unescape false frag;
  Ok url.

(** Segments joined by a character are split again. *)
Lemma Split_Join l c :
  l ≠ [] → Forall (λ s, strings_Count s c = 0) l → strings_Split (strings_Join l (String c "")) c = l.
Proof.
  intros Hne Hf. induction Hf as [|s l Hs Hf IH]; [done|]. destruct l as [|s' l].
  - by apply Split_no_sep.
  - change (strings_Join (s :: s' :: l) (String c "")) with (s +:+ (String c "" +:+ strings_Join (s' :: l) (String c ""))).
    cbn [String.append]. rewrite Split_append by done. by rewrite IH.
Qed.

Lemma SplitN2_append s t c : strings_Count s c = 0 → strings_SplitN2 (s +:+ String c t) c = [s; t].
Proof.
  induction s as [|a s IH]; cbn.
  - intros _. by rewrite decide_True.
  - case_decide; [done|]. intros H'. by rewrite IH.
Qed.

Lemma SplitN2_no_sep s c : strings_Count s c = 0 → strings_SplitN2 s c = [s].
Proof. induction s as [|a s IH]; cbn; [done|]. case_decide; [done|]. intros Hc. by rewrite IH. Qed.

Lemma cut_char_append s t c : strings_Count s c = 0 → cut_char (s +:+ String c t) c = (s, t).
Proof. intros H. unfold cut_char. by rewrite SplitN2_append. Qed.

Lemma cut_char_no_sep s c : strings_Count s c = 0 → cut_char s c = (s, "").
Proof. intros H. unfold cut_char. by rewrite SplitN2_no_sep. Qed.

Lemma unescape_percent q a s : unescape q ("%" +:+ hex_EncodeToString (String a "") +:+ s)
  = (r ← unescape q s; Ok (String a r)).
Proof.
  cbn [String.append hex_EncodeToString unescape].
  destruct (hex_byte_roundtrip a) as (-> & -> & Ha). by rewrite Ha.
Qed.
