(* ===== verification/External.v ===== *)
(** * Values and calls of code outside the repository

    Types of crypto/x509, ggcr (go-containerregistry), sigstore, rekor, in-toto
    and dsse with the fields the sources read, and one class [Ext] with a
    member per external call.  Every component is parametric in [Ext]: nothing
    is assumed of a member unless a theorem names it as a hypothesis. *)
From S2P Require Import Prelude GoStd.

(** ** Dynamic values ([interface{}] holding decoded JSON) *)

Inductive any :=
  | any_nil
  | any_bool (b : bool)
  | any_number (n : Z)
  | any_string (s : string)
  | any_slice (json : string)
  | any_map (json : string).
#[global] Instance any_eq_dec : EqDecision any.
Proof. solve_decision. Defined.

(** [v.(string)] *)
Definition as_string (v : any) : res string :=
  match v with any_string s => Ok s | _ => Panic "interface conversion" end.

(** [a != b] on interfaces: comparing two slices or two maps panics. *)
Definition any_neq (a b : any) : res bool :=
  match a, b with
  | any_slice _, any_slice _ | any_map _, any_map _ => Panic "comparing uncomparable type"
  | _, _ => Ok (bool_decide (a ≠ b))
  end.

Lemma as_string_Ok v s : as_string v = Ok s ↔ v = any_string s.
Proof. destruct v; cbn; naive_solver. Qed.
#[export] Hint Rewrite as_string_Ok : go.

(** ** crypto *)

Inductive PublicKey :=
  | ecdsa_PublicKey (der : bytes)
  | rsa_PublicKey (der : bytes)
  | ed25519_PublicKey (der : bytes)
  | other_PublicKey (goType : string).      (* a value that is not a public key *)
#[global] Instance PublicKey_eq_dec : EqDecision PublicKey.
Proof. solve_decision. Defined.

(** [x509.Certificate]; IP addresses and URIs are given by their [String()]
    and an extension by the dotted form of its object identifier. *)
Record Certificate := mkCertificate {
  cert_Raw : bytes;
  cert_PublicKey : PublicKey;
  cert_DNSNames : list string;
  cert_EmailAddresses : list string;
  cert_IPAddresses : list string;
  cert_URIs : list string;
  cert_Extensions : list (string * bytes);
  cert_NotBefore : Z;
  cert_NotAfter : Z;
  cert_RawSubject : bytes;
  cert_RawIssuer : bytes }.
#[global] Instance Certificate_eq_dec : EqDecision Certificate.
Proof. solve_decision. Defined.

(** [*x509.CertPool]: nil, or the certificates added to it. *)
Definition CertPool := option (list Certificate).

Record VerifyOptions := mkVerifyOptions {
  vo_CurrentTime : Z;
  vo_Roots : CertPool;
  vo_Intermediates : CertPool;
  vo_KeyUsages : list string }.

(** sigstore's [signature.Verifier] *)
Record Verifier := mkVerifier {
  VerifySignature : bytes → bytes → res unit;   (* signature, message *)
  Verifier_PublicKey : res PublicKey }.

(** sigstore's [signature.SignerVerifier] *)
Record SignerVerifier := mkSignerVerifier {
  SignMessage : bytes → res bytes;
  sv_Verifier : Verifier }.

(** crypto.Signer *)
Record CryptoSigner := mkCryptoSigner {
  cs_Public : PublicKey;
  cs_Sign : bytes → res bytes }.

(** ** ggcr *)

Record Hash := mkHash { Algorithm : string; Hex : string }.
#[global] Instance Hash_eq_dec : EqDecision Hash.
Proof. solve_decision. Defined.
Definition Hash_String (h : Hash) : string := Algorithm h +:+ ":" +:+ Hex h.

Record Descriptor := mkDescriptor {
  desc_MediaType : string;
  desc_Digest : Hash;
  desc_Annotations : gmap string string;
  desc_Platform : option (string * string) }.
#[global] Instance Descriptor_eq_dec : EqDecision Descriptor.
Proof. solve_decision. Defined.

(** ** rekor *)

Record InclusionProof := mkInclusionProof {
  ip_Hashes : list string;
  ip_RootHash : option string;
  ip_LogIndex : option Z;
  ip_TreeSize : option Z }.

Record LogEntryVerification := mkLogEntryVerification {
  lev_InclusionProof : option InclusionProof;
  lev_SignedEntryTimestamp : bytes }.

Record LogEntryAnon := mkLogEntryAnon {
  le_Body : any;
  le_IntegratedTime : option Z;
  le_LogIndex : option Z;
  le_LogID : option string;
  le_Verification : option LogEntryVerification }.

(** [Data.Hash.{Algorithm,Value}], pointers all the way. *)
Record DataHash := mkDataHash { dh_Algorithm : option string; dh_Value : option string }.

(** [models.RekordV001Schema] and [models.HashedrekordV001Schema]: [Data] and
    its [Hash] are pointers; the signature is given by its content and the
    content of its public key. *)
Record RekordSchema := mkRekordSchema {
  rs_Data : option (option DataHash);
  rs_Signature : option (bytes * bytes) }.

(** [models.IntotoV001Schema] *)
Record IntotoSchema := mkIntotoSchema {
  is_Content : option (string * option DataHash);   (* envelope, hash *)
  is_PublicKey : option bytes }.

Inductive ProposedEntry :=
  | pe_Hashedrekord (spec : RekordSchema)
  | pe_Intoto (spec : IntotoSchema).

(** The rekor client.  A [map[string]LogEntryAnon] payload is listed in the
    order in which Go's [range] visits it. *)
Record Rekor := mkRekor {
  CreateLogEntry : ProposedEntry → res (list (string * LogEntryAnon));
  GetLogEntryByUUID : string → res (list (string * LogEntryAnon));
  SearchLogQuery : list ProposedEntry → res (list (list (string * LogEntryAnon)));
  SearchIndex : string → res (list string);
  GetPublicKey : res string }.

(** ** dsse, in-toto, simple signing *)

Record Envelope := mkEnvelope {
  env_PayloadType : string;
  env_Payload : string;
  env_Signatures : list (string * string) }.   (* keyid, sig *)

Record Subject := mkSubject { subj_Name : string; subj_Digest : gmap string string }.

Record Statement := mkStatement {
  st_Type : string;
  st_PredicateType : string;
  st_Subject : list Subject;
  st_Predicate : any }.

Record SimpleContainerImage := mkSimpleContainerImage {
  sci_DockerManifestDigest : string;
  sci_Optional : gmap string any }.

(** ** Rekor bundle (pkg/cosign/bundle/rekor.go) *)

Record RekorPayload := mkRekorPayload {
  rp_Body : any;
  rp_IntegratedTime : Z;
  rp_LogIndex : Z;
  rp_LogID : string }.
#[global] Instance RekorPayload_eq_dec : EqDecision RekorPayload.
Proof. solve_decision. Defined.

Record RekorBundle := mkRekorBundle {
  rb_SignedEntryTimestamp : bytes;
  rb_Payload : RekorPayload }.
#[global] Instance RekorBundle_eq_dec : EqDecision RekorBundle.
Proof. solve_decision. Defined.

(** The bundle built from a log entry.  The entry's [IntegratedTime],
    [LogIndex] and [LogID] are dereferenced. *)
Definition EntryToBundle (entry : LogEntryAnon) : res (option RekorBundle) :=
  match le_Verification entry with
  | None => Ok None
  | Some v =>
      it ← deref (le_IntegratedTime entry);
      li ← deref (le_LogIndex entry);
      id ← deref (le_LogID entry);
      Ok (Some (mkRekorBundle (lev_SignedEntryTimestamp v)
                 (mkRekorPayload (le_Body entry) it li id)))
  end.

(** ** The external calls *)

Class Ext := {
  (* crypto *)
  sha256_Sum256 : bytes → bytes;
  ecdsa_VerifyASN1 : bytes → bytes → bytes → bool;      (* key, hash, signature *)
  rsa_VerifyPKCS1v15 : bytes → bytes → bytes → res unit; (* key, hash, signature *)
  x509_MarshalPKIXPublicKey : PublicKey → res bytes;
  x509_ParsePKIXPublicKey : bytes → res PublicKey;
  x509_Verify : Certificate → VerifyOptions → res (list (list Certificate));
  pem_Decode : bytes → option ((string * bytes) * bytes); (* (type, bytes), rest *)
  regexp_Compile : string → res (string → bool);
  (* sigstore *)
  signature_LoadVerifier : PublicKey → res Verifier;
  cryptoutils_MarshalPublicKeyToPEM : PublicKey → res bytes;
  cryptoutils_UnmarshalPEMToPublicKey : bytes → res PublicKey;
  cryptoutils_MarshalCertificateToPEM : Certificate → res bytes;
  cryptoutils_MarshalCertificatesToPEM : list Certificate → res bytes;
  cryptoutils_LoadCertificatesFromPEM : bytes → res (list Certificate);
  payload_Cosign_MarshalJSON : string → gmap string any → res bytes; (* image digest *)
  (* dsse, rekor, merkle proofs *)
  dsse_NewEnvelopeVerifier : Verifier → res (Envelope → res unit);
  rfc6962_HashLeaf : bytes → bytes;
  logverifier_VerifyInclusionProof : Z → Z → list bytes → bytes → bytes → res unit;
  (* JSON: encoding and decoding of the external and tagged types *)
  json_Unmarshal_Envelope : bytes → res Envelope;
  json_Unmarshal_Statement : bytes → res Statement;
  json_Unmarshal_SimpleContainerImage : bytes → res SimpleContainerImage;
  json_Unmarshal_map : bytes → res (gmap string any);
  json_Unmarshal_Rekord : bytes → res any;              (* the entry's Spec *)
  json_Unmarshal_Hashedrekord : bytes → res any;
  json_Unmarshal_Intoto : bytes → res any;
  json_Unmarshal_RekordSchema : bytes → res RekordSchema;
  json_Unmarshal_HashedrekordSchema : bytes → res RekordSchema;
  json_Unmarshal_IntotoSchema : bytes → res IntotoSchema;
  json_Marshal_any : any → res bytes;
  json_Marshal_RekorBundle : RekorBundle → res bytes;
  json_Unmarshal_RekorBundle : bytes → res RekorBundle;
  json_Marshal_RekorPayload : RekorPayload → res bytes;
  jsoncanonicalizer_Transform : bytes → res bytes;
  (* process *)
  os_Getenv : string → string;
  os_ReadFile : string → res bytes;
  http_Get : string → res bytes                         (* the body of the response *)
}.
