(* ===== verification/Concrete.v ===== *)
(** * A concrete instance of the external interface

    [toy] instantiates every external call with a small executable function.
    The witnesses run the components on it; no theorem of a component depends
    on it. *)
From S2P Require Import Prelude GoStd External.

Definition toy_key (pem : bytes) : PublicKey := ecdsa_PublicKey pem.

Definition key_der (k : PublicKey) : bytes :=
  match k with
  | ecdsa_PublicKey d | rsa_PublicKey d | ed25519_PublicKey d | other_PublicKey d => d
  end.

(** The certificate named by its PEM text, issued by root "root", valid in
    the window 100..200. *)
Definition toy_cert (pem : bytes) : Certificate :=
  mkCertificate pem (toy_key pem) [] [pem] [] []
    [("1.3.6.1.4.1.57264.1.1", "https://issuer")] 100 200 pem "root".

Definition toy_certs (pem : bytes) : list Certificate :=
  if pem =?s "" then [] else [toy_cert pem].

(** A signature is the key's name and the message. *)
Definition toy_verify (k : PublicKey) (sig msg : bytes) : res unit :=
  ensure (sig =?s (key_der k +:+ ":" +:+ msg)) (error_New "invalid signature").

Definition toy_verifier (k : PublicKey) : Verifier := mkVerifier (toy_verify k) (Ok k).

Definition toy_x509_Verify (c : Certificate) (o : VerifyOptions) :
    res (list (list Certificate)) :=
  match vo_Roots o with
  | None => Err (error_New "x509: certificate signed by unknown authority")
  | Some roots =>
      match filter (λ r, cert_RawSubject r = cert_RawIssuer c) roots with
      | [] => Err (error_New "x509: certificate signed by unknown authority")
      | rs => Ok ((λ r, [c; r]) <$> rs)
      end
  end.

(** A log entry body is hash|signature|key. *)
Definition toy_schema (s : bytes) : res RekordSchema :=
  match strings_Split s "|"%char with
  | [h; sg; k] =>
      Ok (mkRekordSchema (Some (Some (mkDataHash (Some "sha256") (Some h)))) (Some (sg, k)))
  | _ => Err (error_New "invalid entry")
  end.

Definition toy_any_bytes (v : any) : res bytes :=
  match v with any_string s => Ok s | _ => Err (error_New "marshal") end.

Definition toy_bundle : RekorBundle :=
  mkRekorBundle "set" (mkRekorPayload (any_string "body") 150 1 "log").

Definition toy_marshal_bundle (b : RekorBundle) : res bytes :=
  if decide (b = toy_bundle) then Ok "BUNDLE" else Err (error_New "marshal").

Definition toy : Ext := {|
  sha256_Sum256 b := b;
  ecdsa_VerifyASN1 k h s := s =?s (k +:+ h);
  rsa_VerifyPKCS1v15 k h s :=
    if s =?s (k +:+ h) then Ok () else Err (error_New "crypto/rsa: verification error");
  x509_MarshalPKIXPublicKey k := Ok (key_der k);
  x509_ParsePKIXPublicKey b :=
    if strings_HasPrefix b "bad" then Err (error_New "asn1") else Ok (toy_key b);
  x509_Verify := toy_x509_Verify;
  pem_Decode b :=
    if strings_HasPrefix b "!" then
      Some (("ENCRYPTED COSIGN PRIVATE KEY", strings_TrimPrefix b "!"), "") else
    match strings_SplitN2 b "|"%char with
    | [""] => None
    | [w] => Some (("PUBLIC KEY", w), "")
    | w :: r => Some (("PUBLIC KEY", w), strings_Join r "|")
    | [] => None
    end;
  regexp_Compile r :=
    if strings_HasPrefix r "(" then Err (error_New "missing closing )")
    else Ok (λ s, strings_Contains s r);
  signature_LoadVerifier k := Ok (toy_verifier k);
  cryptoutils_MarshalPublicKeyToPEM k :=
    match k with
    | ecdsa_PublicKey "" => Err (error_New "unsupported key")
    | ecdsa_PublicKey d => Ok d
    | _ => Err (error_New "unsupported key")
    end;
  cryptoutils_UnmarshalPEMToPublicKey b :=
    if b =?s "" then Err (error_New "PEM decoding failed") else Ok (toy_key b);
  cryptoutils_MarshalCertificateToPEM c := Ok (cert_Raw c);
  cryptoutils_MarshalCertificatesToPEM cs := Ok (strings_Join (cert_Raw <$> cs) ",");
  cryptoutils_LoadCertificatesFromPEM b := Ok (toy_certs b);
  payload_Cosign_MarshalJSON d _ := Ok d;
  dsse_NewEnvelopeVerifier v := Ok (λ e,
    match env_Signatures e with
    | (_, sg) :: _ => VerifySignature v sg (env_Payload e)
    | [] => Err (error_New "no signatures found")
    end);
  rfc6962_HashLeaf b := b;
  logverifier_VerifyInclusionProof _ _ _ r l := ensure (r =?s l) (error_New "root mismatch");
  json_Unmarshal_Envelope b :=
    if strings_HasPrefix b "#" then Err (error_New "not an envelope") else
    Ok (mkEnvelope "application/vnd.in-toto+json" b [("", "k:" +:+ b)]);
  json_Unmarshal_Statement b :=
    Ok (mkStatement "" "cosign.sigstore.dev/attestation/v1"
          [mkSubject "repo" {["sha256" := b]}] any_nil);
  json_Unmarshal_SimpleContainerImage b :=
    Ok (mkSimpleContainerImage (match strings_Split b "@"%char with [_; d] => d | _ => b end) ∅);
  json_Unmarshal_map b := Ok {["payload" := any_string b; "predicateType" := any_string b]};
  json_Unmarshal_Rekord _ := Err (error_New "invalid kind value");
  json_Unmarshal_Hashedrekord b := Ok (any_string b);
  json_Unmarshal_Intoto b := Ok (any_string b);
  json_Unmarshal_RekordSchema := toy_schema;
  json_Unmarshal_HashedrekordSchema := toy_schema;
  json_Unmarshal_IntotoSchema b :=
    Ok (mkIntotoSchema (Some (b, Some (mkDataHash (Some "sha256") (Some b)))) None);
  json_Marshal_any := toy_any_bytes;
  json_Marshal_RekorBundle := toy_marshal_bundle;
  json_Unmarshal_RekorBundle b :=
    if b =?s "BUNDLE" then Ok toy_bundle else Err (error_New "unmarshal");
  json_Marshal_RekorPayload p := Ok (rp_LogID p);
  jsoncanonicalizer_Transform b := Ok b;
  os_Getenv _ := "";
  os_ReadFile p :=
    if (p =?s "predicate") || (p =?s "pod.yaml") then Ok "data" else Err (error_Kind kind_NotExist "no such file");
  http_Get _ := Err (error_New "no network")
|}.
