(* ===== verification/Pkcs11.v ===== *)
(** * PKCS #11 URIs (pkg/cosign/pkcs11key/util.go)

    A key on a token is named by a URI with the module's path, the token and the
    key.  [Construct] prints a configuration, [Parse] reads it back. *)
From S2P Require Import Prelude GoStd GoUrl External Concrete.

Definition pathAttrValueChars : string :=
  "ABCDEFGHIJKLMNOPQRSTUVWXYZabcdefghijklmnopqrstuvwxyz0123456789-._~:[]@!$'()*+,=&".
Definition queryAttrValueChars : string :=
  "ABCDEFGHIJKLMNOPQRSTUVWXYZabcdefghijklmnopqrstuvwxyz0123456789-._~:[]@!$'()*+,=/?|".

Fixpoint percentEncode (input : bytes) : string :=
  match input with
  | "" => ""
  | String b input' => "%" +:+ hex_EncodeToString (String b "") +:+ percentEncode input'
  end.

Definition allowed (allowedChars : string) (c : ascii) : bool :=
  bool_decide (0 < strings_Count allowedChars c)%nat.

Fixpoint encode_loop (allowedChars uriString : string) (usePercentEncoding : bool) : res string :=
  match uriString with
  | "" => Ok ""
  | String c uriString' =>
      out ← (if allowed allowedChars c then Ok (String c "")
             else if usePercentEncoding then Ok (percentEncode (String c ""))
             else Err (error_New "string contains an invalid character"));
      rest ← encode_loop allowedChars uriString' usePercentEncoding;
      Ok (out +:+ rest)
  end.
Definition EncodeURIComponent (uriString : string) (isForPath usePercentEncoding : bool) : res string :=
  encode_loop (if isForPath then pathAttrValueChars else queryAttrValueChars) uriString
    usePercentEncoding.

Record Pkcs11UriConfig := mkPkcs11UriConfig {
  uriPathAttributes : Values;
  uriQueryAttributes : Values;
  ModulePath : string;
  SlotID : option Z;
  TokenLabel : string;
  KeyLabel : bytes;
  KeyID : bytes;
  Pin : string }.

Definition NewPkcs11UriConfig : Pkcs11UriConfig := mkPkcs11UriConfig ∅ ∅ "" None "" "" "" "".
Definition NewPkcs11UriConfigFromInput (modulePath : string) (slotID : option Z) (tokenLabel : string)
    (keyLabel keyID : bytes) (pin : string) : Pkcs11UriConfig :=
  mkPkcs11UriConfig ∅ ∅ modulePath slotID tokenLabel keyLabel keyID pin.

(** strings.ReplaceAll(s, ";", "&") *)
Definition semicolons (s : string) : string :=
  string_map (λ c, if Ascii.eqb c ";" then "&"%char else c) s.

Section pkcs11.
Context `{X : Ext} (hierarchical : string → res unit).

(** The new fields of the configuration; on an error it is left as it was. *)
Definition Parse (uriString : string) : res Pkcs11UriConfig :=
  uri ← wrap "parse uri" (url_Parse hierarchical uriString);
  ensure (u_Scheme uri =?s "pkcs11") (error_New "invalid uri: not a PKCS11 uri");;
  uriPathAttributes ← wrap "parse uri path" (url_ParseQuery (semicolons (u_Opaque uri)));
  uriQueryAttributes ← wrap "parse uri query" (url_ParseQuery (semicolons (u_RawQuery uri)));
  let modulePath := Values_Get uriQueryAttributes "module-path" in
  let pinValue := Values_Get uriQueryAttributes "pin-value" in
  let tokenLabel := Values_Get uriPathAttributes "token" in
  let slotIDStr := Values_Get uriPathAttributes "slot-id" in
  let keyLabel := Values_Get uriPathAttributes "object" in
  let keyID := Values_Get uriPathAttributes "id" in
  ensure (negb ((tokenLabel =?s "") && (slotIDStr =?s "")))
    (error_New "invalid uri: one of token and slot-id must be set");;
  slotID ← (if negb (slotIDStr =?s "") then
              slot ← map_err (λ _, error_New ("invalid uri: slot-id '" +:+ slotIDStr
                                              +:+ "' is not a valid number")) (strconv_Atoi slotIDStr);
              Ok (Some slot)
            else Ok None);
  modulePath ← (if modulePath =?s "" then
                  let modulePath := os_Getenv "COSIGN_PKCS11_MODULE_PATH" in
                  ensure (negb (modulePath =?s ""))
                    (error_New "invalid uri: module-path or COSIGN_PKCS11_MODULE_PATH must be set to the absolute path of the PKCS11 module");;
                  Ok modulePath
                else Ok modulePath);
  ensure (negb ((keyLabel =?s "") && (keyID =?s "")))
    (error_New "invalid uri: one of object and id must be set");;
  Ok (mkPkcs11UriConfig uriPathAttributes uriQueryAttributes modulePath slotID tokenLabel keyLabel
        keyID pinValue).

Definition Construct (conf : Pkcs11UriConfig) : res string :=
  ensure (negb (ModulePath conf =?s ""))
    (error_New "module path must be set to the absolute path of the PKCS11 module");;
  ensure (negb ((KeyLabel conf =?s "") && (KeyID conf =?s "")))
    (error_New "one of keyLabel and keyID must be set");;
  ensure (negb ((TokenLabel conf =?s "") && bool_decide (SlotID conf = None)))
    (error_New "one of tokenLabel and slotID must be set");;
  let uriString := "pkcs11:" in
  uriString ← (if negb (TokenLabel conf =?s "") then
                 tokenLabel ← wrap "encode token label" (EncodeURIComponent (TokenLabel conf) true true);
                 Ok (uriString +:+ "token=" +:+ tokenLabel)
               else Ok uriString);
  let uriString := match SlotID conf with
                   | Some slot => uriString +:+ ";slot-id=" +:+ strconv_Itoa slot
                   | None => uriString
                   end in
  let uriString := if negb (KeyID conf =?s "")
                   then uriString +:+ ";id=" +:+ percentEncode (KeyID conf) else uriString in
  uriString ← (if negb (KeyLabel conf =?s "") then
                 keyLabel ← wrap "encode key label" (EncodeURIComponent (KeyLabel conf) true true);
                 Ok (uriString +:+ ";object=" +:+ keyLabel)
               else Ok uriString);
  modulePath ← wrap "encode module path" (EncodeURIComponent (ModulePath conf) false true);
  let uriString := uriString +:+ "?module-path=" +:+ modulePath in
  if negb (Pin conf =?s "") then
    pinValue ← wrap "encode pin" (EncodeURIComponent (Pin conf) false true);
    Ok (uriString +:+ "&pin-value=" +:+ pinValue)
  else Ok uriString.

End pkcs11.

(** ** Characters *)

Fixpoint all_chars (P : ascii → bool) (s : string) : bool :=
  match s with "" => true | String c s' => P c && all_chars P s' end.

Lemma all_chars_append P s t : all_chars P (s +:+ t) = all_chars P s && all_chars P t.
Proof. induction s as [|c s IH]; [done|]. cbn. by rewrite IH, andb_assoc. Qed.

Lemma all_chars_impl (P Q : ascii → bool) s :
  (∀ c, P c = true → Q c = true) → all_chars P s = true → all_chars Q s = true.
Proof. intros HPQ. induction s as [|c s IH]; [done|]. cbn. rewrite !andb_true_iff. naive_solver. Qed.

Lemma all_chars_Count P s c : P c = false → all_chars P s = true → strings_Count s c = 0.
Proof.
  intros Hc. induction s as [|a s IH]; [done|]. cbn. rewrite andb_true_iff. intros [Ha Hs].
  case_decide; [congruence|]. by apply IH.
Qed.

Lemma no_semicolon s : strings_Count s ";" = 0 → strings_Contains s ";" = false.
Proof.
  induction s as [|a s IH]; [done|]. cbn [strings_Contains strings_Count].
  case_decide as Ha; [done|]. intros H. rewrite IH by done.
  rewrite orb_false_r. apply not_true_iff_false. intros [r Hr]%HasPrefix_spec. naive_solver.
Qed.

(** What may stand in a value of the path, and of the query, of a URI. *)
Definition path_ok (c : ascii) : bool :=
  negb (is_ctl c) && negb (Ascii.eqb c "#") && negb (Ascii.eqb c "?") && negb (Ascii.eqb c ";")
  && negb (Ascii.eqb c "&").
Definition query_ok (c : ascii) : bool :=
  negb (is_ctl c) && negb (Ascii.eqb c "#") && negb (Ascii.eqb c ";") && negb (Ascii.eqb c "&").

(** What the encoding leaves alone although it has a meaning in a query. *)
Definition path_plain (c : ascii) : bool := negb (Ascii.eqb c "+") && negb (Ascii.eqb c "&").
Definition query_plain (c : ascii) : bool := negb (Ascii.eqb c "+").

Ltac bytes_cases c := destruct c as [[] [] [] [] [] [] [] []]; vm_compute; try done.

Lemma path_query_ok c : path_ok c = true → query_ok c = true.
Proof. bytes_cases c. Qed.
Lemma path_chars c :
  allowed pathAttrValueChars c = true → path_plain c = true →
  path_ok c = true ∧ Ascii.eqb c "%" || Ascii.eqb c "+" = false.
Proof. bytes_cases c. Qed.
Lemma query_chars c :
  allowed queryAttrValueChars c = true → query_plain c = true →
  query_ok c = true ∧ Ascii.eqb c "%" || Ascii.eqb c "+" = false.
Proof. bytes_cases c. Qed.
Lemma hex_chars (c : ascii) : all_chars path_ok ("%" +:+ hex_EncodeToString (String c "")) = true.
Proof. bytes_cases c. Qed.
Lemma unescape_other c s :
  Ascii.eqb c "%" || Ascii.eqb c "+" = false →
  unescape true (String c s) = (r ← unescape true s; Ok (String c r)).
Proof. destruct c as [[] [] [] [] [] [] [] []]; done. Qed.

(** ** Encoded values are read back *)

(** The encoding [e] of the value [v]. *)
Definition encodes (ok : ascii → bool) (v e : string) : Prop :=
  url_QueryUnescape e = Ok v ∧ all_chars ok e = true.

Lemma encode_loop_encodes chars (plain ok : ascii → bool) s :
  (∀ c, allowed chars c = true → plain c = true → ok c = true ∧ Ascii.eqb c "%" || Ascii.eqb c "+" = false) →
  (∀ c, path_ok c = true → ok c = true) → all_chars plain s = true →
  ∃ e, encode_loop chars s true = Ok e ∧ encodes ok s e.
Proof.
  intros Hc Hok. induction s as [|c s IH]; cbn [all_chars]; [by exists ""|].
  rewrite andb_true_iff. intros [Hp Hs]. destruct (IH Hs) as (e & He & Hu & Ha). cbn [encode_loop].
  unfold encodes, url_QueryUnescape in *. rewrite He. destruct (allowed chars c) eqn:Eal.
  - destruct (Hc c Eal Hp) as [Hcok Hne]. exists (String c e). split; [done|].
    rewrite unescape_other, Hu by done. cbn. by rewrite Hcok.
  - exists (percentEncode (String c "") +:+ e). split; [done|]. cbn [percentEncode].
    rewrite append_nil_r. split.
    + rewrite append_assoc, unescape_percent, Hu. done.
    + rewrite all_chars_append, Ha, andb_true_r. eapply all_chars_impl, hex_chars. done.
Qed.

Lemma EncodeURIComponent_path s :
  all_chars path_plain s = true → ∃ e, EncodeURIComponent s true true = Ok e ∧ encodes path_ok s e.
Proof. apply encode_loop_encodes; [apply path_chars|done]. Qed.
Lemma EncodeURIComponent_query s :
  all_chars query_plain s = true → ∃ e, EncodeURIComponent s false true = Ok e ∧ encodes query_ok s e.
Proof. apply encode_loop_encodes; [apply query_chars|apply path_query_ok]. Qed.

Lemma percentEncode_encodes s : encodes path_ok s (percentEncode s).
Proof.
  induction s as [|c s [Hu Ha]]; [done|]. cbn [percentEncode]. unfold encodes, url_QueryUnescape in *.
  rewrite unescape_percent, Hu. split; [done|].
  rewrite <- append_assoc, all_chars_append, Ha, andb_true_r. apply hex_chars.
Qed.

Lemma dec_digit_ok d : (0 ≤ d < 10)%Z →
  path_ok (dec_digit d) = true ∧ Ascii.eqb (dec_digit d) "%" || Ascii.eqb (dec_digit d) "+" = false.
Proof.
  intros Hd. assert (d ∈ [0;1;2;3;4;5;6;7;8;9]%Z) as Hin by (rewrite !elem_of_cons; lia).
  repeat (apply elem_of_cons in Hin as [->|Hin]; [done|]). by apply elem_of_nil in Hin.
Qed.

Lemma dec_print_encodes fuel : ∀ n acc,
  (0 ≤ n)%Z → encodes path_ok acc acc → encodes path_ok (dec_print fuel n acc) (dec_print fuel n acc).
Proof.
  induction fuel as [|fuel IH]; intros n acc Hn [Hu Ha]; [done|]. cbn [dec_print].
  assert (Hacc : encodes path_ok (String (dec_digit (n mod 10)) acc) (String (dec_digit (n mod 10)) acc)).
  { destruct (dec_digit_ok (n mod 10)) as [Hok Hne]; [apply Z.mod_pos_bound; lia|].
    unfold encodes, url_QueryUnescape in *. rewrite unescape_other, Hu by done. cbn. by rewrite Hok. }
  case_bool_decide; [done|]. apply IH; [apply Z.div_pos; lia|done].
Qed.

Lemma Itoa_encodes z : encodes path_ok (strconv_Itoa z) (strconv_Itoa z).
Proof.
  unfold strconv_Itoa. case_bool_decide; [|by apply dec_print_encodes; [lia|]].
  destruct (dec_print_encodes 20 (- z) "") as [Hu Ha]; [lia|done|].
  unfold encodes, url_QueryUnescape in *. cbn [String.append].
  rewrite unescape_other, Hu by done. cbn [all_chars]. by rewrite Ha.
Qed.

(** ** A constructed URI *)

(** One attribute. *)
Definition attr (key e : string) : string := key +:+ String "=" e.

Lemma query_loop_attr key v e segs m err :
  strings_Count key "=" = 0 → strings_Count key ";" = 0 → url_QueryUnescape key = Ok key →
  key ≠ "" → encodes query_ok v e →
  query_loop (attr key e :: segs) m err = query_loop segs (map_append key [v] m) err.
Proof.
  intros Hk Hks Hku Hne [Hu Ha]. cbn [query_loop]. unfold attr.
  rewrite no_semicolon.
  2: { rewrite Count_append, Hks. cbn [strings_Count]. case_decide; [done|].
       by rewrite (all_chars_Count query_ok e). }
  destruct key as [|c key]; [done|]. change (String c key +:+ String "=" e =?s "") with false.
  rewrite SplitN2_append by done. by rewrite Hku, Hu.
Qed.

Lemma semicolons_plain s : strings_Count s ";" = 0 → semicolons s = s.
Proof.
  unfold semicolons. induction s as [|c s IH]; [done|]. cbn. case_decide as Hc; [done|]. intros H.
  rewrite IH by done. destruct (Ascii.eqb_spec c ";"); [congruence|done].
Qed.

Lemma semicolons_append s t : semicolons (s +:+ t) = semicolons s +:+ semicolons t.
Proof. unfold semicolons. induction s as [|c s IH]; [done|]. cbn. by rewrite IH. Qed.

Lemma semicolons_Join l :
  Forall (λ s, strings_Count s ";" = 0) l → semicolons (strings_Join l ";") = strings_Join l "&".
Proof.
  intros Hf. induction Hf as [|s l Hs Hf IH]; [done|]. destruct l as [|s' l]; [by apply semicolons_plain|].
  change (semicolons (s +:+ ";" +:+ strings_Join (s' :: l) ";") = s +:+ "&" +:+ strings_Join (s' :: l) "&").
  rewrite !semicolons_append, IH, semicolons_plain by done. done.
Qed.

Lemma all_chars_Join P l sep :
  Forall (λ s, all_chars P s = true) l → all_chars P sep = true → all_chars P (strings_Join l sep) = true.
Proof.
  intros Hf Hs. induction Hf as [|s l Hl Hf IH]; [done|]. destruct l as [|s' l]; [done|].
  change (all_chars P (s +:+ sep +:+ strings_Join (s' :: l) sep) = true).
  by rewrite !all_chars_append, Hl, Hs, IH.
Qed.

(** The attributes of the path and of the query, from the encoded values. *)
Definition path_attrs (conf : Pkcs11UriConfig) (t k : string) : list string :=
  [if negb (TokenLabel conf =?s "") then attr "token" t else ""]
  ++ match SlotID conf with Some slot => [attr "slot-id" (strconv_Itoa slot)] | None => [] end
  ++ (if negb (KeyID conf =?s "") then [attr "id" (percentEncode (KeyID conf))] else [])
  ++ (if negb (KeyLabel conf =?s "") then [attr "object" k] else []).
Definition query_attrs (conf : Pkcs11UriConfig) (m p : string) : list string :=
  [attr "module-path" m] ++ (if negb (Pin conf =?s "") then [attr "pin-value" p] else []).

(** Values that the encoding protects; the slot is an int. *)
Record uri_safe (conf : Pkcs11UriConfig) : Prop := {
  safe_Token : all_chars path_plain (TokenLabel conf) = true;
  safe_KeyLabel : all_chars path_plain (KeyLabel conf) = true;
  safe_ModulePath : all_chars query_plain (ModulePath conf) = true;
  safe_Pin : all_chars query_plain (Pin conf) = true;
  safe_SlotID s : SlotID conf = Some s → (int_min ≤ s ≤ int_max)%Z }.

(** The attributes that a URI needs. *)
Definition complete (conf : Pkcs11UriConfig) : Prop :=
  ModulePath conf ≠ "" ∧ (KeyLabel conf ≠ "" ∨ KeyID conf ≠ "")
  ∧ (TokenLabel conf ≠ "" ∨ SlotID conf ≠ None).

Lemma Construct_form conf : uri_safe conf → complete conf →
  ∃ t k m p, encodes path_ok (TokenLabel conf) t ∧ encodes path_ok (KeyLabel conf) k
    ∧ encodes query_ok (ModulePath conf) m ∧ encodes query_ok (Pin conf) p
    ∧ Construct conf = Ok ("pkcs11:" +:+ strings_Join (path_attrs conf t k) ";"
                           +:+ String "?" (strings_Join (query_attrs conf m p) "&")).
Proof.
  intros [H1 H2 H3 H4 _] (Hm & Hk & Ht).
  destruct (EncodeURIComponent_path _ H1) as (t & Et & Ht').
  destruct (EncodeURIComponent_path _ H2) as (k & Ek & Hk').
  destruct (EncodeURIComponent_query _ H3) as (m & Em & Hm').
  destruct (EncodeURIComponent_query _ H4) as (p & Ep & Hp').
  exists t, k, m, p. do 4 (split; [done|]). unfold Construct, path_attrs, query_attrs.
  rewrite Et, Ek, Em, Ep. apply str_eqb_neq in Hm. rewrite Hm. cbn [negb ensure mbind res_bind].
  destruct (KeyLabel conf =?s "") eqn:E1, (KeyID conf =?s "") eqn:E2;
    apply str_eqb_eq in E1 || apply str_eqb_neq in E1; apply str_eqb_eq in E2 || apply str_eqb_neq in E2;
    [by destruct Hk|..];
  (destruct (TokenLabel conf =?s "") eqn:E3, (SlotID conf) as [s|];
    [|apply str_eqb_eq in E3; by destruct Ht|..]);
  destruct (Pin conf =?s ""); cbn -[strconv_Itoa percentEncode];
    repeat first [rewrite append_assoc | progress cbn [String.append]]; done.
Qed.

Lemma encodes_query v e : encodes path_ok v e → encodes query_ok v e.
Proof. intros [Hu Ha]. split; [done|]. eapply all_chars_impl, Ha. apply path_query_ok. Qed.

Lemma attr_ok ok key v e :
  encodes ok v e → all_chars ok (key +:+ "=") = true → all_chars ok (attr key e) = true.
Proof.
  intros [_ Ha] Hk. unfold attr. change (String "=" e) with ("=" +:+ e).
  by rewrite <- append_assoc, all_chars_append, Hk, Ha.
Qed.

Lemma path_attrs_ok conf t k :
  encodes path_ok (TokenLabel conf) t → encodes path_ok (KeyLabel conf) k →
  Forall (λ s, all_chars path_ok s = true) (path_attrs conf t k).
Proof.
  intros Ht Hk. unfold path_attrs. repeat apply Forall_app_2.
  - repeat constructor. destruct (TokenLabel conf =?s ""); [done|]. by eapply attr_ok.
  - destruct (SlotID conf); repeat constructor. eapply attr_ok; [apply Itoa_encodes|done].
  - destruct (KeyID conf =?s ""); repeat constructor. eapply attr_ok; [apply percentEncode_encodes|done].
  - destruct (KeyLabel conf =?s ""); repeat constructor. by eapply attr_ok.
Qed.

Lemma query_attrs_ok conf m p :
  encodes query_ok (ModulePath conf) m → encodes query_ok (Pin conf) p →
  Forall (λ s, all_chars query_ok s = true) (query_attrs conf m p).
Proof.
  intros Hm Hp. unfold query_attrs. repeat apply Forall_app_2.
  - repeat constructor. by eapply attr_ok.
  - destruct (Pin conf =?s ""); repeat constructor. by eapply attr_ok.
Qed.

(** A joined list of attributes is parsed as the list. *)
Lemma ParseQuery_attrs l m sep :
  sep = ";" ∨ sep = "&" → l ≠ [] → Forall (λ s, all_chars query_ok s = true) l →
  query_loop l ∅ None = (m, None) → url_ParseQuery (semicolons (strings_Join l sep)) = Ok m.
Proof.
  intros Hsep Hne Hf Hq.
  assert (H1 : Forall (λ s, strings_Count s ";" = 0) l)
    by (eapply Forall_impl; [exact Hf|]; intros s Hs; by apply (all_chars_Count query_ok)).
  assert (H2 : Forall (λ s, strings_Count s "&" = 0) l)
    by (eapply Forall_impl; [exact Hf|]; intros s Hs; by apply (all_chars_Count query_ok)).
  assert (Hs : semicolons (strings_Join l sep) = strings_Join l "&").
  { destruct Hsep as [-> | ->]; [by apply semicolons_Join|]. clear -H1.
    induction H1 as [|s l Hs Hf IH]; [done|]. destruct l as [|s' l]; [by apply semicolons_plain|].
    change (semicolons (s +:+ "&" +:+ strings_Join (s' :: l) "&") = s +:+ "&" +:+ strings_Join (s' :: l) "&").
    rewrite !semicolons_append, IH, (semicolons_plain s) by done. done. }
  unfold url_ParseQuery. by rewrite Hs, Split_Join, Hq.
Qed.

(** The values of an absent and of a present attribute. *)
Lemma ParseQuery_path conf t k :
  encodes path_ok (TokenLabel conf) t → encodes path_ok (KeyLabel conf) k →
  ∃ m, url_ParseQuery (semicolons (strings_Join (path_attrs conf t k) ";")) = Ok m
    ∧ Values_Get m "token" = TokenLabel conf ∧ Values_Get m "object" = KeyLabel conf
    ∧ Values_Get m "id" = KeyID conf
    ∧ Values_Get m "slot-id" = match SlotID conf with Some s => strconv_Itoa s | None => "" end.
Proof.
  intros Ht0 Hk0. pose proof (encodes_query _ _ Ht0) as Ht. pose proof (encodes_query _ _ Hk0) as Hk.
  pose proof (encodes_query _ _ (percentEncode_encodes (KeyID conf))) as Hi.
  assert (∃ m, query_loop (path_attrs conf t k) ∅ None = (m, None)
    ∧ Values_Get m "token" = TokenLabel conf ∧ Values_Get m "object" = KeyLabel conf
    ∧ Values_Get m "id" = KeyID conf
    ∧ Values_Get m "slot-id" = match SlotID conf with Some s => strconv_Itoa s | None => "" end)
    as (m & Hm & Hgets).
  { unfold path_attrs.
    destruct (TokenLabel conf =?s "") eqn:E1, (KeyID conf =?s "") eqn:E2, (KeyLabel conf =?s "") eqn:E3,
      (SlotID conf) as [s|]; cbn [app negb];
    try (rewrite str_eqb_eq in E1); try (rewrite str_eqb_eq in E2); try (rewrite str_eqb_eq in E3);
    try pose proof (encodes_query _ _ (Itoa_encodes s)) as Hs;
    (eexists; split; [repeat first [erewrite query_loop_attr by done | change (query_loop ("" :: ?l) ?m ?e) with (query_loop l m e)]; done|]);
    rewrite ?E1, ?E2, ?E3; done. }
  exists m. split; [|done]. eapply ParseQuery_attrs; [by left|done| |done].
  eapply Forall_impl; [by apply path_attrs_ok|].
  intros. by eapply all_chars_impl; [apply path_query_ok|].
Qed.

Lemma ParseQuery_query conf m p :
  encodes query_ok (ModulePath conf) m → encodes query_ok (Pin conf) p →
  ∃ v, url_ParseQuery (semicolons (strings_Join (query_attrs conf m p) "&")) = Ok v
    ∧ Values_Get v "module-path" = ModulePath conf ∧ Values_Get v "pin-value" = Pin conf.
Proof.
  intros Hm Hp.
  assert (∃ v, query_loop (query_attrs conf m p) ∅ None = (v, None)
    ∧ Values_Get v "module-path" = ModulePath conf ∧ Values_Get v "pin-value" = Pin conf)
    as (v & Hv & Hgets).
  { unfold query_attrs. destruct (Pin conf =?s "") eqn:E; cbn [app negb];
      [rewrite str_eqb_eq in E; rewrite E|];
      (eexists; split; [repeat erewrite query_loop_attr by done; done|done]). }
  exists v. split; [|done]. eapply ParseQuery_attrs; [by right|done|by apply query_attrs_ok|done].
Qed.

Lemma has_ctl_ok P s : (∀ c, P c = true → is_ctl c = false) → all_chars P s = true → has_ctl s = false.
Proof.
  intros HP. induction s as [|c s IH]; [done|]. cbn. rewrite andb_true_iff. intros [Hc Hs].
  by rewrite IH, (HP c).
Qed.

Lemma has_ctl_append s t : has_ctl (s +:+ t) = has_ctl s || has_ctl t.
Proof. induction s as [|c s IH]; [done|]. cbn. by rewrite IH, orb_assoc. Qed.

(** The parts of a constructed URI. *)
Lemma url_Parse_constructed hier path query :
  strings_Count path "?" = 0 → strings_Count path "#" = 0 → has_ctl path = false → strings_HasPrefix path "/" = false →
  strings_Count query "#" = 0 → has_ctl query = false →
  url_Parse hier ("pkcs11:" +:+ path +:+ String "?" query) = Ok (mkURL "pkcs11" path query).
Proof.
  intros Hq Hh Hc Hs Hqh Hqc. unfold url_Parse.
  rewrite cut_char_no_sep.
  2: { rewrite !Count_append. cbn [strings_Count]. rewrite Hh, Hqh. done. }
  rewrite !has_ctl_append, Hc. cbn [has_ctl]. rewrite Hqc. cbn [orb].
  change (getScheme true ("pkcs11:" +:+ path +:+ String "?" query))
    with (Ok (Some ("pkcs11", path +:+ String "?" query))).
  cbn [mbind res_bind]. rewrite cut_char_append by done. by rewrite Hs.
Qed.

Definition or_sep (ok : ascii → bool) (sep c : ascii) : bool := ok c || Ascii.eqb c sep.

Lemma Join_ok ok sep l :
  Forall (λ s, all_chars ok s = true) l → all_chars (or_sep ok sep) (strings_Join l (String sep "")) = true.
Proof.
  intros Hf. apply all_chars_Join.
  - eapply Forall_impl; [exact Hf|]. intros s. apply all_chars_impl. unfold or_sep. by intros c ->.
  - cbn. unfold or_sep. by rewrite Ascii.eqb_refl, orb_true_r.
Qed.

Lemma path_attrs_start conf t k :
  complete conf → strings_HasPrefix (strings_Join (path_attrs conf t k) ";") "/" = false.
Proof.
  intros (_ & _ & Ht). unfold path_attrs. destruct (TokenLabel conf =?s "") eqn:E; cbn [negb].
  - apply str_eqb_eq in E. destruct (SlotID conf); [|by destruct Ht].
    by destruct (KeyID conf =?s ""), (KeyLabel conf =?s "").
  - by destruct (SlotID conf), (KeyID conf =?s ""), (KeyLabel conf =?s "").
Qed.

Section roundtrip.
Context `{X : Ext} (hierarchical : string → res unit).

Lemma Parse_Construct conf :
  uri_safe conf → complete conf →
  ∃ uri pa qa, Construct conf = Ok uri
    ∧ Parse hierarchical uri = Ok (mkPkcs11UriConfig pa qa (ModulePath conf) (SlotID conf)
        (TokenLabel conf) (KeyLabel conf) (KeyID conf) (Pin conf)).
Proof.
  intros Hs Hc. destruct (Construct_form conf Hs Hc) as (t & k & m & p & Ht & Hk & Hm & Hp & Hcon).
  eexists. destruct (ParseQuery_path conf t k Ht Hk) as (pa & Hpa & G1 & G2 & G3 & G4).
  destruct (ParseQuery_query conf m p Hm Hp) as (qa & Hqa & G5 & G6). exists pa, qa.
  split; [exact Hcon|]. unfold Parse.
  pose proof (Join_ok _ ";" _ (path_attrs_ok conf t k Ht Hk)) as Hpath.
  pose proof (Join_ok _ "&" _ (query_attrs_ok conf m p Hm Hp)) as Hquery.
  rewrite url_Parse_constructed.
  2,3: eapply all_chars_Count; [|exact Hpath]; done.
  2: eapply has_ctl_ok; [|exact Hpath]; intros c; bytes_cases c.
  2: by apply path_attrs_start.
  2: eapply all_chars_Count; [|exact Hquery]; done.
  2: eapply has_ctl_ok; [|exact Hquery]; intros c; bytes_cases c.
  cbn [wrap mbind res_bind u_Scheme u_Opaque u_RawQuery]. rewrite Hpa, Hqa, str_eqb_refl.
  cbn [wrap map_err mbind res_bind ensure]. rewrite G1, G2, G3, G4, G5, G6.
  destruct Hc as (Hc1%str_eqb_neq & Hc2 & Hc3). rewrite Hc1.
  assert (Hkey : (KeyLabel conf =?s "") && (KeyID conf =?s "") = false).
  { apply andb_false_iff. rewrite !str_eqb_neq. done. }
  destruct (SlotID conf) as [s|] eqn:Es.
  - destruct (strconv_Itoa s =?s "") eqn:Ei.
    { apply str_eqb_eq in Ei. pose proof (atoi_itoa s (safe_SlotID _ Hs _ Es)) as Ha. by rewrite Ei in Ha. }
    rewrite andb_false_r, (atoi_itoa s (safe_SlotID _ Hs _ Es)), Hkey. done.
  - destruct Hc3 as [Hc3%str_eqb_neq|]; [|done]. rewrite Hc3, Hkey. done.
Qed.

(** A configuration that is printed as a URI is read back: the module, the
    token, the slot, the key's label and identifier and the PIN are the same, if
    the two labels have no plus sign and no ampersand and the module's path and
    the PIN no plus sign. *)
Theorem pkcs11_uri_roundtrip conf :
  uri_safe conf → complete conf →
  ∃ uri pa qa, Construct conf = Ok uri
    ∧ Parse hierarchical uri = Ok (mkPkcs11UriConfig pa qa (ModulePath conf) (SlotID conf)
        (TokenLabel conf) (KeyLabel conf) (KeyID conf) (Pin conf)).
Proof. apply Parse_Construct. Qed.

(** C34: a slot that is read from a URI is a number of 64 bits, and a slot-id that
    is not a number, or not one of 64 bits, is refused. *)
Theorem pkcs11_slot_bounds uri conf :
  Parse hierarchical uri = Ok conf →
  ∃ u pa, url_Parse hierarchical uri = Ok u ∧ url_ParseQuery (semicolons (u_Opaque u)) = Ok pa
    ∧ match SlotID conf with
      | Some s => strconv_Atoi (Values_Get pa "slot-id") = Ok s ∧ (int_min ≤ s ≤ int_max)%Z
      | None => Values_Get pa "slot-id" = ""
      end.
Proof.
  unfold Parse. intros H. apply bind_Ok in H as (u & Hu%wrap_Ok & H). apply bind_Ok in H as ([] & _ & H).
  apply bind_Ok in H as (pa & Hpa%wrap_Ok & H). apply bind_Ok in H as (qa & _ & H).
  apply bind_Ok in H as ([] & _ & H). apply bind_Ok in H as (slot & Hslot & H).
  apply bind_Ok in H as (mp & _ & H). apply bind_Ok in H as ([] & _ & [= <-]).
  exists u, pa. do 2 (split; [done|]). cbn [SlotID].
  destruct (Values_Get pa "slot-id" =?s "") eqn:E; cbn [negb] in Hslot; go_inv.
  - by apply str_eqb_eq in E.
  - split; [done|]. by eapply atoi_bounds.
Qed.

End roundtrip.

(** ** Witnesses *)

Definition toy_conf : Pkcs11UriConfig :=
  NewPkcs11UriConfigFromInput "/usr/lib/softhsm.so" (Some (-1)%Z) "my token; #1" "key?" "id" "p&n".

Lemma pkcs11_uri_roundtrip_witness :
  ∃ uri pa qa, Construct toy_conf = Ok uri
    ∧ Parse (X := toy) (λ _, Ok ()) uri = Ok (mkPkcs11UriConfig pa qa "/usr/lib/softhsm.so"
        (Some (-1)%Z) "my token; #1" "key?" "id" "p&n").
Proof.
  apply (pkcs11_uri_roundtrip (X := toy) (λ _, Ok ()) toy_conf).
  - split; [reflexivity..|]. intros s [= <-]. unfold int_min, int_max. lia.
  - split; [done|]. split; by left.
Defined.

Lemma pkcs11_slot_bounds_witness :
  ∃ conf u, Parse (X := toy) (λ _, Ok ()) "pkcs11:slot-id=7;id=%01?module-path=m" = Ok conf
    ∧ url_Parse (λ _, Ok ()) "pkcs11:slot-id=7;id=%01?module-path=m" = Ok u.
Proof.
  destruct (ok_res (Parse (X := toy) (λ _, Ok ()) "pkcs11:slot-id=7;id=%01?module-path=m")) as [conf H];
    [vm_compute; reflexivity|].
  destruct (pkcs11_slot_bounds (X := toy) (λ _, Ok ()) _ conf H) as (u & pa & Hu & _).
  exists conf, u. split; [exact H|exact Hu].
Defined.

(** A label with a plus sign is read back with a space, and one with an
    ampersand is cut there: the URI that is printed names another key. *)
Theorem pkcs11_uri_unescaped :
  (∃ uri conf, Construct (NewPkcs11UriConfigFromInput "m" None "a+b" "k&x" "" "") = Ok uri
     ∧ Parse (X := toy) (λ _, Ok ()) uri = Ok conf ∧ TokenLabel conf = "a b" ∧ KeyLabel conf = "k").
Proof. eexists _, _. repeat split; vm_compute; reflexivity. Qed.
