(* ===== verification/Pkcs11Key.v ===== *)
(** * Keys on PKCS #11 tokens

    pkg/cosign/pkcs11key/pkcs11key.go (opening the key that a URI names, signing
    and verifying with it) and cmd/cosign/cli/pkcs11cli/commands.go (listing
    tokens and the URIs of their keys).

    The PKCS #11 module, the crypto11 library and the terminal are a parameter,
    [Pkcs11Ext].  A search for objects is a sequence of calls that each give the
    next handles: [p11_FindObjects s max k] is the answer to the call number [k], for at
    most [max] handles. *)
From S2P Require Import Prelude GoStd GoUrl External Concrete Pkcs11.

(** pkcs11.TokenInfo and crypto11.Config *)
Record TokenInfo := mkTokenInfo {
  ti_Label : string;
  ti_ManufacturerID : string;
  ti_Model : string;
  ti_SerialNumber : string;
  ti_Flags : Z }.

Record Crypto11Config := mkCrypto11Config {
  c11_Path : string;
  c11_Pin : string;
  c11_SlotNumber : option Z;
  c11_TokenLabel : string }.

Class Pkcs11Ext := {
  url_hierarchical : string → res unit;                 (* net/url, on other URIs *)
  os_Stat_IsRegular : string → res bool;
  pkcs11_New : string → bool;                           (* the module loads *)
  p11_Initialize : string → res unit;
  p11_GetTokenInfo : string → Z → res TokenInfo;        (* module, slot *)
  p11_GetSlotList : string → res (list Z);
  p11_Session : Type;
  p11_OpenSession : string → Z → res p11_Session;
  p11_Login : p11_Session → string → res unit;
  p11_Handle : Type;
  p11_FindObjectsInit : p11_Session → res unit;         (* of private keys *)
  p11_FindObjects : p11_Session → nat → nat → res (list p11_Handle);
  p11_FindObjectsFinal : p11_Session → res unit;
  p11_GetAttributeValue : p11_Session → p11_Handle → res (bytes * bytes);  (* CKA_ID, CKA_LABEL *)
  term_ReadPassword : res string;
  c11_Ctx : Type;
  crypto11_Configure : Crypto11Config → res c11_Ctx;
  c11_FindKeyPair : c11_Ctx → option bytes → option bytes → res (option CryptoSigner);
  c11_FindCertificate : c11_Ctx → option bytes → option bytes → res (option Certificate) }.

(** ** Integers *)

Definition uint_of_int (z : Z) : Z := (z mod 2 ^ 64)%Z.
Definition int_of_uint (u : Z) : Z := if (u <? 2 ^ 63)%Z then u else (u - 2 ^ 64)%Z.

Lemma int_of_uint_bounds u : (0 ≤ u < 2 ^ 64)%Z → (int_min ≤ int_of_uint u ≤ int_max)%Z.
Proof. unfold int_of_uint, int_min, int_max. intros Hu. destruct (Z.ltb_spec u (2 ^ 63)); lia. Qed.
Lemma uint_of_int_of_uint u : (0 ≤ u < 2 ^ 64)%Z → uint_of_int (int_of_uint u) = u.
Proof.
  unfold uint_of_int, int_of_uint. intros Hu. destruct (Z.ltb_spec u (2 ^ 63)).
  - by apply Z.mod_small.
  - rewrite <-(Z.mod_small u (2 ^ 64)) at 2 by done. rewrite Zminus_mod, Z_mod_same_full, Z.sub_0_r.
    apply Z.mod_mod. lia.
Qed.

(** filepath.IsAbs on Unix *)
Definition filepath_IsAbs (path : string) : bool := strings_HasPrefix path "/".

Definition CKF_LOGIN_REQUIRED : Z := 4%Z.
Definition login_required (ti : TokenInfo) : bool :=
  (Z.land (ti_Flags ti) CKF_LOGIN_REQUIRED =? CKF_LOGIN_REQUIRED)%Z.

Definition ContextNotInitialized : error := error_New "context not initialized".
Definition SignerNotSet : error := error_New "signer not set".

(** The switch on the type of a public key, in the keys of both kinds of token. *)
Definition verify_digest `{X : Ext} (pub : PublicKey) (digest sig : bytes) : res unit :=
  match pub with
  | ecdsa_PublicKey kt =>
      if ecdsa_VerifyASN1 kt digest sig then Ok () else Err (error_New "invalid ecdsa signature")
  | rsa_PublicKey kt => rsa_VerifyPKCS1v15 kt digest sig
  | _ => Err (error_New "unsupported key type")
  end.

(** ** pkcs11key.go *)

Module pkcs11key.
Section pkcs11key.
Context `{X : Ext, P : Pkcs11Ext}.

Record Key := mkKey {
  k_ctx : option c11_Ctx;
  k_signer : option CryptoSigner;
  k_cert : option Certificate }.

(** The loop over the slots. *)
Fixpoint find_token (modulePath tokenLabel : string) (slots : list Z) : res TokenInfo :=
  match slots with
  | [] => Err (error_New ("could not find a slot for the token '" +:+ tokenLabel +:+ "'"))
  | slot :: slots' =>
      currentTokenInfo ← wrap "get token info" (p11_GetTokenInfo modulePath slot);
      if ti_Label currentTokenInfo =?s tokenLabel then Ok currentTokenInfo
      else find_token modulePath tokenLabel slots'
  end.

(** askForPinIfNeededFunc: the PIN, which is not asked for when the token does not
    require a login. *)
Definition askForPin (config : Pkcs11UriConfig) : res string :=
  ensure (pkcs11_New (ModulePath config)) (error_New "failed to load PKCS11 module");;
  wrap "initialize PKCS11 module" (p11_Initialize (ModulePath config));;
  tokenInfo ← match SlotID config with
              | Some slot => wrap "get token info" (p11_GetTokenInfo (ModulePath config) (uint_of_int slot))
              | None =>
                  slots ← wrap "get slot list of PKCS11 module" (p11_GetSlotList (ModulePath config));
                  find_token (ModulePath config) (TokenLabel config) slots
              end;
  if login_required tokenInfo then wrap "get pin" term_ReadPassword else Ok "".

(** The PIN of the URI, then the environment's, then the user's. *)
Definition key_pin (config : Pkcs11UriConfig) (askForPinIfNeeded : bool) : res string :=
  if (Pin config =?s "") && askForPinIfNeeded then
    let pin := os_Getenv "COSIGN_PKCS11_PIN" in
    if pin =?s "" then askForPin config else Ok pin
  else Ok (Pin config).

(** The slot has priority over the label of the token. *)
Definition crypto11_config (config : Pkcs11UriConfig) (pin : string) : Crypto11Config :=
  match SlotID config with
  | Some slot => mkCrypto11Config (ModulePath config) pin (Some slot) ""
  | None => mkCrypto11Config (ModulePath config) pin None (TokenLabel config)
  end.

(** The key with the identifier, if there is one, and otherwise with the label;
    its certificate need not exist. *)
Definition open_key (ctx : c11_Ctx) (keyID keyLabel : bytes) : res Key :=
  let '(id, label) := if negb (keyID =?s "") then (Some keyID, None) else (None, Some keyLabel) in
  signer ← c11_FindKeyPair ctx id label;
  cert ← match c11_FindCertificate ctx id label with
         | Ok cert => Ok cert
         | Err _ => Ok None
         | Panic why => Panic why
         end;
  Ok (mkKey (Some ctx) signer cert).

Definition GetKeyWithURIConfig (config : Pkcs11UriConfig) (askForPinIfNeeded : bool) : res Key :=
  ensure (negb ((KeyLabel config =?s "") && (KeyID config =?s "")))
    (error_New "one of keyLabel and keyID must be set");;
  ensure (negb ((TokenLabel config =?s "") && bool_decide (SlotID config = None)))
    (error_New "one of token and slot id must be set");;
  ensure (filepath_IsAbs (ModulePath config))
    (error_New "modulePath does not point to an absolute path");;
  isRegular ← wrap "access modulePath" (os_Stat_IsRegular (ModulePath config));
  ensure isRegular (error_New "modulePath does not point to a regular file");;
  pin ← key_pin config askForPinIfNeeded;
  ctx ← crypto11_Configure (crypto11_config config pin);
  open_key ctx (KeyID config) (KeyLabel config).

Definition Certificate_ (k : Key) : res (option Certificate) := Ok (k_cert k).

Definition Key_PublicKey (k : Key) : res PublicKey := signer ← deref (k_signer k); Ok (cs_Public signer).

Definition Key_VerifySignature (k : Key) (sig msg : bytes) : res unit :=
  signer ← deref (k_signer k);
  let digest := sha256_Sum256 msg in
  verify_digest (cs_Public signer) digest sig.

Definition Key_as_Verifier (k : Key) : Verifier := mkVerifier (Key_VerifySignature k) (Key_PublicKey k).

Definition initialized (k : Key) : res unit :=
  match k_ctx k, k_signer k with
  | None, _ => Err ContextNotInitialized
  | _, None => Err SignerNotSet
  | _, _ => Ok ()
  end.

Definition Key_Verifier (k : Key) : res Verifier := initialized k;; Ok (Key_as_Verifier k).

Definition Key_Sign (k : Key) (rawPayload : bytes) : res (bytes * bytes) :=
  let h := sha256_Sum256 rawPayload in
  signer ← deref (k_signer k);
  sig ← cs_Sign signer h;
  Ok (sig, h).

Definition Key_SignMessage (k : Key) (message : bytes) : res bytes :=
  signer ← deref (k_signer k); cs_Sign signer (sha256_Sum256 message).

Definition Key_SignerVerifier (k : Key) : res SignerVerifier :=
  initialized k;; Ok (mkSignerVerifier (Key_SignMessage k) (Key_as_Verifier k)).

(** The context of a key that was closed is nil. *)
Definition Key_Close (k : Key) : res Key := _ ← deref (k_ctx k); Ok (mkKey None None None).

End pkcs11key.
Arguments Key {_}.
End pkcs11key.

(** ** pkcs11cli/commands.go *)

Module pkcs11cli.
Section pkcs11cli.
Context `{X : Ext, P : Pkcs11Ext}.

Record Token := mkToken { tk_Slot : Z; tk_Info : TokenInfo }.
Record KeyInfo := mkKeyInfo { ki_KeyLabel : bytes; ki_KeyID : bytes; ki_KeyURI : string }.

(** A slot whose token cannot be read is left out. *)
Fixpoint token_infos (modulePath : string) (slots : list Z) : res (list Token) :=
  match slots with
  | [] => Ok []
  | slot :: slots' =>
      match p11_GetTokenInfo modulePath slot with
      | Ok tokenInfo => rest ← token_infos modulePath slots'; Ok (mkToken slot tokenInfo :: rest)
      | Err _ => token_infos modulePath slots'
      | Panic why => Panic why
      end
  end.

Definition open_module (modulePath : string) : res unit :=
  ensure (negb ((modulePath =?s "") || negb (filepath_IsAbs modulePath))) flag_ErrHelp;;
  ensure (pkcs11_New modulePath) (error_New "failed to load PKCS11 module");;
  wrap "initialize PKCS11 module" (p11_Initialize modulePath).

Definition GetTokens (modulePath : string) : res (list Token) :=
  open_module modulePath;;
  slots ← wrap "get slot list" (p11_GetSlotList modulePath);
  token_infos modulePath slots.

Definition maxHandlePerFind : nat := 20.

(** The search, until it gives nothing; [None] stands for exhausted fuel. *)
Fixpoint find_loop (fuel : nat) (session : p11_Session) (call : nat) (handles : list p11_Handle) :
    option (res (list p11_Handle)) :=
  match fuel with
  | 0 => None
  | S fuel =>
      match wrap "find objects" (p11_FindObjects session maxHandlePerFind call) with
      | Ok [] => Some (Ok handles)
      | Ok newhandles => find_loop fuel session (S call) (handles ++ newhandles)
      | Err e => Some (Err e)
      | Panic why => Some (Panic why)
      end
  end.

(** One private key; an object without identifier and label is skipped. *)
Definition key_info (modulePath : string) (slotID : Z) (tokenLabel pin : string)
    (keyID keyLabel : bytes) : res (list KeyInfo) :=
  if (keyID =?s "") && (keyLabel =?s "") then Ok [] else
  let pkcs11Uri := NewPkcs11UriConfigFromInput modulePath (Some (int_of_uint slotID)) tokenLabel
                     keyLabel keyID pin in
  pkcs11UriStr ← wrap "construct pkcs11 uri" (Construct pkcs11Uri);
  Ok [mkKeyInfo keyLabel keyID pkcs11UriStr].

Fixpoint key_infos (session : p11_Session) (modulePath : string) (slotID : Z) (tokenLabel pin : string)
    (handles : list p11_Handle) : res (list KeyInfo) :=
  match handles with
  | [] => Ok []
  | handle :: handles' =>
      '(keyID, keyLabel) ← wrap "get attributes" (p11_GetAttributeValue session handle);
      info ← key_info modulePath slotID tokenLabel pin keyID keyLabel;
      rest ← key_infos session modulePath slotID tokenLabel pin handles';
      Ok (info ++ rest)
  end.

Definition list_pin (tokenInfo : TokenInfo) (pin : string) : res string :=
  if pin =?s "" then
    let pin := os_Getenv "COSIGN_PKCS11_PIN" in
    if (pin =?s "") && login_required tokenInfo then wrap "get pin" term_ReadPassword else Ok pin
  else Ok pin.

(** What is done before the search: the token, the PIN, and the session. *)
Definition open_token (modulePath : string) (slotID : Z) (pin : string) :
    res (TokenInfo * string * p11_Session) :=
  open_module modulePath;;
  tokenInfo ← wrap "get token info" (p11_GetTokenInfo modulePath slotID);
  pin ← list_pin tokenInfo pin;
  session ← wrap "open session" (p11_OpenSession modulePath slotID);
  wrap "login" (p11_Login session pin);;
  wrap "init find objects" (p11_FindObjectsInit session);;
  Ok (tokenInfo, pin, session).

Definition GetKeysInfo (fuel : nat) (modulePath : string) (slotID : Z) (pin : string) :
    option (res (list KeyInfo)) :=
  match open_token modulePath slotID pin with
  | Ok (tokenInfo, pin, session) =>
      match find_loop fuel session 0 [] with
      | Some handles => Some (
          handles ← handles;
          wrap "finalize find objects" (p11_FindObjectsFinal session);;
          key_infos session modulePath slotID (ti_Label tokenInfo) pin handles)
      | None => None
      end
  | Err e => Some (Err e)
  | Panic why => Some (Panic why)
  end.

(** What the commands print. *)
Definition tab : string := String (ascii_of_nat 9) "".

Definition print_token (token : Token) : string :=
  "Token in slot " +:+ strconv_Itoa (tk_Slot token) +:+ nl
  +:+ tab +:+ "Label: " +:+ ti_Label (tk_Info token) +:+ nl
  +:+ tab +:+ "Manufacturer: " +:+ ti_ManufacturerID (tk_Info token) +:+ nl
  +:+ tab +:+ "Model: " +:+ ti_Model (tk_Info token) +:+ nl
  +:+ tab +:+ "S/N: " +:+ ti_SerialNumber (tk_Info token) +:+ nl +:+ nl.

Definition ListTokensCmd (modulePath : string) : res string :=
  tokens ← GetTokens modulePath;
  Ok (nl +:+ "Listing tokens of PKCS11 module '" +:+ modulePath +:+ "'" +:+ nl
      +:+ String.concat "" (print_token <$> tokens)).

Definition print_key (i : nat) (keyInfo : KeyInfo) : string :=
  "Object " +:+ strconv_Itoa (Z.of_nat i) +:+ nl
  +:+ (if negb (ki_KeyLabel keyInfo =?s "") then tab +:+ "Label: " +:+ ki_KeyLabel keyInfo +:+ nl else "")
  +:+ (if negb (ki_KeyID keyInfo =?s "")
       then tab +:+ "ID: " +:+ hex_EncodeToString (ki_KeyID keyInfo) +:+ nl else "")
  +:+ tab +:+ "URI: " +:+ ki_KeyURI keyInfo +:+ nl.

Definition ListKeysUrisCmd (fuel : nat) (modulePath : string) (slotID : Z) (pin : string) :
    option (res string) :=
  keysInfo ← GetKeysInfo fuel modulePath slotID pin;
  Some (keysInfo ← keysInfo;
        Ok (nl +:+ "Listing URIs of keys in slot '" +:+ strconv_Itoa slotID +:+ "' of PKCS11 module '"
            +:+ modulePath +:+ "'" +:+ nl +:+ String.concat "" (imap print_key keysInfo))).

(** The commands of pkcs11-tool (pkcs11_tool.go), with their flags. *)
Inductive command :=
  | list_tokens (modulePath : string)
  | list_keys_uris (modulePath : string) (slotID : Z) (pin : string).

Definition run (fuel : nat) (c : command) : option (res string) :=
  match c with
  | list_tokens modulePath => Some (ListTokensCmd modulePath)
  | list_keys_uris modulePath slotID pin => ListKeysUrisCmd fuel modulePath slotID pin
  end.

End pkcs11cli.
End pkcs11cli.

(** ** What listing promises *)

Section listing.
Context `{X : Ext, P : Pkcs11Ext}.
Import pkcs11cli.

(** A search over the objects [hs], as C_FindObjects documents it: each call gives
    the next objects, at most as many as it asks for, and nothing after the last. *)
Definition searches (session : p11_Session) (hs : list p11_Handle) : Prop :=
  ∀ max k, p11_FindObjects session max k = Ok (take max (drop (max * k) hs)).

Lemma find_loop_all session hs :
  searches session hs → ∀ fuel k,
  20 * k < length hs + 20 → length hs + 20 ≤ 20 * (k + fuel) →
  find_loop fuel session k (take (20 * k) hs) = Some (Ok hs).
Proof.
  intros Hs. induction fuel as [|fuel IH]; intros k Hk Hf; [lia|]. cbn [find_loop].
  rewrite (Hs _ k). unfold maxHandlePerFind. cbn [wrap map_err]. destruct (take 20 (drop (20 * k) hs)) as [|h new] eqn:Hnew.
  - apply (f_equal length) in Hnew. rewrite length_take, length_drop in Hnew. cbn [length] in Hnew.
    rewrite take_ge by lia. done.
  - assert (20 * k < length hs) as Hlt.
    { apply (f_equal length) in Hnew. rewrite length_take, length_drop in Hnew. cbn [length] in Hnew. lia. }
    rewrite <-Hnew, take_take_drop. replace (20 * k + 20) with (20 * S k) by lia. apply IH; lia.
Qed.

(** The keys that are listed: the objects with an identifier or a label. *)
Definition named (attrs : bytes * bytes) : Prop := fst attrs ≠ "" ∨ snd attrs ≠ "".
#[local] Instance named_dec attrs : Decision (named attrs) := _.

Lemma Construct_total conf : complete conf → ∃ uri, Construct conf = Ok uri.
Proof.
  assert (∀ chars s, ∃ e, encode_loop chars s true = Ok e) as Henc.
  { intros chars s. induction s as [|c s [e He]]; cbn; [eauto|]. rewrite He.
    destruct (allowed chars c); cbn; eauto. }
  intros (Hm & Hk & Ht). unfold Construct, EncodeURIComponent.
  apply str_eqb_neq in Hm. rewrite Hm. cbn.
  assert ((KeyLabel conf =?s "") && (KeyID conf =?s "") = false) as ->.
  { apply andb_false_iff. destruct Hk as [Hk%str_eqb_neq|Hk%str_eqb_neq]; auto. }
  assert ((TokenLabel conf =?s "") && bool_decide (SlotID conf = None) = false) as ->.
  { apply andb_false_iff. destruct Ht as [Ht%str_eqb_neq|Ht]; [auto|]. right. by apply bool_decide_eq_false. }
  cbn. destruct (Henc pathAttrValueChars (TokenLabel conf)) as [t ->], (Henc pathAttrValueChars (KeyLabel conf)) as [k ->],
    (Henc queryAttrValueChars (ModulePath conf)) as [m ->], (Henc queryAttrValueChars (Pin conf)) as [p ->].
  cbn. destruct (TokenLabel conf =?s ""), (KeyLabel conf =?s ""), (Pin conf =?s ""); cbn; eauto.
Qed.

Lemma key_info_spec mp slot label pin id kl :
  mp ≠ "" → ∃ l, key_info mp slot label pin id kl = Ok l
    ∧ if decide (named (id, kl)) then ∃ uri, l = [mkKeyInfo kl id uri]
        ∧ Construct (NewPkcs11UriConfigFromInput mp (Some (int_of_uint slot)) label kl id pin) = Ok uri
      else l = [].
Proof.
  intros Hmp. unfold key_info. case_decide as Hn.
  - replace ((id =?s "") && (kl =?s "")) with false.
    2: { symmetry. apply andb_false_iff. destruct Hn as [Hn%str_eqb_neq|Hn%str_eqb_neq]; auto. }
    destruct (Construct_total (NewPkcs11UriConfigFromInput mp (Some (int_of_uint slot)) label kl id pin)) as [uri Hu].
    { split; [done|]. split; [destruct Hn; auto|]. by right. }
    rewrite Hu. cbn. eauto.
  - replace ((id =?s "") && (kl =?s "")) with true; [by eauto|]. symmetry.
    apply andb_true_iff. rewrite !str_eqb_eq. unfold named in Hn. cbn in Hn.
    destruct (decide (id = "")), (decide (kl = "")); naive_solver.
Qed.

(** The entries for the objects with the attributes [attrs]. *)
Definition entries_for (mp : string) (slot : Z) (label pin : string) (attrs : list (bytes * bytes))
    (l : list KeyInfo) : Prop :=
  Forall2 (λ a i, ki_KeyID i = fst a ∧ ki_KeyLabel i = snd a
    ∧ Construct (NewPkcs11UriConfigFromInput mp (Some (int_of_uint slot)) label (snd a) (fst a) pin)
      = Ok (ki_KeyURI i)) (filter named attrs) l.

Lemma key_infos_spec session mp slot label pin hs attrs :
  mp ≠ "" → Forall2 (λ h a, p11_GetAttributeValue session h = Ok a) hs attrs →
  ∃ l, key_infos session mp slot label pin hs = Ok l ∧ entries_for mp slot label pin attrs l.
Proof.
  intros Hmp. unfold entries_for. induction 1 as [|h [id kl] hs attrs Ha Hf IH]; cbn [key_infos].
  { exists []. by split; [|constructor]. }
  destruct (key_info_spec mp slot label pin id kl Hmp) as (l & Hk & Hl).
  destruct IH as (rest & Hrest & Hr). exists (l ++ rest). split; [by rewrite Ha; cbn; rewrite Hk, Hrest|].
  rewrite filter_cons. case_decide; [|by subst].
  destruct Hl as (uri & -> & Hu). cbn. by constructor.
Qed.

(** C33: listing is complete and terminates: when the token answers and gives its
    private keys as many at a time as it is asked for, twenty, list-keys-uris returns after one call more than
    there are batches, and lists, in the order of the token, exactly the keys that
    have an identifier or a label, each with both and with its URI. *)
Theorem list_keys_complete fuel mp slot pin ti p session hs attrs :
  open_token mp slot pin = Ok (ti, p, session) → searches session hs →
  Forall2 (λ h a, p11_GetAttributeValue session h = Ok a) hs attrs →
  p11_FindObjectsFinal session = Ok () → length hs + 20 ≤ 20 * fuel →
  ∃ l, GetKeysInfo fuel mp slot pin = Some (Ok l) ∧ entries_for mp slot (ti_Label ti) p attrs l.
Proof.
  intros Ho Hs Ha Hf Hfuel. unfold GetKeysInfo. rewrite Ho.
  pose proof (find_loop_all session hs Hs fuel 0) as Hloop. rewrite Nat.mul_0_r, take_0 in Hloop.
  rewrite Hloop by lia. cbn. rewrite Hf. cbn.
  destruct (key_infos_spec session mp slot (ti_Label ti) p hs attrs) as (l & Hl & He); [|done|].
  { intros ->. unfold open_token, open_module in Ho. cbn in Ho. done. }
  exists l. by rewrite Hl.
Qed.

Lemma key_infos_elem session mp slot label pin hs l i :
  key_infos session mp slot label pin hs = Ok l → i ∈ l →
  named (ki_KeyID i, ki_KeyLabel i)
  ∧ Construct (NewPkcs11UriConfigFromInput mp (Some (int_of_uint slot)) label (ki_KeyLabel i) (ki_KeyID i) pin)
    = Ok (ki_KeyURI i).
Proof.
  revert l. induction hs as [|h hs IH]; cbn [key_infos]; intros l Hl Hi; go_inv; [by apply not_elem_of_nil in Hi|].
  match goal with H : (let '(_, _) := ?p in _) = Ok _ |- _ => destruct p as [id kl] end. go_inv.
  apply elem_of_app in Hi as [Hi|Hi]; [|by eapply IH].
  match goal with H : key_info _ _ _ _ _ _ = Ok _ |- _ => unfold key_info in H end.
  destruct ((id =?s "") && (kl =?s "")) eqn:Hn; go_inv; [by apply not_elem_of_nil in Hi|].
  apply list_elem_of_singleton in Hi as ->. cbn. split; [|done].
  apply andb_false_iff in Hn as [Hn|Hn]; apply str_eqb_neq in Hn; [by left|by right].
Qed.

(** The URI that is listed for a key opens that key: read back, it leads to the
    same module, slot and PIN, and there to the key with the listed identifier, or
    with the listed label when there is no identifier.  The labels must have no
    plus sign and no ampersand, the module's path and the PIN no plus sign. *)
Theorem listed_uri_opens_key fuel mp slot pin ti p session l i ask :
  open_token mp slot pin = Ok (ti, p, session) → GetKeysInfo fuel mp slot pin = Some (Ok l) → i ∈ l →
  (0 ≤ slot < 2 ^ 64)%Z → p ≠ "" → os_Stat_IsRegular mp = Ok true →
  all_chars path_plain (ti_Label ti) = true → all_chars path_plain (ki_KeyLabel i) = true →
  all_chars query_plain mp = true → all_chars query_plain p = true →
  ∃ conf, Parse url_hierarchical (ki_KeyURI i) = Ok conf
    ∧ pkcs11key.GetKeyWithURIConfig conf ask
      = (ctx ← crypto11_Configure (mkCrypto11Config mp p (Some (int_of_uint slot)) "");
         pkcs11key.open_key ctx (ki_KeyID i) (ki_KeyLabel i))
    ∧ uint_of_int (int_of_uint slot) = slot.
Proof.
  intros Ho Hg Hi Hslot Hp Hreg Hl Hkl Hmp Hpp. unfold GetKeysInfo in Hg. rewrite Ho in Hg.
  destruct (find_loop _ _ _ _) as [hs|]; [|done]. injection Hg as Hg. go_inv.
  match goal with H : key_infos _ _ _ _ _ _ = Ok _ |- _ =>
    destruct (key_infos_elem _ _ _ _ _ _ _ _ H Hi) as [Hn Hc] end.
  assert (mp ≠ "" ∧ filepath_IsAbs mp = true) as [Hmp0 Habs].
  { unfold open_token, open_module in Ho. destruct (mp =?s "") eqn:E0; [done|].
    destruct (filepath_IsAbs mp); [|done]. by apply str_eqb_neq in E0. }
  set (conf := NewPkcs11UriConfigFromInput _ _ _ _ _ _) in Hc.
  destruct (Parse_Construct url_hierarchical conf) as (uri & pa & qa & Hu & Hparse).
  { split; try done. intros s [= <-]. by apply int_of_uint_bounds. }
  { split; [done|]. split; [destruct Hn; [by right|by left]|by right]. }
  rewrite Hc in Hu. injection Hu as <-. eexists. split; [exact Hparse|]. split; [|by apply uint_of_int_of_uint].
  unfold pkcs11key.GetKeyWithURIConfig, pkcs11key.key_pin, pkcs11key.crypto11_config.
  cbn [KeyLabel KeyID TokenLabel SlotID ModulePath Pin conf NewPkcs11UriConfigFromInput].
  replace ((ki_KeyLabel i =?s "") && (ki_KeyID i =?s "")) with false.
  2: { symmetry. apply andb_false_iff. destruct Hn as [Hn%str_eqb_neq|Hn%str_eqb_neq]; auto. }
  rewrite (bool_decide_false (Some _ = None)), andb_false_r, Habs, Hreg by done. cbn.
  apply str_eqb_neq in Hp. by rewrite Hp.
Qed.

End listing.

(** ** Witnesses *)

(** A token in slot 2^63 with two private keys, the second without a name. *)
Definition toy_slot : Z := (2 ^ 63)%Z.

Definition toy_Pkcs11 : Pkcs11Ext := {|
  url_hierarchical _ := Ok ();
  os_Stat_IsRegular _ := Ok true;
  pkcs11_New _ := true;
  p11_Initialize _ := Ok ();
  p11_GetTokenInfo _ slot :=
    if (slot =? toy_slot)%Z then Ok (mkTokenInfo "my token" "" "" "" 4) else Err (error_New "no token");
  p11_GetSlotList _ := Ok [toy_slot];
  p11_Session := unit;
  p11_OpenSession _ _ := Ok ();
  p11_Login _ pin := if pin =?s "1234" then Ok () else Err (error_New "CKR_PIN_INCORRECT");
  p11_Handle := nat;
  p11_FindObjectsInit _ := Ok ();
  p11_FindObjects _ max k := Ok (take max (drop (max * k) [7; 8]));
  p11_FindObjectsFinal _ := Ok ();
  p11_GetAttributeValue _ h := if bool_decide (h = 7) then Ok ("id", "key 1") else Ok ("", "");
  term_ReadPassword := Ok "1234";
  c11_Ctx := Crypto11Config;
  crypto11_Configure conf := Ok conf;
  c11_FindKeyPair _ _ _ := Ok (Some (mkCryptoSigner (ecdsa_PublicKey "k") (λ h, Ok ("sig:" +:+ h))));
  c11_FindCertificate _ _ _ := Ok None |}.

Lemma list_keys_complete_witness :
  ∃ l, pkcs11cli.GetKeysInfo (X := toy) (P := toy_Pkcs11) 2 "/m.so" toy_slot "" = Some (Ok l)
    ∧ entries_for "/m.so" toy_slot "my token" "1234" [("id", "key 1"); ("", "")] l.
Proof.
  apply (list_keys_complete (X := toy) (P := toy_Pkcs11) 2 "/m.so" toy_slot ""
    (mkTokenInfo "my token" "" "" "" 4) "1234" () [7; 8]).
  - reflexivity.
  - by intros k.
  - by repeat constructor.
  - reflexivity.
  - cbn. lia.
Defined.

Definition toy_listed : pkcs11cli.KeyInfo := pkcs11cli.mkKeyInfo "key 1" "id"
  "pkcs11:token=my%20token;slot-id=-9223372036854775808;id=%69%64;object=key%201?module-path=/m.so&pin-value=1234".

Lemma listed_uri_opens_key_witness :
  ∃ conf, Parse (X := toy) (λ _, Ok ()) (pkcs11cli.ki_KeyURI toy_listed) = Ok conf
    ∧ is_ok (pkcs11key.GetKeyWithURIConfig (X := toy) (P := toy_Pkcs11) conf false) = true.
Proof.
  destruct (listed_uri_opens_key (X := toy) (P := toy_Pkcs11) 2 "/m.so" toy_slot ""
    (mkTokenInfo "my token" "" "" "" 4) "1234" () [toy_listed] toy_listed false)
    as (conf & Hc & Hk & _).
  - reflexivity.
  - vm_compute. reflexivity.
  - by left.
  - unfold toy_slot. lia.
  - done.
  - reflexivity.
  - reflexivity.
  - reflexivity.
  - reflexivity.
  - reflexivity.
  - exists conf. split; [exact Hc|]. rewrite Hk. reflexivity.
Defined.
