(* ===== verification/Piv.v ===== *)
(** * Keys on PIV tokens

    pkg/cosign/pivkey: util.go (names of slots and policies) and pivkey.go (the key
    in a slot of the token), cmd/cosign/cli/pivcli/commands.go and
    cmd/cosign/cli/piv_tool.go (managing the token).

    The attached tokens are the state, [Device], of the library piv-go and of the
    token, which are a parameter: [PivExt] says what each call reads and how it
    changes the state.  The prompts that ask the user and the random numbers are
    members too. *)
From S2P Require Import Prelude GoStd GoUrl External Concrete Pkcs11 Pkcs11Key.

(** ** util.go: names of slots and policies *)

Inductive Slot := SlotAuthentication | SlotSignature | SlotKeyManagement | SlotCardAuthentication
  | RetiredSlot (key : Z).
Inductive PINPolicy := PINPolicyNever | PINPolicyOnce | PINPolicyAlways | PINPolicyInvalid.
Inductive TouchPolicy := TouchPolicyNever | TouchPolicyAlways | TouchPolicyCached | TouchPolicyInvalid.

Definition SlotForName (slotName : string) : option Slot :=
  if slotName =?s "" then Some SlotSignature
  else if slotName =?s "authentication" then Some SlotAuthentication
  else if slotName =?s "signature" then Some SlotSignature
  else if slotName =?s "card-authentication" then Some SlotCardAuthentication
  else if slotName =?s "key-management" then Some SlotKeyManagement
  else None.

Definition defaultPINPolicyForSlot (slot : Slot) : res PINPolicy :=
  match slot with
  | SlotAuthentication => Ok PINPolicyOnce
  | SlotSignature => Ok PINPolicyAlways
  | SlotKeyManagement => Ok PINPolicyOnce
  | SlotCardAuthentication => Ok PINPolicyNever
  | RetiredSlot _ => Panic "invalid value for slot"
  end.
Definition defaultTouchPolicyForSlot (slot : Slot) : res TouchPolicy :=
  match slot with
  | SlotAuthentication => Ok TouchPolicyCached
  | SlotSignature => Ok TouchPolicyAlways
  | SlotKeyManagement => Ok TouchPolicyCached
  | SlotCardAuthentication => Ok TouchPolicyNever
  | RetiredSlot _ => Panic "invalid value for slot"
  end.
Definition PINPolicyForName (policyName : string) (slot : Slot) : res PINPolicy :=
  if policyName =?s "" then defaultPINPolicyForSlot slot
  else if policyName =?s "never" then Ok PINPolicyNever
  else if policyName =?s "once" then Ok PINPolicyOnce
  else if policyName =?s "always" then Ok PINPolicyAlways
  else Ok PINPolicyInvalid.
Definition TouchPolicyForName (policyName : string) (slot : Slot) : res TouchPolicy :=
  if policyName =?s "" then defaultTouchPolicyForSlot slot
  else if policyName =?s "never" then Ok TouchPolicyNever
  else if policyName =?s "cached" then Ok TouchPolicyCached
  else if policyName =?s "always" then Ok TouchPolicyAlways
  else Ok TouchPolicyInvalid.

(** The slots that have a name have policies by default. *)
Lemma piv_defaults slotName slot policyName :
  SlotForName slotName = Some slot →
  is_ok (PINPolicyForName policyName slot) = true ∧ is_ok (TouchPolicyForName policyName slot) = true.
Proof.
  unfold SlotForName, PINPolicyForName, TouchPolicyForName. intros H.
  destruct slot; [..|by repeat case_match]; repeat case_match; done.
Qed.

(** ** The library *)

(** piv.KeyAuth, with getPin as the prompt; piv.Key; piv.Attestation *)
Record KeyAuth := mkKeyAuth { ka_PIN : string; ka_PINPrompt : option (res string) }.

Record PivKey := mkPivKey {
  pk_Algorithm : string; pk_PINPolicy : PINPolicy; pk_TouchPolicy : TouchPolicy }.

Inductive Formfactor := FormfactorUSBAKeychain | FormfactorUSBANano | FormfactorUSBCKeychain
  | FormfactorUSBCNano | FormfactorUSBCLightningKeychain | FormfactorOther (n : Z).

Record Attestation := mkAttestation {
  at_Version : Z * Z * Z;
  at_Serial : Z;
  at_Formfactor : Formfactor;
  at_PINPolicy : PINPolicy }.

Class PivExt := {
  Device : Type;
  YubiKey : Type;
  piv_Cards : Device → res (list string);
  piv_Open : string → Device → res YubiKey;
  yk_Attest : YubiKey → Slot → Device → res Certificate;
  yk_AttestationCertificate : YubiKey → Device → res Certificate;
  yk_Certificate : YubiKey → Slot → Device → res Certificate;
  (* the key, which may not be a crypto.Signer *)
  yk_PrivateKey : YubiKey → Slot → PublicKey → KeyAuth → Device → res (option CryptoSigner);
  yk_SetManagementKey : YubiKey → bytes → bytes → M Device unit;
  yk_SetPIN : YubiKey → string → string → M Device unit;
  yk_SetPUK : YubiKey → string → string → M Device unit;
  yk_Reset : YubiKey → M Device unit;
  yk_Unblock : YubiKey → string → string → M Device unit;
  yk_GenerateKey : YubiKey → bytes → Slot → PivKey → M Device PublicKey;
  piv_Verify : Certificate → Certificate → res Attestation;
  piv_DefaultPIN : string;
  piv_DefaultPUK : string;
  piv_DefaultManagementKey : bytes;
  prompt_Run : string → res string;
  prompt_ReadPIN : res string;                          (* term.ReadPassword *)
  prompt_ToLower : string → string;                     (* unicode.ToLower, on other characters *)
  rand_ReadFull : nat → res bytes;
  pem_Encode : string → bytes → string;                 (* type, bytes *)
  pkix_Name_String : bytes → string;
  json_Marshal_Attestations : option (string * string * Attestation) → res string }.

(** ** pivkey.go *)

Module pivkey.
Section pivkey.
Context `{X : Ext, V : PivExt}.

Definition KeyNotInitialized : error := error_New "key not initialized".
Definition SlotNotSet : error := error_New "slot not set".

Record Key := mkKey {
  k_Pub : option PublicKey;
  k_Priv : option CryptoSigner;
  k_card : option YubiKey;
  k_slot : option Slot;
  k_pin : string }.

Definition GetKey (d : Device) : res Key :=
  cards ← piv_Cards d;
  match cards with
  | [] => Err (error_New "no cards found")
  | [card] => yk ← piv_Open card d; Ok (mkKey None None (Some yk) None "")
  | _ => Err (error_New ("found " +:+ strconv_Itoa (Z.of_nat (length cards))
                         +:+ " cards, please attach only one"))
  end.

Definition SetSlot (slot : string) (k : Key) : Key :=
  mkKey (k_Pub k) (k_Priv k) (k_card k) (SlotForName slot) (k_pin k).
Definition Authenticate (pin : string) (k : Key) : Key :=
  mkKey (k_Pub k) (k_Priv k) (k_card k) (k_slot k) pin.

(** A name that is not one of a slot leaves the slot nil. *)
Definition GetKeyWithSlot (slot : string) (d : Device) : res Key :=
  card ← wrap "open key" (GetKey d); Ok (SetSlot slot card).

(** The card stays. *)
Definition Close (k : Key) : res Key :=
  card ← deref (k_card k); Ok (mkKey None None (Some card) None "").

Definition the_card (k : Key) : res YubiKey :=
  match k_card k with Some card => Ok card | None => Err KeyNotInitialized end.

(** The slot is dereferenced. *)
Definition Attest (k : Key) (d : Device) : res Certificate :=
  card ← the_card k; slot ← deref (k_slot k); yk_Attest card slot d.

Definition GetAttestationCertificate (k : Key) (d : Device) : res Certificate :=
  card ← the_card k; yk_AttestationCertificate card d.

Definition SetManagementKey (k : Key) (old new : bytes) : M Device unit :=
  card ← lift (the_card k); yk_SetManagementKey card old new.
Definition SetPIN (k : Key) (old new : string) : M Device unit :=
  card ← lift (the_card k); yk_SetPIN card old new.
Definition SetPUK (k : Key) (old new : string) : M Device unit :=
  card ← lift (the_card k); yk_SetPUK card old new.
Definition Reset (k : Key) : M Device unit := card ← lift (the_card k); yk_Reset card.
Definition Unblock (k : Key) (puk newPIN : string) : M Device unit :=
  card ← lift (the_card k); yk_Unblock card puk newPIN.
Definition GenerateKey (k : Key) (mgmtKey : bytes) (slot : Slot) (opts : PivKey) : M Device PublicKey :=
  card ← lift (the_card k); yk_GenerateKey card mgmtKey slot opts.

(** The key of the attestation is used, not the one that was stored. *)
Definition VerifySignature (k : Key) (d : Device) (sig msg : bytes) : res unit :=
  let digest := sha256_Sum256 msg in
  att ← wrap "get attestation" (Attest k d);
  verify_digest (cert_PublicKey att) digest sig.

Definition the_slot (k : Key) : res (YubiKey * Slot) :=
  card ← the_card k;
  match k_slot k with Some slot => Ok (card, slot) | None => Err SlotNotSet end.

(** The key with the public key of the attestation. *)
Definition attested (k : Key) (d : Device) : res (Key * Certificate) :=
  '(card, slot) ← the_slot k;
  cert ← yk_Attest card slot d;
  Ok (mkKey (Some (cert_PublicKey cert)) (k_Priv k) (k_card k) (k_slot k) (k_pin k), cert).

Definition as_Verifier (k : Key) (d : Device) : Verifier :=
  mkVerifier (VerifySignature k d) (deref (k_Pub k)).

Definition Verifier_ (k : Key) (d : Device) : res Verifier :=
  '(k, _) ← attested k d; Ok (as_Verifier k d).

Definition Certificate_ (k : Key) (d : Device) : res Certificate :=
  '(card, slot) ← the_slot k; yk_Certificate card slot d.

(** The assertion [k.Priv.(crypto.Signer)] *)
Definition the_signer (k : Key) : res CryptoSigner :=
  match k_Priv k with Some signer => Ok signer | None => Panic "interface conversion" end.

Definition Sign (k : Key) (rawPayload : bytes) : res (bytes * bytes) :=
  signer ← the_signer k;
  let h := sha256_Sum256 rawPayload in
  sig ← cs_Sign signer h;
  Ok (sig, h).

Definition SignMessage (k : Key) (message : bytes) : res bytes :=
  signer ← the_signer k; cs_Sign signer (sha256_Sum256 message).

Definition SignerVerifier_ (k : Key) (d : Device) : res SignerVerifier :=
  '(card, slot) ← the_slot k;
  '(k, cert) ← attested k d;
  let auth := if k_pin k =?s "" then mkKeyAuth "" (Some prompt_ReadPIN) else mkKeyAuth (k_pin k) None in
  privKey ← yk_PrivateKey card slot (cert_PublicKey cert) auth d;
  let k := mkKey (k_Pub k) privKey (k_card k) (k_slot k) (k_pin k) in
  Ok (mkSignerVerifier (SignMessage k) (as_Verifier k d)).

End pivkey.
Arguments Key {_}.
End pivkey.

(** ** pivcli/commands.go *)

Module pivcli.
Section pivcli.
Context `{X : Ext, V : PivExt}.

Definition Confirm (p : string) : bool :=
  match prompt_Run p with Ok result => strings_ToLower prompt_ToLower result =?s "y" | _ => false end.

Fixpoint zeros (n : nat) : bytes :=
  match n with 0 => "" | S n => String (ascii_of_nat 0) (zeros n) end.

(** A short key is padded. *)
Definition keyBytes (s : string) : res bytes :=
  if s =?s "" then Ok piv_DefaultManagementKey
  else if (24 <? String.length s)%nat then Err (error_New "key too long, must be <24 characters")
  else Ok (s +:+ zeros (24 - String.length s)).

Definition randomManagementKey : res bytes :=
  newKeyBytes ← rand_ReadFull 24;
  ensure (String.length newKeyBytes =? 24)%nat (error_New "short read from random");;
  Ok newKeyBytes.

Definition or_default (s default : string) : string := if s =?s "" then default else s.

Definition SetManagementKeyCmd (oldKey newKey : string) (randomKey : bool) : M Device unit :=
  yk ← reads pivkey.GetKey;
  oldBytes ← lift (keyBytes oldKey);
  if randomKey && negb (Confirm "Resetting management key to random value. You must factory reset the device to change this value")
  then mret ()
  else
    newBytes ← lift (if randomKey then randomManagementKey else keyBytes newKey);
    if negb (Confirm "Setting new management key. This will overwrite the previous key.") then mret ()
    else pivkey.SetManagementKey yk oldBytes newBytes.

Definition SetPukCmd (oldPuk newPuk : string) : M Device unit :=
  yk ← reads pivkey.GetKey;
  let oldPuk := or_default oldPuk piv_DefaultPUK in
  let newPuk := or_default newPuk piv_DefaultPUK in
  if negb (Confirm "Setting new PUK. This will overwrite the previous PUK.") then mret ()
  else pivkey.SetPUK yk oldPuk newPuk.

Definition UnblockCmd (oldPuk newPin : string) : M Device unit :=
  yk ← reads pivkey.GetKey;
  let oldPuk := or_default oldPuk piv_DefaultPUK in
  let newPin := or_default newPin piv_DefaultPIN in
  if negb (Confirm "Unblocking the device. This will set a new pin.") then mret ()
  else pivkey.Unblock yk oldPuk newPin.

Definition SetPinCmd (oldPin newPin : string) : M Device unit :=
  yk ← reads pivkey.GetKey;
  let oldPin := or_default oldPin piv_DefaultPIN in
  let newPin := or_default newPin piv_DefaultPIN in
  if negb (Confirm "Setting new pin. This will overwrite the previous pin.") then mret ()
  else pivkey.SetPIN yk oldPin newPin.

Record Attestations := mkAttestations {
  as_DeviceCert : Certificate;
  as_KeyCert : Certificate;
  as_DeviceCertPem : string;
  as_KeyCertPem : string;
  as_KeyAttestation : Attestation }.

Definition toPem (c : Certificate) : string := pem_Encode "CERTIFICATE" (cert_Raw c).

Definition formFactorString (ff : Formfactor) : string :=
  match ff with
  | FormfactorUSBAKeychain => "USB A Keychain"
  | FormfactorUSBANano => "USB A Nano"
  | FormfactorUSBCKeychain => "USB C Keychain"
  | FormfactorUSBCNano => "USB C Nano"
  | FormfactorUSBCLightningKeychain => "USB C Lighting Keychain"
  | FormfactorOther n => "unknown: " +:+ strconv_Itoa n
  end.

Definition pinPolicyStr (pp : PINPolicy) : string :=
  match pp with
  | PINPolicyAlways => "Always"
  | PINPolicyNever => "Never"
  | PINPolicyOnce => "Once"
  | PINPolicyInvalid => "unknown"
  end.

(** The standard output. *)
Definition Output (a : Attestations) : string :=
  let '(major, minor, patch) := at_Version (as_KeyAttestation a) in
  toPem (as_DeviceCert a) +:+ nl
  +:+ toPem (as_KeyCert a) +:+ nl
  +:+ nl
  +:+ "  Issuer: " +:+ pkix_Name_String (cert_RawIssuer (as_DeviceCert a)) +:+ nl
  +:+ "  Form factor: " +:+ formFactorString (at_Formfactor (as_KeyAttestation a)) +:+ nl
  +:+ "  PIN Policy: " +:+ pinPolicyStr (at_PINPolicy (as_KeyAttestation a)) +:+ nl
  +:+ "  Serial number: " +:+ strconv_Itoa (at_Serial (as_KeyAttestation a)) +:+ nl
  +:+ "  Version: " +:+ strconv_Itoa major +:+ "." +:+ strconv_Itoa minor +:+ "."
  +:+ strconv_Itoa patch +:+ nl.

Definition AttestationCmd (slotArg : string) (d : Device) : res Attestations :=
  yk ← pivkey.GetKeyWithSlot slotArg d;
  deviceCert ← pivkey.GetAttestationCertificate yk d;
  keyCert ← pivkey.Attest yk d;
  a ← piv_Verify deviceCert keyCert;
  Ok (mkAttestations deviceCert keyCert (toPem deviceCert) (toPem keyCert) a).

(** Both policies come from the argument for the PIN policy. *)
Definition generate_policies (slotArg pinPolicyArg touchPolicyArg : string) :
    res (Slot * PINPolicy * TouchPolicy) :=
  match SlotForName slotArg with
  | None => Err flag_ErrHelp
  | Some slot =>
      pinPolicy ← PINPolicyForName pinPolicyArg slot;
      ensure (match pinPolicy with PINPolicyInvalid => false | _ => true end) flag_ErrHelp;;
      touchPolicy ← TouchPolicyForName pinPolicyArg slot;
      ensure (match touchPolicy with TouchPolicyInvalid => false | _ => true end) flag_ErrHelp;;
      Ok (slot, pinPolicy, touchPolicy)
  end.

(** Generate the key once the management key is known, and print it. *)
Definition generate (yk : pivkey.Key) (keyBytes : bytes) (slot : Slot) (key : PivKey) (slotArg : string) :
    M Device string :=
  if negb (Confirm "Generating new signing key. This will destroy any previous keys.") then mret "" else
  pubKey ← pivkey.GenerateKey yk keyBytes slot key;
  b ← lift (x509_MarshalPKIXPublicKey pubKey);
  let pemBytes := pem_Encode "PUBLIC KEY" b in
  att ← reads (AttestationCmd slotArg);
  mret (pemBytes +:+ nl +:+ Output att).

Definition GenerateKeyCmd (managementKey : string) (randomKey : bool)
    (slotArg pinPolicyArg touchPolicyArg : string) : M Device string :=
  '(slot, pinPolicy, touchPolicy) ← lift (generate_policies slotArg pinPolicyArg touchPolicyArg);
  yk ← reads pivkey.GetKey;
  keyBytes ← lift (keyBytes managementKey);
  let key := mkPivKey "EC256" pinPolicy touchPolicy in
  if randomKey then
    if negb (Confirm "Resetting management key to random value. You must factory reset the device to change this value")
    then mret ""
    else
      newKeyBytes ← lift randomManagementKey;
      pivkey.SetManagementKey yk keyBytes newKeyBytes;;
      generate yk newKeyBytes slot key slotArg
  else generate yk keyBytes slot key slotArg.

Definition ResetKeyCmd : M Device unit :=
  yk ← reads pivkey.GetKey;
  if negb (Confirm "Resetting key to factory defaults. This will destroy all values on device.") then mret ()
  else pivkey.Reset yk.

(** ** piv_tool.go *)

(** RunE of the attestation command: what it prints.  The result of AttestationCmd
    is used before its error is looked at; a nil result has no fields. *)
Definition pivToolAttestation (slot output : string) (d : Device) : res string :=
  match AttestationCmd slot d with
  | Panic why => Panic why
  | Ok a =>
      if output =?s "text" then Ok (Output a)
      else if output =?s "json" then
        b ← json_Marshal_Attestations (Some (as_DeviceCertPem a, as_KeyCertPem a, as_KeyAttestation a));
        Ok (b +:+ nl)
      else Ok ""
  | Err err =>
      if output =?s "text" then Panic "nil dereference"
      else if output =?s "json" then _ ← json_Marshal_Attestations None; Err err
      else Err err
  end.

(** The commands of piv-tool, with their flags; the persistent flag -f, --no-input of
    the tool is [pivToolForce], which no command reads. *)
Inductive command :=
  | set_management_key (oldKey newKey : string) (randomKey : bool)
  | set_pin (oldPIN newPIN : string)
  | set_puk (oldPUK newPUK : string)
  | unblock (puk newPIN : string)
  | attestation (slot output : string)
  | generate_key (managementKey : string) (randomKey : bool) (slot pinPolicy touchPolicy : string)
  | reset.

Definition run (pivToolForce : bool) (c : command) : M Device string :=
  match c with
  | set_management_key o n r => SetManagementKeyCmd o n r;; mret ""
  | set_pin o n => SetPinCmd o n;; mret ""
  | set_puk o n => SetPukCmd o n;; mret ""
  | unblock p n => UnblockCmd p n;; mret ""
  | attestation s o => reads (pivToolAttestation s o)
  | generate_key m r s p t => GenerateKeyCmd m r s p t
  | reset => ResetKeyCmd;; mret ""
  end.

End pivcli.
End pivcli.

(** ** What the commands promise *)

Section promises.
Context `{X : Ext, V : PivExt}.
Import pivcli.

(** A call that leaves the tokens as they are. *)
Definition untouched {A} (m : M Device A) : Prop := ∀ d, fst (m d) = d.

Lemma untouched_ret {A} (a : A) : untouched (mret a).
Proof. done. Qed.
Lemma untouched_lift {A} (r : res A) : untouched (lift r).
Proof. done. Qed.
Lemma untouched_reads {A} (f : Device → res A) : untouched (reads f).
Proof. done. Qed.
Lemma untouched_bind {A B} (m : M Device A) (f : A → M Device B) :
  untouched m → (∀ a, untouched (f a)) → untouched (m ≫= f).
Proof.
  intros Hm Hf d. unfold mbind, M_bind. specialize (Hm d). destruct (m d) as [d1 [a| |]]; cbn in *; subst; [apply Hf|done..].
Qed.
Hint Resolve untouched_ret untouched_lift untouched_reads untouched_bind : go.

(** The questions that a command may ask. *)
Definition questions (c : command) : list string :=
  match c with
  | set_management_key _ _ r =>
      (if r then ["Resetting management key to random value. You must factory reset the device to change this value"] else [])
      ++ ["Setting new management key. This will overwrite the previous key."]
  | set_pin _ _ => ["Setting new pin. This will overwrite the previous pin."]
  | set_puk _ _ => ["Setting new PUK. This will overwrite the previous PUK."]
  | unblock _ _ => ["Unblocking the device. This will set a new pin."]
  | attestation _ _ => []
  | generate_key _ r _ _ _ =>
      (if r then ["Resetting management key to random value. You must factory reset the device to change this value"] else [])
      ++ ["Generating new signing key. This will destroy any previous keys."]
  | reset => ["Resetting key to factory defaults. This will destroy all values on device."]
  end.

Lemma untouched_declined {A} p (a : A) m :
  Confirm p = false → untouched (if negb (Confirm p) then mret a else m).
Proof. by intros ->. Qed.
Hint Resolve untouched_declined : go.

(** C35: piv-tool, as it is, changes a token only with the user's consent: if the user
    does not answer yes to the questions of a command, the attached tokens are as they
    were, whatever the arguments and whether the command succeeds or not.  That holds
    with the flag -f, --no-input too: its help and the documentation say that it skips
    warnings and confirmations, but no command reads it, and the outcome is the same
    with and without it. *)
Theorem piv_declined_unchanged f c d d' r :
  (∀ p, p ∈ questions c → Confirm p = false) → run f c d = (d', r) →
  d' = d ∧ run (negb f) c d = (d', r).
Proof.
  intros Hq Hr. split; [|by rewrite <- Hr].
  enough (untouched (run f c)) as Hu by (specialize (Hu d); by rewrite Hr in Hu).
  destruct c as [o n k|o n|o n|p n|s o|m k s p t|]; cbn [run questions] in *;
    try (apply untouched_bind; [apply untouched_bind; [auto with go|]; intros yk; apply untouched_declined, Hq; by left|auto with go]).
  - apply untouched_bind; [|auto with go]. apply untouched_bind; [auto with go|]. intros yk.
    apply untouched_bind; [auto with go|]. intros old. destruct k; cbn [andb].
    + rewrite (Hq _ (list_elem_of_here _ _)). apply untouched_ret.
    + apply untouched_bind; [auto with go|]. intros new. apply untouched_declined, Hq. by left.
  - apply untouched_reads.
  - apply untouched_bind; [auto with go|]. intros [[slot pp] tp].
    do 2 (apply untouched_bind; [auto with go|]; intros ?). destruct k.
    + by apply untouched_declined, Hq, list_elem_of_here.
    + by apply untouched_declined, Hq, list_elem_of_here.
Qed.

(** Generate-key does not use the touch policy that it is asked for: the
    argument has no effect, the touch policy is the one named like the PIN policy,
    and so the PIN policy "once", which is not the name of a touch policy, is
    always refused. *)
Theorem generate_key_touch_policy m r slot pin touch touch' d :
  GenerateKeyCmd m r slot pin touch d = GenerateKeyCmd m r slot pin touch' d
  ∧ (∀ s p t, generate_policies slot pin touch = Ok (s, p, t) → TouchPolicyForName pin s = Ok t)
  ∧ (pin = "once" → GenerateKeyCmd m r slot pin touch d = (d, Err flag_ErrHelp)).
Proof.
  split; [done|]. split.
  - intros s p t. unfold generate_policies. destruct (SlotForName slot) as [s0|]; [|done]. intros H. by go_inv.
  - intros ->. unfold GenerateKeyCmd, generate_policies, lift, mbind at 1, M_bind at 1.
    by destruct (SlotForName slot) as [s0|].
Qed.

(** The attestation command crashes where it should report an error: on an
    unknown name of a slot, once the certificate of the token was read; and, with
    its default output, whenever the attestation fails, since the missing result is
    printed first. *)
Theorem piv_attestation_crashes slot d :
  (SlotForName slot = None → ∀ yk c, pivkey.GetKeyWithSlot slot d = Ok yk →
     pivkey.GetAttestationCertificate yk d = Ok c → is_panic (AttestationCmd slot d) = true)
  ∧ ∀ e, AttestationCmd slot d = Err e → is_panic (pivToolAttestation slot "text" d) = true.
Proof.
  split.
  - intros Hs yk c Hk Hc. unfold AttestationCmd. rewrite Hk. cbn. rewrite Hc. cbn. unfold pivkey.Attest.
    unfold pivkey.GetKeyWithSlot in Hk. apply bind_Ok in Hk as (k & _ & [= <-]).
    unfold pivkey.GetAttestationCertificate in Hc. apply bind_Ok in Hc as (card & -> & _). cbn. by rewrite Hs.
  - intros e He. unfold pivToolAttestation. by rewrite He.
Qed.

(** What a token and its library are relied on for: the private key of a slot signs
    for the public key that was attested. *)
Definition signs_for (pub : PublicKey) (signer : CryptoSigner) : Prop :=
  ∀ digest sig, cs_Sign signer digest = Ok sig → verify_digest pub digest sig = Ok ().

(** What is signed with the key in a slot is accepted by the verifier that comes with
    it, and by the verifier of the slot. *)
Theorem piv_sign_verify slot d k sv v msg sig :
  pivkey.GetKeyWithSlot slot d = Ok k → pivkey.SignerVerifier_ k d = Ok sv → pivkey.Verifier_ k d = Ok v →
  (∀ card s pub auth signer, yk_PrivateKey card s pub auth d = Ok (Some signer) → signs_for pub signer) →
  SignMessage sv msg = Ok sig →
  VerifySignature (sv_Verifier sv) sig msg = Ok () ∧ VerifySignature v sig msg = Ok ()
  ∧ Verifier_PublicKey (sv_Verifier sv) = Verifier_PublicKey v.
Proof.
  intros _ Hsv Hv Hlaw Hsig. unfold pivkey.SignerVerifier_, pivkey.Verifier_, pivkey.attested in *.
  destruct (pivkey.the_slot k) as [[card s]| |] eqn:Hs; cbn in Hsv, Hv; [|done..].
  destruct (yk_Attest card s d) as [cert| |] eqn:Ha; cbn in Hsv, Hv; [|done..].
  apply bind_Ok in Hsv as (priv & Hp & [= <-]). injection Hv as <-. cbn in Hsig |- *.
  assert (∀ pub pr, pivkey.VerifySignature (pivkey.mkKey pub pr (pivkey.k_card k) (pivkey.k_slot k) (pivkey.k_pin k)) d sig msg = Ok ())
    as Hver; [|by rewrite !Hver].
  intros pub pr. unfold pivkey.VerifySignature, pivkey.Attest. unfold pivkey.the_slot, pivkey.the_card in *. cbn.
  destruct (pivkey.k_card k) as [c|]; [|done]. destruct (pivkey.k_slot k) as [s'|]; [|done].
  injection Hs as -> ->. cbn. rewrite Ha. cbn. unfold pivkey.SignMessage, pivkey.the_signer in Hsig. cbn in Hsig.
  destruct priv as [signer|]; [|done]. by apply (Hlaw _ _ _ _ _ Hp).
Qed.

End promises.

(** ** Witnesses *)

(** One token, whose state is its PIN; the user answers no. *)
Definition toy_piv_cert : Certificate :=
  mkCertificate "piv" (ecdsa_PublicKey "k") [] [] [] [] [] 0 0 "" "".

Definition toy_Piv : PivExt := {|
  Device := string;
  YubiKey := unit;
  piv_Cards _ := Ok ["Yubico"];
  piv_Open _ _ := Ok ();
  yk_Attest _ _ _ := Ok toy_piv_cert;
  yk_AttestationCertificate _ _ := Ok toy_piv_cert;
  yk_Certificate _ _ _ := Err (error_New "no certificate");
  yk_PrivateKey _ _ pub _ _ :=
    match pub with
    | ecdsa_PublicKey k => Ok (Some (mkCryptoSigner pub (λ h, Ok (k +:+ h))))
    | _ => Ok None
    end;
  yk_SetManagementKey _ _ _ := mret ();
  yk_SetPIN _ old new := λ pin,
    if pin =?s old then (new, Ok ()) else (pin, Err (error_New "wrong PIN"));
  yk_SetPUK _ _ _ := mret ();
  yk_Reset _ := λ _, ("123456", Ok ());
  yk_Unblock _ _ pin := λ _, (pin, Ok ());
  yk_GenerateKey _ _ _ _ := mret (ecdsa_PublicKey "k");
  piv_Verify _ _ := Err (error_New "not attested");
  piv_DefaultPIN := "123456";
  piv_DefaultPUK := "12345678";
  piv_DefaultManagementKey := "010203040506070801020304";
  prompt_Run _ := Ok "n";
  prompt_ReadPIN := Ok "123456";
  prompt_ToLower s := s;
  rand_ReadFull n := Ok (pivcli.zeros n);
  pem_Encode t b := t +:+ b;
  pkix_Name_String b := b;
  json_Marshal_Attestations _ := Ok "{}" |}.

Lemma piv_declined_unchanged_witness :
  pivcli.run (X := toy) (V := toy_Piv) true pivcli.reset "4321"
    = pivcli.run (X := toy) (V := toy_Piv) false pivcli.reset "4321"
  ∧ fst (pivcli.run (X := toy) (V := toy_Piv) true pivcli.reset "4321") = "4321".
Proof.
  destruct (pivcli.run (X := toy) (V := toy_Piv) true pivcli.reset "4321") as [d' r] eqn:Hr.
  destruct (piv_declined_unchanged (X := toy) (V := toy_Piv) true pivcli.reset "4321" d' r)
    as [-> Hf]; [intros p _; reflexivity | exact Hr |].
  split; [symmetry; exact Hf | reflexivity].
Defined.

Lemma piv_attestation_crashes_witness :
  is_panic (pivcli.AttestationCmd (V := toy_Piv) "9e" "4321") = true
  ∧ is_panic (pivcli.pivToolAttestation (V := toy_Piv) "signature" "text" "4321") = true.
Proof.
  destruct (piv_attestation_crashes (V := toy_Piv) "9e" "4321") as [H1 _].
  destruct (piv_attestation_crashes (V := toy_Piv) "signature" "4321") as [_ H2]. split.
  - eapply H1; reflexivity.
  - eapply H2. reflexivity.
Defined.

Lemma piv_sign_verify_witness :
  ∃ k sv sig, pivkey.GetKeyWithSlot (V := toy_Piv) "" "4321" = Ok k
    ∧ pivkey.SignerVerifier_ (X := toy) (V := toy_Piv) k "4321" = Ok sv
    ∧ SignMessage sv "m" = Ok sig ∧ VerifySignature (sv_Verifier sv) sig "m" = Ok ().
Proof.
  do 3 eexists. split; [reflexivity|]. split; [reflexivity|]. split; [reflexivity|].
  refine (proj1 (piv_sign_verify (X := toy) (V := toy_Piv) "" "4321" _ _ _ "m" _ eq_refl eq_refl eq_refl _ eq_refl)).
  intros card s [] auth signer; cbn; try done. intros [= <-] digest sig [= <-]. cbn.
  by rewrite (proj2 (str_eqb_eq _ _) eq_refl).
Defined.
