(* ===== verification/OciSignature.v ===== *)
(** * oci.Signature and its implementations

    The interface oci.Signature (pkg/oci/signatures.go) has three
    implementations: [static.staticLayer] (pkg/oci/static), the layer read back
    from a registry, [signature.sigLayer] (pkg/oci/signature), and the wrapper
    [mutate.sigWrapper] (pkg/oci/mutate/signature.go).  [Signature] is their
    tagged union and the methods are functions on it.  The invariant
    [Consistent] relates what the accessors return to the annotations that are
    published: it is what makes a signature survive a registry round trip. *)
From S2P Require Import Prelude GoStd External Concrete.

(** ** Annotation keys (pkg/oci/static/signature.go, pkg/oci/signature/layer.go) *)

Definition SignatureAnnotationKey := "dev.cosignproject.cosign/signature".
Definition CertificateAnnotationKey := "dev.sigstore.cosign/certificate".
Definition ChainAnnotationKey := "dev.sigstore.cosign/chain".
Definition BundleAnnotationKey := "dev.sigstore.cosign/bundle".

Definition SimpleSigningMediaType := "application/vnd.dev.cosign.simplesigning.v1+json".
Definition OCIConfigJSON := "application/vnd.oci.image.config.v1+json".

(** The v1.Layer interface of ggcr. *)
Record Layer := mkLayer {
  layer_Digest : res Hash;
  layer_Compressed : res bytes;
  layer_Uncompressed : res bytes;
  layer_Size : res Z;
  layer_MediaType : res string }.

(** A write to a Go map: it panics on a nil map. *)
Definition map_set (m : option (gmap string string)) (k v : string) :
    res (option (gmap string string)) :=
  match m with
  | None => Panic "assignment to entry in nil map"
  | Some m => Ok (Some (<[k := v]> m))
  end.

(** ** Package static: options *)

Module static.

Record options := mkOptions {
  LayerMediaType : string;
  ConfigMediaType : string;
  Bundle : option RekorBundle;
  Cert : option bytes;
  Chain : option bytes;
  Annotations : option (gmap string string) }.

Definition Option := options → options.

Definition WithLayerMediaType (mt : string) : Option := λ o,
  mkOptions mt (ConfigMediaType o) (Bundle o) (Cert o) (Chain o) (Annotations o).
Definition WithConfigMediaType (mt : string) : Option := λ o,
  mkOptions (LayerMediaType o) mt (Bundle o) (Cert o) (Chain o) (Annotations o).
Definition WithAnnotations (ann : option (gmap string string)) : Option := λ o,
  mkOptions (LayerMediaType o) (ConfigMediaType o) (Bundle o) (Cert o) (Chain o) ann.
Definition WithBundle (b : option RekorBundle) : Option := λ o,
  mkOptions (LayerMediaType o) (ConfigMediaType o) b (Cert o) (Chain o) (Annotations o).
Definition WithCertChain (cert chain : option bytes) : Option := λ o,
  mkOptions (LayerMediaType o) (ConfigMediaType o) (Bundle o) cert chain (Annotations o).

Definition set_annotations (a : option (gmap string string)) (o : options) : options :=
  WithAnnotations a o.

(** The functional options applied in order to the defaults. *)
Definition applied (opts : list Option) : options :=
  foldl (λ o opt, opt o)
    (mkOptions SimpleSigningMediaType OCIConfigJSON None None None (Some ∅)) opts.

Definition makeOptions `{X : Ext} (opts : list Option) : res options :=
  let o := applied opts in
  o ← match Cert o with
      | None => Ok o
      | Some c =>
          a ← map_set (Annotations o) CertificateAnnotationKey c;
          a ← map_set a ChainAnnotationKey (default "" (Chain o));
          Ok (set_annotations a o)
      end;
  match Bundle o with
  | None => Ok o
  | Some bu =>
      b ← json_Marshal_RekorBundle bu;
      a ← map_set (Annotations o) BundleAnnotationKey b;
      Ok (set_annotations a o)
  end.

End static.

(** ** The tagged union *)

Inductive Signature :=
  | staticLayer (b : bytes) (b64sig : string) (opts : static.options)
  | sigLayer (layer : Layer) (desc : Descriptor)
  | sigWrapper (wrapped : Signature) (annotations : option (gmap string string))
      (bundle : option RekorBundle) (cert : option Certificate)
      (chain : option (list Certificate)) (mediaType : string).

Module static_ctor.

(** [static.NewSignature], [static.NewAttestation] *)
Definition NewSignature `{X : Ext} (payload : bytes) (b64sig : string)
    (opts : list static.Option) : res Signature :=
  o ← static.makeOptions opts;
  Ok (staticLayer payload b64sig o).

Definition NewAttestation `{X : Ext} (payload : bytes) (opts : list static.Option) :
    res Signature :=
  NewSignature payload "" opts.

End static_ctor.
Export static_ctor.

(** ** Methods *)

Section methods.
Context `{X : Ext}.

(** [sigLayer]'s accessors read the descriptor's annotations. *)
Definition layer_Base64Signature (d : Hash) (a : gmap string string) : res string :=
  match a !! SignatureAnnotationKey with
  | Some s => Ok s
  | None => Err (error_New ("signature layer " +:+ Hash_String d +:+ " is missing annotation"))
  end.

Definition layer_Cert (a : gmap string string) : res (option Certificate) :=
  let certPEM := default "" (a !! CertificateAnnotationKey) in
  if certPEM =?s "" then Ok None
  else certs ← cryptoutils_LoadCertificatesFromPEM certPEM;
       match certs with
       | [] => Panic "index out of range"
       | c :: _ => Ok (Some c)
       end.

Definition layer_Chain (a : gmap string string) : res (list Certificate) :=
  let chainPEM := default "" (a !! ChainAnnotationKey) in
  if chainPEM =?s "" then Ok [] else cryptoutils_LoadCertificatesFromPEM chainPEM.

Definition layer_Bundle (a : gmap string string) : res (option RekorBundle) :=
  let val := default "" (a !! BundleAnnotationKey) in
  if val =?s "" then Ok None
  else b ← wrap "unmarshaling bundle" (json_Unmarshal_RekorBundle val); Ok (Some b).

(** [staticLayer]'s accessors read its options. *)
Definition static_Annotations (b64sig : string) (o : static.options) : gmap string string :=
  <[SignatureAnnotationKey := b64sig]> (default ∅ (static.Annotations o)).

Definition static_Cert (o : static.options) : res (option Certificate) :=
  certs ← cryptoutils_LoadCertificatesFromPEM (default "" (static.Cert o));
  Ok (head certs).

Definition static_Chain (o : static.options) : res (list Certificate) :=
  cryptoutils_LoadCertificatesFromPEM (default "" (static.Chain o)).

Fixpoint Annotations (s : Signature) : res (gmap string string) :=
  match s with
  | staticLayer _ b64sig o => Ok (static_Annotations b64sig o)
  | sigLayer _ d => Ok (desc_Annotations d)
  | sigWrapper w (Some a) _ _ _ _ => Ok a
  | sigWrapper w None _ _ _ _ => Annotations w
  end.

Fixpoint Payload (s : Signature) : res bytes :=
  match s with
  | staticLayer b _ _ => Ok b
  | sigLayer l _ => layer_Compressed l
  | sigWrapper w _ _ _ _ _ => Payload w
  end.

Fixpoint Base64Signature (s : Signature) : res string :=
  match s with
  | staticLayer _ b64sig _ => Ok b64sig
  | sigLayer _ d => layer_Base64Signature (desc_Digest d) (desc_Annotations d)
  | sigWrapper w _ _ _ _ _ => Base64Signature w
  end.

Fixpoint Cert (s : Signature) : res (option Certificate) :=
  match s with
  | staticLayer _ _ o => static_Cert o
  | sigLayer _ d => layer_Cert (desc_Annotations d)
  | sigWrapper _ _ _ (Some c) _ _ => Ok (Some c)
  | sigWrapper w _ _ None _ _ => Cert w
  end.

Fixpoint Chain (s : Signature) : res (list Certificate) :=
  match s with
  | staticLayer _ _ o => static_Chain o
  | sigLayer _ d => layer_Chain (desc_Annotations d)
  | sigWrapper _ _ _ _ (Some c) _ => Ok c
  | sigWrapper w _ _ _ None _ => Chain w
  end.

Fixpoint Bundle (s : Signature) : res (option RekorBundle) :=
  match s with
  | staticLayer _ _ o => Ok (static.Bundle o)
  | sigLayer _ d => layer_Bundle (desc_Annotations d)
  | sigWrapper _ _ (Some b) _ _ _ => Ok (Some b)
  | sigWrapper w _ None _ _ _ => Bundle w
  end.

Fixpoint MediaType (s : Signature) : res string :=
  match s with
  | staticLayer _ _ o => Ok (static.LayerMediaType o)
  | sigLayer l _ => layer_MediaType l
  | sigWrapper w _ _ _ _ mt => if mt =?s "" then MediaType w else Ok mt
  end.

(** [v1.SHA256] of the payload of a static layer *)
Definition v1_SHA256 (b : bytes) : Hash := mkHash "sha256" (hex_EncodeToString (sha256_Sum256 b)).

Fixpoint Digest (s : Signature) : res Hash :=
  match s with
  | staticLayer b _ _ => Ok (v1_SHA256 b)
  | sigLayer l _ => layer_Digest l
  | sigWrapper w _ _ _ _ _ => Digest w
  end.

Fixpoint Uncompressed (s : Signature) : res bytes :=
  match s with
  | staticLayer b _ _ => Ok b
  | sigLayer l _ => layer_Uncompressed l
  | sigWrapper w _ _ _ _ _ => Uncompressed w
  end.

Fixpoint Compressed (s : Signature) : res bytes :=
  match s with
  | staticLayer b _ _ => Ok b
  | sigLayer l _ => layer_Compressed l
  | sigWrapper w _ _ _ _ _ => Compressed w
  end.

Fixpoint Size (s : Signature) : res Z :=
  match s with
  | staticLayer b _ _ => Ok (Z.of_nat (String.length b))
  | sigLayer l _ => layer_Size l
  | sigWrapper w _ _ _ _ _ => Size w
  end.

End methods.

(** ** mutate.Signature *)

Module mutate.

Record signatureOpts := mkSignatureOpts {
  annotations : option (gmap string string);
  bundle : option RekorBundle;
  cert : option bytes;
  chain : option bytes;
  mediaType : string }.

Definition SignatureOption := signatureOpts → signatureOpts.

Definition WithAnnotations (a : option (gmap string string)) : SignatureOption := λ so,
  mkSignatureOpts a (bundle so) (cert so) (chain so) (mediaType so).
Definition WithBundle (b : option RekorBundle) : SignatureOption := λ so,
  mkSignatureOpts (annotations so) b (cert so) (chain so) (mediaType so).
Definition WithCertChain (c ch : option bytes) : SignatureOption := λ so,
  mkSignatureOpts (annotations so) (bundle so) c ch (mediaType so).
Definition WithMediaType (mt : string) : SignatureOption := λ so,
  mkSignatureOpts (annotations so) (bundle so) (cert so) (chain so) mt.

Definition makeSignatureOption (opts : list SignatureOption) : signatureOpts :=
  foldl (λ so opt, opt so) (mkSignatureOpts None None None None "") opts.

(** The loop over the reserved keys of [Signature]: each keeps the value of
    the old annotations, or is deleted. *)
Definition restore_key (oldAnn newAnn : gmap string string) (key : string) :
    gmap string string :=
  match oldAnn !! key with
  | Some val => <[key := val]> newAnn
  | None => delete key newAnn
  end.

Definition new_annotations (so : signatureOpts) (oldAnn : gmap string string) :
    gmap string string :=
  match annotations so with
  | Some a =>
      foldl (restore_key oldAnn)
        (<[SignatureAnnotationKey := default "" (oldAnn !! SignatureAnnotationKey)]> a)
        [BundleAnnotationKey; CertificateAnnotationKey; ChainAnnotationKey]
  | None => oldAnn
  end.

Definition Signature `{X : Ext} (original : OciSignature.Signature)
    (opts : list SignatureOption) : res OciSignature.Signature :=
  let so := makeSignatureOption opts in
  oldAnn ← wrap "could not get annotations from signature to mutate" (Annotations original);
  let newAnn := new_annotations so oldAnn in
  newAnn ← match bundle so with
           | None => Ok newAnn
           | Some bu =>
               b ← json_Marshal_RekorBundle bu;
               Ok (<[BundleAnnotationKey := b]> newAnn)
           end;
  '(newAnn, ncert, nchain) ←
    match cert so with
    | None => Ok (newAnn, None, None)
    | Some c =>
        certs ← cryptoutils_LoadCertificatesFromPEM c;
        let newAnn := <[CertificateAnnotationKey := c]> newAnn in
        cert0 ← match certs with [] => Panic "index out of range" | c0 :: _ => Ok c0 end;
        let newAnn := delete ChainAnnotationKey newAnn in
        match chain so with
        | None => Ok (newAnn, Some cert0, None)
        | Some ch =>
            chcerts ← cryptoutils_LoadCertificatesFromPEM ch;
            Ok (<[ChainAnnotationKey := ch]> newAnn, Some cert0, Some chcerts)
        end
    end;
  Ok (sigWrapper original (Some newAnn) (bundle so) ncert nchain (mediaType so)).

End mutate.

(** ** The invariant: the accessors agree with the published annotations *)

(** Documented behaviour of [cryptoutils.LoadCertificatesFromPEM]: it reads
    blocks until the input is exhausted, so only the empty input has none. *)
Class PemLaws `{X : Ext} : Prop := {
  load_empty : cryptoutils_LoadCertificatesFromPEM "" = Ok [];
  load_nonempty s : cryptoutils_LoadCertificatesFromPEM s = Ok [] → s = "" }.

(** encoding/json on [RekorBundle]: decoding inverts encoding, and the
    encoding of a struct is never empty. *)
Class BundleJsonLaws `{X : Ext} : Prop := {
  bundle_json_roundtrip b s :
    json_Marshal_RekorBundle b = Ok s → json_Unmarshal_RekorBundle s = Ok b;
  bundle_json_nonempty b s : json_Marshal_RekorBundle b = Ok s → s ≠ "" }.

Record Consistent `{X : Ext} (s : Signature) (a : gmap string string) : Prop := {
  con_Annotations : Annotations s = Ok a;
  con_Signature : ∃ b64, Base64Signature s = Ok b64 ∧ a !! SignatureAnnotationKey = Some b64;
  con_Cert : Cert s = layer_Cert a;
  con_Chain : Chain s = layer_Chain a;
  con_Bundle : Bundle s = layer_Bundle a }.

(** The caller's annotations leave the reserved keys alone. *)
Definition no_reserved (a : option (gmap string string)) : Prop :=
  ∀ m, a = Some m →
    m !! CertificateAnnotationKey = None ∧ m !! ChainAnnotationKey = None
    ∧ m !! BundleAnnotationKey = None.

(** The options of a new signature: no reserved annotation, and a chain only
    with a certificate. *)
Definition proper_options (o : static.options) : Prop :=
  no_reserved (static.Annotations o) ∧ (static.Cert o = None → static.Chain o = None).

(** A mutation that replaces the certificate also gives its chain, or the
    original had none. *)
Definition chain_replaced `{X : Ext} (so : mutate.signatureOpts) (s : Signature) : Prop :=
  is_Some (mutate.cert so) → is_Some (mutate.chain so) ∨ Chain s = Ok [].

(** Signatures as the signers build them: a new static signature, then any
    number of mutations. *)
Inductive Built `{X : Ext} : Signature → Prop :=
  | built_new payload b64 opts s :
      proper_options (static.applied opts) →
      NewSignature payload b64 opts = Ok s → Built s
  | built_mutate s opts s' :
      Built s → chain_replaced (mutate.makeSignatureOption opts) s →
      mutate.Signature s opts = Ok s' → Built s'.

Ltac unfold_keys :=
  unfold SignatureAnnotationKey, CertificateAnnotationKey, ChainAnnotationKey,
    BundleAnnotationKey in *.
Ltac keys := unfold_keys; repeat (progress simplify_map_eq || case_decide); try done.

Section consistency.
Context `{X : Ext, PL : !PemLaws, BL : !BundleJsonLaws}.

Lemma layer_Cert_key a a' :
  a !! CertificateAnnotationKey = a' !! CertificateAnnotationKey → layer_Cert a = layer_Cert a'.
Proof. unfold layer_Cert. by intros ->. Qed.
Lemma layer_Chain_key a a' :
  a !! ChainAnnotationKey = a' !! ChainAnnotationKey → layer_Chain a = layer_Chain a'.
Proof. unfold layer_Chain. by intros ->. Qed.
Lemma layer_Bundle_key a a' :
  a !! BundleAnnotationKey = a' !! BundleAnnotationKey → layer_Bundle a = layer_Bundle a'.
Proof. unfold layer_Bundle. by intros ->. Qed.

Lemma layer_Cert_some a c :
  a !! CertificateAnnotationKey = Some c →
  layer_Cert a = (certs ← cryptoutils_LoadCertificatesFromPEM c; Ok (head certs)).
Proof.
  unfold layer_Cert. intros ->. cbn. destruct (c =?s "") eqn:E; autorewrite with go in E.
  - subst. by rewrite load_empty.
  - destruct (cryptoutils_LoadCertificatesFromPEM c) as [[|c0 cs]| |] eqn:L; cbn; try done.
    by apply load_nonempty in L.
Qed.

Lemma layer_Cert_none a : a !! CertificateAnnotationKey = None → layer_Cert a = Ok None.
Proof. unfold layer_Cert. by intros ->. Qed.

Lemma layer_Chain_default a :
  layer_Chain a = cryptoutils_LoadCertificatesFromPEM (default "" (a !! ChainAnnotationKey)).
Proof.
  unfold layer_Chain. destruct (_ =?s "") eqn:E; autorewrite with go in E; [|done].
  by rewrite E, load_empty.
Qed.

Lemma layer_Bundle_none a : a !! BundleAnnotationKey = None → layer_Bundle a = Ok None.
Proof. unfold layer_Bundle. by intros ->. Qed.

Lemma layer_Bundle_some a b s :
  json_Marshal_RekorBundle b = Ok s → a !! BundleAnnotationKey = Some s →
  layer_Bundle a = Ok (Some b).
Proof.
  intros Hm. unfold layer_Bundle. intros ->. cbn.
  rewrite (proj2 (str_eqb_neq _ _) (bundle_json_nonempty _ _ Hm)).
  by rewrite (bundle_json_roundtrip _ _ Hm).
Qed.

(** What [makeOptions] leaves in the annotations. *)
Lemma makeOptions_spec opts o :
  proper_options (static.applied opts) → static.makeOptions opts = Ok o →
  static.Cert o = static.Cert (static.applied opts)
  ∧ static.Chain o = static.Chain (static.applied opts)
  ∧ static.Bundle o = static.Bundle (static.applied opts)
  ∧ (let m := default ∅ (static.Annotations o) in
     m !! CertificateAnnotationKey = static.Cert o
     ∧ default "" (m !! ChainAnnotationKey) = default "" (static.Chain o)
     ∧ match static.Bundle o with
       | None => m !! BundleAnnotationKey = None
       | Some b => ∃ s, json_Marshal_RekorBundle b = Ok s ∧ m !! BundleAnnotationKey = Some s
       end).
Proof.
  unfold static.makeOptions, proper_options, no_reserved.
  destruct (static.applied opts) as [lm cm bu c ch [m|]]; cbn; intros [Hr Hc] Ho.
  2:{ destruct c, bu; cbn in Ho; go_case; naive_solver. }
  destruct (Hr m eq_refl) as (R1 & R2 & R3).
  destruct c as [c|]; [|specialize (Hc eq_refl); subst ch];
    destruct bu as [bu|]; cbn in Ho; go_inv; cbn;
    (split; [done|split; [done|split; [done|]]]); unfold_keys;
    repeat split; simplify_map_eq; eauto.
Qed.

Lemma NewSignature_consistent payload b64 opts s :
  proper_options (static.applied opts) → NewSignature payload b64 opts = Ok s →
  ∃ a, Consistent s a ∧ Payload s = Ok payload ∧ Base64Signature s = Ok b64.
Proof.
  unfold NewSignature. intros Hp Hs. go_inv.
  destruct (makeOptions_spec _ _ Hp ltac:(eassumption)) as (_ & _ & _ & H1 & H2 & H3).
  exists (static_Annotations b64 x). split; [|done]. unfold static_Annotations.
  split; cbn; [done| | | |].
  - exists b64. by simplify_map_eq.
  - unfold static_Cert. destruct (static.Cert x) as [c|] eqn:Ec.
    + symmetry. apply layer_Cert_some. keys.
    + rewrite layer_Cert_none by keys. cbn. by rewrite load_empty.
  - unfold static_Chain. rewrite layer_Chain_default. keys. by rewrite H2.
  - destruct (static.Bundle x) as [b|] eqn:Eb.
    + destruct H3 as (j & Hj & Hm). symmetry. eapply layer_Bundle_some; [done|keys].
    + by rewrite layer_Bundle_none by keys.
Qed.

Lemma new_annotations_reserved so old k :
  k ∈ [BundleAnnotationKey; CertificateAnnotationKey; ChainAnnotationKey] →
  mutate.new_annotations so old !! k = old !! k.
Proof.
  unfold mutate.new_annotations. destruct (mutate.annotations so) as [a|]; [|done].
  cbn. unfold mutate.restore_key. intros Hk.
  assert (k = BundleAnnotationKey ∨ k = CertificateAnnotationKey ∨ k = ChainAnnotationKey)
    as [-> | [-> | ->]] by set_solver;
    unfold_keys; repeat case_match; simplify_map_eq; congruence.
Qed.

Lemma new_annotations_signature so old b64 :
  old !! SignatureAnnotationKey = Some b64 →
  mutate.new_annotations so old !! SignatureAnnotationKey = Some b64.
Proof.
  unfold mutate.new_annotations. destruct (mutate.annotations so) as [a|]; [|done].
  cbn. unfold mutate.restore_key. intros Hk. rewrite Hk.
  unfold_keys; repeat case_match; simplify_map_eq; done.
Qed.

Lemma mutate_consistent s a opts s' :
  Consistent s a → chain_replaced (mutate.makeSignatureOption opts) s →
  mutate.Signature s opts = Ok s' →
  ∃ a', Consistent s' a' ∧ Payload s' = Payload s ∧ Base64Signature s' = Base64Signature s.
Proof.
  intros [HA (b64 & HS1 & HS2) HC HCh HB] Hrep. unfold mutate.Signature, chain_replaced in *.
  set (so := mutate.makeSignatureOption opts) in *. rewrite HA. cbn. intros Hm.
  pose proof (new_annotations_signature so a b64 HS2) as NS.
  pose proof (new_annotations_reserved so a BundleAnnotationKey ltac:(set_solver)) as NB.
  pose proof (new_annotations_reserved so a CertificateAnnotationKey ltac:(set_solver)) as NC.
  pose proof (new_annotations_reserved so a ChainAnnotationKey ltac:(set_solver)) as NCh.
  remember (mutate.new_annotations so a) as n eqn:En. clear En.
  apply bind_Ok in Hm as (n1 & Hb & Hm).
  assert (Hn1 : n1 !! SignatureAnnotationKey = Some b64
    ∧ n1 !! CertificateAnnotationKey = a !! CertificateAnnotationKey
    ∧ n1 !! ChainAnnotationKey = a !! ChainAnnotationKey
    ∧ (match mutate.bundle so with Some b => Ok (Some b) | None => Bundle s end)
      = layer_Bundle n1).
  { destruct (mutate.bundle so) as [b|]; go_inv.
    - repeat split; [keys..|]. symmetry. eapply layer_Bundle_some; [done|keys].
    - repeat split; try done. rewrite HB. symmetry. by apply layer_Bundle_key. }
  destruct Hn1 as (S1 & C1 & Ch1 & B1). clear NS NB NC NCh Hb.
  destruct (mutate.cert so) as [c|]; cbn in *.
  2:{ go_inv. exists n1. split; [|done]. split; cbn.
      - done.
      - eauto.
      - rewrite HC. by apply layer_Cert_key.
      - rewrite HCh. by apply layer_Chain_key.
      - rewrite <- B1. by destruct (mutate.bundle so). }
  apply bind_Ok in Hm as ([[n2 nc] nch] & Hm & Hs). go_inv.
  match goal with H : context [match ?cs with [] => _ | _ => _ end] |- _ =>
    destruct cs as [|c0 cs]; [done|] end.
  destruct (Hrep ltac:(eauto)) as [Hch|Hch]; [destruct Hch as [ch Hch]; rewrite Hch in *|
    destruct (mutate.chain so) as [ch|]];
    cbn in *; go_inv; (eexists; split; [|done]); split; cbn; try done.
  all: try (exists b64; split; [done|keys]).
  all: try (erewrite layer_Cert_some by keys; by rewrite H).
  all: try (transitivity (layer_Bundle n1);
    [rewrite <- B1; by destruct (mutate.bundle so)|apply layer_Bundle_key; keys]).
  all: try (rewrite layer_Chain_default; keys).
  by rewrite Hch, load_empty.
Qed.

End consistency.

(** C29: a signature that is built by [static.NewSignature], with options that use no
    reserved annotation and give a chain only with a certificate, followed by any number
    of [mutate.Signature] calls, each of which gives a chain when it replaces the
    certificate of a signature that has a chain, is consistent: its certificate, chain,
    bundle and base64 signature are exactly what a reader recovers from the annotations
    it publishes.  The condition on the calls is needed: [mutate_stale_chain] is a call
    that replaces a certificate without a chain and leaves the two apart. *)
Theorem built_consistent `{X : Ext, PL : !PemLaws, BL : !BundleJsonLaws} (s : Signature) :
  Built s → ∃ a, Consistent s a.
Proof.
  induction 1 as [payload b64 opts s Hp Hs|s opts s' Hb [a Ha] Hr Hm].
  - destruct (NewSignature_consistent _ _ _ _ Hp Hs) as (a & Ha & _). eauto.
  - destruct (mutate_consistent _ _ _ _ Ha Hr Hm) as (a' & Ha' & _). eauto.
Qed.

#[export] Instance toy_PemLaws : PemLaws (X := toy).
Proof.
  split; [done|]. intros s. cbn. unfold toy_certs. destruct (s =?s "") eqn:E; [|done].
  by apply str_eqb_eq in E.
Qed.
#[export] Instance toy_BundleJsonLaws : BundleJsonLaws (X := toy).
Proof.
  split; intros b s; cbn; unfold toy_marshal_bundle; case_decide; intros [= <-]; subst; done.
Qed.

Definition toy_sig : Signature :=
  staticLayer "payload" "c2ln" (static.applied []).

Lemma built_consistent_witness : ∃ a, Consistent (X := toy)
  (sigWrapper toy_sig (Some (<[BundleAnnotationKey := "BUNDLE"]>
     {[SignatureAnnotationKey := "c2ln"]})) (Some toy_bundle) None None "") a.
Proof.
  apply (built_consistent (X := toy)).
  apply (built_mutate (X := toy) toy_sig [mutate.WithBundle (Some toy_bundle)]).
  - apply (built_new (X := toy) "payload" "c2ln" []); [|reflexivity].
    split; [|done]. intros m [= <-]. done.
  - intros [? [=]].
  - vm_compute. reflexivity.
Defined.

(** Replacing the certificate of a signature without giving a chain leaves
    the accessor and the annotations apart: [mutate.Signature] deletes the
    chain annotation, but [Chain] still falls through to the chain of the
    wrapped signature, so what is verified locally is not what is published. *)
Theorem mutate_stale_chain :
  ∃ s s', mutate.Signature (X := toy) s [mutate.WithCertChain (Some "new") None] = Ok s'
    ∧ (Annotations s' ≫= layer_Chain (X := toy)) = Ok []
    ∧ Chain (X := toy) s' = Ok [toy_cert "old-root"].
Proof.
  exists (staticLayer "p" "c2ln" (static.mkOptions "" "" None (Some "old") (Some "old-root")
    (Some (<[CertificateAnnotationKey := "old"]> {[ChainAnnotationKey := "old-root"]})))).
  eexists. split; [reflexivity|]. split; [vm_compute|]; reflexivity.
Qed.
