(* ===== verification/OciSignatures.v ===== *)
(** * oci.Signatures: sets of signatures, appending and replacing

    The implementations of oci.Signatures (pkg/oci/empty, pkg/oci/remote,
    pkg/oci/layout, pkg/oci/mutate/signatures.go, pkg/cosign/remote/remote.go
    and the one of pkg/cosign/verify.go) as a tagged union with [Get]; the
    duplicate detector and the replace operation of pkg/cosign/remote.

    An oci.Signatures is also a v1.Image, and it is the image that a push
    writes: [pushed] is the list of signatures a later reader finds. *)
From S2P Require Import Prelude GoStd External Concrete OciSignature.

(** ** v1.Image, as far as signature images use it *)

(** A layer to append and its annotations (ggcr mutate.Addendum). *)
Record Addendum := mkAddendum {
  add_Layer : Signature;
  add_Annotations : gmap string string }.

Class Ggcr := {
  Image : Type;
  empty_Image : Image;
  Image_Manifest : Image → res (list Descriptor);      (* manifest.Layers *)
  Image_LayerByDigest : Image → Hash → res Layer;
  mutate_Append : Image → list Addendum → res Image }.

(** ** The tagged union and its Get methods *)

Section signatures.
Context `{G : Ggcr}.

Inductive Signatures :=
  | emptyImage (img : Image)
  | sigs (img : Image)
  | sigAppender (img : Image) (base : Signatures) (news : list Signature)
  | fakeOCISignatures (signatures : list Signature)
  | replaceOCISignatures (base : Signatures) (attestations : list Signature).

(** [sigs.Get]: one sigLayer per layer of the manifest. *)
Fixpoint layers_Get (img : Image) (ds : list Descriptor) : res (list Signature) :=
  match ds with
  | [] => Ok []
  | desc :: ds' =>
      layer ← Image_LayerByDigest img (desc_Digest desc);
      rest ← layers_Get img ds';
      Ok (sigLayer layer desc :: rest)
  end.

Definition sigs_Get (img : Image) : res (list Signature) :=
  m ← Image_Manifest img;
  layers_Get img m.

Fixpoint Get (s : Signatures) : res (list Signature) :=
  match s with
  | emptyImage _ => Ok []
  | sigs img => sigs_Get img
  | sigAppender _ base news => sl ← Get base; Ok (sl ++ news)
  | fakeOCISignatures l => Ok l
  | replaceOCISignatures _ atts => Ok atts
  end.

(** The embedded v1.Image: [fakeOCISignatures] embeds a nil interface, and
    [replaceOCISignatures] the signatures it replaces. *)
Fixpoint as_image (s : Signatures) : res Image :=
  match s with
  | emptyImage img | sigs img | sigAppender img _ _ => Ok img
  | fakeOCISignatures _ => Panic "nil dereference"
  | replaceOCISignatures base _ => as_image base
  end.

(** What a reader finds after the image was pushed: remote.Signatures wraps
    the image in [sigs]. *)
Definition pushed (s : Signatures) : res (list Signature) :=
  img ← as_image s; Get (sigs img).

(** ** AppendSignatures and ReplaceSignatures *)

Fixpoint addenda (l : list Signature) : res (list Addendum) :=
  match l with
  | [] => Ok []
  | sig :: l' =>
      ann ← Annotations sig;
      rest ← addenda l';
      Ok (mkAddendum sig ann :: rest)
  end.

Definition AppendSignatures (base : Signatures) (news : list Signature) : res Signatures :=
  adds ← addenda news;
  bimg ← as_image base;
  img ← mutate_Append bimg adds;
  Ok (sigAppender img base news).

Definition ReplaceSignatures (base : Signatures) : res Signatures :=
  sl ← Get base;
  adds ← addenda sl;
  img ← mutate_Append empty_Image adds;
  Ok (sigAppender img base sl).

End signatures.

(** ** pkg/cosign/remote: the duplicate detector *)

Section find.
Context `{X : Ext, G : Ggcr}.

(** The annotations of the new signature, the signature key apart, all have
    the same value in the existing one. *)
Definition annotations_match (newAnnotations existingAnnotations : gmap string string) : bool :=
  forallb (λ '(a, value),
      (a =?s SignatureAnnotationKey)
      || bool_decide (existingAnnotations !! a = Some value))
    (map_to_list newAnnotations).

(** One turn of [LayerLoop]: [true] when the existing signature is returned. *)
Definition is_dupe (v : Verifier) (newDigest : Hash) (newMediaType : string)
    (newAnnotations : gmap string string) (newSig sig : Signature) : res bool :=
  catch (Annotations sig) (λ _, Ok false) (λ existingAnnotations,
  if negb (annotations_match newAnnotations existingAnnotations) then Ok false else
  catch (Digest sig) (λ _, Ok false) (λ existingDigest,
  if negb (bool_decide (existingDigest = newDigest)) then Ok false else
  catch (MediaType sig) (λ _, Ok false) (λ existingMediaType,
  if negb (existingMediaType =?s newMediaType) then Ok false else
  catch (Base64Signature sig) (λ _, Ok false) (λ existingSignature,
  if existingSignature =?s "" then Ok false else
  catch (base64_DecodeString existingSignature) (λ _, Ok false) (λ uploadedSig,
  r ← Uncompressed newSig;
  catch (VerifySignature v uploadedSig r) (λ _, Ok false) (λ _, Ok true)))))).

Fixpoint find_loop (v : Verifier) (d : Hash) (mt : string) (ann : gmap string string)
    (newSig : Signature) (l : list Signature) : res (option Signature) :=
  match l with
  | [] => Ok None
  | sig :: l' =>
      b ← is_dupe v d mt ann newSig sig;
      if b : bool then Ok (Some sig) else find_loop v d mt ann newSig l'
  end.

Definition dd_Find (v : Verifier) (sigImage : Signatures) (newSig : Signature) :
    res (option Signature) :=
  newDigest ← Digest newSig;
  newMediaType ← MediaType newSig;
  newAnnotations ← Annotations newSig;
  sl ← Get sigImage;
  find_loop v newDigest newMediaType newAnnotations newSig sl.

(** ** pkg/cosign/remote: the replace operation *)

(** The predicate type of an attestation: [payload] of the envelope, base64
    decoded, then [predicateType]. *)
Definition predicate_type (s : Signature) : res any :=
  p ← map_err (λ e, error_Wrapped ("could not get payload: " +:+ Error e) e) (Payload s);
  signaturePayload ← map_err (λ e, error_Wrapped ("unmarshal payload data: " +:+ Error e) e)
    (json_Unmarshal_map p);
  val ← match signaturePayload !! "payload" with
        | Some v => Ok v
        | None => Err (error_New "could not find 'payload' in payload data")
        end;
  str ← as_string val;
  decodedPayload ← map_err (λ e, error_Wrapped ("could not decode 'payload': " +:+ Error e) e)
    (base64_DecodeString str);
  payloadData ← map_err (λ e, error_Wrapped ("unmarshal payloadData: " +:+ Error e) e)
    (json_Unmarshal_map decodedPayload);
  match payloadData !! "predicateType" with
  | Some v => Ok v
  | None => Err (error_New "could not find 'predicateType' in payload data")
  end.

(** The loop: attestations of another predicate type are kept. *)
Fixpoint replace_loop (predicateURI : string) (l : list Signature) : res (list Signature) :=
  match l with
  | [] => Ok []
  | s :: l' =>
      val ← predicate_type s;
      rest ← replace_loop predicateURI l';
      Ok (if decide (any_string predicateURI = val) then rest else s :: rest)
  end.

Definition ro_Replace (predicateURI : string) (signatures : Signatures) (o : Signature) :
    res Signatures :=
  sl ← Get signatures;
  kept ← replace_loop predicateURI sl;
  Ok (replaceOCISignatures signatures (o :: kept)).

End find.

(** ** Documented behaviour of ggcr's [mutate.Append]

    The appended image lists the layers of the base image unchanged, then one
    layer per addendum with the addendum's annotations and content. *)

Definition reads_as `{X : Ext} (a : Addendum) (s : Signature) : Prop :=
  match s with
  | sigLayer l d =>
      desc_Annotations d = add_Annotations a ∧ layer_Compressed l = Compressed (add_Layer a)
  | _ => False
  end.

Class GgcrLaws `{X : Ext, G : Ggcr} : Prop := {
  empty_reads : sigs_Get empty_Image = Ok [];
  append_reads img adds img' sl :
    mutate_Append img adds = Ok img' → sigs_Get img = Ok sl →
    ∃ sl', sigs_Get img' = Ok (sl ++ sl') ∧ Forall2 reads_as adds sl' }.

Section theorems.
Context `{X : Ext, G : Ggcr, L : !GgcrLaws}.

Lemma addenda_spec l adds :
  addenda l = Ok adds →
  Forall2 (λ s a, add_Layer a = s ∧ Annotations s = Ok (add_Annotations a)) l adds.
Proof.
  revert adds. induction l as [|s l IH]; intros adds Ha; cbn in Ha; go_inv; constructor; auto.
Qed.

(** A consistent signature read back from a registry has the same accessors. *)
Definition same_signature (s s' : Signature) : Prop :=
  Payload s' = Payload s ∧ Base64Signature s' = Base64Signature s ∧ Cert s' = Cert s
  ∧ Chain s' = Chain s ∧ Bundle s' = Bundle s.

Lemma reads_as_same s a add :
  Consistent s a → add_Layer add = s → add_Annotations add = a →
  ∀ s', reads_as add s' → same_signature s s'.
Proof.
  intros [HA (b64 & HS1 & HS2) HC HCh HB] <- <- [| l d |] Hr; cbn in Hr; try done.
  destruct Hr as [Hd Hl]. unfold same_signature. cbn. rewrite Hd, HC, HCh, HB, HS1, Hl.
  unfold layer_Base64Signature. by rewrite HS2.
Qed.

Lemma reads_back l adds sl' :
  Forall (λ s, ∃ a, Consistent s a) l → addenda l = Ok adds → Forall2 reads_as adds sl' →
  Forall2 same_signature l sl'.
Proof.
  intros Hc Ha. apply addenda_spec in Ha. revert sl'.
  induction Ha as [|s add l adds [Hl HA] Ha IH]; intros sl' Hr.
  - inversion Hr. constructor.
  - inversion Hr as [|? s' ? sl'' Hs Hrest]; subst.
    apply Forall_cons in Hc as [[a Hcs] Hc]. constructor; [|by apply IH].
    eapply reads_as_same; try done.
    pose proof (con_Annotations _ _ Hcs) as HA'. congruence.
Qed.

Lemma find_loop_Some v d mt ann newSig l s :
  find_loop v d mt ann newSig l = Ok (Some s) → s ∈ l ∧ is_dupe v d mt ann newSig s = Ok true.
Proof.
  induction l as [|s0 l IH]; cbn; [done|]. intros Hf. go_inv.
  destruct x; go_inv; [set_solver|]. destruct (IH ltac:(done)). set_solver.
Qed.

Lemma find_loop_None v d mt ann newSig l :
  find_loop v d mt ann newSig l = Ok None →
  Forall (λ s, is_dupe v d mt ann newSig s = Ok false) l.
Proof.
  induction l as [|s0 l IH]; cbn; [constructor|]. intros Hf. go_inv.
  destruct x; go_inv. constructor; auto.
Qed.

Lemma annotations_match_spec new old :
  annotations_match new old = true ↔
  ∀ k v, new !! k = Some v → k ≠ SignatureAnnotationKey → old !! k = Some v.
Proof.
  unfold annotations_match. rewrite forallb_forall. split.
  - intros Hall k v Hk Hne. specialize (Hall (k, v)). cbn in Hall.
    rewrite orb_true_iff, str_eqb_eq, bool_decide_eq_true in Hall.
    destruct Hall; [|done..]. apply list_elem_of_In, elem_of_map_to_list, Hk.
  - intros Hall [k v] Hin. apply list_elem_of_In, elem_of_map_to_list in Hin.
    rewrite orb_true_iff, str_eqb_eq, bool_decide_eq_true.
    destruct (decide (k = SignatureAnnotationKey)); eauto.
Qed.

Lemma catch_false {A} (m : res A) (k : A → res bool) :
  catch m (λ _, Ok false) k = Ok true ↔ ∃ a, m = Ok a ∧ k a = Ok true.
Proof. destruct m; cbn; naive_solver. Qed.

Lemma is_dupe_true v d mt ann newSig s :
  is_dupe v d mt ann newSig s = Ok true ↔
  ∃ ea es us r, Annotations s = Ok ea ∧ annotations_match ann ea = true
    ∧ Digest s = Ok d ∧ MediaType s = Ok mt
    ∧ Base64Signature s = Ok es ∧ es ≠ "" ∧ base64_DecodeString es = Ok us
    ∧ Uncompressed newSig = Ok r ∧ VerifySignature v us r = Ok ().
Proof.
  unfold is_dupe. rewrite catch_false. split.
  - intros (ea & H1 & H2). destruct (annotations_match ann ea) eqn:M; [|done]. cbn in H2.
    apply catch_false in H2 as (ed & H2 & H3). case_bool_decide; [|done]. cbn in H3.
    apply catch_false in H3 as (em & H3 & H4).
    destruct (em =?s mt) eqn:E; [|done]. apply str_eqb_eq in E.
    apply catch_false in H4 as (es & H4 & H5).
    destruct (es =?s "") eqn:E'; [done|]. apply str_eqb_neq in E'.
    apply catch_false in H5 as (us & H5 & H6).
    apply bind_Ok in H6 as (r & H6 & H7). apply catch_false in H7 as ([] & H7 & _).
    subst. exists ea, es, us, r. auto 10.
  - intros (ea & es & us & r & H1 & H2 & H3 & H4 & H5 & H6 & H7 & H8 & H9).
    exists ea. split; [done|]. rewrite H2, H3. cbn. rewrite bool_decide_true by done. cbn.
    rewrite H4. cbn. rewrite str_eqb_refl. cbn. rewrite H5. cbn.
    rewrite (proj2 (str_eqb_neq _ _) H6), H7. cbn. rewrite H8. cbn. by rewrite H9.
Qed.

Lemma replace_loop_spec uri l kept :
  replace_loop uri l = Ok kept →
  kept = filter (λ s, predicate_type s ≠ Ok (any_string uri)) l
  ∧ Forall (λ s, is_ok (predicate_type s) = true) l.
Proof.
  revert kept. induction l as [|s l IH]; intros kept; cbn [replace_loop].
  { intros [= <-]. by split. }
  destruct (predicate_type s) as [v| |] eqn:E; [|done..].
  destruct (replace_loop uri l) as [rest| |]; [|done..]. intros [= <-].
  destruct (IH _ eq_refl) as [-> Hf]. split; [|constructor; [by rewrite E|done]].
  case_decide as D.
  - subst v. rewrite filter_cons_False; [done|]. rewrite E. by intros [].
  - rewrite filter_cons_True; [done|]. rewrite E. congruence.
Qed.

(** What AppendSignatures publishes.  The image of the new set, once pushed
    and read back, holds the base's signatures unchanged followed by one
    signature per appended one, equal to it under every accessor. *)
Lemma AppendSignatures_published base news s' bl :
  AppendSignatures base news = Ok s' → pushed base = Ok bl →
  Forall (λ s, ∃ a, Consistent s a) news →
  ∃ sl', pushed s' = Ok (bl ++ sl') ∧ Forall2 same_signature news sl'.
Proof.
  unfold AppendSignatures, pushed. intros Ha Hb Hc. go_inv. cbn.
  match goal with H : mutate_Append ?i _ = _, H' : sigs_Get _ = Ok bl |- _ =>
    assert (sigs_Get i = Ok bl) as Hi by congruence;
    destruct (append_reads _ _ _ _ H Hi) as (sl' & Hs & Hr) end.
  exists sl'. split; [done|]. eapply reads_back; eauto.
Qed.

(** [s] duplicates the new signature: same digest and media type, every new
    annotation but the signature itself, and its decoded signature verifies
    the new payload. *)
Definition Duplicate (v : Verifier) (newSig s : Signature) : Prop :=
  ∃ d mt ann ea es us m,
    Digest newSig = Ok d ∧ MediaType newSig = Ok mt ∧ Annotations newSig = Ok ann
    ∧ Annotations s = Ok ea
    ∧ (∀ k w, ann !! k = Some w → k ≠ SignatureAnnotationKey → ea !! k = Some w)
    ∧ Digest s = Ok d ∧ MediaType s = Ok mt ∧ Base64Signature s = Ok es ∧ es ≠ ""
    ∧ base64_DecodeString es = Ok us ∧ Uncompressed newSig = Ok m
    ∧ VerifySignature v us m = Ok ().

Lemma is_dupe_Duplicate v d mt ann newSig s :
  Digest newSig = Ok d → MediaType newSig = Ok mt → Annotations newSig = Ok ann →
  is_dupe v d mt ann newSig s = Ok true ↔ Duplicate v newSig s.
Proof.
  intros Hd Hm Ha. rewrite is_dupe_true. unfold Duplicate.
  setoid_rewrite annotations_match_spec. split.
  - intros (ea & es & us & r & Hrest). exists d, mt, ann, ea, es, us, r. auto.
  - intros (d' & mt' & ann' & ea & es & us & r & Hd' & Hm' & Ha' & Hrest).
    simplify_eq. rewrite Hd in Hd'. rewrite Hm in Hm'. rewrite Ha in Ha'. simplify_eq. eauto.
Qed.

(** The duplicate detector is sound and complete: when it returns a
    signature, that one is in the set and is a duplicate of the new one; when
    it returns none, the set has no duplicate. *)
Lemma dd_Find_correct v sigImage newSig r sl :
  Get sigImage = Ok sl → dd_Find v sigImage newSig = Ok r →
  match r with
  | Some s => s ∈ sl ∧ Duplicate v newSig s
  | None => ∀ s, s ∈ sl → ¬ Duplicate v newSig s
  end.
Proof.
  unfold dd_Find. intros Hg Hf.
  apply bind_Ok in Hf as (d & Hd & Hf). apply bind_Ok in Hf as (mt & Hm & Hf).
  apply bind_Ok in Hf as (ann & Ha & Hf). rewrite Hg in Hf. cbn in Hf.
  destruct r as [s|].
  - apply find_loop_Some in Hf as [Hin Hs]. by rewrite <- is_dupe_Duplicate.
  - apply find_loop_None in Hf. rewrite Forall_forall in Hf. intros s Hin.
    rewrite <- is_dupe_Duplicate by done. by rewrite Hf.
Qed.

(** The replace operation keeps, in order, exactly the attestations of
    another predicate type, after the new one; an attestation whose predicate
    type cannot be read makes it fail. *)
Theorem ro_Replace_correct uri s o sl s' :
  Get s = Ok sl → ro_Replace uri s o = Ok s' →
  Get s' = Ok (o :: filter (λ a, predicate_type a ≠ Ok (any_string uri)) sl)
  ∧ ∀ a, a ∈ sl → is_ok (predicate_type a) = true.
Proof.
  unfold ro_Replace. intros Hg Hr. rewrite Hg in Hr. cbn in Hr.
  apply bind_Ok in Hr as (kept & H & [= <-]).
  apply replace_loop_spec in H as [-> Hf]. split; [done|]. by apply Forall_forall.
Qed.

(** [ReplaceSignatures] does not agree with itself.  Its image, the one that
    is pushed, holds each signature of the base once; its [Get] lists every
    one of them twice, because the base is kept beside the new list. *)
Theorem ReplaceSignatures_doubles base s' sl :
  Get base = Ok sl → ReplaceSignatures base = Ok s' →
  Forall (λ s, ∃ a, Consistent s a) sl →
  Get s' = Ok (sl ++ sl)
  ∧ ∃ sl', pushed s' = Ok sl' ∧ Forall2 same_signature sl sl'.
Proof.
  unfold ReplaceSignatures, pushed. intros Hg Hr Hc. rewrite Hg in Hr. cbn in Hr. go_inv.
  cbn. rewrite Hg. split; [done|].
  match goal with H : mutate_Append _ _ = _ |- _ =>
    destruct (append_reads _ _ _ _ H empty_reads) as (sl' & Hs & Hf) end.
  exists sl'. split; [done|]. eapply reads_back; eauto.
Qed.

End theorems.

(** ** A concrete image store, for the witnesses

    An image is its list of layers with their annotations; the digest of the
    n-th layer is n in unary. *)

Definition layer_of (s : Signature) : Layer :=
  mkLayer (Digest (X := toy) s) (Compressed s) (Uncompressed s) (Size s) (MediaType s).

Fixpoint unary (n : nat) : string := match n with 0 => "" | S n => String "i"%char (unary n) end.

Definition toy_desc (i : nat) (p : Layer * gmap string string) : Descriptor :=
  mkDescriptor SimpleSigningMediaType (mkHash "n" (unary i)) p.2 None.

Definition toy_Ggcr : Ggcr := {|
  Image := list (Layer * gmap string string);
  empty_Image := [];
  Image_Manifest img := Ok (imap toy_desc img);
  Image_LayerByDigest img h :=
    match img !! String.length (Hex h) with
    | Some p => Ok p.1
    | None => Err (error_New "unknown blob")
    end;
  mutate_Append img adds :=
    Ok (img ++ ((λ a, (layer_of (add_Layer a), add_Annotations a)) <$> adds))
|}.

Lemma length_unary n : String.length (unary n) = n.
Proof. induction n; cbn; auto. Qed.

Lemma toy_layers_Get pre post :
  layers_Get (G := toy_Ggcr) (pre ++ post) (imap (λ i, toy_desc (length pre + i)) post)
  = Ok (imap (λ i p, sigLayer p.1 (toy_desc (length pre + i) p)) post).
Proof.
  revert pre. induction post as [|p post IH]; intros pre; [done|]. cbn.
  rewrite length_unary, Nat.add_0_r.
  rewrite (list_lookup_middle pre post p) by done. cbn.
  specialize (IH (pre ++ [p])). rewrite <- app_assoc, length_app in IH. cbn in IH.
  erewrite imap_ext; [erewrite IH|].
  - cbn. do 2 f_equal. apply imap_ext. intros i x _. cbn. by rewrite <- Nat.add_assoc.
  - intros i x _. cbn. by rewrite <- Nat.add_assoc.
Qed.

Lemma toy_sigs_Get (img : list (Layer * gmap string string)) :
  sigs_Get (G := toy_Ggcr) img = Ok (imap (λ i p, sigLayer p.1 (toy_desc i p)) img).
Proof. apply (toy_layers_Get [] img). Qed.

#[export] Instance toy_GgcrLaws : GgcrLaws (X := toy) (G := toy_Ggcr).
Proof.
  split; [done|]. intros img adds img' sl [= <-] Hsl.
  rewrite toy_sigs_Get in Hsl. injection Hsl as <-. rewrite toy_sigs_Get.
  rewrite imap_app. eexists. split; [reflexivity|].
  generalize (length img) as n. intros n. cbn.
  induction adds as [|a adds IH] in n |- *; cbn; constructor; [by split|].
  erewrite imap_ext; [apply (IH (S n))|]. intros i x _. cbn. by rewrite Nat.add_succ_r.
Qed.

Definition toy_empty : Signatures (G := toy_Ggcr) := emptyImage (G := toy_Ggcr) [].

Lemma toy_sig_consistent : Forall (λ s, ∃ a, Consistent (X := toy) s a) [toy_sig].
Proof.
  constructor; [|constructor].
  destruct (NewSignature_consistent (X := toy) "payload" "c2ln" [] toy_sig) as (a & Ha & _);
    [|reflexivity|by exists a].
  split; [|done]. intros m [= <-]. done.
Qed.

(** An attestation whose decoded payload names the predicate type "payload". *)
Definition toy_att : Signature := staticLayer "cGF5bG9hZA==" "" (static.applied []).

Lemma ro_Replace_correct_witness :
  Get (G := toy_Ggcr) (replaceOCISignatures (G := toy_Ggcr)
    (fakeOCISignatures [toy_att; toy_att]) [toy_sig]) = Ok [toy_sig].
Proof.
  exact (proj1 (ro_Replace_correct (X := toy) (G := toy_Ggcr) "payload"
    (fakeOCISignatures [toy_att; toy_att]) toy_sig [toy_att; toy_att] _ eq_refl eq_refl)).
Defined.

Lemma ReplaceSignatures_doubles_witness :
  ∃ s', ReplaceSignatures (G := toy_Ggcr) (fakeOCISignatures [toy_sig]) = Ok s'
    ∧ Get s' = Ok [toy_sig; toy_sig].
Proof.
  eexists. split; [reflexivity|].
  exact (proj1 (ReplaceSignatures_doubles (X := toy) (G := toy_Ggcr) (fakeOCISignatures [toy_sig])
    _ [toy_sig] eq_refl eq_refl toy_sig_consistent)).
Defined.
