(* ===== verification/OciEntity.v ===== *)
(** * oci.SignedEntity: attaching, mapping and walking

    pkg/oci/mutate/mutate.go (attaching signatures, attestations and files to
    an image or an index), pkg/oci/mutate/map.go ([Map]) and
    pkg/oci/walk/walk.go.

    An entity is an image, an index, a wrapper made by an [Attach*] function,
    or the index [Map] builds from changed children.  Go compares entities by
    pointer ([x != se]): every entity carries an identity. *)
From S2P Require Import Prelude GoStd External Concrete OciSignature OciSignatures.

(** oci.File, as the attachments use it *)
Record File := mkFile { FileMediaType : res string; File_Payload : res bytes }.

Definition OCIImageIndex := "application/vnd.oci.image.index.v1+json".
Definition DockerManifestList := "application/vnd.docker.distribution.manifest.list.v2+json".
Definition OCIManifestSchema1 := "application/vnd.oci.image.manifest.v1+json".
Definition DockerManifestSchema2 := "application/vnd.docker.distribution.manifest.v2+json".

Definition is_index_type (mt : string) : bool :=
  (mt =?s OCIImageIndex) || (mt =?s DockerManifestList).
Definition is_image_type (mt : string) : bool :=
  (mt =?s OCIManifestSchema1) || (mt =?s DockerManifestSchema2).

Section entity.
Context `{G : Ggcr}.

(** pkg/oci/mutate/options.go *)
Record signOpts := mkSignOpts {
  so_dd : option (Signatures → Signature → res (option Signature));
  so_ro : option (Signatures → Signature → res Signatures) }.

Definition SignOption := signOpts → signOpts.
Definition WithDupeDetector d : SignOption := λ so, mkSignOpts (Some d) (so_ro so).
Definition WithReplaceOp r : SignOption := λ so, mkSignOpts (so_dd so) (Some r).
Definition makeSignOpts (opts : list SignOption) : signOpts :=
  foldl (λ so opt, opt so) (mkSignOpts None None) opts.

(** What a remote, layout or static entity answers. *)
Record EntityCore := mkEntityCore {
  core_Digest : res Hash;
  core_Signatures : res Signatures;
  core_Attestations : res Signatures;
  core_Attachment : string → res File }.

(** A v1.Image and a v1.ImageIndex, without signatures. *)
Record v1Image := mkV1Image { v1_id : nat; v1_Digest : res Hash }.
Inductive v1Index :=
  mkV1Index (id : nat) (digest : res Hash) (manifest : res (list Descriptor))
    (image : Hash → res v1Image) (index : Hash → res v1Index).

(** The manifest of an index lists its descriptors, each with the outcome of
    [SignedImage] or [SignedImageIndex] on its digest; [EAppended] is indexWrapper
    around an unsigned index. *)
Inductive Entity :=
  | EImage (id : nat) (core : EntityCore)
  | EIndex (id : nat) (core : EntityCore) (manifest : res (list (Descriptor * res Entity)))
  | ESigned (id : nat) (base : Entity) (sig att : option Signature) (so : signOpts)
      (attachments : gmap string File)
  | EAppended (id : nat) (base : v1Index) (adds : list (Entity * Descriptor)).

Definition eid (e : Entity) : nat :=
  match e with EImage i _ | EIndex i _ _ | ESigned i _ _ _ _ _ | EAppended i _ _ => i end.

Fixpoint is_index (e : Entity) : bool :=
  match e with
  | EImage _ _ => false
  | EIndex _ _ _ | EAppended _ _ _ => true
  | ESigned _ base _ _ _ _ => is_index base
  end.

Fixpoint Entity_Digest (e : Entity) : res Hash :=
  match e with
  | EImage _ c | EIndex _ c _ => core_Digest c
  | ESigned _ base _ _ _ _ => Entity_Digest base
  | EAppended _ (mkV1Index _ d _ _ _) _ => d
  end.

(** ** pkg/oci/signed *)

Definition unsigned_core (digest : res Hash) : EntityCore :=
  mkEntityCore digest (Ok (emptyImage empty_Image)) (Ok (emptyImage empty_Image))
    (λ _, Err (error_New "unimplemented")).

Definition signed_Image (i : v1Image) : Entity := EImage (v1_id i) (unsigned_core (v1_Digest i)).

Fixpoint signed_ImageIndex (i : v1Index) : Entity :=
  match i with
  | mkV1Index id digest manifest image index =>
      EIndex id (unsigned_core digest)
        (ms ← manifest;
         Ok (fmap (M := list) (λ d, (d, if is_index_type (desc_MediaType d)
                       then match index (desc_Digest d) with
                            | Ok ii => Ok (signed_ImageIndex ii)
                            | Err e => Err e
                            | Panic w => Panic w
                            end
                       else i ← image (desc_Digest d); Ok (signed_Image i))) ms))
  end.

(** ** The methods of the attaching wrappers *)

Definition signedImage_Signatures (base : res Signatures) (sig : option Signature) (so : signOpts) :
    res Signatures :=
  base ← base;
  match sig with
  | None => Ok base
  | Some sig =>
      existing ← match so_dd so with None => Ok None | Some find => find base sig end;
      match existing with
      | Some _ => Ok base
      | None => AppendSignatures base [sig]
      end
  end.

Definition signedImageIndex_Signatures (base : res Signatures) (sig : option Signature)
    (so : signOpts) : res Signatures :=
  base ← base;
  match sig with
  | None => Ok base
  | Some sig =>
      existing ← match so_dd so with None => Ok None | Some find => find base sig end;
      match existing with
      | Some _ => Ok base
      | None => AppendSignatures base [sig]
      end
  end.

(** With a replace operation, an image appends nothing to the replaced set ... *)
Definition signedImage_Attestations (base : res Signatures) (att : option Signature)
    (so : signOpts) : res Signatures :=
  base ← base;
  match att with
  | None => Ok base
  | Some att =>
      existing ← match so_dd so with None => Ok None | Some find => find base att end;
      match existing, so_ro so with
      | Some _, _ => Ok base
      | None, Some replace_ => replaced ← replace_ base att; AppendSignatures replaced []
      | None, None => AppendSignatures base [att]
      end
  end.

(** ... and an index rebuilds the set. *)
Definition signedImageIndex_Attestations (base : res Signatures) (att : option Signature)
    (so : signOpts) : res Signatures :=
  base ← base;
  match att with
  | None => Ok base
  | Some att =>
      existing ← match so_dd so with None => Ok None | Some find => find base att end;
      match existing, so_ro so with
      | Some _, _ => Ok base
      | None, Some replace_ => replaced ← replace_ base att; ReplaceSignatures replaced
      | None, None => AppendSignatures base [att]
      end
  end.

(** [indexWrapper] has no signatures of its own. *)
Fixpoint Entity_Signatures (e : Entity) : res Signatures :=
  match e with
  | EImage _ c | EIndex _ c _ => core_Signatures c
  | EAppended _ _ _ => Ok (emptyImage empty_Image)
  | ESigned _ e' sig _ so _ =>
      if is_index e' then signedImageIndex_Signatures (Entity_Signatures e') sig so
      else signedImage_Signatures (Entity_Signatures e') sig so
  end.

Fixpoint Entity_Attestations (e : Entity) : res Signatures :=
  match e with
  | EImage _ c | EIndex _ c _ => core_Attestations c
  | EAppended _ _ _ => Ok (emptyImage empty_Image)
  | ESigned _ e' _ att so _ =>
      if is_index e' then signedImageIndex_Attestations (Entity_Attestations e') att so
      else signedImage_Attestations (Entity_Attestations e') att so
  end.

Definition attached_Attachment (attachments : gmap string File) (attName : string) : res File :=
  match attachments !! attName with
  | Some f => Ok f
  | None => Err (error_New ("attachment " +:+ quoted attName +:+ " not found"))
  end.

Definition Entity_Attachment (e : Entity) (attName : string) : res File :=
  match e with
  | EImage _ c | EIndex _ c _ => core_Attachment c attName
  | EAppended _ _ _ => Err (error_New "unimplemented")
  | ESigned _ _ _ _ _ attachments => attached_Attachment attachments attName
  end.

(** ** Attaching *)

Section attaching.
Context (id : nat).

Definition AttachSignatureToImage (si : Entity) (sig : Signature) (opts : list SignOption) :
    res Entity := Ok (ESigned id si (Some sig) None (makeSignOpts opts) ∅).
Definition AttachAttestationToImage (si : Entity) (att : Signature) (opts : list SignOption) :
    res Entity := Ok (ESigned id si None (Some att) (makeSignOpts opts) ∅).
Definition AttachFileToImage (si : Entity) (name : string) (f : File) (opts : list SignOption) :
    res Entity := Ok (ESigned id si None None (makeSignOpts opts) {[name := f]}).

Definition AttachSignatureToImageIndex (sii : Entity) (sig : Signature) (opts : list SignOption) :
    res Entity := Ok (ESigned id sii (Some sig) None (makeSignOpts opts) ∅).
Definition AttachAttestationToImageIndex (sii : Entity) (att : Signature) (opts : list SignOption) :
    res Entity := Ok (ESigned id sii None (Some att) (makeSignOpts opts) ∅).
Definition AttachFileToImageIndex (sii : Entity) (name : string) (f : File) (opts : list SignOption) :
    res Entity := Ok (ESigned id sii None None (makeSignOpts opts) {[name := f]}).

(** Every entity is an image or an index, so that the switch has no default case. *)
Definition AttachSignatureToEntity (se : Entity) (sig : Signature) (opts : list SignOption) :
    res Entity :=
  if is_index se then AttachSignatureToImageIndex se sig opts
  else AttachSignatureToImage se sig opts.
Definition AttachAttestationToEntity (se : Entity) (att : Signature) (opts : list SignOption) :
    res Entity :=
  if is_index se then AttachAttestationToImageIndex se att opts
  else AttachAttestationToImage se att opts.
Definition AttachFileToEntity (se : Entity) (name : string) (f : File) (opts : list SignOption) :
    res Entity :=
  if is_index se then AttachFileToImageIndex se name f opts
  else AttachFileToImage se name f opts.

Lemma AttachSignatureToEntity_eq se sig opts :
  AttachSignatureToEntity se sig opts = Ok (ESigned id se (Some sig) None (makeSignOpts opts) ∅).
Proof. unfold AttachSignatureToEntity. by destruct (is_index se). Qed.
Lemma AttachAttestationToEntity_eq se att opts :
  AttachAttestationToEntity se att opts = Ok (ESigned id se None (Some att) (makeSignOpts opts) ∅).
Proof. unfold AttachAttestationToEntity. by destruct (is_index se). Qed.
Lemma AttachFileToEntity_eq se name f opts :
  AttachFileToEntity se name f opts = Ok (ESigned id se None None (makeSignOpts opts) {[name := f]}).
Proof. unfold AttachFileToEntity. by destruct (is_index se). Qed.

(** Attaching keeps the digest. *)
Lemma AttachSignatureToEntity_digest se sig opts se' :
  AttachSignatureToEntity se sig opts = Ok se' → Entity_Digest se' = Entity_Digest se.
Proof. rewrite AttachSignatureToEntity_eq. by intros [= <-]. Qed.
Lemma AttachAttestationToEntity_digest se att opts se' :
  AttachAttestationToEntity se att opts = Ok se' → Entity_Digest se' = Entity_Digest se.
Proof. rewrite AttachAttestationToEntity_eq. by intros [= <-]. Qed.

End attaching.

(** Images and indices differ in the replace operation only. *)
Lemma Entity_Signatures_signed id e sig att so fs :
  Entity_Signatures (ESigned id e sig att so fs)
  = signedImage_Signatures (Entity_Signatures e) sig so.
Proof. cbn. by destruct (is_index e). Qed.
Lemma Entity_Attestations_signed id e sig att so fs :
  so_ro so = None → Entity_Attestations (ESigned id e sig att so fs)
  = signedImage_Attestations (Entity_Attestations e) att so.
Proof.
  intros Hso. cbn. unfold signedImageIndex_Attestations, signedImage_Attestations. rewrite Hso.
  by destruct (is_index e).
Qed.

(** ** indexWrapper *)

(** The addenda that are indices, or images, are searched for the digest. *)
Fixpoint find_add (want_index : bool) (adds : list (Entity * Descriptor)) (h : Hash) :
    res (option Entity) :=
  match adds with
  | [] => Ok None
  | (add, _) :: adds' =>
      if negb (Bool.eqb (is_index add) want_index) then find_add want_index adds' h else
      d ← Entity_Digest add;
      if bool_decide (d = h) then Ok (Some add) else find_add want_index adds' h
  end.

(** The base that Map appends to is not a SignedImageIndex. *)
Definition indexWrapper_SignedImage (base : v1Index) (adds : list (Entity * Descriptor)) (h : Hash) :
    res Entity :=
  si ← find_add false adds h;
  match si with
  | Some si => Ok si
  | None => let 'mkV1Index _ _ _ image _ := base in unsigned ← image h; Ok (signed_Image unsigned)
  end.
Definition indexWrapper_SignedImageIndex (base : v1Index) (adds : list (Entity * Descriptor))
    (h : Hash) : res Entity :=
  sii ← find_add true adds h;
  match sii with
  | Some sii => Ok sii
  | None =>
      let 'mkV1Index _ _ _ _ index := base in unsigned ← index h; Ok (signed_ImageIndex unsigned)
  end.

(** ** Map *)

(** The pass recorded in the context: [IsBeforeChildren], [IsAfterChildren]. *)
Inductive pass := NoPass | BeforeChildren | AfterChildren.

(** ggcr's [mutate.AppendManifests] of the added entities to an empty index with the
    media type and the annotations of the manifest of an index. *)
Context (mutate_AppendManifests : Entity → list (Entity * Descriptor) → v1Index).

Definition AppendManifests (id : nat) (base : Entity) (adds : list (Entity * Descriptor)) : Entity :=
  EAppended id (mutate_AppendManifests base adds) adds.

(** IndexManifest, each descriptor with the outcome of looking it up. *)
Fixpoint index_manifest (e : Entity) : res (list (Descriptor * res Entity)) :=
  match e with
  | EImage _ _ => Err (error_New "not an index")
  | EIndex _ _ m => m
  | ESigned _ base _ _ _ _ => index_manifest base
  | EAppended _ (mkV1Index _ _ manifest _ _ as base) adds =>
      ms ← manifest;
      Ok (fmap (M := list) (λ d, (d, if is_index_type (desc_MediaType d)
                    then indexWrapper_SignedImageIndex base adds (desc_Digest d)
                    else indexWrapper_SignedImage base adds (desc_Digest d))) ms)
  end.

Section map.
Context {S : Type} (fn : pass → Entity → S → S * (option Entity * option error)).

(** The outcome of [Map]: the entity and the error it returns, or a panic of a
    type assertion. *)
Definition outcome := res (option Entity * option error).

(** The descriptor of an addendum carries no digest. *)
Definition add_descriptor (d : Descriptor) : Descriptor :=
  mkDescriptor (desc_MediaType d) (mkHash "" "") (desc_Annotations d) (desc_Platform d).

(** One child has been processed: [x] was looked up, [se] is its replacement;
    the assertion [se.(oci.SignedImageIndex)] or [se.(oci.SignedImage)] checks
    its kind. *)
Definition child_done (want_index : bool) (x : Entity) (desc : Descriptor)
    (se : option Entity) (changed : bool) (adds : list (Entity * Descriptor)) :
    res (bool * list (Entity * Descriptor)) :=
  match se with
  | None => Ok (true, adds)
  | Some se =>
      if Bool.eqb (is_index se) want_index
      then Ok (changed || negb (bool_decide (eid x = eid se)), adds ++ [(se, add_descriptor desc)])
      else Panic "interface conversion"
  end.

(** The loop over [im.Manifests]; [rec] is the recursive call of [Map].  [None]
    stands for exhausted fuel. *)
Fixpoint map_children (rec : Entity → S → option (S * outcome)) (ctx : pass)
    (ms : list (Descriptor * res Entity)) (changed : bool)
    (adds : list (Entity * Descriptor)) (st : S) :
    option (S * res (bool * list (Entity * Descriptor))) :=
  match ms with
  | [] => Some (st, Ok (changed, adds))
  | (desc, lookup) :: ms' =>
      if is_index_type (desc_MediaType desc) then
        match lookup with
        | Err e => Some (st, Err e)
        | Panic w => Some (st, Panic w)
        | Ok x =>
            '(st, r) ← rec x st;
            match r with
            | Panic w => Some (st, Panic w)
            | Err e | Ok (_, Some e) => Some (st, Err e)
            | Ok (se, None) =>
                match child_done true x desc se changed adds with
                | Ok (changed, adds) => map_children rec ctx ms' changed adds st
                | Err e => Some (st, Err e)
                | Panic w => Some (st, Panic w)
                end
            end
        end
      else if is_image_type (desc_MediaType desc) then
        match lookup with
        | Err e => Some (st, Err e)
        | Panic w => Some (st, Panic w)
        | Ok x =>
            match fn ctx x st with
            | (st, (_, Some e)) => Some (st, Err e)
            | (st, (se, None)) =>
                match child_done false x desc se changed adds with
                | Ok (changed, adds) => map_children rec ctx ms' changed adds st
                | Err e => Some (st, Err e)
                | Panic w => Some (st, Panic w)
                end
            end
        end
      else Some (st, Err (error_New ("unknown mime type: " +:+ desc_MediaType desc)))
  end.

(** The rebuilt index is a new object: its identity differs from that of the
    argument, with which a caller compares it. *)
Fixpoint Map (fuel : nat) (ctx : pass) (arg : Entity) (st : S) : option (S * outcome) :=
  match fuel with
  | 0 => None
  | Datatypes.S fuel =>
      match fn BeforeChildren arg st with
      | (st, (parent, Some e)) =>
          Some (st, Ok (if errors_Is_SkipChildren e then (parent, None) else (None, Some e)))
      | (st, (None, None)) => Some (st, Ok (None, None))
      | (st, (Some parent, None)) =>
          if negb (is_index parent) then Some (st, Ok (Some parent, None)) else
          match index_manifest parent with
          | Err e => Some (st, Ok (None, Some e))
          | Panic w => Some (st, Panic w)
          | Ok ms =>
              '(st, r) ← map_children (Map fuel ctx) ctx ms false [] st;
              match r with
              | Panic w => Some (st, Panic w)
              | Err e => Some (st, Ok (None, Some e))
              | Ok (false, _) => Some (st, Ok (Some parent, None))
              | Ok (true, adds) =>
                  let result := AppendManifests (Datatypes.S (Nat.max (eid arg) (eid parent)))
                                  parent adds in
                  let '(st, (e, err)) := fn AfterChildren result st in
                  Some (st, Ok (e, err))
              end
          end
      end
  end.

End map.

(** A tree read from a registry or a layout: every descriptor resolves to an
    entity of the kind its media type announces. *)
Fixpoint resolved (e : Entity) : bool :=
  match e with
  | EImage _ _ => true
  | EIndex _ _ (Ok ms) =>
      (fix go ms := match ms with
        | [] => true
        | (desc, Ok x) :: ms' =>
            (if is_index_type (desc_MediaType desc) then is_index x && resolved x
             else is_image_type (desc_MediaType desc) && negb (is_index x)) && go ms'
        | _ :: _ => false
        end) ms
  | _ => false
  end.

Fixpoint depth (e : Entity) : nat :=
  match e with
  | EIndex _ _ (Ok ms) =>
      Datatypes.S ((fix go ms := match ms with
        | [] => 0
        | (_, Ok x) :: ms' => Nat.max (depth x) (go ms')
        | _ :: ms' => go ms'
        end) ms)
  | _ => 1
  end.

(** ** The types of mapped entities *)

Section map_typed.
Context {S : Type} (fn : pass → Entity → S → S * (option Entity * option error)).

(** A callback that answers with an image for an image and with an index for an
    index, and that leaves the children of an index to Map. *)
Definition keeps_kind : Prop := ∀ p e st st' x err,
  fn p e st = (st', (Some x, err)) → is_index x = is_index e.
Definition keeps_children : Prop := ∀ e st st' x,
  fn BeforeChildren e st = (st', (Some x, None)) → is_index e = true →
  index_manifest x = index_manifest e.

Lemma child_done_typed b x desc se changed adds :
  (∀ y, se = Some y → is_index y = b) →
  ∃ changed' adds', child_done b x desc se changed adds = Ok (changed', adds').
Proof.
  intros Hk. destruct se as [y|]; cbn; [|eauto]. rewrite (Hk y eq_refl), eqb_reflx. eauto.
Qed.

(** What an answer of Map must be. *)
Definition typed (b : bool) (o : option (S * outcome)) : Prop :=
  ∃ st se err, o = Some (st, Ok (se, err)) ∧ ∀ x, se = Some x → is_index x = b.

Lemma typed_intro b st se err : (∀ x, se = Some x → is_index x = b) → typed b (Some (st, Ok (se, err))).
Proof. unfold typed. eauto. Qed.

Lemma map_children_typed rec ctx :
  keeps_kind → ∀ ms changed adds st,
  (∀ desc x st, (desc, Ok x) ∈ ms → is_index_type (desc_MediaType desc) = true → typed true (rec x st)) →
  (∀ desc l, (desc, l) ∈ ms → ∃ x, l = Ok x
     ∧ (is_index_type (desc_MediaType desc) = false →
        is_image_type (desc_MediaType desc) = true ∧ is_index x = false)) →
  ∃ st' r, map_children fn rec ctx ms changed adds st = Some (st', r) ∧ is_panic r = false.
Proof.
  intros Hk ms. induction ms as [|[desc l] ms IH]; intros changed adds st Hrec Hms; cbn; [eauto|].
  destruct (Hms desc l) as (x & -> & Hx); [by left|].
  assert (∀ c a s, ∃ st' r, map_children fn rec ctx ms c a s = Some (st', r) ∧ is_panic r = false) as Hrest.
  { intros c a s. apply IH; intros; [eapply Hrec|eapply Hms]; eauto; by right. }
  destruct (is_index_type _) eqn:Ht.
  - destruct (Hrec desc x st) as (st1 & se & err & -> & Hse); [by left|done|]. cbn.
    destruct err as [e|]; [by eauto|].
    destruct (child_done_typed true x desc se changed adds Hse) as (c & a & ->). apply Hrest.
  - destruct (Hx eq_refl) as [-> Hi]. destruct (fn ctx x st) as [st1 [se [e|]]] eqn:Hf; [by eauto|].
    destruct (child_done_typed false x desc se changed adds) as (c & a & ->); [|apply Hrest].
    intros y ->. rewrite <-Hi. by eapply Hk.
Qed.

(** The children of a resolved index. *)
Lemma resolved_children i c ms desc l :
  resolved (EIndex i c (Ok ms)) = true → (desc, l) ∈ ms →
  ∃ x, l = Ok x ∧ depth x < depth (EIndex i c (Ok ms))
    ∧ (if is_index_type (desc_MediaType desc) then is_index x = true ∧ resolved x = true
       else is_image_type (desc_MediaType desc) = true ∧ is_index x = false).
Proof.
  cbn. induction ms as [|[d l'] ms IH]; intros Hr Hin; [by apply not_elem_of_nil in Hin|].
  destruct l' as [y| |]; [|done..]. apply andb_true_iff in Hr as [Hy Hr].
  apply elem_of_cons in Hin as [[= -> ->]|Hin].
  - exists y. split; [done|]. split; [lia|]. destruct (is_index_type _); rewrite andb_true_iff in Hy;
      [done|]. by rewrite negb_true_iff in Hy.
  - destruct (IH Hr Hin) as (x & -> & Hd & Hx). exists x. split; [done|]. split; [lia|done].
Qed.

(** C22: Map is type safe: for a callback that answers images with images and
    indices with indices, and that in the pass before the children keeps the manifest
    of an index, none of Map's type assertions fails on a tree whose descriptors resolve
    to what their media types announce; Map returns, with fuel for the depth of the
    tree, and what it returns for an image is an image, and for an index an index. *)
Theorem Map_type_safe fuel ctx e st :
  keeps_kind → keeps_children → resolved e = true → depth e ≤ fuel →
  ∃ st' se err, Map fn fuel ctx e st = Some (st', Ok (se, err))
    ∧ ∀ x, se = Some x → is_index x = is_index e.
Proof.
  intros Hk Hc. fold (typed (is_index e) (Map fn fuel ctx e st)). revert e st.
  induction fuel as [|fuel IH]; intros e st Hr Hd.
  { exfalso. destruct e as [|? ? [| |]| |]; cbn in Hd; lia. }
  cbn [Map]. destruct (fn BeforeChildren e st) as [st1 [se [err|]]] eqn:Hf.
  { destruct se as [y|], (errors_Is_SkipChildren err); apply typed_intro; try done.
    intros x [= <-]. by eapply Hk. }
  destruct se as [parent|]; [|by apply typed_intro].
  pose proof (Hk _ _ _ _ _ _ Hf) as Hp. rewrite Hp. destruct (is_index e) eqn:Hi; cbn [negb].
  2: { apply typed_intro. by intros x [= <-]. }
  rewrite (Hc _ _ _ _ Hf Hi). destruct e as [| i c [ms| |] | |]; try done. cbn [index_manifest].
  destruct (map_children_typed (Map fn fuel ctx) ctx Hk ms false [] st1) as (st2 & r & -> & Hr2).
  - intros desc x st' Hin Ht. destruct (resolved_children _ _ _ _ _ Hr Hin) as (? & [= <-] & Hdx & Hx).
    rewrite Ht in Hx. destruct Hx as [Hix Hx]. rewrite <-Hix. apply IH; [done|lia].
  - intros desc l Hin. destruct (resolved_children _ _ _ _ _ Hr Hin) as (x & -> & _ & Hx).
    exists x. split; [done|]. intros Ht. by rewrite Ht in Hx.
  - cbn [mbind option_bind]. destruct r as [[[] adds]|err|]; [| |by apply typed_intro|done].
    + destruct (fn AfterChildren _ st2) as [st3 [x err]] eqn:Ha. apply typed_intro. intros y ->.
      by apply Hk in Ha.
    + apply typed_intro. by intros x [= <-].
Qed.

End map_typed.

(** ** The children of a rebuilt index *)

Definition v1_manifest (i : v1Index) : res (list Descriptor) := let 'mkV1Index _ _ m _ _ := i in m.

(** What mutate.AppendManifests documents: the manifest lists the added entities in
    order, with their digests and the media types asked for. *)
Definition described (add : Entity * Descriptor) (desc : Descriptor) : Prop :=
  Entity_Digest (fst add) = Ok (desc_Digest desc) ∧ desc_MediaType desc = desc_MediaType (snd add).

(** The kind of the entity is the one that the media type announces. *)
Definition announced (add : Entity * Descriptor) : Prop :=
  is_index (fst add) = is_index_type (desc_MediaType (snd add)).

Lemma find_add_found b adds h :
  Forall (λ add, is_ok (Entity_Digest (fst add)) = true) adds →
  (∃ add, add ∈ adds ∧ is_index (fst add) = b ∧ Entity_Digest (fst add) = Ok h) →
  ∃ add, find_add b adds h = Ok (Some (fst add)) ∧ add ∈ adds ∧ is_index (fst add) = b
    ∧ Entity_Digest (fst add) = Ok h.
Proof.
  induction 1 as [|[e d] adds He Hadds IH]; intros (add & Hin & Hi & Hd); [by apply not_elem_of_nil in Hin|].
  assert (add ∈ adds → ∃ a, find_add b adds h = Ok (Some (fst a)) ∧ a ∈ (e, d) :: adds
    ∧ is_index (fst a) = b ∧ Entity_Digest (fst a) = Ok h) as Hrest.
  { intros Hin'. destruct IH as (a & ? & ? & ?); [eauto|]. exists a. split; [done|]. split; [by right|done]. }
  cbn in *. destruct (Bool.eqb (is_index e) b) eqn:Hb; cbn.
  - apply eqb_prop in Hb. apply ok_res in He as [dg Hdg]. rewrite Hdg. cbn. case_bool_decide as Hh.
    + subst dg. exists (e, d). split; [done|]. split; [by left|done].
    + apply Hrest. apply elem_of_cons in Hin as [->|?]; [cbn in Hd; congruence|done].
  - apply Hrest. apply elem_of_cons in Hin as [->|?]; [|done]. cbn in Hi. by rewrite Hi, eqb_reflx in Hb.
Qed.

(** The index that Map rebuilds has the mapped children: every descriptor of its
    manifest looks up, by digest, one of the entities that were added, of the kind
    that the media type announces and with that digest. *)
Lemma rebuilt_children id base adds ds :
  v1_manifest (mutate_AppendManifests base adds) = Ok ds →
  Forall2 described adds ds → Forall announced adds →
  ∃ ms, index_manifest (AppendManifests id base adds) = Ok ms ∧ ms.*1 = ds
    ∧ ∀ desc l, (desc, l) ∈ ms → ∃ add, add ∈ adds ∧ l = Ok (fst add)
      ∧ Entity_Digest (fst add) = Ok (desc_Digest desc)
      ∧ is_index (fst add) = is_index_type (desc_MediaType desc).
Proof.
  intros Hm Hd Ha. unfold AppendManifests. cbn. destruct (mutate_AppendManifests base adds) as [i dg m im ix].
  cbn in Hm. rewrite Hm. cbn. eexists. split; [done|]. split.
  { rewrite <-list_fmap_compose. apply list_fmap_id. }
  assert (Forall (λ add, is_ok (Entity_Digest (fst add)) = true) adds) as Hok.
  { apply Forall_forall. intros a Hin. apply list_elem_of_lookup_1 in Hin as [k Hk].
    destruct (Forall2_lookup_l _ _ _ _ _ Hd Hk) as (? & _ & [-> _]). done. }
  intros desc l Hl. apply list_elem_of_fmap_1 in Hl as (d & [= -> ->] & Hin).
  apply list_elem_of_lookup_1 in Hin as [k Hk].
  destruct (Forall2_lookup_r _ _ _ _ _ Hd Hk) as (a & Hak & Hda & Hmt). apply list_elem_of_lookup_2 in Hak.
  assert (is_index (fst a) = is_index_type (desc_MediaType d)) as Hi.
  { rewrite Hmt. by apply (proj1 (Forall_forall _ _) Ha). }
  destruct (find_add_found (is_index_type (desc_MediaType d)) adds (desc_Digest d) Hok) as (add & Hf & ? & ? & ?);
    [by eauto|].
  exists add. split; [done|]. split; [|done].
  unfold indexWrapper_SignedImage, indexWrapper_SignedImageIndex. destruct (is_index_type _); by rewrite Hf.
Qed.

(** ** walk.SignedEntity *)

Section walk.
Context {S : Type} (f : pass → Entity → S → S * option error).

Definition walk_fn (p : pass) (se : Entity) (st : S) : S * (option Entity * option error) :=
  match f p se st with
  | (st, Some e) => (st, (None, Some e))
  | (st, None) => (st, (Some se, None))
  end.

Definition walk_SignedEntity (fuel : nat) (ctx : pass) (parent : Entity) (st : S) :
    option (S * res (option error)) :=
  match Map walk_fn fuel ctx parent st with
  | None => None
  | Some (st, r) =>
      Some (st, match r with Ok (_, err) => Ok err | Err e => Err e | Panic w => Panic w end)
  end.


(** ** Reference: the callback on the preorder listing of the tree *)

(** The nested indices and images of an index, in manifest order. *)
Fixpoint preorder (ctx : pass) (e : Entity) : list (pass * Entity) :=
  (BeforeChildren, e) ::
  match e with
  | EIndex _ _ (Ok ms) =>
      (fix go ms := match ms with
        | [] => []
        | (desc, Ok x) :: ms' =>
            (if is_index_type (desc_MediaType desc) then preorder ctx x else [(ctx, x)]) ++ go ms'
        | _ :: ms' => go ms'
        end) ms
  | _ => []
  end.

(** Run the callback on a list of entities until it fails. *)
Fixpoint run_calls (l : list (pass * Entity)) (st : S) : S * option error :=
  match l with
  | [] => (st, None)
  | (p, e) :: l' =>
      match f p e st with
      | (st, Some err) => (st, Some err)
      | (st, None) => run_calls l' st
      end
  end.

Lemma run_calls_app l l' st :
  run_calls (l ++ l') st =
  match run_calls l st with (st, Some e) => (st, Some e) | (st, None) => run_calls l' st end.
Proof.
  induction l as [|[p e] l IH] in st |- *; cbn; [done|]. by destruct (f p e st) as [? [?|]].
Qed.

(** The callback does not skip children on the calls of the list. *)
Definition no_skip (l : list (pass * Entity)) : Prop :=
  ∀ p e st st' err, (p, e) ∈ l → f p e st = (st', Some err) → errors_Is_SkipChildren err = false.

Lemma no_skip_app l l' : no_skip (l ++ l') → no_skip l ∧ no_skip l'.
Proof. intros H. split; intros p e st st' err Hin; eapply H; set_solver. Qed.

Lemma child_done_same b x desc changed adds :
  is_index x = b →
  ∃ adds', child_done b x desc (Some x) changed adds = Ok (changed, adds').
Proof.
  intros <-. cbn. rewrite eqb_reflx. rewrite bool_decide_true by done. cbn.
  rewrite orb_false_r. eauto.
Qed.

(** What a traversal that met no change returns. *)
Definition walked (st_err : S * option error) (e : Entity) : S * outcome :=
  match st_err with
  | (st, Some err) => (st, Ok (None, Some err))
  | (st, None) => (st, Ok (Some e, None))
  end.

Lemma Map_preorder fuel ctx e st :
  no_skip (preorder ctx e) → resolved e = true → depth e ≤ fuel →
  Map walk_fn fuel ctx e st = Some (walked (run_calls (preorder ctx e) st) e).
Proof.
  induction fuel as [|fuel IH] in e, st |- *; intros Hns Hr Hd.
  { exfalso. destruct e as [|? ? [| |]| |]; cbn in Hd; lia. }
  cbn [Map]. unfold walk_fn at 1.
  destruct e as [i c|i c m| |]; try done.
  - cbn. destruct (f _ _ _) as [st' [err|]] eqn:E; cbn; [|done].
    by rewrite (Hns _ _ _ _ _ (list_elem_of_here _ _) E).
  - destruct m as [ms| |]; try done.
    cbn [preorder run_calls].
    destruct (f BeforeChildren (EIndex i c (Ok ms)) st) as [st' [err|]] eqn:E; cbn [walked].
    { by rewrite (Hns _ _ _ _ _ (list_elem_of_here _ _) E). }
    cbn [is_index negb index_manifest]. cbn in Hr, Hd. clear E.
    match goal with |- context [run_calls ?g st'] => set (calls := g) end.
    assert (Hns' : no_skip calls) by (intros ??????; eapply Hns; by right). clear Hns.
    assert (Hch : ∀ changed adds, ∃ adds',
      map_children walk_fn (Map walk_fn fuel ctx) ctx ms changed adds st' =
      Some (match run_calls calls st' with
            | (st, Some err) => (st, Err err)
            | (st, None) => (st, Ok (changed, adds')) end)).
    { subst calls. clear i c st. revert st' Hns' Hr Hd.
      induction ms as [|[desc [x| |]] ms IHms]; intros st' Hns Hr Hd changed adds; try done.
      - cbn. eauto.
      - apply andb_true_iff in Hr as [Hx Hr]. apply no_skip_app in Hns as [Hnx Hns]. cbn [map_children].
        destruct (is_index_type (desc_MediaType desc)).
        + apply andb_true_iff in Hx as [Hi Hx].
          rewrite IH by (auto with lia). cbn [mbind option_bind]. rewrite run_calls_app.
          destruct (run_calls (preorder ctx x) st') as [st2 [err|]]; cbn [walked]; [eauto|].
          destruct (child_done_same true x desc changed adds Hi) as [adds' ->].
          apply IHms; [done..|lia].
        + apply andb_true_iff in Hx as [Him Hi]. rewrite Him. cbn [app run_calls].
          unfold walk_fn at 1. destruct (f ctx x st') as [st2 [err|]]; [eauto|].
          apply negb_true_iff in Hi.
          destruct (child_done_same false x desc changed adds Hi) as [adds' ->].
          apply IHms; [done..|lia]. }
    destruct (Hch false []) as [adds' ->].
    cbn [mbind option_bind].
    by destruct (run_calls calls st') as [st2 [err|]].
Qed.

(** [walk.SignedEntity] visits the preorder listing of a resolved tree: for
    every callback that does not skip children there it makes exactly the callback's
    calls on the entity and its nested indices and images, parents before
    children and in manifest order, stops at the first error and returns it;
    fuel beyond the tree's depth is enough for it to return. *)
Theorem walk_preorder fuel ctx e st :
  no_skip (preorder ctx e) → resolved e = true → depth e ≤ fuel →
  walk_SignedEntity fuel ctx e st =
  Some (let '(st, err) := run_calls (preorder ctx e) st in (st, Ok err)).
Proof.
  intros. unfold walk_SignedEntity. rewrite Map_preorder by done.
  by destruct (run_calls (preorder ctx e) st) as [? [?|]].
Qed.

End walk.
End entity.

Section attach.
Context `{X : Ext, G : Ggcr, L : !GgcrLaws}.

(** What the duplicate detector of pkg/cosign/remote leads to: the base
    unchanged when it already holds a duplicate of the signature, and otherwise
    the base followed by the new signature. *)
Lemma append_unless_dupe v sig base sl bl s' :
  (existing ← dd_Find v base sig;
   match existing with Some _ => Ok base | None => AppendSignatures base [sig] end) = Ok s' →
  Get base = Ok sl → pushed base = Ok bl → (∃ a, Consistent sig a) →
  (∃ s, s ∈ sl ∧ Duplicate v sig s ∧ pushed s' = Ok bl)
  ∨ ((∀ s, s ∈ sl → ¬ Duplicate v sig s)
     ∧ ∃ new, same_signature sig new ∧ pushed s' = Ok (bl ++ [new])).
Proof.
  intros Hs Hg Hp Hc. apply bind_Ok in Hs as (existing & Hf & Hs).
  pose proof (dd_Find_correct v base sig existing sl Hg Hf) as Hdd.
  destruct existing as [s|]; [left|right].
  - destruct Hdd. simplify_eq. eauto.
  - split; [done|].
    destruct (AppendSignatures_published _ _ _ _ Hs Hp) as (new & Hn & Hf2); [by constructor|].
    inversion Hf2 as [|? n ? ? Hsame Hnil]; subst. inversion Hnil; subst. eauto.
Qed.

Lemma attach_signature_published id e v sig e' base sl bl s' :
  AttachSignatureToEntity id e sig [WithDupeDetector (dd_Find v)] = Ok e' →
  Entity_Signatures e = Ok base → Get base = Ok sl → pushed base = Ok bl →
  (∃ a, Consistent sig a) → Entity_Signatures e' = Ok s' →
  (∃ s, s ∈ sl ∧ Duplicate v sig s ∧ pushed s' = Ok bl)
  ∨ ((∀ s, s ∈ sl → ¬ Duplicate v sig s)
     ∧ ∃ new, same_signature sig new ∧ pushed s' = Ok (bl ++ [new])).
Proof.
  rewrite AttachSignatureToEntity_eq. intros [= <-] Hb Hg Hp Hc Hs.
  rewrite Entity_Signatures_signed, Hb in Hs.
  by apply (append_unless_dupe v _ base sl bl s' Hs).
Qed.

Lemma attach_attestation_published id e v att e' base sl bl s' :
  AttachAttestationToEntity id e att [WithDupeDetector (dd_Find v)] = Ok e' →
  Entity_Attestations e = Ok base → Get base = Ok sl → pushed base = Ok bl →
  (∃ a, Consistent att a) → Entity_Attestations e' = Ok s' →
  (∃ s, s ∈ sl ∧ Duplicate v att s ∧ pushed s' = Ok bl)
  ∨ ((∀ s, s ∈ sl → ¬ Duplicate v att s)
     ∧ ∃ new, same_signature att new ∧ pushed s' = Ok (bl ++ [new])).
Proof.
  rewrite AttachAttestationToEntity_eq. intros [= <-] Hb Hg Hp Hc Hs.
  rewrite Entity_Attestations_signed, Hb in Hs by done.
  by apply (append_unless_dupe v _ base sl bl s' Hs).
Qed.

(** Attaching an attestation to an image with a replace operation publishes
    the old attestations, whatever the operation computes: the replaced set
    still embeds the image it replaces, and nothing is appended to it.  (On an
    index the set is rebuilt.) *)
Theorem attest_replace_image_unchanged id e dd ro att e' base bl s' :
  is_index e = false →
  AttachAttestationToEntity id e att [WithDupeDetector dd; WithReplaceOp ro] = Ok e' →
  (∀ s o r, ro s o = Ok r → ∃ l, r = replaceOCISignatures s l) →
  Entity_Attestations e = Ok base → pushed base = Ok bl →
  Entity_Attestations e' = Ok s' → pushed s' = Ok bl.
Proof.
  rewrite AttachAttestationToEntity_eq. intros Hi [= <-] Hro Hb Hp Hs. cbn [Entity_Attestations] in Hs.
  rewrite Hi, Hb in Hs. cbn in Hs.
  apply bind_Ok in Hs as ([x|] & _ & Hs); [by simplify_eq|].
  apply bind_Ok in Hs as (r & Hr & Hs).
  destruct (Hro _ _ _ Hr) as [l ->].
  destruct (AppendSignatures_published (replaceOCISignatures base l) [] s' bl Hs Hp) as (new & Hn & Hf2); [by constructor|].
  inversion Hf2; subst. by rewrite Hn, app_nil_r.
Qed.

End attach.

(** ** Witnesses *)

Definition toy_core (sigs atts : Signatures (G := toy_Ggcr)) : EntityCore (G := toy_Ggcr) :=
  mkEntityCore (Ok (mkHash "sha256" "d")) (Ok sigs) (Ok atts)
    (λ _, Err (error_New "not found")).

Definition toy_img (n : nat) : Entity (G := toy_Ggcr) := EImage n (toy_core toy_empty toy_empty).

Definition toy_index_desc (mt : string) : Descriptor := mkDescriptor mt (mkHash "sha256" mt) ∅ None.

Definition toy_inner : Entity (G := toy_Ggcr) :=
  EIndex 2 (toy_core toy_empty toy_empty) (Ok [(toy_index_desc DockerManifestSchema2, Ok (toy_img 3))]).
Definition toy_tree : Entity (G := toy_Ggcr) :=
  EIndex 10 (toy_core toy_empty toy_empty)
    (Ok [(toy_index_desc OCIImageIndex, Ok toy_inner);
         (toy_index_desc OCIManifestSchema1, Ok (toy_img 4))]).

(** An index that cannot be read. *)
Definition toy_AppendManifests (_ : Entity (G := toy_Ggcr))
    (_ : list (Entity (G := toy_Ggcr) * Descriptor)) : v1Index :=
  mkV1Index 0 (Err (error_New "")) (Err (error_New "")) (λ _, Err (error_New ""))
    (λ _, Err (error_New "")).

(** A callback that records the pass and the identity of what it visits. *)
Definition record_visit (p : pass) (e : Entity (G := toy_Ggcr)) (st : list (pass * nat)) :
    list (pass * nat) * option error := (st ++ [(p, eid e)], None).

Lemma walk_preorder_witness :
  walk_SignedEntity toy_AppendManifests record_visit
    3 NoPass toy_tree [] =
  Some ([(BeforeChildren, 10); (BeforeChildren, 2); (NoPass, 3); (NoPass, 4)], Ok None).
Proof.
  rewrite walk_preorder; [reflexivity|by intros ?????? [=]|reflexivity|].
  cbn. lia.
Defined.

(** The walk leaves the preorder when a nested index is skipped.  The
    callback returns ErrSkipChildren for the nested index; [Map] filters the
    nil entity out, rebuilds the parent, and calls the callback again, after
    the children and on an index that is in no registry. *)
Theorem walk_skip_after_pass :
  walk_SignedEntity toy_AppendManifests
    (λ p e st, (st ++ [(p, eid e)],
       if decide (eid e = 2) then Some (error_Kind kind_SkipChildren "skip child entities")
       else None)) 3 NoPass toy_tree [] =
  Some ([(BeforeChildren, 10); (BeforeChildren, 2); (NoPass, 4); (AfterChildren, 11)], Ok None).
Proof. reflexivity. Qed.

Lemma attest_replace_image_unchanged_witness :
  ∃ s', Entity_Attestations (ESigned (G := toy_Ggcr) 9 (toy_img 3) None (Some toy_sig)
      (makeSignOpts [WithDupeDetector (λ _ _, Ok None);
                     WithReplaceOp (ro_Replace (X := toy) "payload")]) ∅) = Ok s'
    ∧ pushed s' = Ok [].
Proof.
  eexists. split; [reflexivity|].
  refine (attest_replace_image_unchanged (X := toy) (G := toy_Ggcr) 9 (toy_img 3)
    (λ _ _, Ok None) (ro_Replace (X := toy) "payload") toy_sig _ toy_empty [] _
    eq_refl eq_refl _ eq_refl eq_refl eq_refl).
  intros s o r Hr. unfold ro_Replace in Hr. go_inv. eauto.
Defined.

(** A callback that attaches a signature to everything it is shown. *)
Definition attach_all (p : pass) (e : Entity (G := toy_Ggcr)) (n : nat) :
    nat * (option (Entity (G := toy_Ggcr)) * option error) :=
  match AttachSignatureToEntity (Datatypes.S (eid e)) e toy_sig [] with
  | Ok e' => (Datatypes.S n, (Some e', None))
  | Err err => (n, (None, Some err))
  | Panic _ => (n, (None, None))
  end.

Lemma attach_all_eq p e n :
  attach_all p e n = (Datatypes.S n, (Some (ESigned (Datatypes.S (eid e)) e (Some toy_sig) None
    (makeSignOpts []) ∅), None)).
Proof. unfold attach_all. by rewrite AttachSignatureToEntity_eq. Qed.

Lemma Map_type_safe_witness :
  ∃ n se err, Map toy_AppendManifests attach_all 3 NoPass toy_tree 0 = Some (n, Ok (se, err))
    ∧ ∀ x, se = Some x → is_index x = true.
Proof.
  apply (Map_type_safe toy_AppendManifests attach_all 3 NoPass toy_tree 0).
  - intros p e st st' x err. rewrite attach_all_eq. by intros [= _ <- _].
  - intros e st st' x. rewrite attach_all_eq. by intros [= _ <-].
  - reflexivity.
  - cbn. lia.
Defined.
