(* ===== verification/OciRemote.v ===== *)
(** * oci on registries and on disk layouts

    pkg/oci/remote (options, the tags under which signatures, attestations and
    SBOMs of a digest are stored, reading signed entities and publishing their
    signatures), pkg/oci/layout (the same on an OCI layout directory) and
    pkg/oci/signed (entities without signatures).

    The registry and ggcr's layout package are parameters (class [Registry]);
    [RegistryLaws] states the documented behaviour the publishing theorems use. *)
From S2P Require Import Prelude GoStd External Concrete OciSignature OciSignatures OciEntity.

(** name.Repository, name.Reference *)
Definition Repository := string.
Inductive Reference :=
  | name_Tag (repo : Repository) (tag : string)
  | name_Digest (repo : Repository) (digest : string).
#[global] Instance Reference_eq_dec : EqDecision Reference.
Proof. solve_decision. Defined.

Definition ref_Context (r : Reference) : Repository :=
  match r with name_Tag repo _ | name_Digest repo _ => repo end.

(** An index read from a registry or a layout: its digest and, per descriptor,
    the image or index it resolves to. *)
Class Registry `{G : Ggcr} := {
  ROption : Type;
  defaultOptions : list ROption;
  Reg : Type;
  V1Index : Type;
  Image_Digest : Image → res Hash;
  Image_Layers : Image → res (list Layer);
  Index_Digest : V1Index → res Hash;
  Index_Manifest : V1Index → res (list Descriptor);
  Index_Image : V1Index → Hash → res Image;
  Index_ImageIndex : V1Index → Hash → res V1Index;
  (* remote.Get: media type, digest, and the descriptor's Image and ImageIndex *)
  remoteGet : Reg → list ROption → Reference → res (string * Hash * (res Image * res V1Index));
  remoteImage : Reg → list ROption → Reference → res Image;
  remoteIndex : Reg → list ROption → Reference → res V1Index;
  remoteWrite : list ROption → Reference → Image → Reg → Reg * res unit;
  remoteWriteIndex : list ROption → Reference → V1Index → Reg → Reg * res unit;
  (* layout: a path is a directory of the file system [Reg] also stands for *)
  layout_Write : string → Reg → Reg * res unit;
  layout_AppendImage : string → Image → string → Reg → Reg * res unit;  (* kind annotation *)
  layout_AppendIndex : string → V1Index → string → Reg → Reg * res unit;
  layout_FromPath : Reg → string → res V1Index;
  v1_NewHash : string → res Hash;
  name_NewRepository : string → res Repository;
  name_ParseReference : string → res Reference }.

Section remote.
Context `{R : Registry}.

(** ** Options *)

Definition SignatureTagSuffix := "sig".
Definition SBOMTagSuffix := "sbom".
Definition AttestationTagSuffix := "att".
Definition CustomTagPrefix := "".
Definition RepoOverrideEnvKey := "COSIGN_REPOSITORY".

Record options := mkOptions {
  SignatureSuffix : string;
  AttestationSuffix : string;
  SBOMSuffix : string;
  TagPrefix : string;
  TargetRepository : Repository;
  ROpt : list ROption }.

Definition Option_ := options → options.

Definition makeOptions (target : Repository) (opts : list Option_) : options :=
  foldl (λ o option, option o)
    (mkOptions SignatureTagSuffix AttestationTagSuffix SBOMTagSuffix CustomTagPrefix target
       defaultOptions) opts.

Definition WithPrefix (prefix : string) : Option_ := λ o,
  mkOptions (SignatureSuffix o) (AttestationSuffix o) (SBOMSuffix o) prefix
    (TargetRepository o) (ROpt o).
Definition WithSignatureSuffix (suffix : string) : Option_ := λ o,
  mkOptions suffix (AttestationSuffix o) (SBOMSuffix o) (TagPrefix o) (TargetRepository o) (ROpt o).
Definition WithAttestationSuffix (suffix : string) : Option_ := λ o,
  mkOptions (SignatureSuffix o) suffix (SBOMSuffix o) (TagPrefix o) (TargetRepository o) (ROpt o).
Definition WithSBOMSuffix (suffix : string) : Option_ := λ o,
  mkOptions (SignatureSuffix o) (AttestationSuffix o) suffix (TagPrefix o)
    (TargetRepository o) (ROpt o).
Definition WithRemoteOptions (opts : list ROption) : Option_ := λ o,
  mkOptions (SignatureSuffix o) (AttestationSuffix o) (SBOMSuffix o) (TagPrefix o)
    (TargetRepository o) opts.
Definition WithTargetRepository (repo : Repository) : Option_ := λ o,
  mkOptions (SignatureSuffix o) (AttestationSuffix o) (SBOMSuffix o) (TagPrefix o) repo (ROpt o).

Definition GetEnvTargetRepository `{X : Ext} : res Repository :=
  let ro := os_Getenv RepoOverrideEnvKey in
  if ro =?s "" then Ok "" else wrap ("parsing $" +:+ RepoOverrideEnvKey) (name_NewRepository ro).

(** ** Tags *)

(** sha256:d34db33f is stored under [prefix]sha256-d34db33f[.suffix] *)
Definition normalize (h : Hash) (prefix suffix : string) : string :=
  if suffix =?s "" then prefix +:+ Algorithm h +:+ "-" +:+ Hex h
  else prefix +:+ Algorithm h +:+ "-" +:+ Hex h +:+ "." +:+ suffix.

Definition suffixTag (reg : Reg) (ref : Reference) (suffix : string) (o : options) : res Reference :=
  h ← match ref with
      | name_Digest _ d => v1_NewHash d
      | name_Tag _ _ => desc ← remoteGet reg (ROpt o) ref; Ok (snd (fst desc))
      end;
  Ok (name_Tag (TargetRepository o) (normalize h (TagPrefix o) suffix)).

Definition SignatureTag (reg : Reg) (ref : Reference) (opts : list Option_) : res Reference :=
  let o := makeOptions (ref_Context ref) opts in suffixTag reg ref (SignatureSuffix o) o.
Definition AttestationTag (reg : Reg) (ref : Reference) (opts : list Option_) : res Reference :=
  let o := makeOptions (ref_Context ref) opts in suffixTag reg ref (AttestationSuffix o) o.
Definition SBOMTag (reg : Reg) (ref : Reference) (opts : list Option_) : res Reference :=
  let o := makeOptions (ref_Context ref) opts in suffixTag reg ref (SBOMSuffix o) o.

Definition ResolveDigest (reg : Reg) (ref : Reference) (opts : list Option_) : res Reference :=
  let o := makeOptions (ref_Context ref) opts in
  match ref with
  | name_Digest _ _ => Ok ref
  | name_Tag _ _ =>
      desc ← remoteGet reg (ROpt o) ref;
      Ok (name_Digest (ref_Context ref) (Hash_String (snd (fst desc))))
  end.

(** ** Reading *)

(** A missing tag is an empty set of signatures; any other failure is an
    error. *)
Definition remote_Signatures (reg : Reg) (ref : Reference) (opts : list Option_) : res Signatures :=
  let o := makeOptions (ref_Context ref) opts in
  catch (remoteImage reg (ROpt o) ref)
    (λ err,
      match errors_kind err with
      | Some (kind_transport code) =>
          if decide (code = 404)%Z then Ok (emptyImage empty_Image)
          else Err (error_Kind (kind_transport code) (Error err))
      | _ => Err err
      end)
    (λ img, Ok (sigs img)).

Definition signatures (reg : Reg) (digest : res Hash) (o : options) (opts : list Option_) :
    res Signatures :=
  h ← digest;
  remote_Signatures reg
    (name_Tag (TargetRepository o) (normalize h (TagPrefix o) (SignatureSuffix o))) opts.

Definition attestations (reg : Reg) (digest : res Hash) (o : options) (opts : list Option_) :
    res Signatures :=
  h ← digest;
  remote_Signatures reg
    (name_Tag (TargetRepository o) (normalize h (TagPrefix o) (AttestationSuffix o))) opts.

(** Both lookups report a missing manifest in their own words. *)
Definition not_found {A} (what : string) (r : res A) : res A :=
  map_err (λ err, if is_transport_404 err then error_New (what +:+ " not found in registry")
                  else err) r.
Lemma not_found_Ok {A} what (r : res A) a : not_found what r = Ok a ↔ r = Ok a.
Proof. unfold not_found. by destruct r. Qed.

Definition attachment (reg : Reg) (digest : res Hash) (attName : string) (o : options)
    (opts : list Option_) : res File :=
  h ← digest;
  let ref := name_Tag (TargetRepository o) (normalize h (TagPrefix o) attName) in
  img ← not_found "image" (remoteImage reg (ROpt (makeOptions (ref_Context ref) opts)) ref);
  ls ← Image_Layers img;
  match ls with
  | [l] => Ok (mkFile (layer_MediaType l) (layer_Compressed l))
  | _ => Err (error_New "expected exactly one layer in attachment")
  end.

(** What the entities [image] and [index] of the package answer. *)
Definition remote_core (reg : Reg) (digest : res Hash) (o : options) (opts : list Option_) :
    EntityCore :=
  mkEntityCore digest (signatures reg digest o opts) (attestations reg digest o opts)
    (λ name, attachment reg digest name o opts).

Definition remote_image (reg : Reg) (id : nat) (img : Image) (o : options) (opts : list Option_) :
    Entity := EImage id (remote_core reg (Image_Digest img) o opts).

(** [SignedImage] and [SignedImageIndex] of an index are resolved per
    descriptor; [depth] bounds the nesting that is unfolded. *)
Fixpoint remote_index (depth : nat) (reg : Reg) (id : nat) (ii : V1Index) (o : options)
    (opts : list Option_) : Entity :=
  EIndex id (remote_core reg (Index_Digest ii) o opts)
    (ms ← Index_Manifest ii;
     Ok (imap (λ i desc,
       (desc,
        if is_index_type (desc_MediaType desc) then
          match depth with
          | 0 => Err (error_New "index nesting too deep")
          | S depth =>
              ii' ← Index_ImageIndex ii (desc_Digest desc);
              Ok (remote_index depth reg (S i) ii' o opts)
          end
        else
          img ← Index_Image ii (desc_Digest desc);
          Ok (remote_image reg (S i) img o opts))) ms)).

Definition remote_SignedImage (reg : Reg) (ref : Reference) (opts : list Option_) : res Entity :=
  let o := makeOptions (ref_Context ref) opts in
  ri ← not_found "image" (remoteImage reg (ROpt o) ref);
  Ok (remote_image reg 0 ri o opts).

Definition remote_SignedImageIndex (depth : nat) (reg : Reg) (ref : Reference)
    (opts : list Option_) : res Entity :=
  let o := makeOptions (ref_Context ref) opts in
  ri ← not_found "index" (remoteIndex reg (ROpt o) ref);
  Ok (remote_index depth reg 0 ri o opts).

Definition remote_SignedEntity (depth : nat) (reg : Reg) (ref : Reference) (opts : list Option_) :
    res Entity :=
  let o := makeOptions (ref_Context ref) opts in
  '(mt, digest, (img, idx)) ← not_found "entity" (remoteGet reg (ROpt o) ref);
  if is_index_type mt then ii ← idx; Ok (remote_index depth reg 0 ii o opts)
  else if is_image_type mt then i ← img; Ok (remote_image reg 0 i o opts)
  else Err (error_New ("unknown mime type: " +:+ mt)).

(** ** Publishing *)

Definition write_set (repo : Repository) (set : res Signatures) (digest : res Hash)
    (suffix : options → string) (opts : list Option_) : M Reg unit :=
  let o := makeOptions repo opts in
  s ← lift set;
  h ← lift digest;
  img ← lift (as_image s);
  remoteWrite (ROpt o) (name_Tag (TargetRepository o) (normalize h (TagPrefix o) (suffix o))) img.

Definition WriteSignatures (repo : Repository) (se : Entity) (opts : list Option_) : M Reg unit :=
  write_set repo (Entity_Signatures se) (Entity_Digest se) SignatureSuffix opts.

Definition WriteAttestations (repo : Repository) (se : Entity) (opts : list Option_) : M Reg unit :=
  write_set repo (Entity_Attestations se) (Entity_Digest se) AttestationSuffix opts.

(** ** Layouts *)

Definition kindAnnotation := "kind".
Definition imageAnnotation := "dev.cosignproject.cosign/image".
Definition imageIndexAnnotation := "dev.cosignproject.cosign/imageIndex".
Definition sigsAnnotation := "dev.cosignproject.cosign/sigs".
Definition attsAnnotation := "dev.cosignproject.cosign/atts".

(** The first manifest of the kind; none is nil without an error. *)
Definition by_annotation (annotation : string) (ms : list Descriptor) : option Descriptor :=
  head (filter (λ m, desc_Annotations m !! kindAnnotation = Some annotation) ms).

Definition imageByAnnotation (i : V1Index) (annotation : string) : res (option Image) :=
  manifest ← Index_Manifest i;
  match by_annotation annotation manifest with
  | Some m => Some <$> Index_Image i (desc_Digest m)
  | None => Ok None
  end.

Definition imageIndexByAnnotation (i : V1Index) (annotation : string) : res (option V1Index) :=
  manifest ← Index_Manifest i;
  match by_annotation annotation manifest with
  | Some m => Some <$> Index_ImageIndex i (desc_Digest m)
  | None => Ok None
  end.

(** The methods of a layout's index: [None] is a nil interface. *)
Definition layout_Signatures (i : V1Index) : res (option Signatures) :=
  img ← imageByAnnotation i sigsAnnotation; Ok (sigs <$> (img : option Image)).
Definition layout_Attestations (i : V1Index) : res (option Signatures) :=
  img ← imageByAnnotation i attsAnnotation; Ok (sigs <$> (img : option Image)).
Definition layout_SignedImage (i : V1Index) (h : Hash) : res (option Image) :=
  if Hash_String h =?s ":" then imageByAnnotation i imageAnnotation
  else Some <$> Index_Image i h.
Definition layout_SignedImageIndex (i : V1Index) (h : Hash) : res (option V1Index) :=
  if Hash_String h =?s ":" then imageIndexByAnnotation i imageIndexAnnotation
  else Some <$> Index_ImageIndex i h.

(** [isEmpty]: an error of [Get] counts as empty.  [Get] of an image's layers
    gives a non-nil slice, [Get] of the empty set nil. *)
Fixpoint isEmpty (s : Signatures) : bool :=
  match s with
  | emptyImage _ => true
  | sigs img => negb (is_ok (sigs_Get img))
  | sigAppender _ base news =>
      negb (is_ok (Get base)) || (isEmpty base && match news with [] => true | _ => false end)
  | fakeOCISignatures l | replaceOCISignatures _ l => match l with [] => true | _ => false end
  end.

Definition append_set (path : string) (s : Signatures) (annotation msg : string) : M Reg unit :=
  if isEmpty s then mret ()
  else M_wrap msg (img ← lift (as_image s); layout_AppendImage path img annotation).

Definition writeSignedEntity (path : string) (sigs atts : res Signatures) : M Reg unit :=
  s ← lift (wrap "getting signatures" sigs);
  append_set path s sigsAnnotation "appending signatures";;
  a ← lift (wrap "getting atts" atts);
  append_set path a attsAnnotation "appending atts".

Definition WriteSignedImage (path : string) (img : Image) (sigs atts : res Signatures) :
    M Reg unit :=
  layout_Write path;;
  M_wrap "appending signed image" (layout_AppendImage path img imageAnnotation);;
  writeSignedEntity path sigs atts.

Definition WriteSignedImageIndex (path : string) (ii : V1Index) (sigs atts : res Signatures) :
    M Reg unit :=
  layout_Write path;;
  M_wrap "appending signed image index" (layout_AppendIndex path ii imageIndexAnnotation);;
  writeSignedEntity path sigs atts.

(** [WriteSignedImageIndexImages]: what `cosign load` pushes from a layout. *)
Definition write_loaded (o : options) (opts : list Option_) (ref : Reference)
    (set : res (option Signatures)) (tag : Reg → Reference → list Option_ → res Reference) :
    M Reg unit :=
  s ← lift set;
  match s with
  | None => mret ()
  | Some s =>
      reg ← gets (λ r, r);
      t ← lift (wrap "sigs tag" (tag reg ref opts));
      img ← lift (as_image s);
      remoteWrite (ROpt o) t img
  end.

Definition WriteSignedImageIndexImages (ref : Reference) (sii : V1Index) (opts : list Option_) :
    M Reg unit :=
  let o := makeOptions (ref_Context ref) opts in
  ii ← lift (wrap "signed image index" (layout_SignedImageIndex sii (mkHash "" "")));
  match ii with
  | None => mret ()
  | Some ii => M_wrap "writing index" (remoteWriteIndex (ROpt o) ref ii)
  end;;
  si ← lift (wrap "signed image" (layout_SignedImage sii (mkHash "" "")));
  match si with
  | None => mret ()
  | Some si => M_wrap "remote write" (remoteWrite (ROpt o) ref si)
  end;;
  write_loaded o opts ref (layout_Signatures sii) SignatureTag;;
  write_loaded o opts ref (layout_Attestations sii) AttestationTag.

End remote.

(** ** Tags identify digests *)

(** A well-formed hash: what v1.NewHash accepts, as far as tags need it. *)
Definition hash_wf (h : Hash) : Prop :=
  strings_Count (Algorithm h) "-" = 0 ∧ strings_Count (Hex h) "." = 0.

(** The tags of signatures, attestations and SBOMs are one-to-one: two
    well-formed digests have the same tag, under one prefix, only when they are
    the same digest and the artifacts are of the same kind.  So publishing for
    one digest never overwrites what belongs to another. *)
Theorem normalize_inj prefix h h' suffix suffix' :
  hash_wf h → hash_wf h' → suffix ≠ "" → suffix' ≠ "" →
  normalize h prefix suffix = normalize h' prefix suffix' → h = h' ∧ suffix = suffix'.
Proof.
  intros [Ha Hx] [Ha' Hx'] Hs Hs'. unfold normalize.
  rewrite (proj2 (str_eqb_neq _ _) Hs), (proj2 (str_eqb_neq _ _) Hs'). intros H.
  apply append_inj_l, append_sep_inj in H as [HA H]; [|done..].
  apply append_sep_inj in H as [HX H]; [|done..]. split; [|done]. destruct h, h'. by simplify_eq/=.
Qed.

(** ** Publishing and reading back *)

(** The options of the package, one per constructor function. *)
Inductive package_option `{R : Registry} : Option_ → Prop :=
  | po_Prefix p : package_option (WithPrefix p)
  | po_SignatureSuffix s : package_option (WithSignatureSuffix s)
  | po_AttestationSuffix s : package_option (WithAttestationSuffix s)
  | po_SBOMSuffix s : package_option (WithSBOMSuffix s)
  | po_RemoteOptions l : package_option (WithRemoteOptions l)
  | po_TargetRepository r : package_option (WithTargetRepository r).

(** A tag that a registry accepts has no colon; a name with one is a digest. *)
Definition legal (t : string) : Prop := strings_Count t ":" = 0.

(** What a change of the reference [t] cannot be seen through: another repository,
    or another tag. *)
Definition apart (t t' : Reference) : Prop :=
  ref_Context t' ≠ ref_Context t
  ∨ t' ≠ t ∧ match t' with name_Tag _ s => legal s | name_Digest _ _ => False end.

(** Documented behaviour of a registry: an image that was written is read back
    under its tag, other tags and other repositories are left alone, and what
    is served under a digest stays. *)
Class RegistryLaws `{R : Registry} : Prop := {
  write_read ro t img reg reg' :
    remoteWrite ro t img reg = (reg', Ok ()) →
    ∃ img', remoteImage reg' ro t = Ok img' ∧ sigs_Get img' = sigs_Get img;
  write_other ro t t' img reg reg' :
    remoteWrite ro t img reg = (reg', Ok ()) → apart t t' →
    remoteImage reg' ro t' = remoteImage reg ro t'
    ∧ remoteGet reg' ro t' = remoteGet reg ro t';
  write_keeps ro repo t repo' d img reg reg' x :
    remoteWrite ro (name_Tag repo t) img reg = (reg', Ok ()) →
    remoteGet reg ro (name_Digest repo' d) = Ok x → remoteGet reg' ro (name_Digest repo' d) = Ok x }.

Section publish.
Context `{X : Ext, R : Registry, GL : !GgcrLaws, RL : !RegistryLaws}.

Lemma makeOptions_ROpt opts t t' :
  Forall package_option opts → ROpt (makeOptions t opts) = ROpt (makeOptions t' opts).
Proof.
  unfold makeOptions. intros Hf.
  generalize (eq_refl : ROpt (mkOptions SignatureTagSuffix AttestationTagSuffix SBOMTagSuffix
    CustomTagPrefix t defaultOptions) = ROpt (mkOptions SignatureTagSuffix AttestationTagSuffix
    SBOMTagSuffix CustomTagPrefix t' defaultOptions)).
  generalize (mkOptions SignatureTagSuffix AttestationTagSuffix SBOMTagSuffix CustomTagPrefix t
    defaultOptions) (mkOptions SignatureTagSuffix AttestationTagSuffix SBOMTagSuffix
    CustomTagPrefix t' defaultOptions).
  induction Hf as [|opt opts Ho Hf IH]; intros o o' H; [done|]. cbn. apply IH. by destruct Ho.
Qed.

Lemma remote_Signatures_image reg t opts img :
  remoteImage reg (ROpt (makeOptions (ref_Context t) opts)) t = Ok img →
  remote_Signatures reg t opts = Ok (sigs img).
Proof. unfold remote_Signatures. by intros ->. Qed.

Lemma remote_Signatures_same reg reg' t opts :
  remoteImage reg' (ROpt (makeOptions (ref_Context t) opts)) t
    = remoteImage reg (ROpt (makeOptions (ref_Context t) opts)) t →
  remote_Signatures reg' t opts = remote_Signatures reg t opts.
Proof. unfold remote_Signatures. by intros ->. Qed.

Lemma write_set_read repo set digest suffix opts reg reg' s h :
  Forall package_option opts →
  write_set repo set digest suffix opts reg = (reg', Ok ()) → set = Ok s → digest = Ok h →
  let o := makeOptions repo opts in
  let tag := name_Tag (TargetRepository o) (normalize h (TagPrefix o) (suffix o)) in
  (∃ s', remote_Signatures reg' tag opts = Ok s' ∧ Get s' = pushed s)
  ∧ ∀ t, apart tag t → remote_Signatures reg' t opts = remote_Signatures reg t opts.
Proof.
  intros Hopts H -> -> o tag. unfold write_set in H. M_inv. split.
  - match goal with H : remoteWrite _ _ ?img _ = _ |- _ =>
      destruct (write_read _ _ _ _ _ H) as (img' & Hi & Hg) end.
    exists (sigs img'). split; [|unfold pushed;
      match goal with H : as_image _ = _ |- _ => by rewrite H end].
    apply remote_Signatures_image. subst tag o. cbn.
    by rewrite (makeOptions_ROpt opts _ repo) by done.
  - intros t Ht. apply remote_Signatures_same.
    rewrite (makeOptions_ROpt opts _ repo) by done. by eapply (write_other _ tag t).
Qed.

(** `cosign sign`, from the signature to the registry.  The entity [e] is
    signed with the duplicate detector and its signatures are published.
    Afterwards the registry holds, under the digest's signature tag, the
    signatures [e] had, followed by the new one, equal to it under every
    accessor, unless [e] already had a duplicate, in which case nothing is
    added; no other tag and no other repository changes. *)
Theorem sign_publish id e v sig e' base sl bl h repo opts reg reg' :
  Forall package_option opts →
  AttachSignatureToEntity id e sig [WithDupeDetector (dd_Find v)] = Ok e' →
  Entity_Signatures e = Ok base → OciSignatures.Get base = Ok sl → pushed base = Ok bl →
  Entity_Digest e = Ok h → (∃ a, Consistent sig a) →
  WriteSignatures repo e' opts reg = (reg', Ok ()) →
  let o := makeOptions repo opts in
  (∃ s', signatures reg' (Ok h) o opts = Ok s'
    ∧ ((∃ s, s ∈ sl ∧ Duplicate v sig s ∧ Get s' = Ok bl)
       ∨ ((∀ s, s ∈ sl → ¬ Duplicate v sig s)
          ∧ ∃ new, same_signature sig new ∧ Get s' = Ok (bl ++ [new]))))
  ∧ ∀ t, apart (name_Tag (TargetRepository o) (normalize h (TagPrefix o) (SignatureSuffix o))) t →
      remote_Signatures reg' t opts = remote_Signatures reg t opts.
Proof.
  intros Hopts Ha Hb Hg Hp Hd Hc Hw o. unfold WriteSignatures in Hw.
  assert (∃ s', Entity_Signatures e' = Ok s') as [s' Hs'].
  { unfold write_set in Hw. M_inv. eauto. }
  assert (Hd' : Entity_Digest e' = Ok h) by (by rewrite (AttachSignatureToEntity_digest _ _ _ _ _ Ha)).
  destruct (write_set_read _ _ _ _ _ _ _ _ _ Hopts Hw Hs' Hd') as [(s2 & Hr & Hg2) Ho].
  split; [|done]. exists s2. split; [exact Hr|]. rewrite Hg2.
  by apply (attach_signature_published id e v sig e' base sl bl s').
Qed.

End publish.

(** A layout written from an entity whose signatures cannot be listed has
    no signatures and the write reports no error: an error of [Get] counts as
    an empty set. *)
Theorem save_drops_unreadable `{R : Registry} path img set atts e reg :
  Get set = Err e → isEmpty atts = true →
  WriteSignedImage path img (Ok set) (Ok atts) reg
  = (layout_Write path;;
     M_wrap "appending signed image" (layout_AppendImage path img imageAnnotation)) reg.
Proof.
  intros Hg Ha.
  assert (Hs : isEmpty set = true).
  { destruct set; cbn in *; try done; [by rewrite Hg|].
    destruct (Get set) as [| |]; cbn in *; done. }
  unfold WriteSignedImage, writeSignedEntity, append_set, mbind, M_bind.
  destruct (layout_Write path reg) as [reg1 [[]| |]]; [|done..].
  destruct (M_wrap _ _ _) as [reg2 [[]| |]]; [|done..]. cbn. rewrite Hs. cbn. by rewrite Ha.
Qed.

(** ** Witnesses *)

(** A registry is a map from references to images; the repository "index" holds
    an index of one image, and every layout one image, without signatures. *)
Definition map_Registry (G : Ggcr) : Registry (G := G) := {|
  ROption := unit;
  defaultOptions := [];
  Reg := Reference → option Image;
  V1Index := unit;
  Image_Digest _ := Ok (mkHash "sha256" "d");
  Image_Layers _ := Ok [];
  Index_Digest _ := Ok (mkHash "sha256" "i");
  Index_Manifest _ := Ok [mkDescriptor OCIManifestSchema1 (mkHash "sha256" "d")
    {[kindAnnotation := imageAnnotation]} None];
  Index_Image _ _ := Ok empty_Image;
  Index_ImageIndex _ _ := Err (error_New "no index");
  remoteGet reg _ ref :=
    if ref_Context ref =?s "index"
    then Ok (OCIImageIndex, mkHash "sha256" "i", (Err (error_New "index"), Ok ())) else
    match reg ref with
    | Some img => Ok (OCIManifestSchema1, mkHash "sha256" "d", (Ok img, Err (error_New "image")))
    | None => Err (error_Kind (kind_transport 404) "not found")
    end;
  remoteImage reg _ ref :=
    match reg ref with
    | Some img => Ok img
    | None => Err (error_Kind (kind_transport 404) "not found")
    end;
  remoteIndex _ _ _ := Err (error_Kind (kind_transport 404) "not found");
  remoteWrite _ ref img reg := (λ r, if decide (r = ref) then Some img else reg r, Ok ());
  remoteWriteIndex _ _ _ reg := (reg, Ok ());
  layout_Write _ reg := (reg, Ok ());
  layout_AppendImage _ _ _ reg := (reg, Ok ());
  layout_AppendIndex _ _ _ reg := (reg, Ok ());
  layout_FromPath _ _ := Ok ();
  v1_NewHash s :=
    match strings_Split s ":"%char with
    | [a; h] => Ok (mkHash a h)
    | _ => Ok (mkHash "sha256" s)
    end;
  name_NewRepository s := Ok s;
  name_ParseReference s :=
    match strings_Split s "@"%char with
    | [repo; d] => Ok (name_Digest repo d)
    | _ => Ok (name_Tag s "latest")
    end |}.

Definition toy_Registry : Registry (G := toy_Ggcr) := map_Registry toy_Ggcr.

(** Images whose manifest cannot be read. *)
Definition broken_Ggcr : Ggcr := {|
  Image := unit;
  empty_Image := ();
  Image_Manifest _ := Err (error_New "unexpected EOF");
  Image_LayerByDigest _ _ := Err (error_New "unexpected EOF");
  mutate_Append _ _ := Ok () |}.

#[export] Instance toy_RegistryLaws : RegistryLaws (R := toy_Registry).
Proof.
  split.
  - intros ro t img reg reg' [= <-]. exists img. cbn. by rewrite decide_True.
  - intros ro t t' img reg reg' [= <-] Hne. cbn.
    rewrite decide_False; [done|]. destruct Hne as [?|[? _]]; congruence.
  - by intros ro repo t repo' d img reg reg' x [= <-].
Qed.

Lemma normalize_inj_witness :
  let h := mkHash "sha256" "d34d" in
  h = h ∧ "sig" = "sig".
Proof.
  apply (normalize_inj "" (mkHash "sha256" "d34d") (mkHash "sha256" "d34d") "sig" "sig");
    [split; reflexivity..|done|done|reflexivity].
Defined.

Lemma sign_publish_witness :
  ∃ reg' s' new,
    signatures (R := toy_Registry) reg' (Ok (mkHash "sha256" "d"))
      (makeOptions (R := toy_Registry) "repo" []) [] = Ok s'
    ∧ same_signature (X := toy) toy_sig new ∧ Get s' = Ok [new].
Proof.
  destruct (sign_publish (X := toy) (R := toy_Registry) 9 (toy_img 3)
    (toy_verifier (toy_key "k")) toy_sig _ toy_empty [] [] (mkHash "sha256" "d") "repo" []
    (λ _, None) _ (Forall_nil_2 _) eq_refl eq_refl eq_refl eq_refl eq_refl
    (Forall_inv toy_sig_consistent) eq_refl) as [(s' & Hs & Hc) _].
  destruct Hc as [(s & Hin & _)|(_ & new & Hsame & Hg)]; [by apply elem_of_nil in Hin|].
  eexists _, s', new. split; [exact Hs|]. by split.
Defined.

Lemma save_drops_unreadable_witness :
  WriteSignedImage (R := map_Registry broken_Ggcr) "p" () (Ok (sigs (G := broken_Ggcr) ()))
    (Ok (emptyImage (G := broken_Ggcr) ())) (λ _, None) = (λ _, None, Ok ()).
Proof.
  rewrite (save_drops_unreadable (R := map_Registry broken_Ggcr) "p" () (sigs (G := broken_Ggcr) ())
    (emptyImage (G := broken_Ggcr) ()) (error_New "unexpected EOF") (λ _, None)); reflexivity.
Defined.
