(* ===== verification/Tuf.v ===== *)
(** * The TUF client and root policies

    pkg/cosign/tuf: client.go (opening the local or embedded store, updating
    it, reading authenticated targets), status_type.go and usage_type.go (the
    custom metadata enumerations), policy.go and signer.go (root policies of
    `cosign policy`).

    The world holds the files and the leveldb stores on disk; go-tuf's client
    and the embedded repository are parameters (class [TufExt]). *)
From S2P Require Import Prelude GoStd External Concrete.

(** ** StatusKind and UsageKind *)

Definition StatusKind := Z.
Definition UnknownStatus : StatusKind := 0%Z.
Definition Active : StatusKind := 1%Z.
Definition Expired : StatusKind := 2%Z.

Definition StatusKind_String (s : StatusKind) : string :=
  if decide (s = UnknownStatus) then "Unknown"
  else if decide (s = Active) then "Active"
  else if decide (s = Expired) then "Expired" else "".

Definition StatusKind_MarshalText (s : StatusKind) : res bytes :=
  if StatusKind_String s =?s ""
  then Err (error_New "error while marshalling, StatusKind not valid")
  else Ok (StatusKind_String s).

Definition UsageKind := Z.
Definition UnknownUsage : UsageKind := 0%Z.
Definition Fulcio : UsageKind := 1%Z.
Definition Rekor_ : UsageKind := 2%Z.
Definition CTFE : UsageKind := 3%Z.

Definition UsageKind_String (u : UsageKind) : string :=
  if decide (u = UnknownUsage) then "Unknown"
  else if decide (u = Fulcio) then "Fulcio"
  else if decide (u = Rekor_) then "Rekor"
  else if decide (u = CTFE) then "CTFE" else "".

Definition UsageKind_MarshalText (u : UsageKind) : res bytes :=
  if UsageKind_String u =?s ""
  then Err (error_New "error while marshalling, UsageKind not valid")
  else Ok (UsageKind_String u).

Section text.
Context (unicode_lower : string → string).

Definition StatusKind_UnmarshalText (text : bytes) : res StatusKind :=
  let t := strings_ToLower unicode_lower text in
  if t =?s "unknown" then Ok UnknownStatus
  else if t =?s "active" then Ok Active
  else if t =?s "expired" then Ok Expired
  else Err (error_New ("error while unmarshalling, StatusKind=" +:+ text +:+ " not valid")).

Definition UsageKind_UnmarshalText (text : bytes) : res UsageKind :=
  let t := strings_ToLower unicode_lower text in
  if t =?s "unknown" then Ok UnknownUsage
  else if t =?s "fulcio" then Ok Fulcio
  else if t =?s "rekor" then Ok Rekor_
  else if t =?s "ctfe" then Ok CTFE
  else Err (error_New ("error while unmarshalling, UsageKind=" +:+ text +:+ " not valid")).

(** The text forms of the custom-metadata enumerations round trip: what
    MarshalText accepts, UnmarshalText reads back as the same value, and it
    accepts exactly the declared constants. *)
Theorem kinds_roundtrip (s : StatusKind) (u : UsageKind) :
  (∀ t, StatusKind_MarshalText s = Ok t → StatusKind_UnmarshalText t = Ok s)
  ∧ (∀ t, UsageKind_MarshalText u = Ok t → UsageKind_UnmarshalText t = Ok u)
  ∧ (is_ok (StatusKind_MarshalText s) = true ↔ (0 ≤ s ≤ 2)%Z)
  ∧ (is_ok (UsageKind_MarshalText u) = true ↔ (0 ≤ u ≤ 3)%Z).
Proof.
  unfold StatusKind_MarshalText, UsageKind_MarshalText, StatusKind_String, UsageKind_String,
    UnknownStatus, Active, Expired, UnknownUsage, Fulcio, Rekor_, CTFE.
  repeat split; intros; repeat case_decide; simplify_eq/=; try reflexivity; try done; try lia.
Qed.

End text.

(** ** The go-tuf client and the operating system *)

(** A LocalStore is a map from metadata names to documents. *)
Definition Local := gmap string bytes.

(** go-tuf's RemoteStore: a document and its size *)
Record RemoteStore := mkRemoteStore {
  rs_GetMeta : string → res (bytes * Z);
  rs_GetTarget : string → res (bytes * Z) }.

Record MetadataStatus := mkMetadataStatus {
  ms_Version : Z; ms_Size : Z; ms_Expiration : string; ms_Error : string }.

Record RootStatus := mkRootStatus {
  rst_Local : string;
  rst_Remote : string;
  rst_Metadata : list (string * MetadataStatus);
  rst_Targets : list string }.

Class TufExt := {
  FileMeta : Type;
  ClientState : Type;
  client_new : ClientState;
  client_InitLocal : RemoteStore → bytes → Local * ClientState →
    (Local * ClientState) * option error;
  client_Update : RemoteStore → Local * ClientState → (Local * ClientState) * res (list string);
  client_Target : Local * ClientState → string → res FileMeta;
  client_Targets : Local * ClientState → res (list (string * option bytes));
  client_Download : RemoteStore → Local * ClientState → string → res bytes;
  GenerateTargetFileMeta : bytes → res FileMeta;
  TargetFileMetaEqual : FileMeta → FileMeta → res unit;
  url_ParseRequestURI : string → res unit;
  HTTPRemoteStore : string → res RemoteStore;
  storage_NewClient : res unit;                           (* Google Cloud Storage *)
  storage_Attrs : string → string → res Z;                (* bucket, object: its size *)
  storage_NewReader : string → string → res bytes;
  leveldb_open : string → option error;
  embeddedRootRepo_ReadFile : string → res bytes;
  os_UserHomeDir : res string;
  io_fault : string → string → option error;              (* operation, path *)
  runtime_windows : bool;
  unicode_ToLower : string → string;
  json_Unmarshal_Signed : bytes → res bytes;              (* data.Signed.Signed *)
  json_Unmarshal_signedMeta : bytes → res (Z * Z);        (* expires, version *)
  json_Unmarshal_custom : bytes → res (option string * option string); (* usage, status *)
  json_Unmarshal_remoteCache : bytes → res string;
  json_Marshal_remoteCache : string → res bytes;
  json_MarshalIndent_status : string → list (string * (Z * Z)) → res bytes;
  json_MarshalIndent_RootStatus : RootStatus → res bytes;
  time_Format : Z → string }.

Record World := mkWorld {
  w_files : gmap string bytes;
  w_dbs : gmap string Local;
  w_now : Z }.

Section client.
Context `{X : Ext, T : TufExt}.

Definition fault (op path : string) : res unit :=
  match io_fault op path with Some e => Err e | None => Ok () end.

Definition os_ReadFile_w (path : string) : M World bytes := λ w,
  (w, _ ← fault "read" path;
      match w_files w !! path with
      | Some b => Ok b
      | None => Err (error_Kind kind_NotExist "no such file or directory")
      end).

Definition os_WriteFile (path : string) (b : bytes) : M World unit := λ w,
  match fault "write" path with
  | Ok _ => (mkWorld (<[path := b]> (w_files w)) (w_dbs w) (w_now w), Ok ())
  | r => (w, r)
  end.

Definition os_Stat (path : string) : M World unit := λ w,
  (w, _ ← fault "stat" path;
      if bool_decide (is_Some (w_files w !! path) ∨ is_Some (w_dbs w !! path)) then Ok ()
      else Err (error_Kind kind_NotExist "no such file or directory")).

(** *** Paths *)

Definition DefaultRemoteRoot := "sigstore-tuf-root".
Definition TufRootEnv := "TUF_ROOT".
Definition SigstoreNoCache := "SIGSTORE_NO_CACHE".

Definition rootCacheDir : string :=
  let rootDir := os_Getenv TufRootEnv in
  if rootDir =?s "" then
    let home := match os_UserHomeDir with Ok h => h | _ => "" end in
    filepath_Join [home; ".sigstore"; "root"]
  else rootDir.
Definition cachedRemote (cacheRoot : string) : string := filepath_Join [cacheRoot; "remote.json"].
Definition cachedTargetsDir (cacheRoot : string) : string := filepath_Join [cacheRoot; "targets"].
Definition tufDB : string := filepath_Join [rootCacheDir; "tuf.db"].

(** *** Target storage: where targets are read from and written to *)

Inductive setImpl :=
  | memoryCache (targets : gmap string bytes)
  | diskCache (base : string).

Inductive targetImpl :=
  | embedded (set : setImpl)
  | file (base : string) (set : setImpl).

Definition setImpl_Set (s : setImpl) (p : string) (b : bytes) : M World setImpl :=
  match s with
  | memoryCache targets => mret (memoryCache (<[p := b]> targets))
  | diskCache base =>
      M_wrap "creating targets dir" (lift (fault "mkdir" base));;
      os_WriteFile (filepath_Join [base; p]) b;;
      mret (diskCache base)
  end.

Definition targets_Set (t : targetImpl) (p : string) (b : bytes) : M World targetImpl :=
  match t with
  | embedded s => s ← setImpl_Set s p b; mret (embedded s)
  | file base s => s ← setImpl_Set s p b; mret (file base s)
  end.

Definition targets_Get (t : targetImpl) (p : string) : M World bytes :=
  match t with
  | embedded _ =>
      b ← lift (embeddedRootRepo_ReadFile (filepath_Join ["repository"; "targets"; p]));
      mret (if runtime_windows then replace_crlf b else b)
  | file base _ => os_ReadFile_w (filepath_Join [base; p])
  end.

Definition noCache : bool :=
  default false (strconv_ParseBool (os_Getenv SigstoreNoCache)).

Definition newEmbeddedImpl : targetImpl :=
  embedded (if noCache then memoryCache ∅ else diskCache (cachedTargetsDir rootCacheDir)).
Definition newFileImpl : targetImpl :=
  let base := cachedTargetsDir rootCacheDir in
  file base (if noCache then memoryCache ∅ else diskCache base).

(** *** Metadata documents *)

Definition getExpiration (metadata : bytes) : res Z :=
  s ← json_Unmarshal_Signed metadata; fst <$> json_Unmarshal_signedMeta s.
Definition getVersion (metadata : bytes) : res Z :=
  s ← json_Unmarshal_Signed metadata; snd <$> json_Unmarshal_signedMeta s.

(** The time left until the expiration is not positive. *)
Definition isExpiredTimestamp (now : Z) (metadata : bytes) : bool :=
  match getExpiration metadata with Ok exp => bool_decide (exp - now ≤ 0)%Z | _ => true end.

Definition getMetadataStatus (b : bytes) : res MetadataStatus :=
  expires ← getExpiration b;
  version ← getVersion b;
  Ok (mkMetadataStatus version (Z.of_nat (String.length b)) (time_Format expires) "").

Definition getRoot (meta : Local) : res bytes :=
  match meta !! "root.json" with
  | Some trustedRoot => Ok trustedRoot
  | None => embeddedRootRepo_ReadFile (filepath_Join ["repository"; "root.json"])
  end.

(** *** Stores *)

(** The client and the stores it was created on; [store] is the leveldb path
    of a file store. *)
Record TUF := mkTUF {
  t_client : Local * ClientState;
  t_targets : targetImpl;
  t_store : option string;
  t_remote : RemoteStore;
  t_embedded : bool;
  t_mirror : string }.

Fixpoint embedded_meta (files : list string) (local : Local) : res Local :=
  match files with
  | [] => Ok local
  | f :: fs =>
      b ← wrap "reading embedded file" (embeddedRootRepo_ReadFile (filepath_Join ["repository"; f]));
      embedded_meta fs (<[f := b]> local)
  end.
Definition metadataFiles := ["root.json"; "targets.json"; "snapshot.json"; "timestamp.json"].
Definition embeddedLocalStore : res Local := embedded_meta metadataFiles ∅.

(** [FileLocalStore] opens the database, creating it when it is missing. *)
Definition localStore (cacheRoot : string) : M World Local :=
  M_wrap "creating cached local store" (λ w,
    match leveldb_open cacheRoot with
    | Some e => (w, Err e)
    | None =>
        let meta := default ∅ (w_dbs w !! cacheRoot) in
        (mkWorld (w_files w) (<[cacheRoot := meta]> (w_dbs w)) (w_now w), Ok meta)
    end).

(** A client operation writes its local store through. *)
Definition persist (store : option string) (meta : Local) (w : World) : World :=
  match store with
  | None => w
  | Some p => mkWorld (w_files w) (<[p := meta]> (w_dbs w)) (w_now w)
  end.

(** store.go: a repository in a bucket *)
Record GcsRemoteOptions := mkGcsRemoteOptions { MetadataPath : string; TargetsPath : string }.

Definition gcs_get (bucket s : string) : res (bytes * Z) :=
  match storage_Attrs bucket s with
  | Ok size => rc ← storage_NewReader bucket s; Ok (rc, size)
  | Err _ => Err (error_New ("tuf: file not found: " +:+ s))
  | Panic why => Panic why
  end.

(** [client] says whether a client was given. *)
Definition GcsRemoteStore (bucket : string) (opts : option GcsRemoteOptions) (client : bool) :
    res RemoteStore :=
  let opts := default (mkGcsRemoteOptions "" "") opts in
  let targetsPath := if TargetsPath opts =?s "" then "targets" else TargetsPath opts in
  (if client then Ok () else storage_NewClient);;
  Ok (mkRemoteStore (λ name, gcs_get bucket (filepath_Join [MetadataPath opts; name]))
                    (λ name, gcs_get bucket (filepath_Join [targetsPath; name]))).

Definition remoteFromMirror (mirror : string) : res RemoteStore :=
  match url_ParseRequestURI mirror with
  | Ok _ => HTTPRemoteStore mirror
  | _ => GcsRemoteStore mirror None false
  end.

Definition downloadRemoteTarget (t : TUF) (name : string) : res bytes :=
  wrap "downloading target" (client_Download (t_remote t) (t_client t) name).

(** *** Updating *)

(** The loop over the updated target files. *)
Fixpoint download_targets (names : list string) (t : TUF) : M World TUF :=
  match names with
  | [] => mret t
  | name :: names' =>
      buf ← lift (downloadRemoteTarget t name);
      targets ← targets_Set (t_targets t) name buf;
      download_targets names'
        (mkTUF (t_client t) targets (t_store t) (t_remote t) (t_embedded t) (t_mirror t))
  end.

(** The metadata of the remote, reported when an update fails. *)
Definition remote_status (r : RemoteStore) : list (string * (Z * Z)) :=
  omap (λ md,
    match rs_GetMeta r md with
    | Ok (b, _) =>
        match getMetadataStatus b with
        | Ok s => Some (md, (ms_Version s, ms_Size s))
        | _ => None
        end
    | _ => None
    end) metadataFiles.

Definition update_error (t : TUF) (err : error) : error :=
  match json_MarshalIndent_status (t_mirror t) (remote_status (t_remote t)) with
  | Ok b => error_Wrapped ("error updating to TUF remote mirror: " +:+ Error err
                           +:+ " remote status:" +:+ b) err
  | Err innerErr => innerErr
  | Panic _ => err
  end.

Definition IsLatestSnapshot (e : error) : bool :=
  match e with error_Kind kind_LatestSnapshot _ => true | _ => false end.

Definition updateMetadataAndDownloadTargets (t : TUF) : M World TUF := λ w,
  let '(cs, r) := client_Update (t_remote t) (t_client t) in
  let w := persist (t_store t) (fst cs) w in
  let t := mkTUF cs (t_targets t) (t_store t) (t_remote t) (t_embedded t) (t_mirror t) in
  match r with
  | Ok names => download_targets names t w
  | Err e => if IsLatestSnapshot e then download_targets [] t w else (w, Err (update_error t e))
  | Panic x => (w, Panic x)
  end.

(** The local store and the target storage. *)
Definition open_local (embed : bool) : M World (Local * option string * targetImpl) :=
  if embed then
    local ← lift embeddedLocalStore; mret (local, None, newEmbeddedImpl)
  else
    local ← localStore tufDB; mret (local, Some tufDB, newFileImpl).

Definition initializeTUF (embed : bool) (mirror : string) (root : option bytes)
    (forceUpdate : bool) : M World TUF :=
  '(local, store, targets) ← open_local embed;
  remote ← lift (remoteFromMirror mirror);
  root ← lift (match root with
               | Some r => Ok r
               | None => wrap "getting trusted root" (getRoot local)
               end);
  let '(cs, err) := client_InitLocal remote root (local, client_new) in
  modify (persist store (fst cs));;
  lift (match err with
        | None => Ok ()
        | Some e => wrap "unable to initialize client, local cache may be corrupt" (Err e)
        end);;
  let t := mkTUF cs targets store remote embed mirror in
  now ← gets w_now;
  let fresh := match local !! "timestamp.json" with
               | Some ts => negb (isExpiredTimestamp now ts)
               | None => false
               end in
  if fresh && negb forceUpdate then mret t
  else M_wrap "updating local metadata and targets" (updateMetadataAndDownloadTargets t).

Definition NewFromEnv : M World TUF :=
  st ← M_try (os_Stat tufDB);
  embed ← lift (match st with
                | Ok _ => Ok false
                | Err e => if os_IsNotExist e then Ok true else Err e
                | Panic x => Panic x
                end);
  b ← M_try (os_ReadFile_w (cachedRemote rootCacheDir));
  let mirror := match b with
                | Ok b => match json_Unmarshal_remoteCache b with
                          | Ok m => m
                          | _ => DefaultRemoteRoot
                          end
                | _ => DefaultRemoteRoot
                end in
  initializeTUF embed mirror None false.

Definition Initialize (mirror : string) (root : option bytes) : M World unit :=
  _ ← initializeTUF false mirror root true;
  b ← lift (json_Marshal_remoteCache mirror);
  M_wrap "storing remote" (os_WriteFile (cachedRemote rootCacheDir) b).

(** *** Reading targets *)

Definition GetTarget (t : TUF) (name : string) : M World bytes :=
  validMeta ← lift (wrap "error verifying local metadata; local cache may be corrupt"
                      (client_Target (t_client t) name));
  targetBytes ← targets_Get (t_targets t) name;
  localMeta ← lift (GenerateTargetFileMeta targetBytes);
  lift (TargetFileMetaEqual localMeta validMeta);;
  mret targetBytes.

Record TargetFile := mkTargetFile { tf_Target : bytes; tf_Status : StatusKind }.

(** The custom metadata of a target: its usage and status. *)
Definition custom_metadata (custom : option bytes) : option (UsageKind * StatusKind) :=
  match custom with
  | None => None
  | Some c =>
      match json_Unmarshal_custom c with
      | Ok (u, s) =>
          match from_option (UsageKind_UnmarshalText unicode_ToLower) (Ok UnknownUsage) u,
                from_option (StatusKind_UnmarshalText unicode_ToLower) (Ok UnknownStatus) s with
          | Ok u, Ok s => Some (u, s)
          | _, _ => None
          end
      | _ => None
      end
  end.

Fixpoint matched_targets (t : TUF) (usage : UsageKind) (l : list (string * option bytes)) :
    M World (list TargetFile) :=
  match l with
  | [] => mret []
  | (name, custom) :: l' =>
      match custom_metadata custom with
      | Some (u, s) =>
          if decide (u = usage) then
            target ← M_wrap "error getting target by usage" (GetTarget t name);
            rest ← matched_targets t usage l';
            mret (mkTargetFile target s :: rest)
          else matched_targets t usage l'
      | None => matched_targets t usage l'
      end
  end.

Fixpoint fallback_targets (t : TUF) (fallbacks : list string) : M World (list TargetFile) :=
  match fallbacks with
  | [] => mret []
  | fb :: fbs =>
      target ← M_try (GetTarget t fb);
      rest ← fallback_targets t fbs;
      mret (match target with Ok b => mkTargetFile b Active :: rest | _ => rest end)
  end.

Definition GetTargetsByMeta (t : TUF) (usage : UsageKind) (fallbacks : list string) :
    M World (list TargetFile) :=
  targets ← lift (wrap "error getting targets" (client_Targets (t_client t)));
  matched ← matched_targets t usage targets;
  matched ← match matched with [] => fallback_targets t fallbacks | _ => mret matched end;
  match matched with
  | [] => lift (Err (error_New
            ("no matching targets by custom metadata, fallbacks not found: "
             +:+ strings_Join fallbacks ", ")))
  | _ => mret matched
  end.

(** *** Status *)

Definition getRootStatus (t : TUF) : res RootStatus :=
  let local := if t_embedded t then "embedded" else rootCacheDir in
  targets ← client_Targets (t_client t);
  Ok (mkRootStatus local (t_mirror t)
        ((λ '(role, md),
           (role, match getMetadataStatus md with
                  | Ok s => s
                  | Err e => mkMetadataStatus 0 0 "" (Error e)
                  | Panic x => mkMetadataStatus 0 0 "" x
                  end)) <$> map_to_list (fst (t_client t)))
        (fst <$> targets)).

Definition GetRootStatus : M World RootStatus :=
  t ← NewFromEnv; lift (getRootStatus t).

(** ** cmd/cosign/cli/initialize/init.go *)

(** blob.LoadFileOrURL *)
Definition LoadFileOrURL (fileRef : string) : M World bytes :=
  if strings_HasPrefix fileRef "http://" || strings_HasPrefix fileRef "https://"
  then lift (http_Get fileRef) else os_ReadFile_w (filepath_Clean fileRef).

(** What is printed. *)
Definition DoInitialize (root mirror : string) : M World string :=
  rootFileBytes ← (if negb (root =?s "") then b ← LoadFileOrURL root; mret (Some b) else mret None);
  Initialize mirror rootFileBytes;;
  status ← GetRootStatus;
  b ← lift (json_MarshalIndent_RootStatus status);
  mret ("Root status: " +:+ String (ascii_of_nat 10) (" " +:+ b)).

End client.

(** ** Authenticated targets *)

(** The bytes carry the length and hashes that the verified metadata records
    for the name. *)
Definition authentic `{T : TufExt} (t : TUF) (name : string) (b : bytes) : Prop :=
  ∃ validMeta localMeta, client_Target (t_client t) name = Ok validMeta
    ∧ GenerateTargetFileMeta b = Ok localMeta ∧ TargetFileMetaEqual localMeta validMeta = Ok ().

Section targets.
Context `{X : Ext, T : TufExt}.

Lemma targets_Get_world t p w w' b : targets_Get t p w = (w', Ok b) → w' = w.
Proof. destruct t; cbn; intros; M_inv; [done|]. unfold os_ReadFile_w in *. by simplify_eq. Qed.

Lemma GetTarget_authentic t name w w' b :
  GetTarget t name w = (w', Ok b) →
  w' = w ∧ authentic t name b ∧ targets_Get (t_targets t) name w = (w, Ok b).
Proof.
  unfold GetTarget, authentic. intros. M_inv.
  match goal with H : targets_Get _ _ _ = _ |- _ =>
    pose proof (targets_Get_world _ _ _ _ _ H); subst end.
  eauto 10.
Qed.

Lemma matched_targets_spec t usage l w w' ms :
  matched_targets t usage l w = (w', Ok ms) →
  (∀ tf, tf ∈ ms → ∃ name custom, (name, custom) ∈ l
     ∧ custom_metadata custom = Some (usage, tf_Status tf) ∧ authentic t name (tf_Target tf))
  ∧ (ms = [] → ∀ name custom s, (name, custom) ∈ l → custom_metadata custom ≠ Some (usage, s)).
Proof.
  revert w ms. induction l as [|[name custom] l IH]; cbn; intros w ms H.
  { M_inv. set_solver. }
  assert (Hskip : (∀ s, custom_metadata custom ≠ Some (usage, s)) →
    matched_targets t usage l w = (w', Ok ms) →
    (∀ tf, tf ∈ ms → ∃ n c, (n, c) ∈ (name, custom) :: l
       ∧ custom_metadata c = Some (usage, tf_Status tf) ∧ authentic t n (tf_Target tf))
    ∧ (ms = [] → ∀ n c s, (n, c) ∈ (name, custom) :: l → custom_metadata c ≠ Some (usage, s))).
  { intros Hne Hm. destruct (IH _ _ Hm) as [IH1 IH2]. split.
    - intros tf Htf. destruct (IH1 _ Htf) as (n & c & ? & ? & ?). exists n, c. set_solver.
    - intros -> n c s [[= -> ->]|Hin]%elem_of_cons; [done|]. by eapply IH2. }
  destruct (custom_metadata custom) as [[u s]|] eqn:E; [|by apply Hskip].
  case_decide as D; [|by apply Hskip; [congruence|]].
  subst u. M_inv.
  match goal with H : GetTarget _ _ _ = _ |- _ => apply GetTarget_authentic in H as (-> & Ha & _) end.
  match goal with H : matched_targets _ _ _ _ = _ |- _ => destruct (IH _ _ H) as [IH1 _] end.
  split; [|done]. intros tf [->|Hin]%elem_of_cons.
  - exists name, custom. cbn. set_solver.
  - destruct (IH1 _ Hin) as (n & c & ? & ? & ?). exists n, c. set_solver.
Qed.

Lemma M_try_Ok {W A} (m : M W A) w w' r : M_try m w = (w', Ok r) → m w = (w', r).
Proof. unfold M_try. destruct (m w) as [? [| |]]; naive_solver. Qed.

Lemma fallback_targets_spec t fbs w w' ms :
  fallback_targets t fbs w = (w', Ok ms) →
  ∀ tf, tf ∈ ms → tf_Status tf = Active ∧ ∃ name, name ∈ fbs ∧ authentic t name (tf_Target tf).
Proof.
  revert w ms. induction fbs as [|fb fbs IH]; cbn; intros w ms H; M_inv; [set_solver|].
  apply M_try_Ok in H. pose proof (IH _ _ H0) as IH'.
  destruct x0 as [b| |]; intros tf; [|intros Htf; destruct (IH' _ Htf) as (? & n & ? & ?);
    split; [done|]; exists n; set_solver..].
  intros [->|Htf]%elem_of_cons.
  - apply GetTarget_authentic in H as (-> & Ha & _). cbn. split; [done|]. exists fb. set_solver.
  - destruct (IH' _ Htf) as (? & n & ? & ?). split; [done|]. exists n. set_solver.
Qed.

(** C7: every target file that [GetTargetsByMeta] returns is authenticated by
    the verified TUF metadata, and there is at least one.  It is either a
    target whose custom metadata carries the requested usage, with the status
    recorded there, or, when no target has that usage, one of the fallback
    names, taken as active. *)
Theorem GetTargetsByMeta_authentic t usage fallbacks w w' ms :
  GetTargetsByMeta t usage fallbacks w = (w', Ok ms) →
  ms ≠ [] ∧ ∃ targets, client_Targets (t_client t) = Ok targets ∧
  ∀ tf, tf ∈ ms →
    (∃ name custom, (name, custom) ∈ targets
       ∧ custom_metadata custom = Some (usage, tf_Status tf) ∧ authentic t name (tf_Target tf))
    ∨ ((∀ name custom s, (name, custom) ∈ targets → custom_metadata custom ≠ Some (usage, s))
       ∧ tf_Status tf = Active
       ∧ ∃ name, name ∈ fallbacks ∧ authentic t name (tf_Target tf)).
Proof.
  unfold GetTargetsByMeta. intros. M_inv.
  match goal with H : matched_targets _ _ _ _ = (_, Ok ?m) |- _ =>
    apply matched_targets_spec in H as [Hm Hnone]; destruct m as [|m0 ml] end.
  - match goal with H : context [match ?m with [] => _ | _ => _ end] |- _ =>
      destruct m as [|f0 fl]; [done|] end.
    M_inv. split; [done|]. eexists. split; [done|]. intros tf Htf. right.
    match goal with H : fallback_targets _ _ _ = _ |- _ =>
      destruct (fallback_targets_spec _ _ _ _ _ H tf Htf) as (? & ? & ? & ?) end.
    split; [by apply Hnone|]. eauto.
  - M_inv. split; [done|]. eexists. split; [done|]. intros tf Htf. left. by apply Hm.
Qed.

(** ** Updating *)

(** Downloading writes files only, and keeps the kind of storage. *)
Lemma setImpl_Set_dbs s p b w w' s' : setImpl_Set s p b w = (w', Ok s') → w_dbs w' = w_dbs w.
Proof.
  destruct s; cbn; intros; M_inv; [done|]. unfold os_WriteFile in *.
  repeat case_match; by simplify_eq/=.
Qed.

Lemma targets_Set_spec t p b w w' t' :
  targets_Set t p b w = (w', Ok t') →
  w_dbs w' = w_dbs w ∧ ((∃ s s', t = embedded s ∧ t' = embedded s')
                         ∨ (∃ base s s', t = file base s ∧ t' = file base s')).
Proof. destruct t; cbn; intros; M_inv; split; eauto using setImpl_Set_dbs; naive_solver. Qed.

Lemma download_targets_spec names t w w' t' :
  download_targets names t w = (w', Ok t') →
  w_dbs w' = w_dbs w ∧ t_client t' = t_client t
  ∧ (∀ s, t_targets t = embedded s → ∃ s', t_targets t' = embedded s').
Proof.
  revert t w. induction names as [|n names IH]; cbn; intros t w H; M_inv.
  { split; [done|]. split; [done|]. naive_solver. }
  match goal with H : targets_Set _ _ _ _ = _ |- _ => apply targets_Set_spec in H as [Hd Hk] end.
  match goal with H : download_targets _ _ _ = _ |- _ => apply IH in H as (? & ? & He) end.
  cbn in *. split; [congruence|]. split; [done|]. intros s Hs.
  destruct Hk as [(? & ? & ? & ?)|(? & ? & ? & ? & ?)]; [|congruence]. by eapply He.
Qed.

Lemma update_spec t w w' t' :
  updateMetadataAndDownloadTargets t w = (w', Ok t') →
  (∀ p, is_Some (w_dbs w !! p) → is_Some (w_dbs w' !! p))
  ∧ (∀ s, t_targets t = embedded s → ∃ s', t_targets t' = embedded s').
Proof.
  unfold updateMetadataAndDownloadTargets.
  destruct (client_Update _ _) as [cs [names|e|]]; [| |done].
  2:{ destruct (IsLatestSnapshot e); [|done]. cbn. intros [= <- <-]. cbn. split; [|naive_solver].
      intros p. destruct (t_store t); cbn; [|done]. rewrite lookup_insert. case_decide; [|done]. eauto. }
  intros H. apply download_targets_spec in H as (-> & _ & H). split; [|done].
  intros p. destruct (t_store t); cbn; [|done]. rewrite lookup_insert. case_decide; [|done]. eauto.
Qed.

#[local] Opaque embeddedLocalStore tufDB.

Lemma open_local_spec embed w w' local store targets :
  open_local embed w = (w', Ok (local, store, targets)) →
  w_now w' = w_now w
  ∧ (if embed then embeddedLocalStore = Ok local else local = default ∅ (w_dbs w !! tufDB))
  ∧ (embed = false → store = Some tufDB).
Proof.
  unfold open_local. destruct embed; intros; M_inv; [done|]. unfold localStore in *. M_inv.
  destruct (leveldb_open _); by simplify_eq/=.
Qed.

(** An update keeps the mirror and the kind of store. *)
Lemma update_mirror t w w' t' :
  updateMetadataAndDownloadTargets t w = (w', Ok t') →
  t_mirror t' = t_mirror t ∧ t_embedded t' = t_embedded t.
Proof.
  assert (∀ names t w w' t', download_targets names t w = (w', Ok t') →
    t_mirror t' = t_mirror t ∧ t_embedded t' = t_embedded t) as Hd.
  { clear. induction names as [|n names IH]; cbn; intros t w w' t' H; M_inv; [done|].
    match goal with H : download_targets _ _ _ = _ |- _ => by apply IH in H end. }
  unfold updateMetadataAndDownloadTargets. destruct (client_Update _ _) as [cs [names|e|]]; [| |done].
  - intros H. by apply Hd in H.
  - destruct (IsLatestSnapshot e); [|done]. by intros [= <- <-].
Qed.

Lemma initializeTUF_mirror embed mirror root force w w' t :
  initializeTUF embed mirror root force w = (w', Ok t) → t_mirror t = mirror ∧ t_embedded t = embed.
Proof.
  unfold initializeTUF. intros H. apply M_bind_Ok in H as (w1 & [[local store] targets] & Ho & H). cbn in H. M_inv.
  match goal with H : context [client_InitLocal ?r ?b ?c] |- _ =>
    destruct (client_InitLocal r b c) as [cs err] end.
  M_inv. case_match; M_inv; [done|].
  match goal with H : updateMetadataAndDownloadTargets _ _ = _ |- _ => by apply update_mirror in H end.
Qed.

(** The timestamp of the local metadata is missing or has expired. *)
Definition stale (now : Z) (local : Local) : Prop :=
  match local !! "timestamp.json" with
  | Some ts => isExpiredTimestamp now ts = true
  | None => True
  end.

(** The client [cs] was brought up to date with the remote: its metadata were updated and
    the targets that changed could be downloaded, or there was nothing newer. *)
Definition updated (remote : RemoteStore) (cs cs' : Local * ClientState) : Prop :=
  ∃ r, client_Update remote cs = (cs', r) ∧
    match r with
    | Ok names => ∀ n, n ∈ names → ∃ b, client_Download remote cs' n = Ok b
    | Err e => IsLatestSnapshot e = true
    | Panic _ => False
    end.

Lemma download_targets_all names t w w' t' :
  download_targets names t w = (w', Ok t') →
  t_client t' = t_client t ∧ t_remote t' = t_remote t
  ∧ ∀ n, n ∈ names → ∃ b, client_Download (t_remote t) (t_client t) n = Ok b.
Proof.
  revert t w. induction names as [|n names IH]; cbn; intros t w H; M_inv.
  { do 2 (split; [done|]). by intros ? []%not_elem_of_nil. }
  match goal with H : download_targets _ _ _ = _ |- _ => apply IH in H as (? & ? & Hd) end.
  do 2 (split; [done|]). intros n' [->|Hn]%elem_of_cons; [|by apply Hd].
  unfold downloadRemoteTarget in *. go_inv. eauto.
Qed.

Lemma update_updated t w w' t' :
  updateMetadataAndDownloadTargets t w = (w', Ok t') →
  t_remote t' = t_remote t ∧ updated (t_remote t) (t_client t) (t_client t').
Proof.
  unfold updateMetadataAndDownloadTargets, updated.
  destruct (client_Update _ _) as [cs r] eqn:Eu. destruct r as [names|e|] eqn:Er; [| |done].
  - intros (Hc & Hr & Hd)%download_targets_all. split; [done|]. exists (Ok names).
    by rewrite Hc.
  - destruct (IsLatestSnapshot e) eqn:El; [|done]. intros (Hc & Hr & _)%download_targets_all.
    split; [done|]. exists (Err e). by rewrite Hc.
Qed.

(** C32: a client is returned only for the mirror that was asked for, initialised with the
    local metadata (the embedded ones, or those of the cache in the starting world) and
    the root that was given, or else the local one; and either the timestamp of those
    local metadata has not expired and no update was forced, and the client is the one
    just initialised; or the timestamp was missing or expired, or the update forced,
    and the client was updated from that mirror: the update succeeded, with every target
    that it reported downloaded, or the mirror had nothing newer. *)
Theorem initializeTUF_fresh embed mirror root force w w' t :
  initializeTUF embed mirror root force w = (w', Ok t) →
  t_mirror t = mirror ∧ t_embedded t = embed ∧ remoteFromMirror mirror = Ok (t_remote t)
  ∧ ∃ local rootBytes cs,
    (if embed then embeddedLocalStore = Ok local else local = default ∅ (w_dbs w !! tufDB))
    ∧ match root with Some r => rootBytes = r | None => getRoot local = Ok rootBytes end
    ∧ client_InitLocal (t_remote t) rootBytes (local, client_new) = (cs, None)
    ∧ (force = false ∧ ~ stale (w_now w) local ∧ t_client t = cs
       ∨ (force = true ∨ stale (w_now w) local) ∧ updated (t_remote t) cs (t_client t)).
Proof.
  intros H. destruct (initializeTUF_mirror _ _ _ _ _ _ _ H) as [Hm He]. do 2 (split; [done|]).
  unfold initializeTUF in H. apply M_bind_Ok in H as (w1 & [[local store] targets] & Ho & H).
  apply open_local_spec in Ho as (Hnow & Hl & _). cbn in H.
  apply M_bind_Ok in H as (? & remote & [Hr ->]%lift_Ok & H).
  apply M_bind_Ok in H as (? & rb & [Hrb ->]%lift_Ok & H).
  destruct (client_InitLocal remote rb _) as [cs err] eqn:Ei.
  apply M_bind_Ok in H as (w2 & [] & ->%modify_Ok & H).
  apply M_bind_Ok in H as (w3 & [] & [Herr ->]%lift_Ok & H). destruct err; [done|].
  apply M_bind_Ok in H as (w4 & now & [-> ->]%gets_Ok & H).
  assert (Hst : w_now (persist store cs.1 w1) = w_now w) by (rewrite <- Hnow; by destruct store).
  rewrite Hst in H. assert (Hroot : match root with Some r => rb = r | None => getRoot local = Ok rb end)
    by (destruct root; go_inv; done).
  assert (Hfresh : match local !! "timestamp.json" with
    | Some ts => negb (isExpiredTimestamp (w_now w) ts) | None => false end = true ↔ ~ stale (w_now w) local).
  { unfold stale. destruct (local !! "timestamp.json"); [|split; [done|]; by intros []].
    rewrite negb_true_iff. by destruct (isExpiredTimestamp _ _). }
  destruct (_ && _) eqn:E in H.
  - apply andb_true_iff in E as [E1%Hfresh E2%negb_true_iff]. apply M_ret_Ok in H as [-> _].
    split; [done|]. exists local, rb, cs. split_and!; [done..|]. by left.
  - apply M_wrap_Ok, update_updated in H as [Hre Hu]. cbn in Hre, Hu. rewrite Hre.
    split; [done|]. exists local, rb, cs. split_and!; [done..|]. right. split; [|done].
    destruct force; [by left|right]. rewrite andb_true_r in E. unfold stale in *.
    destruct (local !! "timestamp.json"); [|done]. by apply negb_false_iff in E.
Qed.

Lemma initializeTUF_file mirror root force w w' t :
  initializeTUF false mirror root force w = (w', Ok t) → is_Some (w_dbs w' !! tufDB).
Proof.
  unfold initializeTUF. intros H. apply M_bind_Ok in H as (w1 & [[local store] targets] & Ho & H).
  apply open_local_spec in Ho as (_ & _ & Hs). rewrite (Hs eq_refl) in H. cbn in H. M_inv.
  match goal with H : context [client_InitLocal ?r ?b ?c] |- _ =>
    destruct (client_InitLocal r b c) as [cs err] end.
  M_inv. case_match; M_inv.
  - rewrite lookup_insert_eq. eauto.
  - match goal with H : updateMetadataAndDownloadTargets _ _ = _ |- _ =>
      apply update_spec in H as [H _]; apply H end.
    cbn. rewrite lookup_insert_eq. eauto.
Qed.

(** `cosign initialize` and later runs agree: after [Initialize] succeeds,
    [NewFromEnv] opens the file store, not the embedded one, against the mirror
    that was given. *)
Theorem Initialize_NewFromEnv mirror root w w' :
  (∀ m b, json_Marshal_remoteCache m = Ok b → json_Unmarshal_remoteCache b = Ok m) →
  (∀ op p, io_fault op p = None) →
  Initialize mirror root w = (w', Ok ()) →
  NewFromEnv w' = initializeTUF false mirror None false w'.
Proof.
  intros Hjson Hio H. unfold Initialize in H. M_inv.
  match goal with H : initializeTUF _ _ _ _ _ = _ |- _ => apply initializeTUF_file in H end.
  unfold os_WriteFile, fault in *. rewrite Hio in *. simplify_eq.
  unfold NewFromEnv, os_Stat, os_ReadFile_w, fault, M_try, mbind, M_bind, lift. rewrite !Hio. cbn.
  rewrite bool_decide_true by eauto. cbn. rewrite lookup_insert_eq. cbn.
  by erewrite Hjson by done.
Qed.

(** The status that `cosign initialize` prints is the one of the repository that
    it set up: the mirror that was given, and the directory on disk as the place of
    the local copy, never the embedded repository. *)
Theorem DoInitialize_status root mirror w w' out :
  (∀ m b, json_Marshal_remoteCache m = Ok b → json_Unmarshal_remoteCache b = Ok m) →
  (∀ op p, io_fault op p = None) →
  DoInitialize root mirror w = (w', Ok out) →
  ∃ status b, rst_Remote status = mirror ∧ rst_Local status = rootCacheDir
    ∧ json_MarshalIndent_RootStatus status = Ok b
    ∧ out = "Root status: " +:+ String (ascii_of_nat 10) (" " +:+ b).
Proof.
  intros Hjson Hio H. unfold DoInitialize in H. apply M_bind_Ok in H as (w1 & rootBytes & _ & H).
  apply M_bind_Ok in H as (w2 & [] & Hi & H). apply M_bind_Ok in H as (w3 & status & Hs & H). M_inv.
  unfold GetRootStatus in Hs. apply M_bind_Ok in Hs as (w4 & t & Ht & Hs).
  rewrite (Initialize_NewFromEnv _ _ _ _ Hjson Hio Hi) in Ht. apply initializeTUF_mirror in Ht as [Hm He].
  apply lift_Ok in Hs as [Hs _]. exists status. eexists.
  assert (rst_Remote status = t_mirror t
    ∧ rst_Local status = (if t_embedded t then "embedded" else rootCacheDir)) as [-> ->].
  { unfold getRootStatus in Hs. go_inv. done. }
  rewrite He. done.
Qed.

(** A client on the embedded repository never uses what it downloads:
    after a successful update, a target is still read from the embedded files,
    so a target that the update changed is refused. *)
Theorem embedded_update_unused t s w w' t' name b w2 :
  t_targets t = embedded s → updateMetadataAndDownloadTargets t w = (w', Ok t') →
  GetTarget t' name w' = (w2, Ok b) →
  ∃ b0, embeddedRootRepo_ReadFile (filepath_Join ["repository"; "targets"; name]) = Ok b0
    ∧ b = (if runtime_windows then replace_crlf b0 else b0) ∧ authentic t' name b.
Proof.
  intros Ht Hu Hg. apply update_spec in Hu as [_ Hu]. destruct (Hu _ Ht) as [s' Hs'].
  apply GetTarget_authentic in Hg as (_ & Ha & Hg). rewrite Hs' in Hg. cbn in Hg. M_inv.
  eexists. split; [done|]. by split.
Qed.

#[local] Transparent embeddedLocalStore tufDB.

End targets.

(** ** Root policies (policy.go, signer.go) *)

Record Key := mkKey {
  key_Type : string;
  key_Scheme : string;
  key_Algorithms : list string;
  key_Value : bytes }.

Record Role := mkRole { role_KeyIDs : list string; role_Threshold : Z }.

Record Root := mkRoot {
  root_Type : string;
  root_SpecVersion : string;
  root_Version : Z;
  root_Expires : Z;
  root_Keys : gmap string Key;
  root_Roles : gmap string Role;
  root_Namespace : string;
  root_ConsistentSnapshot : bool }.

Record PolicySignature := mkPolicySignature {
  ps_KeyID : string; ps_Signature : string; ps_Cert : string }.

Record Signed := mkSigned { signed_Signed : bytes; signed_Signatures : list PolicySignature }.

Record FulcioKeyVal := mkFulcioKeyVal { fkv_Identity : string; fkv_Issuer : string }.

Class PolicyExt := {
  cjson_EncodeCanonical_Key : Key → bytes;
  cjson_EncodeCanonical_Root : Root → res bytes;
  json_Marshal_FulcioKeyVal : FulcioKeyVal → bytes;
  json_Unmarshal_FulcioKeyVal : bytes → res FulcioKeyVal;
  json_Unmarshal_Root : bytes → res Root }.

Section policy.
Context `{X : Ext, P : PolicyExt}.

(** [Key.ID], computed once per key *)
Definition Key_ID (k : Key) : string :=
  hex_EncodeToString (sha256_Sum256 (cjson_EncodeCanonical_Key k)).
Definition ContainsID (k : Key) (id : string) : bool := id =?s Key_ID k.

Definition FulcioVerificationKey (email issuer : string) : Key :=
  mkKey "sigstore-oidc" "https://fulcio.sigstore.dev" ["sha256"; "sha512"]
    (json_Marshal_FulcioKeyVal (mkFulcioKeyVal email issuer)).

Definition GetFulcioKeyVal (key : Key) : res FulcioKeyVal :=
  json_Unmarshal_FulcioKeyVal (key_Value key).

Definition NewRoot (expires : Z) : Root :=
  mkRoot "root" "1.0" 1 expires ∅ ∅ "" true.

Definition set_Keys (keys : gmap string Key) (r : Root) : Root :=
  mkRoot (root_Type r) (root_SpecVersion r) (root_Version r) (root_Expires r) keys
    (root_Roles r) (root_Namespace r) (root_ConsistentSnapshot r).

Definition AddKey (r : Root) (key : Key) : Root * bool :=
  match root_Keys r !! Key_ID key with
  | Some _ => (r, false)
  | None => (set_Keys (<[Key_ID key := key]> (root_Keys r)) r, true)
  end.

(** The loop of [AddKeysWithThreshold]; [roleIDs] is the set of identifiers the
    role had on entry. *)
Fixpoint add_keys (roleIDs : gset string) (keys : list Key) (ids : list string) (changed : bool) :
    list string * bool :=
  match keys with
  | [] => (ids, changed)
  | key :: keys' =>
      if decide (Key_ID key ∈ roleIDs) then add_keys roleIDs keys' ids changed
      else add_keys roleIDs keys' (ids ++ [Key_ID key]) true
  end.

Definition AddKeysWithThreshold (r : Role) (keys : list Key) (threshold : Z) : Role * bool :=
  let '(ids, changed) :=
    add_keys (list_to_set (role_KeyIDs r)) keys (role_KeyIDs r) false in
  (mkRole ids threshold, changed).

Definition Root_Marshal (r : Root) : res Signed :=
  b ← cjson_EncodeCanonical_Root r; Ok (mkSigned b []).

(** The loop of [ValidKey] over the root keys, in the order [range] visits
    them. *)
Fixpoint valid_key_loop (kv : FulcioKeyVal) (order : list (string * Key)) : res string :=
  match order with
  | [] => Ok ""
  | (keyid, rootKey) :: order' =>
      rkv ← wrap "error parsing root key" (GetFulcioKeyVal rootKey);
      if (fkv_Identity kv =?s fkv_Identity rkv)
         && ((fkv_Issuer rkv =?s "") || (fkv_Issuer rkv =?s fkv_Issuer kv))
      then Ok keyid else valid_key_loop kv order'
  end.

Definition ValidKey (r : Root) (order : list (string * Key)) (key : Key) (role : string) :
    res string :=
  kv ← wrap "error parsing signer key" (GetFulcioKeyVal key);
  result ← valid_key_loop kv order;
  if result =?s "" then Err (error_New "key not found in root keys") else
  match root_Roles r !! role with
  | None => Err (error_New "invalid role")
  | Some rootRole =>
      if bool_decide (result ∈ role_KeyIDs rootRole) then Ok result
      else Err (error_New "key not found in role")
  end.

(** [order] gives the visiting order of a root's keys. *)
Definition AddOrUpdateSignature (order : Root → list (string * Key)) (s : Signed) (key : Key)
    (signature : PolicySignature) : res Signed :=
  root ← wrap "unmarshalling root policy" (json_Unmarshal_Root (signed_Signed s));
  keyID ← map_err (λ _, error_New "invalid root key") (ValidKey root (order root) key "root");
  Ok (mkSigned (signed_Signed s)
        (filter (λ sig, ps_KeyID sig ≠ keyID) (signed_Signatures s)
         ++ [mkPolicySignature keyID (ps_Signature signature) (ps_Cert signature)])).

(** [key] carries the identity of the root key [id], and its issuer when the
    root key names one. *)
Definition speaks_for (r : Root) (key : Key) (id : string) : Prop :=
  ∃ k kv rkv, root_Keys r !! id = Some k ∧ GetFulcioKeyVal key = Ok kv
    ∧ GetFulcioKeyVal k = Ok rkv ∧ fkv_Identity kv = fkv_Identity rkv
    ∧ (fkv_Issuer rkv = "" ∨ fkv_Issuer rkv = fkv_Issuer kv).

Lemma valid_key_loop_spec r key kv order id :
  GetFulcioKeyVal key = Ok kv → order ⊆ map_to_list (root_Keys r) →
  valid_key_loop kv order = Ok id → id ≠ "" → speaks_for r key id.
Proof.
  intros Hkv. induction order as [|[kid k] order IH]; cbn; intros Hsub Hl Hne; [by simplify_eq|].
  go_inv. case_match eqn:E; [|apply IH; [set_solver|done..]]. go_inv.
  autorewrite with go in *. apply andb_true_iff in E as [E1 E2].
  apply orb_true_iff in E2. rewrite !str_eqb_eq in *.
  assert (root_Keys r !! id = Some k) by (apply elem_of_map_to_list; set_solver).
  eexists _, _, _. eauto 10.
Qed.

(** Adding a signature to a root policy.  When it succeeds, the key speaks
    for a key of the root role, the set holds exactly one signature for that
    key, the new one, placed last, and every signature of another key is kept
    in order. *)
Theorem AddOrUpdateSignature_correct order s key sig s' root :
  json_Unmarshal_Root (signed_Signed s) = Ok root →
  order root ≡ₚ map_to_list (root_Keys root) →
  AddOrUpdateSignature order s key sig = Ok s' →
  ∃ id role, speaks_for root key id ∧ root_Roles root !! "root" = Some role
    ∧ id ∈ role_KeyIDs role
    ∧ signed_Signed s' = signed_Signed s
    ∧ filter (λ g, ps_KeyID g = id) (signed_Signatures s')
      = [mkPolicySignature id (ps_Signature sig) (ps_Cert sig)]
    ∧ filter (λ g, ps_KeyID g ≠ id) (signed_Signatures s')
      = filter (λ g, ps_KeyID g ≠ id) (signed_Signatures s).
Proof.
  unfold AddOrUpdateSignature, ValidKey. intros Hroot Hord H. rewrite Hroot in H. cbn in H.
  go_inv. destruct (_ =?s "") eqn:E; [done|]. apply str_eqb_neq in E.
  destruct (root_Roles root !! "root") as [role|] eqn:Er; [|done].
  case_bool_decide as Hin; [|done]. go_inv.
  eexists _, role. split; [eapply valid_key_loop_spec; [done| |done..]|].
  { intros kk Hkk. by rewrite <- Hord. }
  split; [done|]. split; [done|]. split; [done|]. cbn. rewrite !filter_app. split.
  - rewrite filter_cons_True by done. rewrite list_filter_filter.
    induction (signed_Signatures s) as [|g gs IH]; [done|].
    rewrite filter_cons_False by naive_solver. apply IH.
  - rewrite filter_cons_False by naive_solver.
    rewrite (list_filter_filter_r _ _ (signed_Signatures s)) by done. apply app_nil_r.
Qed.

End policy.

(** ** Witnesses *)

(** A repository with one target, the Rekor key, whose metadata is its
    content; timestamps expire at 100. *)
Definition toy_remote : RemoteStore :=
  mkRemoteStore (λ _, Err (error_New "missing")) (λ _, Err (error_New "missing")).

Definition toy_Tuf : TufExt := {|
  FileMeta := bytes;
  ClientState := unit;
  client_new := ();
  client_InitLocal _ root c := ((<["root.json" := root]> (fst c), ()), None);
  client_Update _ c := ((<["timestamp.json" := "ts"]> (fst c), ()), Ok ["rekor.pub"]);
  client_Target _ _ := Ok "key";
  client_Targets _ := Ok [("rekor.pub", Some "rekor/active")];
  client_Download _ _ _ := Ok "key";
  GenerateTargetFileMeta b := Ok b;
  TargetFileMetaEqual a b := ensure (a =?s b) (error_New "wrong hash");
  url_ParseRequestURI _ := Ok ();
  HTTPRemoteStore _ := Ok toy_remote;
  storage_NewClient := Ok ();
  storage_Attrs _ _ := Err (error_New "missing");
  storage_NewReader _ _ := Err (error_New "missing");
  leveldb_open _ := None;
  embeddedRootRepo_ReadFile _ := Ok "key";
  os_UserHomeDir := Ok "/home/u";
  io_fault _ _ := None;
  runtime_windows := false;
  unicode_ToLower s := s;
  json_Unmarshal_Signed b := Ok b;
  json_Unmarshal_signedMeta _ := Ok (100, 1)%Z;
  json_Unmarshal_custom _ := Ok (Some "rekor", Some "active");
  json_Unmarshal_remoteCache b := Ok b;
  json_Marshal_remoteCache m := Ok m;
  json_MarshalIndent_status _ _ := Ok "";
  json_MarshalIndent_RootStatus s := Ok (rst_Remote s);
  time_Format _ := "" |}.

Definition toy_world : World := mkWorld ∅ ∅ 50.

Definition toy_TUF : TUF (T := toy_Tuf) :=
  mkTUF (T := toy_Tuf) (∅, ()) (embedded (memoryCache ∅)) None toy_remote true "mirror".

Lemma GetTargetsByMeta_authentic_witness :
  ∃ ms, GetTargetsByMeta (T := toy_Tuf) toy_TUF Rekor_ [] toy_world = (toy_world, Ok ms) ∧ ms ≠ [].
Proof.
  eexists. split; [reflexivity|].
  exact (proj1 (GetTargetsByMeta_authentic (T := toy_Tuf) toy_TUF Rekor_ []
    toy_world toy_world _ eq_refl)).
Defined.

(** A cache whose timestamp has expired: the client is updated. *)
Lemma initializeTUF_fresh_witness :
  let old := mkWorld ∅ ({[tufDB (X := toy) (T := toy_Tuf) :=
    (<["root.json" := "root"]> {["timestamp.json" := "ts"]})]}) 500 in
  ∃ w' t cs, initializeTUF (X := toy) (T := toy_Tuf) false "m" None false old = (w', Ok t)
    ∧ t_mirror t = "m" ∧ updated (T := toy_Tuf) (t_remote t) cs (t_client t).
Proof.
  cbv zeta. set (old := mkWorld _ _ _).
  destruct (ok_run (initializeTUF (X := toy) (T := toy_Tuf) false "m" None false old))
    as (w' & t & E); [vm_compute; reflexivity|].
  destruct (initializeTUF_fresh (X := toy) (T := toy_Tuf) false "m" None false old w' t E)
    as (Hm & _ & _ & local & rb & cs & Hl & _ & _ & [(_ & Hn & _)|[_ Hu]]).
  - exfalso. apply Hn. rewrite Hl. vm_compute. reflexivity.
  - exists w', t, cs. split; [exact E|]. split; [exact Hm|exact Hu].
Defined.

Lemma Initialize_NewFromEnv_witness :
  ∃ w', Initialize (X := toy) (T := toy_Tuf) "m" None toy_world = (w', Ok ())
    ∧ NewFromEnv (X := toy) (T := toy_Tuf) w'
      = initializeTUF (X := toy) (T := toy_Tuf) false "m" None false w'.
Proof.
  destruct (ok_run (Initialize (X := toy) (T := toy_Tuf) "m" None toy_world))
    as (w' & [] & E); [vm_compute; reflexivity|].
  exists w'. split; [exact E|].
  refine (Initialize_NewFromEnv (X := toy) (T := toy_Tuf) "m" None toy_world w' _ _ E);
    [|reflexivity].
  intros m b [= <-]. reflexivity.
Defined.

Lemma DoInitialize_status_witness :
  ∃ w' out, DoInitialize (X := toy) (T := toy_Tuf) "" "mirror" toy_world = (w', Ok out)
    ∧ ∃ status, rst_Remote status = "mirror" ∧ rst_Local status = rootCacheDir (X := toy) (T := toy_Tuf).
Proof.
  destruct (ok_run (DoInitialize (X := toy) (T := toy_Tuf) "" "mirror" toy_world))
    as (w' & out & E); [vm_compute; reflexivity|].
  exists w', out. split; [exact E|].
  destruct (DoInitialize_status (X := toy) (T := toy_Tuf) "" "mirror" toy_world w' out)
    as (status & b & Hr & Hl & _).
  - intros m b [= <-]. reflexivity.
  - reflexivity.
  - exact E.
  - exists status. split; [exact Hr|exact Hl].
Defined.

Lemma embedded_update_unused_witness :
  ∃ w' t' b, updateMetadataAndDownloadTargets (T := toy_Tuf) toy_TUF toy_world = (w', Ok t')
    ∧ embeddedRootRepo_ReadFile (TufExt := toy_Tuf)
        (filepath_Join ["repository"; "targets"; "rekor.pub"]) = Ok b.
Proof.
  destruct (embedded_update_unused (T := toy_Tuf) toy_TUF (memoryCache ∅) toy_world
    _ _ "rekor.pub" "key" _ eq_refl eq_refl eq_refl) as (b0 & Hb & _).
  eexists _, _, b0. split; [reflexivity|]. exact Hb.
Defined.

(** Keys and key values are encoded as themselves; a root policy names its
    root by a constant. *)
Definition toy_fulcio_key (v : string) : Key := mkKey "sigstore-oidc" "" [] v.

(** "a" has any issuer, "b" is the same identity with issuer "i". *)
Definition toy_keyval (v : string) : res FulcioKeyVal :=
  if v =?s "b" then Ok (mkFulcioKeyVal "user" "i") else Ok (mkFulcioKeyVal "user" "").

Definition toy_root : Root :=
  mkRoot "root" "1.0" 1 0 {["ka" := toy_fulcio_key "a"; "kb" := toy_fulcio_key "b"]}
    {["root" := mkRole ["kb"] 1]} "" true.

Definition toy_Policy : PolicyExt := {|
  cjson_EncodeCanonical_Key k := key_Value k;
  cjson_EncodeCanonical_Root _ := Ok "root";
  json_Marshal_FulcioKeyVal v := fkv_Identity v;
  json_Unmarshal_FulcioKeyVal := toy_keyval;
  json_Unmarshal_Root _ := Ok toy_root |}.

Lemma AddOrUpdateSignature_correct_witness :
  ∃ id role, speaks_for (P := toy_Policy) toy_root (toy_fulcio_key "b") id
    ∧ root_Roles toy_root !! "root" = Some role ∧ id ∈ role_KeyIDs role.
Proof.
  pose (order := λ _ : Root, [("kb", toy_fulcio_key "b"); ("ka", toy_fulcio_key "a")]).
  destruct (ok_res (AddOrUpdateSignature (P := toy_Policy) order (mkSigned "" [])
    (toy_fulcio_key "b") (mkPolicySignature "" "s" ""))) as [s' E]; [reflexivity|].
  assert (Hord : order toy_root ≡ₚ map_to_list (root_Keys toy_root)).
  2:{ destruct (AddOrUpdateSignature_correct (P := toy_Policy) order _ _ _ s' toy_root eq_refl
        Hord E) as (id & role & H1 & H2 & H3 & _). exists id, role. by split. }
  apply NoDup_Permutation; [repeat constructor; set_solver|apply NoDup_map_to_list|].
  intros [k v]. rewrite elem_of_map_to_list. subst order. cbn [root_Keys toy_root].
  rewrite !elem_of_cons, lookup_insert_Some, lookup_singleton_Some, elem_of_nil. naive_solver.
Defined.

(** Whether a signer is accepted for a root policy depends on the order in
    which Go happens to visit the map of root keys: with two root keys of one
    identity, one bound to the issuer and in the role, the other for any issuer
    and not in the role, the search stops at whichever comes first. *)
Theorem ValidKey_order_dependent :
  let ka := ("ka", toy_fulcio_key "a") in
  let kb := ("kb", toy_fulcio_key "b") in
  ValidKey (P := toy_Policy) toy_root [kb; ka] (toy_fulcio_key "b") "root" = Ok "kb"
  ∧ ValidKey (P := toy_Policy) toy_root [ka; kb] (toy_fulcio_key "b") "root"
    = Err (error_New "key not found in role").
Proof. split; reflexivity. Qed.

(** ** What the client promises to the verifiers

    Verification code opens a client from the environment and reads the
    targets of one usage.  [TrustRoot] is that call; [tuf_TrustRoot] is the
    client's implementation of it in a given world. *)

Class TrustRoot := { trusted_targets : UsageKind → list string → res (list TargetFile) }.

Definition tuf_TrustRoot `{X : Ext, T : TufExt} (w : World) : TrustRoot := {|
  trusted_targets usage fallbacks :=
    snd ((t ← NewFromEnv; GetTargetsByMeta t usage fallbacks) w) |}.

(** The promise: never an empty list. *)
Class TrustRootLaws `{TR : TrustRoot} : Prop := {
  trusted_nonempty usage fallbacks : trusted_targets usage fallbacks ≠ Ok [] }.

#[export] Instance tuf_TrustRootLaws `{X : Ext, T : TufExt} w :
  TrustRootLaws (TR := tuf_TrustRoot w).
Proof.
  split. intros usage fallbacks. cbn. intros H.
  destruct ((t ← NewFromEnv; GetTargetsByMeta t usage fallbacks) w) as [w' r] eqn:E.
  cbn in H. subst r. M_inv. unfold GetTargetsByMeta in *. M_inv. by case_match; M_inv.
Qed.

Definition toy_TrustRoot : TrustRoot := {|
  trusted_targets _ _ := Ok [mkTargetFile "rekor" Active] |}.
