(* ===== verification/Tlog.v ===== *)
(** * The transparency log client

    pkg/cosign/tlog.go, with [VerifySET] of pkg/cosign/verify.go and
    [PemToECDSAKey] of pkg/cosign/keys.go: the trusted Rekor keys, uploading
    entries, finding them again and verifying them.  The Rekor server is the
    record [Rekor] of answers; nothing is assumed of it. *)
From S2P Require Import Prelude GoStd External Concrete Tuf.

(** An ECDSA key with its status in the TUF metadata. *)
Record RekorPubKey := mkRekorPubKey { rpk_PubKey : bytes; rpk_Status : StatusKind }.

Definition altRekorPublicKey := "SIGSTORE_REKOR_PUBLIC_KEY".
Definition addRekorPublicKeyFromRekor := "SIGSTORE_TRUST_REKOR_API_PUBLIC_KEY".
Definition rekorTargetStr := "rekor.pub".

Section tlog.
Context `{X : Ext, TR : TrustRoot}.

(** ** Keys *)

Definition PemToECDSAKey (pemBytes : bytes) : res bytes :=
  pub ← cryptoutils_UnmarshalPEMToPublicKey pemBytes;
  match pub with
  | ecdsa_PublicKey der => Ok der
  | _ => Err (error_New "invalid public key: require *ecdsa.PublicKey")
  end.

Definition getLogID (pub : PublicKey) : res string :=
  pubBytes ← x509_MarshalPKIXPublicKey pub;
  Ok (hex_EncodeToString (sha256_Sum256 pubBytes)).

(** The loop over the TUF targets. *)
Fixpoint add_targets (targets : list TargetFile) (publicKeys : gmap string RekorPubKey) :
    res (gmap string RekorPubKey) :=
  match targets with
  | [] => Ok publicKeys
  | t :: ts =>
      rekorPubKey ← wrap "pem to ecdsa" (PemToECDSAKey (tf_Target t));
      keyID ← wrap "error generating log ID" (getLogID (ecdsa_PublicKey rekorPubKey));
      add_targets ts (<[keyID := mkRekorPubKey rekorPubKey (tf_Status t)]> publicKeys)
  end.

Definition GetRekorPubs : res (gmap string RekorPubKey) :=
  targets ← trusted_targets Rekor_ [rekorTargetStr];
  let altRekorPub := os_Getenv altRekorPublicKey in
  publicKeys ←
    (if altRekorPub =?s "" then add_targets targets ∅
     else
       raw ← wrap "error reading alternate Rekor public key file" (os_ReadFile altRekorPub);
       extra ← wrap "error converting PEM to ECDSAKey" (PemToECDSAKey raw);
       keyID ← wrap "error generating log ID" (getLogID (ecdsa_PublicKey extra));
       Ok {[keyID := mkRekorPubKey extra Active]});
  if decide (publicKeys = ∅)
  then Err (error_New "none of the Rekor public keys have been found") else Ok publicKeys.

(** ** Entries *)

Definition intotoEntry (signature pubKey : bytes) : IntotoSchema :=
  mkIntotoSchema (Some (signature, None)) (Some pubKey).

Definition rekorEntry (payload signature pubKey : bytes) : RekordSchema :=
  mkRekordSchema
    (Some (Some (mkDataHash (Some "sha256")
                   (Some (hex_EncodeToString (sha256_Sum256 payload))))))
    (Some (signature, pubKey)).

Definition ComputeLeafHash (e : LogEntryAnon) : res bytes :=
  body ← as_string (le_Body e);
  entryBytes ← base64_DecodeString body;
  Ok (rfc6962_HashLeaf entryBytes).

(** The error of hex.DecodeString is dropped: what was decoded before it is
    compared. *)
Definition verifyUUID (uuid : string) (e : LogEntryAnon) : res unit :=
  let entryUUID := fst (hex_DecodeString uuid) in
  computedLeafHash ← ComputeLeafHash e;
  ensure (computedLeafHash =?s entryUUID)
    (error_New "computed leaf hash did not match entry UUID").

Definition GetTlogEntry (rekorClient : Rekor) (uuid : string) : res LogEntryAnon :=
  payload ← GetLogEntryByUUID rekorClient uuid;
  match payload with
  | (k, e) :: _ =>
      if negb (k =?s uuid) then Err (error_New "unexpected entry returned from rekor server")
      else _ ← verifyUUID k e; Ok e
  | [] => Err (error_New "empty response")
  end.

(** The entry a signature was logged with; an empty signature stands for an
    attestation. *)
Definition proposedEntry (b64Sig : string) (payload pubKey : bytes) : res (list ProposedEntry) :=
  signature ← wrap "decoding base64 signature" (base64_DecodeString b64Sig);
  Ok (if signature =?s "" then [pe_Intoto (intotoEntry payload pubKey)]
      else [pe_Hashedrekord (rekorEntry payload signature pubKey)]).

Definition FindTlogEntry (rekorClient : Rekor) (b64Sig : string) (payload pubKey : bytes) :
    res LogEntryAnon :=
  pe ← proposedEntry b64Sig payload pubKey;
  resp ← wrap "searching log query" (SearchLogQuery rekorClient pe);
  match resp with
  | [] => Err (error_New "signature not found in transparency log")
  | _ :: _ :: _ => Err (error_New "multiple entries returned; this should not happen")
  | [ [(k, e)] ] => _ ← verifyUUID k e; Ok e
  | [ _ ] => Err (error_New "UUID value can not be extracted")
  end.

Definition FindTLogEntriesByPayload (rekorClient : Rekor) (payload : bytes) : res (list string) :=
  SearchIndex rekorClient
    ("sha256:" +:+ strings_ToLower (λ s, s) (hex_EncodeToString (sha256_Sum256 payload))).

(** ** Verifying an entry *)

(** The signed entry timestamp, against a log key. *)
Definition VerifySET (bundlePayload : RekorPayload) (signature : bytes) (pub : bytes) : res unit :=
  contents ← wrap "marshaling" (json_Marshal_RekorPayload bundlePayload);
  canonicalized ← wrap "canonicalizing" (jsoncanonicalizer_Transform contents);
  ensure (ecdsa_VerifyASN1 pub (sha256_Sum256 canonicalized) signature)
    (error_New "unable to verify").

Definition VerifyTLogEntry (rekorClient : Rekor) (e : LogEntryAnon) : res unit :=
  match le_Verification e with
  | None => Err (error_New "inclusion proof not provided")
  | Some v =>
      match lev_InclusionProof v with
      | None => Err (error_New "inclusion proof not provided")
      | Some ip =>
          let hashes := (λ h, fst (hex_DecodeString h)) <$> ip_Hashes ip in
          rh ← deref (ip_RootHash ip);
          let rootHash := fst (hex_DecodeString rh) in
          body ← as_string (le_Body e);
          entryBytes ← base64_DecodeString body;
          let leafHash := rfc6962_HashLeaf entryBytes in
          idx ← deref (ip_LogIndex ip);
          size ← deref (ip_TreeSize ip);
          _ ← wrap "verifying inclusion proof"
                (logverifier_VerifyInclusionProof idx size hashes rootHash leafHash);
          it ← deref (le_IntegratedTime e);
          li ← deref (le_LogIndex e);
          id ← deref (le_LogID e);
          let payload := mkRekorPayload (le_Body e) it li id in
          pubs ← wrap "unable to fetch Rekor public keys from TUF repository" GetRekorPubs;
          rekorPubKeys ←
            (if os_Getenv addRekorPublicKeyFromRekor =?s "" then Ok pubs
             else
               pubOK ← wrap "unable to fetch rekor public key from rekor"
                         (GetPublicKey rekorClient);
               pubFromAPI ← wrap "error converting rekor PEM public key from rekor to ECDSAKey"
                              (PemToECDSAKey pubOK);
               keyID ← wrap "error generating log ID" (getLogID (ecdsa_PublicKey pubFromAPI));
               Ok (<[keyID := mkRekorPubKey pubFromAPI Active]> pubs));
          match rekorPubKeys !! id with
          | None => Err (error_New "rekor log public key not found for payload")
          | Some pubKey =>
              wrap "verifying signedEntryTimestamp"
                (VerifySET payload (lev_SignedEntryTimestamp v) (rpk_PubKey pubKey))
          end
      end
  end.

(** ** Uploading *)

Definition doUpload (rekorClient : Rekor) (pe : ProposedEntry) : res LogEntryAnon :=
  catch (CreateLogEntry rekorClient pe)
    (λ err,
      match errors_kind err with
      | Some (kind_Conflict location) =>
          let uuid := List.last (strings_Split location "/"%char) "" in
          e ← GetTlogEntry rekorClient uuid;
          _ ← VerifyTLogEntry rekorClient e;
          Ok e
      | _ => Err err
      end)
    (λ payload,
      match payload with
      | (_, p) :: _ => Ok p
      | [] => Err (error_New "bad response from server")
      end).

Definition TLogUpload (rekorClient : Rekor) (signature payload pemBytes : bytes) :
    res LogEntryAnon :=
  doUpload rekorClient (pe_Hashedrekord (rekorEntry payload signature pemBytes)).

Definition TLogUploadInTotoAttestation (rekorClient : Rekor) (signature pemBytes : bytes) :
    res LogEntryAnon :=
  doUpload rekorClient (pe_Intoto (intotoEntry signature pemBytes)).

End tlog.

(** ** Which keys may sign for the log *)

(** Keys of the TUF targets, or of the file the environment names. *)
Definition tuf_log_key `{X : Ext, TR : TrustRoot} (der : bytes) : Prop :=
  if os_Getenv altRekorPublicKey =?s "" then
    ∃ targets t, trusted_targets Rekor_ [rekorTargetStr] = Ok targets ∧ t ∈ targets
      ∧ PemToECDSAKey (tf_Target t) = Ok der
  else ∃ raw, os_ReadFile (os_Getenv altRekorPublicKey) = Ok raw ∧ PemToECDSAKey raw = Ok der.

(** The key the server itself reports, which counts only when the environment
    says so. *)
Definition api_log_key `{X : Ext} (rekorClient : Rekor) (der : bytes) : Prop :=
  os_Getenv addRekorPublicKeyFromRekor ≠ ""
  ∧ ∃ pem, GetPublicKey rekorClient = Ok pem ∧ PemToECDSAKey pem = Ok der.

(** The entry is included in the log's tree, at the position its proof gives. *)
Definition included `{X : Ext} (e : LogEntryAnon) : Prop :=
  ∃ v ip rh body entryBytes idx size,
    le_Verification e = Some v ∧ lev_InclusionProof v = Some ip ∧ ip_RootHash ip = Some rh
    ∧ le_Body e = any_string body ∧ base64_DecodeString body = Ok entryBytes
    ∧ ip_LogIndex ip = Some idx ∧ ip_TreeSize ip = Some size
    ∧ logverifier_VerifyInclusionProof idx size
        ((λ h, fst (hex_DecodeString h)) <$> ip_Hashes ip) (fst (hex_DecodeString rh))
        (rfc6962_HashLeaf entryBytes) = Ok ().

(** The log's key [der], whose identifier the entry names, signed the entry. *)
Definition entry_signed_by `{X : Ext} (e : LogEntryAnon) (der : bytes) : Prop :=
  ∃ v it li id, le_Verification e = Some v ∧ le_IntegratedTime e = Some it
    ∧ le_LogIndex e = Some li ∧ le_LogID e = Some id
    ∧ getLogID (ecdsa_PublicKey der) = Ok id
    ∧ VerifySET (mkRekorPayload (le_Body e) it li id) (lev_SignedEntryTimestamp v) der = Ok ().

Section theorems.
Context `{X : Ext, TR : TrustRoot}.

Lemma add_targets_spec targets pubs pubs' (Q : bytes → Prop) :
  (∀ id k, pubs !! id = Some k → Q (rpk_PubKey k) ∧ getLogID (ecdsa_PublicKey (rpk_PubKey k)) = Ok id) →
  (∀ t der, t ∈ targets → PemToECDSAKey (tf_Target t) = Ok der → Q der) →
  add_targets targets pubs = Ok pubs' →
  ∀ id k, pubs' !! id = Some k → Q (rpk_PubKey k) ∧ getLogID (ecdsa_PublicKey (rpk_PubKey k)) = Ok id.
Proof.
  revert pubs. induction targets as [|t ts IH]; cbn; intros pubs Hp Hq H; [by simplify_eq|].
  go_inv. eapply IH; [|set_solver|eassumption].
  intros id k. rewrite lookup_insert_Some. intros [[<- <-]|[_ Hk]]; [|by apply Hp]. cbn.
  split; [|done]. eapply Hq; [|done]. set_solver.
Qed.

Lemma GetRekorPubs_spec pubs id k :
  GetRekorPubs = Ok pubs → pubs !! id = Some k →
  tuf_log_key (rpk_PubKey k) ∧ getLogID (ecdsa_PublicKey (rpk_PubKey k)) = Ok id.
Proof.
  unfold GetRekorPubs, tuf_log_key. intros H Hk. go_inv.
  destruct (os_Getenv altRekorPublicKey =?s "") eqn:E; case_decide; go_inv.
  - apply (add_targets_spec x ∅ pubs (λ der, ∃ targets t,
      trusted_targets Rekor_ [rekorTargetStr] = Ok targets ∧ t ∈ targets
      ∧ PemToECDSAKey (tf_Target t) = Ok der)); [done|eauto|done..].
  - apply lookup_singleton_Some in Hk as [<- <-]. eauto.
Qed.

Lemma VerifyTLogEntry_spec rekorClient e :
  VerifyTLogEntry rekorClient e = Ok () →
  included e ∧ ∃ der, entry_signed_by e der ∧ (tuf_log_key der ∨ api_log_key rekorClient der).
Proof.
  unfold VerifyTLogEntry, included, entry_signed_by. intros H.
  destruct (le_Verification e) as [v|]; [|done]. destruct (lev_InclusionProof v) as [ip|] eqn:Ei; [|done].
  go_inv. rewrite as_string_Ok in *.
  repeat match goal with u : unit |- _ => destruct u end.
  match goal with H : match ?m !! ?i with _ => _ end = _ |- _ =>
    destruct (m !! i) as [k|] eqn:Ek; [|done] end.
  go_inv. split; [by repeat eexists|]. exists (rpk_PubKey k).
  match goal with H : GetRekorPubs = Ok ?p |- _ => pose proof (λ i k, GetRekorPubs_spec p i k H) as Hp end.
  destruct (os_Getenv addRekorPublicKeyFromRekor =?s "") eqn:E; go_inv.
  - destruct (Hp _ _ Ek). split; [by repeat eexists|]. by left.
  - apply lookup_insert_Some in Ek as [[<- <-]|[_ Ek]].
    + split; [by repeat eexists|]. right. split; [by apply str_eqb_neq|]. eauto.
    + destruct (Hp _ _ Ek). split; [by repeat eexists|]. by left.
Qed.

(** C4: a log entry that [VerifyTLogEntry] accepts is included in the log: its
    proof leads from the hash of its decoded body to the root hash, and the
    entry, with its time, index and log identifier, is signed by the log key
    of that identifier, a key trusted through TUF, or the environment. *)
Theorem VerifyTLogEntry_sound rekorClient e :
  VerifyTLogEntry rekorClient e = Ok () →
  included e ∧ ∃ der, entry_signed_by e der ∧ (tuf_log_key der ∨ api_log_key rekorClient der).
Proof. apply VerifyTLogEntry_spec. Qed.

Lemma verifyUUID_Ok uuid e :
  verifyUUID uuid e = Ok () ↔ ComputeLeafHash e = Ok (fst (hex_DecodeString uuid)).
Proof.
  unfold verifyUUID. destruct (ComputeLeafHash e) as [h| |]; cbn; [|naive_solver..].
  rewrite ensure_Ok, str_eqb_eq. naive_solver.
Qed.

(** Finding a signature in the log.  [FindTlogEntry] asks the server for
    exactly the entry that the signer uploads for the signature, an in-toto
    entry when the signature is empty and a hashedrekord otherwise; it succeeds
    only when the server gives back one entry, whose identifier is the leaf
    hash of its body. *)
Theorem FindTlogEntry_correct rekorClient sig payload pubKey e :
  FindTlogEntry rekorClient (base64_EncodeToString sig) payload pubKey = Ok e ↔
  ∃ k,
    SearchLogQuery rekorClient
      [if sig =?s "" then pe_Intoto (intotoEntry payload pubKey)
       else pe_Hashedrekord (rekorEntry payload sig pubKey)] = Ok [ [(k, e)] ]
    ∧ ComputeLeafHash e = Ok (fst (hex_DecodeString k)).
Proof.
  unfold FindTlogEntry, proposedEntry. rewrite base64_decode_encode. cbn.
  replace (if sig =?s "" then [_] else [_]) with
    [if sig =?s "" then pe_Intoto (intotoEntry payload pubKey)
     else pe_Hashedrekord (rekorEntry payload sig pubKey)] by by destruct (sig =?s "").
  destruct (SearchLogQuery _ _) as [resp| |]; cbn; [|naive_solver..].
  destruct resp as [|[|[k e'] [|]] [|]]; try naive_solver.
  destruct (verifyUUID k e') as [[]| |] eqn:E; cbn.
  - rewrite verifyUUID_Ok in E. naive_solver.
  - split; [done|]. intros (k' & [= <- <-] & Hc%verifyUUID_Ok). congruence.
  - split; [done|]. intros (k' & [= <- <-] & Hc%verifyUUID_Ok). congruence.
Qed.

Lemma GetTlogEntry_Ok rekorClient uuid e :
  GetTlogEntry rekorClient uuid = Ok e →
  ComputeLeafHash e = Ok (fst (hex_DecodeString uuid)).
Proof.
  unfold GetTlogEntry. intros H. go_inv. destruct x as [|[k e'] l]; [done|].
  destruct (k =?s uuid) eqn:E; [|done]. apply str_eqb_eq in E. cbn in H0. go_inv.
  destruct x. by apply verifyUUID_Ok.
Qed.

(** Uploading an entry that the log already has.  On a conflict the
    existing entry, named by the last segment of the conflict's location, is
    fetched and returned only when its body hashes to that name and it is
    verified to be in the log. *)
Theorem doUpload_conflict rekorClient pe err location e :
  CreateLogEntry rekorClient pe = Err err →
  errors_kind err = Some (kind_Conflict location) →
  doUpload rekorClient pe = Ok e →
  ComputeLeafHash e
    = Ok (fst (hex_DecodeString (List.last (strings_Split location "/"%char) "")))
  ∧ included e ∧ ∃ der, entry_signed_by e der.
Proof.
  unfold doUpload. intros -> Hk H. cbn in H. rewrite Hk in H. go_inv.
  match goal with H : GetTlogEntry _ _ = _ |- _ => apply GetTlogEntry_Ok in H end.
  match goal with H : VerifyTLogEntry _ _ = Ok ?u |- _ => destruct u;
    apply VerifyTLogEntry_spec in H as (? & der & ? & _) end.
  eauto.
Qed.

Lemma hex_decode_garbage s : fst (hex_DecodeString (hex_EncodeToString s +:+ "zz")) = s.
Proof.
  induction s as [|a s IH]; [done|].
  cbn [hex_EncodeToString hex_DecodeString String.append].
  destruct (hex_byte_roundtrip a) as (-> & -> & Ha).
  destruct (hex_DecodeString _) as [r er]. cbn in *. by rewrite IH, Ha.
Qed.

(** The identifier check does not reject malformed identifiers: the error
    of the hexadecimal decoder is dropped and the decoded prefix is compared,
    so an identifier followed by characters that are not hexadecimal digits is
    accepted for the same entry. *)
Theorem verifyUUID_trailing_garbage h e :
  verifyUUID (hex_EncodeToString h) e = Ok () →
  verifyUUID (hex_EncodeToString h +:+ "zz") e = Ok ().
Proof. rewrite !verifyUUID_Ok, hex_decode_garbage, hex_decode_encode. done. Qed.

End theorems.

(** ** Witnesses *)

(** One entry, signed by the log key "rekor"; its identifier is the
    hexadecimal form of its body. *)
Definition toy_body : bytes := "hash|sig|key".
Definition toy_uuid : string := hex_EncodeToString toy_body.
Definition toy_logid : string := hex_EncodeToString "rekor".
Definition toy_entry : LogEntryAnon :=
  mkLogEntryAnon (any_string (base64_EncodeToString toy_body)) (Some 150%Z) (Some 1%Z)
    (Some toy_logid)
    (Some (mkLogEntryVerification
             (Some (mkInclusionProof [] (Some toy_uuid) (Some 0%Z) (Some 1%Z)))
             ("rekor" +:+ toy_logid))).

Definition toy_rekor : Rekor := mkRekor
  (λ _, Err (error_Kind (kind_Conflict ("/api/v1/log/entries/" +:+ toy_uuid)) "conflict"))
  (λ _, Ok [(toy_uuid, toy_entry)])
  (λ _, Ok [ [(toy_uuid, toy_entry)] ])
  (λ _, Ok [toy_uuid])
  (Ok "rekor").

Lemma VerifyTLogEntry_sound_witness : included (X := toy) toy_entry.
Proof.
  exact (proj1 (VerifyTLogEntry_sound (X := toy) (TR := toy_TrustRoot) toy_rekor toy_entry
    ltac:(vm_compute; reflexivity))).
Defined.

Lemma doUpload_conflict_witness :
  ComputeLeafHash (X := toy) toy_entry = Ok (fst (hex_DecodeString toy_uuid)).
Proof.
  exact (proj1 (doUpload_conflict (X := toy) (TR := toy_TrustRoot) toy_rekor
    (pe_Intoto (intotoEntry "" "")) _ ("/api/v1/log/entries/" +:+ toy_uuid) toy_entry
    eq_refl eq_refl ltac:(vm_compute; reflexivity))).
Defined.

Lemma verifyUUID_trailing_garbage_witness :
  verifyUUID (X := toy) (toy_uuid +:+ "zz") toy_entry = Ok ().
Proof.
  exact (verifyUUID_trailing_garbage (X := toy) toy_body toy_entry ltac:(vm_compute; reflexivity)).
Defined.
