(* ===== verification/Ctl.v ===== *)
(** * Certificate transparency and the Fulcio roots

    cmd/cosign/cli/fulcio/fulcioverifier/ctl/verify.go ([VerifySCT] and its
    helpers), .../ctutil/ctutil.go (building the Merkle leaf an SCT signs) and
    .../fulcioroots/fulcioroots.go (the root and intermediate pools, computed
    once per process). *)
From S2P Require Import Prelude GoStd External Concrete Tuf.

(** A certificate as certificate-transparency-go parses it. *)
Record CtCertificate := mkCtCertificate {
  ct_Raw : bytes;
  ct_SCTList : list bytes;
  ct_IsPrecertificate : bool }.

Record SCT := mkSCT { sct_KeyID : bytes; sct_Timestamp : Z; sct_Signature : bytes }.

Class CtExt := {
  Leaf : Type;
  x509util_CertificateFromPEM : bytes → res CtCertificate;
  x509util_CertificatesFromPEM : bytes → res (list CtCertificate);
  x509util_ParseSCTsFromCertificate : bytes → res (list SCT);
  tls_Marshal_SCT : SCT → res bytes;
  ct_MerkleTreeLeafForEmbeddedSCT : list CtCertificate → Z → res Leaf;
  ct_MerkleTreeLeafFromChain : list CtCertificate → bool → Z → res Leaf; (* precertificate *)
  ct_LeafHashForLeaf : Leaf → res bytes;
  ct_NewSignatureVerifier : PublicKey → res (SCT → Leaf → res unit);
  json_Unmarshal_AddChainResponse : bytes → res bytes;
  ToSignedCertificateTimestamp : bytes → res SCT;
  x509_ParsePKCS1PublicKey : bytes → res PublicKey;
  cryptoutils_UnmarshalCertificatesFromPEM : bytes → res (list Certificate);
  pem_AppendCerts : bytes → list Certificate }.   (* CertPool.AppendCertsFromPEM *)

Section ctutil.
Context `{X : Ext, C : CtExt}.

(** ** ctutil *)

(** [ContainsSCT] of ctutil *)
Definition cert_ContainsSCT (cert : CtCertificate) (sct : SCT) : res bool :=
  sctBytes ← map_err (λ e, error_Wrapped ("error tls.Marshalling SCT: " +:+ Error e) e)
               (tls_Marshal_SCT sct);
  Ok (bool_decide (sctBytes ∈ ct_SCTList cert)).

Definition createLeaf (chain : list CtCertificate) (sct : option SCT) (embedded : bool) : res Leaf :=
  match chain with
  | [] => Err (error_New "chain is empty")
  | c0 :: _ =>
      match sct with
      | None => Err (error_New "sct is nil")
      | Some sct =>
          _ ← (if embedded then
                 sctPresent ← map_err (λ e, error_Wrapped
                     ("error checking for SCT in leaf certificate: " +:+ Error e) e)
                   (cert_ContainsSCT c0 sct);
                 ensure sctPresent
                   (error_New "SCT provided is not embedded within leaf certificate")
               else Ok ());
          let precert := ct_IsPrecertificate c0 || embedded in
          map_err (λ e, error_Wrapped ("error creating MerkleTreeLeaf: " +:+ Error e) e)
            (if embedded then ct_MerkleTreeLeafForEmbeddedSCT chain (sct_Timestamp sct)
             else ct_MerkleTreeLeafFromChain chain precert (sct_Timestamp sct))
      end
  end.

Definition LeafHash (chain : list CtCertificate) (sct : option SCT) (embedded : bool) : res bytes :=
  leaf ← createLeaf chain sct embedded; ct_LeafHashForLeaf leaf.

Definition LeafHashB64 (chain : list CtCertificate) (sct : option SCT) (embedded : bool) :
    res string :=
  hash ← LeafHash chain sct embedded; Ok (base64_EncodeToString hash).

Definition VerifySCTWithVerifier (sv : option (SCT → Leaf → res unit))
    (chain : list CtCertificate) (sct : SCT) (embedded : bool) : res unit :=
  match sv with
  | None => Err (error_New "ct.SignatureVerifier is nil")
  | Some sv => leaf ← createLeaf chain (Some sct) embedded; sv sct leaf
  end.

(** [VerifySCT] of ctutil *)
Definition ctutil_VerifySCT (pubKey : PublicKey) (chain : list CtCertificate) (sct : SCT)
    (embedded : bool) : res unit :=
  s ← map_err (λ e, error_Wrapped ("error creating signature verifier: " +:+ Error e) e)
        (ct_NewSignatureVerifier pubKey);
  VerifySCTWithVerifier (Some s) chain sct embedded.

Definition GetCTLogID (pk : PublicKey) : res bytes :=
  pubBytes ← x509_MarshalPKIXPublicKey pk; Ok (sha256_Sum256 pubBytes).

(** ** ctl *)

Record logIDMetadata := mkLogIDMetadata { lm_pubKey : PublicKey; lm_status : StatusKind }.

Definition altCTLogPublicKeyLocation := "SIGSTORE_CT_LOG_PUBLIC_KEY_FILE".
Definition ctPublicKeyStr := "ctfe.pub".

(** [ContainsSCT] of ctl *)
Definition ContainsSCT (cert : bytes) : res bool :=
  embeddedSCTs ← x509util_ParseSCTsFromCertificate cert;
  Ok (match embeddedSCTs with [] => false | _ => true end).

Definition getAlternatePublicKey (in_ : bytes) : res PublicKey :=
  let derBytes := match pem_Decode in_ with None => in_ | Some ((_, b), _) => b end in
  catch (x509_ParsePKIXPublicKey derBytes)
    (λ _, wrap "failed to parse alternate public key" (x509_ParsePKCS1PublicKey derBytes)) Ok.

Context `{TR : TrustRoot}.

(** The keys of the TUF targets. *)
Fixpoint ct_targets (targets : list TargetFile) (pubKeys : gmap bytes logIDMetadata) :
    res (gmap bytes logIDMetadata) :=
  match targets with
  | [] => Ok pubKeys
  | t :: ts =>
      pub ← cryptoutils_UnmarshalPEMToPublicKey (tf_Target t);
      ctPub ← match pub with
              | ecdsa_PublicKey _ => Ok pub
              | _ => Err (error_New "invalid public key: require *ecdsa.PublicKey")
              end;
      keyID ← wrap "error getting CTFE public key hash" (GetCTLogID ctPub);
      ct_targets ts (<[keyID := mkLogIDMetadata ctPub (tf_Status t)]> pubKeys)
  end.

Definition ct_pubKeys : res (gmap bytes logIDMetadata) :=
  let rootEnv := os_Getenv altCTLogPublicKeyLocation in
  if rootEnv =?s "" then
    targets ← trusted_targets CTFE [ctPublicKeyStr];
    ct_targets targets ∅
  else
    raw ← wrap "error reading alternate public key file" (os_ReadFile rootEnv);
    pubKey ← wrap "error parsing alternate public key from the file" (getAlternatePublicKey raw);
    keyID ← wrap "error getting CTFE public key hash" (GetCTLogID pubKey);
    Ok {[keyID := mkLogIDMetadata pubKey Active]}.

(** The loop over the embedded SCTs: all of them must verify. *)
Fixpoint verify_embedded (pubKeys : gmap bytes logIDMetadata) (chain : list CtCertificate)
    (scts : list SCT) : res unit :=
  match scts with
  | [] => Ok ()
  | sct :: scts' =>
      match pubKeys !! sct_KeyID sct with
      | None => Err (error_New "ctfe public key not found for embedded SCT")
      | Some md =>
          _ ← wrap "error verifying embedded SCT" (ctutil_VerifySCT (lm_pubKey md) chain sct true);
          verify_embedded pubKeys chain scts'
      end
  end.

Definition VerifySCT (certPEM chainPEM rawSCT : bytes) : res unit :=
  pubKeys ← ct_pubKeys;
  if decide (pubKeys = ∅) then Err (error_New "none of the CTFE keys have been found") else
  cert ← x509util_CertificateFromPEM certPEM;
  certChain ← x509util_CertificatesFromPEM chainPEM;
  match certChain with
  | [] => Err (error_New "no certificate chain found")
  | issuer :: _ =>
      embeddedSCTs ← x509util_ParseSCTsFromCertificate certPEM;
      match embeddedSCTs with
      | _ :: _ => verify_embedded pubKeys [cert; issuer] embeddedSCTs
      | [] =>
          if rawSCT =?s "" then Err (error_New "no SCT found") else
          addChainResp ← wrap "unmarshal" (json_Unmarshal_AddChainResponse rawSCT);
          sct ← ToSignedCertificateTimestamp addChainResp;
          match pubKeys !! sct_KeyID sct with
          | None => Err (error_New "ctfe public key not found")
          | Some md =>
              wrap "error verifying SCT" (ctutil_VerifySCT (lm_pubKey md) [cert] sct false)
          end
      end
  end.

Definition VerifyEmbeddedSCT (chain : list Certificate) : res unit :=
  match chain with
  | c0 :: ((_ :: _) as rest) =>
      certPEM ← cryptoutils_MarshalCertificateToPEM c0;
      chainPEM ← cryptoutils_MarshalCertificatesToPEM rest;
      VerifySCT certPEM chainPEM ""
  | _ => Err (error_New "certificate chain must contain at least a certificate and its issuer")
  end.

(** ** fulcioroots *)

Definition altRoot := "SIGSTORE_ROOT_FILE".
Definition fulcioTargetStr := "fulcio.crt.pem".
Definition fulcioV1TargetStr := "fulcio_v1.crt.pem".

Definition self_signed (c : Certificate) : bool := cert_RawSubject c =?s cert_RawIssuer c.

(** Certificates are added to the root pool when they are self-signed and to
    the intermediate pool otherwise. *)
Definition add_certs (pools : list Certificate * list Certificate) (certs : list Certificate) :=
  foldl (λ '(roots, ints) c,
    if self_signed c then (roots ++ [c], ints) else (roots, ints ++ [c])) pools certs.

Fixpoint add_target_certs (targets : list TargetFile)
    (pools : list Certificate * list Certificate) : res (list Certificate * list Certificate) :=
  match targets with
  | [] => Ok pools
  | t :: ts =>
      certs ← wrap "error unmarshalling certificates"
                (cryptoutils_UnmarshalCertificatesFromPEM (tf_Target t));
      add_target_certs ts (add_certs pools certs)
  end.

(** [fulcioIntermediateV1] is the certificate the code embeds. *)
Definition initRoots (fulcioIntermediateV1 : bytes) :
    res (list Certificate * list Certificate) :=
  let rootEnv := os_Getenv altRoot in
  if negb (rootEnv =?s "") then
    raw ← wrap "error reading root PEM file" (os_ReadFile rootEnv);
    certs ← wrap "error unmarshalling certificates" (cryptoutils_UnmarshalCertificatesFromPEM raw);
    Ok (add_certs ([], []) certs)
  else
    targets ← map_err (λ _, error_New "error getting targets")
                (trusted_targets Fulcio [fulcioTargetStr; fulcioV1TargetStr]);
    match targets with
    | [] => Err (error_New "none of the Fulcio roots have been found")
    | _ =>
        '(roots, ints) ← add_target_certs targets ([], []);
        Ok (roots, ints ++ pem_AppendCerts fulcioIntermediateV1)
    end.

(** The package variables: [rootsOnce] has run or not, and what it stored. *)
Record RootsVars := mkRootsVars {
  rv_done : bool; rv_roots : CertPool; rv_intermediates : CertPool }.

(** [rootsOnce.Do]: a panic of the initialiser also counts as done. *)
Definition rootsOnce (fulcioIntermediateV1 : bytes) : M RootsVars unit := λ v,
  if rv_done v then (v, Ok ()) else
  match initRoots fulcioIntermediateV1 with
  | Ok (roots, ints) => (mkRootsVars true (Some roots) (Some ints), Ok ())
  | Err e => (mkRootsVars true None None, Panic (Error e))
  | Panic x => (mkRootsVars true (rv_roots v) (rv_intermediates v), Panic x)
  end.

Definition fulcioroots_Get (fulcioIntermediateV1 : bytes) : M RootsVars CertPool :=
  rootsOnce fulcioIntermediateV1;; gets rv_roots.
Definition fulcioroots_GetIntermediates (fulcioIntermediateV1 : bytes) : M RootsVars CertPool :=
  rootsOnce fulcioIntermediateV1;; gets rv_intermediates.

End ctutil.

(** ** What an accepted SCT means *)

(** The keys that may sign SCTs: those of the TUF targets, or the one of the
    file that the environment names. *)
Definition ct_log_key `{X : Ext, C : CtExt, TR : TrustRoot} (key : PublicKey) : Prop :=
  if os_Getenv altCTLogPublicKeyLocation =?s "" then
    ∃ targets t, trusted_targets CTFE [ctPublicKeyStr] = Ok targets ∧ t ∈ targets
      ∧ cryptoutils_UnmarshalPEMToPublicKey (tf_Target t) = Ok key
  else ∃ raw, os_ReadFile (os_Getenv altCTLogPublicKeyLocation) = Ok raw
      ∧ getAlternatePublicKey raw = Ok key.

(** The SCT names a trusted log key by its identifier and verifies under it for
    the leaf built from the chain; an embedded SCT is listed in the
    certificate. *)
Definition sct_valid `{X : Ext, C : CtExt, TR : TrustRoot} (chain : list CtCertificate)
    (sct : SCT) (embedded : bool) : Prop :=
  ∃ key sv leaf, ct_log_key key ∧ GetCTLogID key = Ok (sct_KeyID sct)
    ∧ ct_NewSignatureVerifier key = Ok sv ∧ createLeaf chain (Some sct) embedded = Ok leaf
    ∧ sv sct leaf = Ok ()
    ∧ (embedded = true → ∃ c rest raw, chain = c :: rest ∧ tls_Marshal_SCT sct = Ok raw
         ∧ raw ∈ ct_SCTList c).

Section theorems.
Context `{X : Ext, C : CtExt, TR : TrustRoot}.

Lemma ct_targets_spec targets keys keys' (Q : PublicKey → Prop) :
  (∀ id m, keys !! id = Some m → Q (lm_pubKey m) ∧ GetCTLogID (lm_pubKey m) = Ok id) →
  (∀ t k, t ∈ targets → cryptoutils_UnmarshalPEMToPublicKey (tf_Target t) = Ok k → Q k) →
  ct_targets targets keys = Ok keys' →
  ∀ id m, keys' !! id = Some m → Q (lm_pubKey m) ∧ GetCTLogID (lm_pubKey m) = Ok id.
Proof.
  revert keys. induction targets as [|t ts IH]; cbn; intros keys Hp Hq H; [by simplify_eq|].
  apply bind_Ok in H as (pub & Hpub & H). apply bind_Ok in H as (ctPub & Hct & H).
  assert (ctPub = pub) as -> by (destruct pub; go_inv; done).
  go_inv. eapply IH; [|set_solver|eassumption].
  intros id m. rewrite lookup_insert_Some. intros [[<- <-]|[_ Hm]]; [|by apply Hp]. cbn.
  split; [|done]. eapply Hq; [|done]. set_solver.
Qed.

Lemma ct_pubKeys_spec keys id m :
  ct_pubKeys = Ok keys → keys !! id = Some m →
  ct_log_key (lm_pubKey m) ∧ GetCTLogID (lm_pubKey m) = Ok id.
Proof.
  unfold ct_pubKeys, ct_log_key. intros H Hm.
  destruct (os_Getenv altCTLogPublicKeyLocation =?s "") eqn:E; go_inv.
  - apply (ct_targets_spec x ∅ keys (λ k, ∃ targets t,
      trusted_targets CTFE [ctPublicKeyStr] = Ok targets ∧ t ∈ targets
      ∧ cryptoutils_UnmarshalPEMToPublicKey (tf_Target t) = Ok k)); [done|eauto|done..].
  - apply lookup_singleton_Some in Hm as [<- <-]. eauto.
Qed.

Lemma ctutil_VerifySCT_valid keys m chain sct embedded :
  ct_pubKeys = Ok keys → keys !! sct_KeyID sct = Some m →
  ctutil_VerifySCT (lm_pubKey m) chain sct embedded = Ok () → sct_valid chain sct embedded.
Proof.
  intros Hk Hm H. destruct (ct_pubKeys_spec _ _ _ Hk Hm) as [Ht Hid].
  unfold ctutil_VerifySCT, VerifySCTWithVerifier in H. go_inv.
  match goal with H : createLeaf _ _ _ = _ |- _ => pose proof H as Hleaf end.
  eexists _, _, _. repeat (split; [eassumption|]). intros ->.
  unfold createLeaf in Hleaf. destruct chain as [|c rest]; [done|]. go_inv.
  unfold cert_ContainsSCT in *. go_inv.
  match goal with H : bool_decide _ = true |- _ => apply bool_decide_eq_true in H end. eauto 10.
Qed.

Lemma verify_embedded_valid keys chain scts :
  ct_pubKeys = Ok keys → verify_embedded keys chain scts = Ok () →
  ∀ sct, sct ∈ scts → sct_valid chain sct true.
Proof.
  intros Hk. induction scts as [|s scts IH]; cbn; intros H sct Hin; [set_solver|].
  destruct (keys !! sct_KeyID s) as [m|] eqn:E; [|done]. go_inv.
  apply elem_of_cons in Hin as [->|Hin]; [|by apply IH].
  eapply ctutil_VerifySCT_valid; try done.
  match goal with H : ctutil_VerifySCT _ _ _ _ = Ok ?u |- _ => by destruct u end.
Qed.

(** C6: a certificate that [VerifySCT] accepts carries a proof of its
    transparency: every SCT embedded in it verifies, against its issuer, under
    the trusted log key that the SCT names; when none is embedded, the detached
    SCT verifies for the certificate itself. *)
Theorem VerifySCT_sound certPEM chainPEM rawSCT :
  VerifySCT certPEM chainPEM rawSCT = Ok () →
  ∃ cert issuer rest scts,
    x509util_CertificateFromPEM certPEM = Ok cert
    ∧ x509util_CertificatesFromPEM chainPEM = Ok (issuer :: rest)
    ∧ x509util_ParseSCTsFromCertificate certPEM = Ok scts
    ∧ (scts ≠ [] ∧ (∀ sct, sct ∈ scts → sct_valid [cert; issuer] sct true)
       ∨ scts = [] ∧ ∃ resp sct, json_Unmarshal_AddChainResponse rawSCT = Ok resp
           ∧ ToSignedCertificateTimestamp resp = Ok sct ∧ sct_valid [cert] sct false).
Proof.
  unfold VerifySCT. intros H. apply bind_Ok in H as (keys & Hk & H). case_decide; [done|].
  go_inv. match goal with H : x509util_CertificatesFromPEM _ = Ok ?l |- _ =>
    destruct l as [|issuer rest]; [done|] end.
  go_inv. match goal with H : x509util_ParseSCTsFromCertificate _ = Ok ?l |- _ =>
    destruct l as [|s scts] end.
  - destruct (rawSCT =?s ""); [done|]. go_inv.
    match goal with H : context [keys !! ?i] |- _ => destruct (keys !! i) eqn:E; [|done] end.
    go_inv. eexists _, _, _, _. repeat (split; [eassumption|]). right. split; [done|].
    eexists _, _. repeat (split; [eassumption|]). eapply ctutil_VerifySCT_valid; done.
  - eexists _, _, _, _. repeat (split; [eassumption|]). left. split; [done|].
    intros sct Hin. eapply verify_embedded_valid; done.
Qed.

Lemma add_certs_spec pools certs :
  add_certs pools certs =
  (pools.1 ++ filter self_signed certs, pools.2 ++ filter (λ c, self_signed c = false) certs).
Proof.
  revert pools. induction certs as [|c certs IH]; intros [rs ns]; cbn [add_certs foldl].
  { cbn. by rewrite !app_nil_r. }
  fold (add_certs (if self_signed c then (rs ++ [c], ns) else (rs, ns ++ [c])) certs).
  rewrite IH. destruct (self_signed c) eqn:E; cbn [fst snd].
  - rewrite filter_cons_True by by rewrite E. rewrite filter_cons_False by by rewrite E.
    by rewrite <- app_assoc.
  - rewrite filter_cons_False by (rewrite E; by intros []).
    rewrite filter_cons_True by done. by rewrite <- app_assoc.
Qed.

Lemma add_target_certs_spec targets pools pools' :
  add_target_certs targets pools = Ok pools' →
  ∃ css, mapM (λ t, match cryptoutils_UnmarshalCertificatesFromPEM (tf_Target t) with
                    | Ok cs => Some cs | _ => None end) targets = Some css
    ∧ pools' = (pools.1 ++ filter self_signed (concat css),
                pools.2 ++ filter (λ c, self_signed c = false) (concat css)).
Proof.
  revert pools. induction targets as [|t ts IH]; cbn; intros pools H.
  { simplify_eq. exists []. cbn. rewrite !app_nil_r. by destruct pools'. }
  go_inv. rewrite H. apply IH in H0 as (css & -> & ->).
  eexists. split; [reflexivity|]. rewrite add_certs_spec. cbn. by rewrite !filter_app, !app_assoc.
Qed.

(** The Fulcio pools read from TUF.  The root pool holds exactly the
    self-signed certificates of the trusted targets, in order, and the
    intermediate pool the other ones followed by the embedded intermediate:
    no certificate that another one issued becomes a root. *)
Theorem initRoots_partition v1 roots ints :
  os_Getenv altRoot = "" → initRoots v1 = Ok (roots, ints) →
  ∃ targets css,
    trusted_targets Fulcio [fulcioTargetStr; fulcioV1TargetStr] = Ok targets
    ∧ mapM (λ t, match cryptoutils_UnmarshalCertificatesFromPEM (tf_Target t) with
                 | Ok cs => Some cs | _ => None end) targets = Some css
    ∧ roots = filter self_signed (concat css)
    ∧ ints = filter (λ c, self_signed c = false) (concat css) ++ pem_AppendCerts v1.
Proof.
  unfold initRoots. intros Henv H. rewrite Henv in H. cbn in H.
  apply bind_Ok in H as (targets & Ht%map_err_Ok & H). destruct targets as [|t ts]; [done|].
  apply bind_Ok in H as ([rs ns] & Ha & [= <- <-]). apply add_target_certs_spec in Ha as (css & Hm & [= -> ->]).
  eauto 10.
Qed.

(** The once-only initialisation of the Fulcio roots does not survive a
    failure: the first caller panics, but the run counts as done, and every
    later caller gets a nil pool without an error. *)
Theorem roots_nil_after_failure v1 e v :
  initRoots v1 = Err e → rv_done v = false →
  ∃ v', fulcioroots_Get v1 v = (v', Panic (Error e))
    ∧ fulcioroots_Get v1 v' = (v', Ok None) ∧ fulcioroots_GetIntermediates v1 v' = (v', Ok None).
Proof.
  intros Hi Hd. exists (mkRootsVars true None None).
  unfold fulcioroots_Get, fulcioroots_GetIntermediates, rootsOnce, mbind, M_bind. rewrite Hd, Hi.
  done.
Qed.

End theorems.

(** ** Witnesses *)

(** The certificate in PEM form is its own raw form; it embeds the SCT "sct" of
    the log key "rekor" unless it starts with "plain". *)
Definition toy_sct : SCT := mkSCT "rekor" 1 "sct".
Definition toy_Ct : CtExt := {|
  Leaf := bytes;
  x509util_CertificateFromPEM p := Ok (mkCtCertificate p ["sct"] false);
  x509util_CertificatesFromPEM p := Ok [mkCtCertificate p [] false];
  x509util_ParseSCTsFromCertificate p :=
    Ok (if strings_HasPrefix p "plain" then [] else [toy_sct]);
  tls_Marshal_SCT s := Ok (sct_Signature s);
  ct_MerkleTreeLeafForEmbeddedSCT _ _ := Ok "leaf";
  ct_MerkleTreeLeafFromChain _ _ _ := Ok "leaf";
  ct_LeafHashForLeaf l := Ok l;
  ct_NewSignatureVerifier k := Ok (λ s l, ensure (key_der k =?s sct_KeyID s) (error_New "bad SCT"));
  json_Unmarshal_AddChainResponse b := Ok b;
  ToSignedCertificateTimestamp _ := Ok toy_sct;
  x509_ParsePKCS1PublicKey _ := Err (error_New "asn1");
  cryptoutils_UnmarshalCertificatesFromPEM b :=
    if b =?s "" then Err (error_New "empty") else Ok (toy_certs b);
  pem_AppendCerts b := toy_certs b |}.

Lemma VerifySCT_sound_witness :
  ∃ cert issuer rest scts, x509util_CertificateFromPEM (CtExt := toy_Ct) "cert" = Ok cert
    ∧ x509util_CertificatesFromPEM (CtExt := toy_Ct) "chain" = Ok (issuer :: rest)
    ∧ x509util_ParseSCTsFromCertificate (CtExt := toy_Ct) "cert" = Ok scts.
Proof.
  destruct (VerifySCT_sound (X := toy) (C := toy_Ct) (TR := toy_TrustRoot) "cert" "chain" ""
    ltac:(vm_compute; reflexivity)) as (c & i & r & s & H1 & H2 & H3 & _).
  exists c, i, r, s. by repeat split.
Defined.

Lemma initRoots_partition_witness :
  ∃ roots ints, initRoots (X := toy) (C := toy_Ct) (TR := toy_TrustRoot) "v1" = Ok (roots, ints)
    ∧ ∃ css, roots = filter self_signed (concat css).
Proof.
  eexists _, _. split; [reflexivity|].
  destruct (initRoots_partition (X := toy) (C := toy_Ct) (TR := toy_TrustRoot) "v1" _ _
    eq_refl eq_refl) as (targets & css & _ & _ & H & _).
  by exists css.
Defined.

Lemma roots_nil_after_failure_witness :
  ∃ v', fulcioroots_Get (X := toy) (C := toy_Ct) (TR := {| trusted_targets _ _ := Ok [] |}) "v1" v'
    = (v', Ok None).
Proof.
  destruct (roots_nil_after_failure (X := toy) (C := toy_Ct)
    (TR := {| trusted_targets _ _ := Ok [] |}) "v1" _ (mkRootsVars false None None)
    eq_refl eq_refl) as (v' & _ & H & _).
  by exists v'.
Defined.
