(* ===== verification/Verify.v ===== *)
(** * Verification of signatures and attestations

    pkg/cosign/verify.go and pkg/cosign/verifiers.go, with pkg/blob/load.go:
    from a signature and the check options to accept or reject, including the
    certificate, SCT, claim, bundle and transparency-log checks.

    The options are passed by pointer and changed on the way (the intermediate
    pool is replaced per signature): they are threaded as state. *)
From S2P Require Import Prelude GoStd External Concrete OciSignature OciSignatures OciEntity.
From S2P Require Import OciRemote Tuf Tlog Ctl.

(** apis/cosigned/v1alpha1.Identity *)
Record Identity := mkIdentity { id_Issuer : string; id_Subject : string }.

Definition IntotoPayloadType := "application/vnd.in-toto+json".

Section verify.
Context `{X : Ext, TR : TrustRoot, C : CtExt, R : Registry}.

Record CheckOpts := mkCheckOpts {
  RegistryClientOpts : list Option_;
  co_Annotations : option (gmap string any);
  ClaimVerifier : option (Signature → Hash → option (gmap string any) → res unit);
  RekorClient : option Rekor;
  SigVerifier : option Verifier;
  RootCerts : CertPool;
  IntermediateCerts : CertPool;
  CertEmail : string;
  CertOidcIssuer : string;
  EnforceSCT : bool;
  SignatureRef : string;
  Identities : list Identity }.

Definition set_pools (roots ints : CertPool) (co : CheckOpts) : CheckOpts :=
  mkCheckOpts (RegistryClientOpts co) (co_Annotations co) (ClaimVerifier co) (RekorClient co)
    (SigVerifier co) roots ints (CertEmail co) (CertOidcIssuer co) (EnforceSCT co)
    (SignatureRef co) (Identities co).
Definition set_IntermediateCerts (ints : CertPool) (co : CheckOpts) : CheckOpts :=
  set_pools (RootCerts co) ints co.

(** ** Signatures *)

Definition verifyOCISignature (verifier : Verifier) (sig : Signature) : res unit :=
  b64sig ← Base64Signature sig;
  signature ← base64_DecodeString b64sig;
  payload ← Payload sig;
  VerifySignature verifier signature payload.

Definition verifyOCIAttestation (verifier : Verifier) (att : Signature) : res unit :=
  payload ← Payload att;
  env ← json_Unmarshal_Envelope payload;
  _ ← ensure (env_PayloadType env =?s IntotoPayloadType)
        (error_New ("invalid payloadType " +:+ env_PayloadType env +:+ " on envelope. Expected "
                    +:+ IntotoPayloadType));
  dssev ← dsse_NewEnvelopeVerifier verifier;
  dssev env.

(** ** Certificates *)

(** The certificate is verified at the start of its validity: its lifetime is
    checked elsewhere, against the time in the log. *)
Definition TrustedCert (cert : Certificate) (roots intermediates : CertPool) :
    res (list (list Certificate)) :=
  x509_Verify cert (mkVerifyOptions (cert_NotBefore cert) roots intermediates ["CodeSigning"]).

Definition getSubjectAlternateNames (cert : Certificate) : list string :=
  cert_DNSNames cert ++ cert_EmailAddresses cert ++ cert_IPAddresses cert ++ cert_URIs cert.

Definition issuerOID := "1.3.6.1.4.1.57264.1.1".

Definition getIssuer (cert : Certificate) : string :=
  match filter (λ ext, fst ext = issuerOID) (cert_Extensions cert) with
  | (_, v) :: _ => v
  | [] => ""
  end.

(** One identity: an empty constraint is met, a malformed one is an error. *)
Definition identity_matches (cert : Certificate) (identity : Identity) : res bool :=
  issuerMatches ←
    (if id_Issuer identity =?s "" then Ok true
     else
       regex ← map_err (λ e, error_Wrapped ("malformed issuer in identity: "
                 +:+ id_Issuer identity +:+ " : " +:+ Error e) e)
               (regexp_Compile (id_Issuer identity));
       Ok (regex (getIssuer cert)));
  subjectMatches ←
    (if id_Subject identity =?s "" then Ok true
     else
       regex ← map_err (λ e, error_Wrapped ("malformed subject in identity: "
                 +:+ id_Subject identity +:+ " : " +:+ Error e) e)
               (regexp_Compile (id_Subject identity));
       Ok (existsb regex (getSubjectAlternateNames cert)));
  Ok (subjectMatches && issuerMatches).

Fixpoint match_identities (cert : Certificate) (ids : list Identity) : res unit :=
  match ids with
  | [] => Err (error_New "none of the expected identities matched what was in the certificate")
  | identity :: ids' =>
      b ← identity_matches cert identity;
      if b : bool then Ok () else match_identities cert ids'
  end.

Definition ValidateAndUnpackCert (cert : Certificate) (co : CheckOpts) : res Verifier :=
  verifier ← wrap "invalid certificate found on signature"
               (signature_LoadVerifier (cert_PublicKey cert));
  chains ← TrustedCert cert (RootCerts co) (IntermediateCerts co);
  _ ← (if CertEmail co =?s "" then Ok ()
       else ensure (bool_decide (CertEmail co ∈ cert_EmailAddresses cert))
              (error_New "expected email not found in certificate"));
  _ ← (if CertOidcIssuer co =?s "" then Ok ()
       else ensure (getIssuer cert =?s CertOidcIssuer co)
              (error_New "expected oidc issuer not found in certificate"));
  match Identities co with
  | _ :: _ => _ ← match_identities cert (Identities co); Ok verifier
  | [] =>
      contains ← ContainsSCT (cert_Raw cert);
      if EnforceSCT co && negb contains
      then Err (error_New "certificate does not include required embedded SCT")
      else if contains : bool then
        match chains with
        | [] => Panic "index out of range"
        | chain :: _ => _ ← VerifyEmbeddedSCT chain; Ok verifier
        end
      else Ok verifier
  end.

Definition ValidateAndUnpackCertWithChain (cert : Certificate) (chain : list Certificate) :
    M CheckOpts Verifier := λ co,
  match last chain with
  | None => (co, Err (error_New "no chain provided to validate certificate"))
  | Some root =>
      let co := set_pools (Some [root]) (Some (slice_init chain)) co in
      (co, ValidateAndUnpackCert cert co)
  end.

(** The intermediate pool of one signature: its chain without the root. *)
Definition chain_pool (chain : list Certificate) : CertPool :=
  if (length chain <=? 1)%nat then None else Some (slice_init chain).

(** The verifier of a signature without a configured key. *)
Definition cert_verifier (missing : string) (sig : Signature) : M CheckOpts Verifier :=
  cert ← lift (Cert sig);
  cert ← lift (match cert with None => Err (error_New missing) | Some c => Ok c end);
  chain ← lift (Chain sig);
  modify (set_IntermediateCerts (chain_pool chain));;
  reads (ValidateAndUnpackCert cert).

Definition sig_verifier (missing : string) (sig : Signature) : M CheckOpts Verifier := λ co,
  match SigVerifier co with
  | Some v => (co, Ok v)
  | None => cert_verifier missing sig co
  end.

Definition CheckExpiry (cert : Certificate) (it : Z) : res unit :=
  if bool_decide (cert_NotAfter cert < it)%Z
  then Err (error_New "certificate expired before signatures were entered in log")
  else if bool_decide (cert_NotBefore cert > it)%Z
  then Err (error_New "certificate was issued after signatures were entered in log")
  else Ok ().

(** ** The transparency log *)

Definition tlogValidatePublicKey (rekorClient : Rekor) (pub : PublicKey) (sig : Signature) :
    res unit :=
  pemBytes ← cryptoutils_MarshalPublicKeyToPEM pub;
  b64sig ← Base64Signature sig;
  payload ← Payload sig;
  _ ← FindTlogEntry rekorClient b64sig payload pemBytes;
  Ok ().

Definition tlogValidateCertificate (rekorClient : Rekor) (sig : Signature) : res unit :=
  cert ← Cert sig;
  cert ← match cert with Some c => Ok c | None => Err (error_New "nil certificate provided") end;
  pemBytes ← cryptoutils_MarshalCertificateToPEM cert;
  b64sig ← Base64Signature sig;
  payload ← Payload sig;
  e ← FindTlogEntry rekorClient b64sig payload pemBytes;
  _ ← VerifyTLogEntry rekorClient e;
  it ← deref (le_IntegratedTime e);
  CheckExpiry cert it.

(** ** Bundles *)

(** [*obj.Data.Hash.Algorithm, *obj.Data.Hash.Value] *)
Definition data_hash (d : option (option DataHash)) : res (string * string) :=
  data ← deref d;
  h ← deref data;
  alg ← deref (dh_Algorithm h);
  value ← deref (dh_Value h);
  Ok (alg, value).

Definition bundleHash (bundleBody signature : string) : res (string * string) :=
  bodyDecoded ← base64_DecodeString bundleBody;
  if signature =?s "" then
    spec ← json_Unmarshal_Intoto bodyDecoded;
    specMarshal ← json_Marshal_any spec;
    intotoObj ← json_Unmarshal_IntotoSchema specMarshal;
    content ← deref (is_Content intotoObj);
    data_hash (Some (snd content))
  else
    catch (json_Unmarshal_Rekord bodyDecoded)
      (λ _,
        spec ← json_Unmarshal_Hashedrekord bodyDecoded;
        specMarshal ← json_Marshal_any spec;
        hrekordObj ← json_Unmarshal_HashedrekordSchema specMarshal;
        data_hash (rs_Data hrekordObj))
      (λ spec,
        specMarshal ← json_Marshal_any spec;
        rekordObj ← json_Unmarshal_RekordSchema specMarshal;
        data_hash (rs_Data rekordObj)).

(** [Signature.Content.String()] *)
Definition schema_sig (s : RekordSchema) : res string :=
  sg ← deref (rs_Signature s); Ok (base64_EncodeToString (fst sg)).

Definition bundleSig (bundleBody : string) : res string :=
  bodyDecoded ← wrap "decoding bundleBody" (base64_DecodeString bundleBody);
  catch (json_Unmarshal_Rekord bodyDecoded)
    (λ _,
      spec ← json_Unmarshal_Hashedrekord bodyDecoded;
      specMarshal ← json_Marshal_any spec;
      hrekordObj ← json_Unmarshal_HashedrekordSchema specMarshal;
      schema_sig hrekordObj)
    (λ spec,
      specMarshal ← json_Marshal_any spec;
      rekordObj ← json_Unmarshal_RekordSchema specMarshal;
      schema_sig rekordObj).

Definition compareSigs (bundleBody : string) (sig : Signature) : res unit :=
  actualSig ← wrap "base64 signature" (Base64Signature sig);
  if actualSig =?s "" then Ok () else
  bundleSignature ← wrap "failed to extract signature from bundle" (bundleSig bundleBody);
  if bundleSignature =?s "" then Ok () else
  ensure (bundleSignature =?s actualSig)
    (error_New "signature in bundle does not match signature being verified").

(** The boolean is false whenever the error is not nil; a payload hash that
    does not match gives false without an error, because a nil error is
    wrapped. *)
Definition VerifyBundle (sig : Signature) : res bool :=
  bundle ← Bundle sig;
  match bundle with
  | None => Ok false
  | Some bundle =>
      body ← as_string (rp_Body (rb_Payload bundle));
      _ ← compareSigs body sig;
      publicKeys ← wrap "retrieving rekor public key" GetRekorPubs;
      pubKey ← match publicKeys !! rp_LogID (rb_Payload bundle) with
               | Some k => Ok k
               | None => Err (error_New "rekor log public key not found for payload")
               end;
      _ ← VerifySET (rb_Payload bundle) (rb_SignedEntryTimestamp bundle) (rpk_PubKey pubKey);
      cert ← Cert sig;
      match cert with
      | None => Ok true
      | Some cert =>
          _ ← wrap "checking expiry on cert"
                (CheckExpiry cert (rp_IntegratedTime (rb_Payload bundle)));
          payload ← wrap "reading payload" (Payload sig);
          signature ← wrap "reading base64signature" (Base64Signature sig);
          match bundleHash body signature with
          | Panic w => Panic w
          | r =>
              let '(alg, bundlehash) := match r with Ok h => h | _ => ("", "") end in
              let payloadHash := hex_EncodeToString (sha256_Sum256 payload) in
              if negb (alg =?s "sha256") || negb (bundlehash =?s payloadHash) then
                match errors_Wrap (err_of r) "matching bundle to payload" with
                | Some e => Err e
                | None => Ok false
                end
              else Ok true
          end
      end
  end.

(** ** One signature, one attestation *)

(** The bundle, then, when it does not settle the matter, the log. *)
Definition verify_log (sig : Signature) (co : CheckOpts) : res bool :=
  match VerifyBundle sig with
  | Panic w => Panic w
  | r =>
      let bundleVerified := match r with Ok b => b | _ => false end in
      match err_of r, RekorClient co with
      | Some e, None => wrap "unable to verify bundle" (Err e)
      | _, None => Ok bundleVerified
      | _, Some rekorClient =>
          if bundleVerified then Ok true else
          _ ← match SigVerifier co with
              | Some v =>
                  pub ← Verifier_PublicKey v;
                  tlogValidatePublicKey rekorClient pub sig
              | None => tlogValidateCertificate rekorClient sig
              end;
          Ok false
      end
  end.

Definition check_claims (sig : Signature) (h : Hash) (co : CheckOpts) : res unit :=
  match ClaimVerifier co with
  | None => Ok ()
  | Some f => f sig h (co_Annotations co)
  end.

Definition VerifyImageSignature (sig : Signature) (h : Hash) : M CheckOpts bool :=
  verifier ← sig_verifier "no certificate found on signature" sig;
  lift (verifyOCISignature verifier sig);;
  reads (λ co, _ ← check_claims sig h co; verify_log sig co).

Definition verify_attestation (att : Signature) (h : Hash) : M CheckOpts bool :=
  verifier ← sig_verifier "no certificate found on attestation" att;
  lift (verifyOCIAttestation verifier att);;
  reads (λ co, _ ← check_claims att h co; verify_log att co).

(** ** Sets *)

(** The loop over the signatures of a set: each one is accepted or its error is
    recorded; the options stay changed. *)
Fixpoint verify_each (verify : Signature → M CheckOpts bool) (sl : list Signature)
    (checked : list Signature) (bundleVerified : bool) (errs : list string) :
    M CheckOpts (list Signature * bool * list string) :=
  match sl with
  | [] => mret (checked, bundleVerified, errs)
  | sig :: sl' =>
      r ← M_try (verify sig);
      match r with
      | Ok v => verify_each verify sl' (checked ++ [sig]) (bundleVerified || v) errs
      | Err e => verify_each verify sl' checked bundleVerified (errs ++ [Error e])
      | Panic w => lift (Panic w)
      end
  end.

Definition verify_set (what : string) (verify : Signature → Hash → M CheckOpts bool)
    (set : option Signatures) (h : Hash) : M CheckOpts (list Signature * bool) :=
  set ← lift (deref set);
  sl ← lift (Get set);
  '(checked, bundleVerified, errs) ← verify_each (λ s, verify s h) sl [] false [];
  match checked with
  | [] => lift (Err (error_New (what +:+ nl +:+ strings_Join errs (nl +:+ " "))))
  | _ => mret (checked, bundleVerified)
  end.

Definition verifySignatures : option Signatures → Hash → M CheckOpts (list Signature * bool) :=
  verify_set "no matching signatures:" VerifyImageSignature.
Definition verifyImageAttestations :
    option Signatures → Hash → M CheckOpts (list Signature * bool) :=
  verify_set "no matching attestations:" verify_attestation.

(** ** Images *)

Definition no_verifier (co : CheckOpts) : bool :=
  match RootCerts co, SigVerifier co with None, None => true | _, _ => false end.
Definition require_verifier : M CheckOpts unit :=
  reads (λ co, ensure (negb (no_verifier co))
                 (error_New "one of verifier or root certs is required")).

Definition getSignedEntity (depth : nat) (reg : Reg) (ref : Reference) (opts : list Option_) :
    res (Entity * Hash) :=
  se ← remote_SignedEntity depth reg ref opts;
  h ← Entity_Digest se;
  Ok (se, h).

Definition LoadFileOrURL (fileRef : string) : res bytes :=
  if strings_HasPrefix fileRef "http://" || strings_HasPrefix fileRef "https://"
  then http_Get fileRef else os_ReadFile (filepath_Clean fileRef).

(** [ref.String()] of a resolved digest *)
Definition Reference_String (r : Reference) : string :=
  match r with name_Tag repo t => repo +:+ ":" +:+ t | name_Digest repo d => repo +:+ "@" +:+ d end.

Definition loadSignatureFromFile (reg : Reg) (sigRef : string) (signedImgRef : Reference)
    (opts : list Option_) : res Signatures :=
  targetSig ← catch (LoadFileOrURL sigRef)
                (λ e, if os_IsNotExist e then Ok sigRef else Err e) Ok;
  let b64sig := match base64_DecodeString targetSig with
                | Ok _ => targetSig
                | _ => base64_EncodeToString targetSig
                end in
  digest ← ResolveDigest reg signedImgRef opts;
  payload ← payload_Cosign_MarshalJSON (Reference_String digest) ∅;
  sig ← NewSignature payload b64sig [];
  Ok (fakeOCISignatures [sig]).

Definition VerifyImageSignatures (depth : nat) (reg : Reg) (signedImgRef : Reference) :
    M CheckOpts (list Signature * bool) :=
  require_verifier;;
  co ← gets (λ co, co);
  '(se, h) ← lift (getSignedEntity depth reg signedImgRef (RegistryClientOpts co));
  sigs ← lift (if SignatureRef co =?s "" then Entity_Signatures se
               else loadSignatureFromFile reg (SignatureRef co) signedImgRef
                      (RegistryClientOpts co));
  verifySignatures (Some sigs) h.

Definition VerifyImageAttestations (depth : nat) (reg : Reg) (signedImgRef : Reference) :
    M CheckOpts (list Signature * bool) :=
  require_verifier;;
  co ← gets (λ co, co);
  '(se, h) ← lift (getSignedEntity depth reg signedImgRef (RegistryClientOpts co));
  atts ← lift (Entity_Attestations se);
  verifyImageAttestations (Some atts) h.

(** The digest of the image or index that a layout was saved from. *)
Definition layout_digest (se : V1Index) : res Hash :=
  ii ← layout_SignedImageIndex se (mkHash "" "");
  i ← layout_SignedImage se (mkHash "" "");
  match ii, i with
  | Some ii, _ => Index_Digest ii
  | None, Some i => Image_Digest i
  | None, None => Err (error_New "must verify either an image index or image")
  end.

Definition VerifyLocalImageSignatures (reg : Reg) (path : string) :
    M CheckOpts (list Signature * bool) :=
  require_verifier;;
  se ← lift (layout_FromPath reg path);
  h ← lift (layout_digest se);
  sigs ← lift (layout_Signatures se);
  verifySignatures sigs h.

Definition VerifyLocalImageAttestations (reg : Reg) (path : string) :
    M CheckOpts (list Signature * bool) :=
  require_verifier;;
  se ← lift (layout_FromPath reg path);
  h ← lift (layout_digest se);
  atts ← lift (layout_Attestations se);
  verifyImageAttestations atts h.

(** ** Claim verifiers (verifiers.go) *)

(** The loop over the wanted annotations. *)
Fixpoint annotations_loop (wanted : list (string * any)) (have : gmap string any) : res bool :=
  match wanted with
  | [] => Ok true
  | (k, v) :: wanted' =>
      ne ← any_neq (default any_nil (have !! k)) v;
      if ne : bool then Ok false else annotations_loop wanted' have
  end.
Definition correctAnnotations (wanted have : gmap string any) : res bool :=
  annotations_loop (map_to_list wanted) have.

Definition SimpleClaimVerifier (sig : Signature) (imageDigest : Hash)
    (annotations : option (gmap string any)) : res unit :=
  p ← Payload sig;
  ss ← json_Unmarshal_SimpleContainerImage p;
  _ ← ensure (sci_DockerManifestDigest ss =?s Hash_String imageDigest)
        (error_New ("invalid or missing digest in claim: " +:+ sci_DockerManifestDigest ss));
  match annotations with
  | None => Ok ()
  | Some wanted =>
      b ← correctAnnotations wanted (sci_Optional ss);
      ensure b (error_New "missing or incorrect annotation")
  end.

Definition IntotoSubjectClaimVerifier (sig : Signature) (imageDigest : Hash)
    (_ : option (gmap string any)) : res unit :=
  p ← Payload sig;
  e ← json_Unmarshal_Envelope p;
  stBytes ← base64_DecodeString (env_Payload e);
  st ← json_Unmarshal_Statement stBytes;
  ensure (existsb (λ subj,
            match subj_Digest subj !! "sha256" with
            | Some dgst => ("sha256:" +:+ dgst) =?s Hash_String imageDigest
            | None => false
            end) (st_Subject st))
    (error_New "no matching subject digest found").

End verify.

(** ** What acceptance means *)

Section spec.
Context `{X : Ext, TR : TrustRoot, C : CtExt, R : Registry}.

(** The verifier accepts the signature's payload. *)
Definition signed_by (v : Verifier) (sig : Signature) : Prop :=
  ∃ b64 s p, Base64Signature sig = Ok b64 ∧ base64_DecodeString b64 = Ok s
    ∧ Payload sig = Ok p ∧ VerifySignature v s p = Ok ().

(** The certificate meets every constraint of the options. *)
Record cert_trusted (co : CheckOpts) (cert : Certificate) (ints : CertPool) (v : Verifier) : Prop := {
  ct_key : signature_LoadVerifier (cert_PublicKey cert) = Ok v;
  ct_chain : ∃ chains, x509_Verify cert (mkVerifyOptions (cert_NotBefore cert) (RootCerts co)
               ints ["CodeSigning"]) = Ok chains
    ∧ (Identities co = [] →
       ∃ b, ContainsSCT (cert_Raw cert) = Ok b ∧ (EnforceSCT co = true → b = true)
         ∧ (b = true → ∃ chain rest, chains = chain :: rest ∧ VerifyEmbeddedSCT chain = Ok ()));
  ct_email : CertEmail co = "" ∨ CertEmail co ∈ cert_EmailAddresses cert;
  ct_issuer : CertOidcIssuer co = "" ∨ getIssuer cert = CertOidcIssuer co;
  ct_identity : Identities co = [] ∨
    ∃ i, i ∈ Identities co ∧ identity_matches cert i = Ok true }.

(** Who signed: the configured key, or the key of a trusted certificate of the
    signature. *)
Definition authenticated (co : CheckOpts) (sig : Signature) (v : Verifier) : Prop :=
  SigVerifier co = Some v
  ∨ SigVerifier co = None ∧ ∃ cert chain, Cert sig = Ok (Some cert) ∧ Chain sig = Ok chain
      ∧ cert_trusted co cert (chain_pool chain) v.

(** The bundle proves that the signature was logged: a trusted log key signed
    it, its signature is the one verified, and, for a certificate, it was
    logged during the certificate's lifetime and for this payload. *)
Definition bundle_proof (sig : Signature) : Prop :=
  ∃ b body der b64,
    Bundle sig = Ok (Some b) ∧ rp_Body (rb_Payload b) = any_string body
    ∧ tuf_log_key der ∧ getLogID (ecdsa_PublicKey der) = Ok (rp_LogID (rb_Payload b))
    ∧ VerifySET (rb_Payload b) (rb_SignedEntryTimestamp b) der = Ok ()
    ∧ Base64Signature sig = Ok b64
    ∧ (b64 = "" ∨ bundleSig body = Ok "" ∨ bundleSig body = Ok b64)
    ∧ (Cert sig = Ok None ∨ ∃ cert p, Cert sig = Ok (Some cert) ∧ Payload sig = Ok p
         ∧ (cert_NotBefore cert ≤ rp_IntegratedTime (rb_Payload b) ≤ cert_NotAfter cert)%Z
         ∧ bundleHash body b64 = Ok ("sha256", hex_EncodeToString (sha256_Sum256 p))).

(** The server proves that a certificate's signature was logged, during the
    certificate's lifetime. *)
Definition log_proof (rc : Rekor) (sig : Signature) : Prop :=
  ∃ cert e it der, Cert sig = Ok (Some cert) ∧ included e ∧ entry_signed_by e der
    ∧ (tuf_log_key der ∨ api_log_key rc der)
    ∧ le_IntegratedTime e = Some it
    ∧ (cert_NotBefore cert ≤ it ≤ cert_NotAfter cert)%Z.

Lemma CheckExpiry_Ok cert it :
  CheckExpiry cert it = Ok () ↔ (cert_NotBefore cert ≤ it ≤ cert_NotAfter cert)%Z.
Proof. unfold CheckExpiry. repeat case_bool_decide; split; try done; lia. Qed.

Lemma verifyOCISignature_Ok v sig : verifyOCISignature v sig = Ok () ↔ signed_by v sig.
Proof.
  unfold verifyOCISignature, signed_by. split.
  - intros H. go_inv. eauto 10.
  - intros (b64 & s & p & -> & Hs & Hp & Hv). cbn. rewrite Hs. cbn. by rewrite Hp.
Qed.

Lemma match_identities_Ok cert ids :
  match_identities cert ids = Ok () → ∃ i, i ∈ ids ∧ identity_matches cert i = Ok true.
Proof.
  induction ids as [|i ids IH]; cbn; intros H; [done|]. go_inv. destruct x.
  - exists i. set_solver.
  - destruct (IH ltac:(done)) as (j & ? & ?). exists j. set_solver.
Qed.

Lemma ValidateAndUnpackCert_trusted cert co v :
  ValidateAndUnpackCert cert co = Ok v → cert_trusted co cert (IntermediateCerts co) v.
Proof.
  unfold ValidateAndUnpackCert, TrustedCert. intros H.
  apply bind_Ok in H as (v' & Hv%wrap_Ok & H). apply bind_Ok in H as (chains & Hc & H).
  apply bind_Ok in H as ([] & He & H). apply bind_Ok in H as ([] & Hi & H).
  assert (CertEmail co = "" ∨ CertEmail co ∈ cert_EmailAddresses cert).
  { destruct (CertEmail co =?s "") eqn:E; [left; by apply str_eqb_eq|right].
    apply ensure_Ok, bool_decide_eq_true in He. done. }
  assert (CertOidcIssuer co = "" ∨ getIssuer cert = CertOidcIssuer co).
  { destruct (CertOidcIssuer co =?s "") eqn:E; [left; by apply str_eqb_eq|right].
    by apply ensure_Ok, str_eqb_eq in Hi. }
  destruct (Identities co) as [|i ids] eqn:Eids.
  - apply bind_Ok in H as (b & Hb & H).
    assert (v' = v ∧ (EnforceSCT co = true → b = true)
      ∧ (b = true → ∃ chain rest, chains = chain :: rest ∧ VerifyEmbeddedSCT chain = Ok ()))
      as (-> & Hb1 & Hb2).
    { destruct (EnforceSCT co), b; cbn in H; try done; try (go_inv; naive_solver);
        destruct chains as [|ch rest]; try done; go_inv; destruct x; naive_solver. }
    split; try done; [|by left]. exists chains. split; [done|]. intros _. exists b. naive_solver.
  - apply bind_Ok in H as ([] & Hm & [= ->]). apply match_identities_Ok in Hm.
    split; try done; [|by right; rewrite Eids]. exists chains. rewrite Eids. by split.
Qed.

Lemma sig_verifier_Ok missing sig co co' v :
  sig_verifier missing sig co = (co', Ok v) →
  authenticated co sig v ∧ (∃ p, co' = set_IntermediateCerts p co).
Proof.
  unfold sig_verifier, authenticated. destruct (SigVerifier co) as [v'|].
  { intros [= <- <-]. split; [by left|]. exists (IntermediateCerts co). by destruct co. }
  unfold cert_verifier. intros H. M_inv.
  match goal with H : Cert sig = Ok ?c |- _ => destruct c as [cert|]; go_inv end.
  split; [|eauto]. right. split; [done|]. eexists _, _. split; [done|]. split; [done|].
  match goal with H : ValidateAndUnpackCert _ _ = _ |- _ =>
    apply ValidateAndUnpackCert_trusted in H as [???[]?] end; split; by eauto.
Qed.

Lemma compareSigs_Ok body sig u :
  compareSigs body sig = Ok u →
  ∃ b64, Base64Signature sig = Ok b64 ∧ (b64 = "" ∨ bundleSig body = Ok "" ∨ bundleSig body = Ok b64).
Proof.
  unfold compareSigs. intros H. go_inv. eexists. split; [done|].
  destruct (_ =?s "") eqn:E; [left; by apply str_eqb_eq|]. go_inv. right.
  destruct (x0 =?s "") eqn:E2; [left; apply str_eqb_eq in E2; by subst|].
  go_inv. apply str_eqb_eq in H1. subst. by right.
Qed.

Lemma VerifyBundle_true sig : VerifyBundle sig = Ok true → bundle_proof sig.
Proof.
  unfold VerifyBundle, bundle_proof. intros H. go_inv. destruct x as [b|]; [|done].
  go_inv. rewrite as_string_Ok in *.
  match goal with H : GetRekorPubs = Ok ?p |- _ => pose proof (λ i k, GetRekorPubs_spec p i k H) as Hp end.
  match goal with H : context [?m !! rp_LogID ?p] |- _ => destruct (m !! rp_LogID p) as [k|] eqn:Ek end;
    [|done].
  destruct (Hp _ _ Ek) as [Hk Hid]. go_inv.
  match goal with H : compareSigs _ _ = _ |- _ => apply compareSigs_Ok in H as (b64 & Hb64 & Hcmp) end.
  match goal with H : VerifySET _ _ _ = Ok ?u |- _ => destruct u end.
  eexists _, _, _, b64. do 7 (split; [eassumption|]).
  match goal with H : Cert sig = Ok ?c |- _ => destruct c as [cert|]; [right|by left] end.
  go_inv. match goal with H : CheckExpiry _ _ = Ok ?u |- _ => destruct u; apply CheckExpiry_Ok in H end.
  eexists _, _. do 3 (split; [done|]). rewrite Hb64 in *. go_inv.
  destruct (bundleHash _ _) as [[alg bh]|e|]; cbn in *; [| |done].
  - destruct (alg =?s "sha256") eqn:E1; [|done]. destruct (bh =?s _) eqn:E2; [|done].
    apply str_eqb_eq in E1, E2. by subst.
  - done.
Qed.

Lemma tlogValidateCertificate_Ok rc sig :
  tlogValidateCertificate rc sig = Ok () → log_proof rc sig.
Proof.
  unfold tlogValidateCertificate, log_proof. intros H. go_inv.
  match goal with H : Cert sig = Ok ?c |- _ => destruct c as [cert|]; go_inv end.
  match goal with H : CheckExpiry _ _ = _ |- _ => apply CheckExpiry_Ok in H end.
  match goal with H : VerifyTLogEntry _ _ = Ok ?u |- _ => destruct u;
    apply VerifyTLogEntry_spec in H as (? & der & ? & ?) end.
  eexists _, _, _, der. naive_solver.
Qed.

(** The evidence of logging that acceptance carries, by configuration. *)
Definition logged (co : CheckOpts) (sig : Signature) (bundleVerified : bool) : Prop :=
  if bundleVerified then bundle_proof sig
  else match RekorClient co with
       | None => True
       | Some rc =>
           match SigVerifier co with
           | None => log_proof rc sig
           | Some v => ∃ pub, Verifier_PublicKey v = Ok pub ∧ tlogValidatePublicKey rc pub sig = Ok ()
           end
       end.

Lemma verify_log_Ok sig co b : verify_log sig co = Ok b → logged co sig b.
Proof.
  unfold verify_log, logged. destruct (VerifyBundle sig) as [bv|e|] eqn:E; [| |done]; cbn.
  - destruct (RekorClient co) as [rc|].
    + destruct bv; [intros [= <-]; by apply VerifyBundle_true|]. intros H. go_inv.
      destruct (SigVerifier co); go_inv; destruct x; [eauto|by apply tlogValidateCertificate_Ok].
    + intros [= ->]. destruct b; [by apply VerifyBundle_true|done].
  - destruct (RekorClient co) as [rc|]; [|done]. intros H. go_inv.
    destruct (SigVerifier co); go_inv; destruct x; [eauto|by apply tlogValidateCertificate_Ok].
Qed.

(** Acceptance of one signature for an image digest. *)
Definition Accepted (co : CheckOpts) (h : Hash) (sig : Signature) (bundleVerified : bool) : Prop :=
  (∃ v, authenticated co sig v ∧ signed_by v sig)
  ∧ check_claims sig h co = Ok () ∧ logged co sig bundleVerified.

Lemma VerifyImageSignature_accepted sig h co co' b :
  VerifyImageSignature sig h co = (co', Ok b) → Accepted co h sig b.
Proof.
  unfold VerifyImageSignature, Accepted. intros H. M_inv.
  match goal with H : sig_verifier _ _ _ = _ |- _ => apply sig_verifier_Ok in H as (Ha & p & ->) end.
  match goal with H : verifyOCISignature _ _ = _ |- _ => apply verifyOCISignature_Ok in H end.
  split; [eauto|]. split; [done|]. change (logged co sig b) with
    (logged (set_IntermediateCerts p co) sig b). by apply verify_log_Ok.
Qed.

End spec.

(** ** Sets of signatures *)

Section sets.
Context `{X : Ext, TR : TrustRoot, C : CtExt, R : Registry}.

(** A check whose verdict does not depend on the intermediate pool an earlier
    signature left in the options, and which changes nothing else. *)
Definition pool_independent {A} (f : M CheckOpts A) : Prop :=
  ∀ co p, snd (f (set_IntermediateCerts p co)) = snd (f co)
    ∧ ∃ q, fst (f (set_IntermediateCerts p co)) = set_IntermediateCerts q co.

Lemma sig_verifier_independent missing sig : pool_independent (sig_verifier missing sig).
Proof.
  intros co p. unfold sig_verifier. destruct (SigVerifier co) as [v|] eqn:E; cbn; rewrite E;
    [eauto|].
  unfold cert_verifier, mbind, M_bind, lift, modify, reads. cbn.
  destruct (Cert sig) as [[cert|]| |]; cbn; [|by eauto..].
  destruct (Chain sig) as [chain| |]; cbn; by eauto.
Qed.

(** The rest of a check reads fields that the pool does not touch. *)
Definition ignores_pool {A} (g : CheckOpts → res A) : Prop :=
  ∀ co p, g (set_IntermediateCerts p co) = g co.

Lemma check_independent {A B} (m : M CheckOpts A) (k : A → M CheckOpts unit)
    (g : CheckOpts → res B) :
  pool_independent m → (∀ a co, fst (k a co) = co) → (∀ a co co', snd (k a co) = snd (k a co')) →
  ignores_pool g → pool_independent (a ← m; k a;; reads g).
Proof.
  intros Hm Hk Hk' Hg co p. destruct (Hm co p) as [Hs (q & Hq)].
  destruct (Hm co (IntermediateCerts co)) as [_ (q' & Hq')].
  replace (set_IntermediateCerts (IntermediateCerts co) co) with co in Hq' by by destruct co.
  unfold mbind, M_bind, reads.
  destruct (m (set_IntermediateCerts p co)) as [c1 [a| |]], (m co) as [c2 [a'| |]];
    cbn in *; simplify_eq/=; try (split; [done|by eauto]).
  pose proof (Hk a' (set_IntermediateCerts q co)) as H1.
  pose proof (Hk a' (set_IntermediateCerts q' co)) as H2.
  pose proof (Hk' a' (set_IntermediateCerts q co) (set_IntermediateCerts q' co)) as H3.
  destruct (k a' (set_IntermediateCerts q co)) as [? [[]| |]],
    (k a' (set_IntermediateCerts q' co)) as [? [[]| |]]; cbn in *; simplify_eq/=;
    try (split; [by rewrite ?Hg|by eauto]).
Qed.

Lemma claims_log_ignore sig h :
  ignores_pool (λ co, _ ← check_claims sig h co; verify_log sig co).
Proof. by intros co p. Qed.

Lemma VerifyImageSignature_independent sig h : pool_independent (VerifyImageSignature sig h).
Proof.
  apply check_independent; [apply sig_verifier_independent|done|done|apply claims_log_ignore].
Qed.

Lemma verify_attestation_independent att h : pool_independent (verify_attestation att h).
Proof.
  apply check_independent; [apply sig_verifier_independent|done|done|apply claims_log_ignore].
Qed.

(** The verdict on one signature, in the options the caller gave. *)
Definition verdict (verify : Signature → M CheckOpts bool) (co : CheckOpts) (s : Signature) :
    res bool := snd (verify s co).

Definition errors_of (verify : Signature → M CheckOpts bool) (co : CheckOpts) (sl : list Signature) :
    list string :=
  omap (λ s, match verdict verify co s with Err e => Some (Error e) | _ => None end) sl.

Lemma verify_each_spec verify co sl :
  (∀ s, pool_independent (verify s)) →
  (∀ s, s ∈ sl → is_panic (verdict verify co s) = false) →
  ∀ checked bv errs p, ∃ q,
    verify_each verify sl checked bv errs (set_IntermediateCerts p co) =
    (set_IntermediateCerts q co,
     Ok (checked ++ filter (λ s, is_ok (verdict verify co s)) sl,
         bv || existsb (λ s, bool_decide (verdict verify co s = Ok true)) sl,
         errs ++ errors_of verify co sl)).
Proof.
  intros Hi. induction sl as [|s sl IH]; intros Hp checked bv errs p.
  { exists p. cbn. by rewrite !app_nil_r, orb_false_r. }
  destruct (Hi s co p) as [Hs [q Hq]]. cbn [verify_each].
  unfold mbind, M_bind, M_try.
  pose proof (Hp s ltac:(set_solver)) as Hps. unfold verdict in Hps.
  destruct (verify s (set_IntermediateCerts p co)) as [co1 r] eqn:Ev. cbn in Hs, Hq. subst co1.
  assert (Hv : verdict verify co s = r) by (unfold verdict; by rewrite <- Hs).
  unfold errors_of. cbn [existsb omap list_omap]. rewrite Hv.
  destruct r as [v|e|]; [| |by rewrite <- Hs in Hps].
  - destruct (IH (λ s' H', Hp s' ltac:(set_solver)) (checked ++ [s]) (bv || v) errs q) as [q' ->].
    exists q'. rewrite filter_cons_True by by rewrite Hv.
    rewrite <- app_assoc. cbn. do 3 f_equal. f_equal.
    rewrite <- orb_assoc. f_equal. f_equal. by destruct v.
  - destruct (IH (λ s' H', Hp s' ltac:(set_solver)) checked bv (errs ++ [Error e]) q) as [q' ->].
    exists q'. rewrite filter_cons_False by (rewrite Hv; by intros []).
    by rewrite <- app_assoc.
Qed.

(** Verifying a set is verifying each member on its own. *)
Lemma verify_set_spec what verify set sl h co :
  (∀ s, pool_independent (verify s h)) → Get set = Ok sl →
  (∀ s, s ∈ sl → is_panic (verdict (λ s, verify s h) co s) = false) →
  snd (verify_set what verify (Some set) h co) =
  match filter (λ s, is_ok (verdict (λ s, verify s h) co s)) sl with
  | [] => Err (error_New (what +:+ nl +:+ strings_Join (errors_of (λ s, verify s h) co sl) (nl +:+ " ")))
  | accepted => Ok (accepted, existsb
      (λ s, bool_decide (verdict (λ s, verify s h) co s = Ok true)) sl)
  end.
Proof.
  intros Hi Hg Hp.
  destruct (verify_each_spec (λ s, verify s h) co sl Hi Hp [] false [] (IntermediateCerts co))
    as [q Hq].
  replace (set_IntermediateCerts (IntermediateCerts co) co) with co in Hq by by destruct co.
  unfold verify_set, mbind, M_bind, lift. cbn. rewrite Hg. cbn in Hq. rewrite Hq.
  by destruct (filter _ sl).
Qed.

(** C23: verifying a set of signatures is verifying each of them on its own.
    Although the options are shared and changed from one signature to the next,
    the set's result lists, in order, exactly the signatures that are accepted
    in the options the caller passed, and reports a verified bundle when one of
    them has one; the call fails when there is none. *)
Theorem verifySignatures_correct set sl h co :
  Get set = Ok sl →
  (∀ s, s ∈ sl → is_panic (verdict (λ s, VerifyImageSignature s h) co s) = false) →
  snd (verifySignatures (Some set) h co) =
  match filter (λ s, is_ok (verdict (λ s, VerifyImageSignature s h) co s)) sl with
  | [] => Err (error_New ("no matching signatures:" +:+ nl +:+ strings_Join
            (errors_of (λ s, VerifyImageSignature s h) co sl) (nl +:+ " ")))
  | accepted => Ok (accepted, existsb
      (λ s, bool_decide (verdict (λ s, VerifyImageSignature s h) co s = Ok true)) sl)
  end.
Proof. apply verify_set_spec. intros s. apply VerifyImageSignature_independent. Qed.

Lemma verify_set_members what verify set h co co' l b :
  (∀ s, pool_independent (verify s h)) →
  verify_set what verify (Some set) h co = (co', Ok (l, b)) →
  ∃ sl, Get set = Ok sl ∧ l ≠ []
    ∧ ∀ s, s ∈ l → s ∈ sl ∧ ∃ bv, verdict (λ s, verify s h) co s = Ok bv.
Proof.
  intros Hi H. unfold verify_set in H. apply M_bind_Ok in H as (? & ? & [= <- <-] & H).
  apply M_bind_Ok in H as (? & sl & [Hg ->]%lift_Ok & H). exists sl. split; [done|].
  apply M_bind_Ok in H as (co1 & [[l' b'] errs] & He & H).
  assert (Hgen : ∀ sl checked bv errs p w r,
    verify_each (λ s, verify s h) sl checked bv errs (set_IntermediateCerts p co) = (w, Ok r) →
    ∀ s, s ∈ r.1.1 → s ∈ checked ∨ s ∈ sl ∧ ∃ bv, verdict (λ s, verify s h) co s = Ok bv).
  { clear -Hi. induction sl as [|s0 sl IH]; cbn; intros checked bv errs p w r H s Hin.
    { M_inv. by left. }
    unfold mbind, M_bind, M_try in H. destruct (Hi s0 co p) as [Hs [q Hq]].
    destruct (verify s0 h (set_IntermediateCerts p co)) as [co1 r1]. cbn in Hs, Hq. subst co1 r1.
    destruct (snd (verify s0 h co)) as [v|e|] eqn:Ev; [| |done].
    - destruct (IH _ _ _ _ _ _ H s Hin) as [Hc|[? ?]]; [|right; set_solver].
      apply elem_of_app in Hc as [Hc|Hc]; [by left|]. right. apply list_elem_of_singleton in Hc as ->.
      split; [set_solver|]. unfold verdict. rewrite Ev. eauto.
    - destruct (IH _ _ _ _ _ _ H s Hin) as [Hc|[? ?]]; [by left|right; set_solver]. }
  replace co with (set_IntermediateCerts (IntermediateCerts co) co) in He by by destruct co.
  pose proof (Hgen _ _ _ _ _ _ _ He) as Hm.
  destruct l' as [|s0 l']; M_inv. split; [done|]. intros s Hin.
  destruct (Hm s Hin) as [Hn%elem_of_nil|Hr]; done.
Qed.

(** A set changes nothing of the options but the intermediate pool. *)
Lemma verify_each_pool verify sl :
  (∀ s, pool_independent (verify s)) → ∀ checked bv errs p co w r,
  verify_each verify sl checked bv errs (set_IntermediateCerts p co) = (w, r) →
  ∃ q, w = set_IntermediateCerts q co.
Proof.
  intros Hi. induction sl as [|s sl IH]; cbn; intros checked bv errs p co w r H.
  { injection H as <- _. eauto. }
  unfold mbind, M_bind, M_try in H. destruct (Hi s co p) as [_ [q Hq]].
  destruct (verify s (set_IntermediateCerts p co)) as [co1 [v|e|]]; cbn in Hq; subst co1; eauto.
  injection H as <- _. eauto.
Qed.

Lemma verify_set_pool what verify set h co w r :
  (∀ s, pool_independent (verify s h)) → verify_set what verify set h co = (w, r) →
  ∃ q, w = set_IntermediateCerts q co.
Proof.
  intros Hi H. assert (Hid : co = set_IntermediateCerts (IntermediateCerts co) co) by by destruct co.
  unfold verify_set, mbind, M_bind, lift in H. destruct (deref set) as [s| |]; [|simplify_eq; eauto..].
  destruct (Get s) as [sl| |]; [|simplify_eq; eauto..].
  rewrite Hid in H. destruct (verify_each _ _ _ _ _ _) as [w1 r1] eqn:E.
  destruct (verify_each_pool _ _ Hi _ _ _ _ _ _ _ E) as [q ->].
  destruct r1 as [[[checked bv] errs]| |]; [destruct checked|..]; injection H as <- _; eauto.
Qed.

(** A set that holds an acceptable member is accepted with it. *)
Lemma verify_set_accepts what verify set sl new h co b :
  (∀ s, pool_independent (verify s h)) → Get set = Ok (sl ++ [new]) →
  (∀ s, s ∈ sl → is_panic (verdict (λ s, verify s h) co s) = false) →
  verdict (λ s, verify s h) co new = Ok b →
  ∃ l bv, snd (verify_set what verify (Some set) h co) = Ok (l, bv) ∧ new ∈ l.
Proof.
  intros Hi Hg Hnp Hv. rewrite (verify_set_spec what verify set (sl ++ [new]) h co Hi Hg).
  - assert (Hin : new ∈ filter (λ s, is_ok (verdict (λ s, verify s h) co s)) (sl ++ [new])).
    { apply list_elem_of_filter. rewrite Hv. split; [done|set_solver]. }
    destruct (filter _ _) as [|x xs]; [by apply elem_of_nil in Hin|]. eauto.
  - intros s [Hs| ->%list_elem_of_singleton]%elem_of_app; [by apply Hnp|by rewrite Hv].
Qed.

End sets.

(** ** The main theorems *)

Section main.
Context `{X : Ext, TR : TrustRoot, C : CtExt, R : Registry}.

(** The payload names the image and carries every wanted annotation. *)
Definition claims_image (sig : Signature) (h : Hash) (annotations : option (gmap string any)) : Prop :=
  ∃ p ss, Payload sig = Ok p ∧ json_Unmarshal_SimpleContainerImage p = Ok ss
    ∧ sci_DockerManifestDigest ss = Hash_String h
    ∧ ∀ wanted k v, annotations = Some wanted → wanted !! k = Some v →
        default any_nil (sci_Optional ss !! k) = v.

Lemma annotations_loop_true wanted have :
  annotations_loop wanted have = Ok true →
  ∀ k v, (k, v) ∈ wanted → default any_nil (have !! k) = v.
Proof.
  induction wanted as [|[k0 v0] wanted IH]; cbn; intros H k v Hin; [set_solver|]. go_inv.
  destruct x; [done|]. apply elem_of_cons in Hin as [[= -> ->]|Hin]; [|by apply IH].
  destruct (decide (default any_nil (have !! k0) = v0)) as [|Hne]; [done|exfalso].
  unfold any_neq in H. repeat case_match; go_inv;
    match goal with H : bool_decide _ = false |- _ => apply bool_decide_eq_false in H end;
    naive_solver.
Qed.

Lemma SimpleClaimVerifier_Ok sig h annotations :
  SimpleClaimVerifier sig h annotations = Ok () → claims_image sig h annotations.
Proof.
  unfold SimpleClaimVerifier, claims_image, correctAnnotations. intros H. go_inv.
  rewrite str_eqb_eq in *. eexists _, _. split; [done|]. split; [done|]. split; [done|].
  intros wanted k v -> Hk. go_inv. subst.
  eapply annotations_loop_true; [done|]. by apply elem_of_map_to_list.
Qed.

Lemma VerifyImageSignatures_spec depth reg ref co co' l b :
  ClaimVerifier co = Some SimpleClaimVerifier → SignatureRef co = "" →
  VerifyImageSignatures depth reg ref co = (co', Ok (l, b)) →
  l ≠ [] ∧ ∃ se h set stored,
    remote_SignedEntity depth reg ref (RegistryClientOpts co) = Ok se
    ∧ Entity_Digest se = Ok h ∧ Entity_Signatures se = Ok set ∧ Get set = Ok stored
    ∧ ∀ sig, sig ∈ l → sig ∈ stored ∧ claims_image sig h (co_Annotations co)
        ∧ (∃ v, authenticated co sig v ∧ signed_by v sig)
        ∧ ∃ bv, logged co sig bv.
Proof.
  intros Hcl Href H. unfold VerifyImageSignatures, getSignedEntity in H. M_inv.
  unfold require_verifier in *. M_inv. rewrite Href in *. cbn in *.
  match goal with H : Entity_Digest ?e = Ok ?d |- _ => rename e into se, d into h end.
  match goal with H : verifySignatures _ _ _ = _ |- _ =>
    apply verify_set_members in H as (stored & Hg & Hne & Hm);
      [|intros s; apply VerifyImageSignature_independent] end.
  split; [done|]. eexists se, h, _, stored. do 4 (split; [done|]). intros sig Hin.
  destruct (Hm sig Hin) as (Hst & bv & Hv). split; [done|].
  unfold verdict in Hv. destruct (VerifyImageSignature sig h co) as [co2 r] eqn:E. cbn in Hv. subst r.
  apply VerifyImageSignature_accepted in E as (Ha & Hc & Hl).
  unfold check_claims in Hc. rewrite Hcl in Hc. apply SimpleClaimVerifier_Ok in Hc. eauto.
Qed.

(** C1: what `cosign verify` promises when the signatures are read from the registry
    (no signature file is given).  When [VerifyImageSignatures] returns signatures of
    an image, checked with [SimpleClaimVerifier], there is at least one, and each of
    them is a signature stored for the image whose payload names the image's digest and
    carries the wanted annotations; it was made by the configured key, or by the key of
    a certificate that chains to the configured roots and meets the e-mail, issuer and
    identity constraints of the options, and, only when no identities are configured
    (otherwise SCTs are not looked at), whose embedded SCT is valid if it has one and
    present if SCTs are enforced; and it comes with the evidence of logging that the
    configuration asks for ([logged]). *)
Theorem VerifyImageSignatures_sound depth reg ref co co' l b :
  ClaimVerifier co = Some SimpleClaimVerifier → SignatureRef co = "" →
  VerifyImageSignatures depth reg ref co = (co', Ok (l, b)) →
  l ≠ [] ∧ ∃ se h set stored,
    remote_SignedEntity depth reg ref (RegistryClientOpts co) = Ok se
    ∧ Entity_Digest se = Ok h ∧ Entity_Signatures se = Ok set ∧ Get set = Ok stored
    ∧ ∀ sig, sig ∈ l → sig ∈ stored ∧ claims_image sig h (co_Annotations co)
        ∧ (∃ v, authenticated co sig v ∧ signed_by v sig)
        ∧ ∃ bv, logged co sig bv.
Proof. apply VerifyImageSignatures_spec. Qed.


(** The attestation is an in-toto envelope that [v] accepts. *)
Definition attested_by (v : Verifier) (att : Signature) : Prop :=
  ∃ p env dssev, Payload att = Ok p ∧ json_Unmarshal_Envelope p = Ok env
    ∧ env_PayloadType env = IntotoPayloadType
    ∧ dsse_NewEnvelopeVerifier v = Ok dssev ∧ dssev env = Ok ().

(** Its statement has the image among its subjects. *)
Definition about_image (att : Signature) (h : Hash) : Prop :=
  ∃ p env st_bytes st subj dgst, Payload att = Ok p ∧ json_Unmarshal_Envelope p = Ok env
    ∧ base64_DecodeString (env_Payload env) = Ok st_bytes
    ∧ json_Unmarshal_Statement st_bytes = Ok st
    ∧ subj ∈ st_Subject st ∧ subj_Digest subj !! "sha256" = Some dgst
    ∧ Hash_String h = "sha256:" +:+ dgst.

Lemma IntotoSubjectClaimVerifier_Ok att h a :
  IntotoSubjectClaimVerifier att h a = Ok () → about_image att h.
Proof.
  unfold IntotoSubjectClaimVerifier, about_image. intros H. go_inv.
  match goal with H : existsb _ _ = true |- _ => apply existsb_exists in H as (subj & Hin & Hd) end.
  apply list_elem_of_In in Hin. destruct (subj_Digest subj !! "sha256") as [d|] eqn:E; [|done].
  apply str_eqb_eq in Hd. eexists _, _, _, _, subj, d. naive_solver.
Qed.

Lemma verify_attestation_Ok att h co co' b :
  verify_attestation att h co = (co', Ok b) →
  (∃ v, authenticated co att v ∧ attested_by v att)
  ∧ check_claims att h co = Ok () ∧ logged co att b.
Proof.
  unfold verify_attestation. intros H. M_inv.
  match goal with H : sig_verifier _ _ _ = _ |- _ => apply sig_verifier_Ok in H as (Ha & p & ->) end.
  match goal with H : verifyOCIAttestation ?v _ = _ |- _ => unfold verifyOCIAttestation in H end.
  go_inv. rewrite str_eqb_eq in *.
  split; [eexists; split; [done|]; eexists _, _, _; naive_solver|]. split; [done|].
  change (logged co att b) with (logged (set_IntermediateCerts p co) att b). by apply verify_log_Ok.
Qed.

Lemma VerifyImageAttestations_spec depth reg ref co co' l b :
  ClaimVerifier co = Some IntotoSubjectClaimVerifier →
  VerifyImageAttestations depth reg ref co = (co', Ok (l, b)) →
  l ≠ [] ∧ ∃ se h set stored,
    remote_SignedEntity depth reg ref (RegistryClientOpts co) = Ok se
    ∧ Entity_Digest se = Ok h ∧ Entity_Attestations se = Ok set ∧ Get set = Ok stored
    ∧ ∀ att, att ∈ l → att ∈ stored ∧ about_image att h
        ∧ (∃ v, authenticated co att v ∧ attested_by v att)
        ∧ ∃ bv, logged co att bv.
Proof.
  intros Hcl H. unfold VerifyImageAttestations, getSignedEntity in H. M_inv.
  unfold require_verifier in *. M_inv. cbn in *.
  match goal with H : Entity_Digest ?e = Ok ?d |- _ => rename e into se, d into h end.
  match goal with H : verifyImageAttestations _ _ _ = _ |- _ =>
    apply verify_set_members in H as (stored & Hg & Hne & Hm);
      [|intros s; apply verify_attestation_independent] end.
  split; [done|]. eexists se, h, _, stored. do 4 (split; [done|]). intros att Hin.
  destruct (Hm att Hin) as (Hst & bv & Hv). split; [done|].
  unfold verdict in Hv. destruct (verify_attestation att h co) as [co2 r] eqn:E. cbn in Hv. subst r.
  apply verify_attestation_Ok in E as (Ha & Hc & Hl).
  unfold check_claims in Hc. rewrite Hcl in Hc. apply IntotoSubjectClaimVerifier_Ok in Hc. eauto.
Qed.

(** C3: what `cosign verify-attestation` promises of each attestation that
    [VerifyImageAttestations] returns, checked with
    [IntotoSubjectClaimVerifier]: it is stored for the image, its envelope is
    of the in-toto type and verifies under the configured key or a trusted
    certificate's key, its statement has the image's digest among its
    subjects, and it comes with the evidence of logging the options ask for. *)
Theorem VerifyImageAttestations_sound depth reg ref co co' l b :
  ClaimVerifier co = Some IntotoSubjectClaimVerifier →
  VerifyImageAttestations depth reg ref co = (co', Ok (l, b)) →
  l ≠ [] ∧ ∃ se h set stored,
    remote_SignedEntity depth reg ref (RegistryClientOpts co) = Ok se
    ∧ Entity_Digest se = Ok h ∧ Entity_Attestations se = Ok set ∧ Get set = Ok stored
    ∧ ∀ att, att ∈ l → att ∈ stored ∧ about_image att h
        ∧ (∃ v, authenticated co att v ∧ attested_by v att)
        ∧ ∃ bv, logged co att bv.
Proof. apply VerifyImageAttestations_spec. Qed.



Definition set_EnforceSCT (b : bool) (co : CheckOpts) : CheckOpts :=
  mkCheckOpts (RegistryClientOpts co) (co_Annotations co) (ClaimVerifier co) (RekorClient co)
    (SigVerifier co) (RootCerts co) (IntermediateCerts co) (CertEmail co) (CertOidcIssuer co) b
    (SignatureRef co) (Identities co).

(** With identities given, the SCT requirement has no effect: the outcome
    of [ValidateAndUnpackCert] is the same whether EnforceSCT is set or not,
    and embedded SCTs are not verified. *)
Theorem identities_skip_SCT cert co enforce :
  Identities co ≠ [] →
  ValidateAndUnpackCert cert (set_EnforceSCT enforce co) = ValidateAndUnpackCert cert co
  ∧ ∀ v, ValidateAndUnpackCert cert co = Ok v →
      match_identities cert (Identities co) = Ok ().
Proof.
  intros Hi. unfold ValidateAndUnpackCert. cbn.
  destruct (Identities co) as [|i ids]; [done|]. split; [done|].
  intros v H. do 4 apply bind_Ok in H as (? & _ & H). apply bind_Ok in H as ([] & H & _). done.
Qed.

(** Verifying a local image that was saved without signatures does not
    return an error: the layout gives a nil set, whose [Get] is called. *)
Theorem local_without_signatures_panics reg path co se h :
  RootCerts co ≠ None → layout_FromPath reg path = Ok se → layout_digest se = Ok h →
  layout_Signatures se = Ok None →
  VerifyLocalImageSignatures reg path co = (co, Panic "nil dereference").
Proof.
  intros Hr Hf Hd Hs. unfold VerifyLocalImageSignatures, require_verifier, no_verifier, reads.
  unfold mbind, M_bind, lift. destruct (RootCerts co); [|done]. cbn. by rewrite Hf, Hd, Hs.
Qed.

End main.

(** ** Witnesses *)

(** An image of digest sha256:d in a registry, signed with the key "k". *)
Definition toy_signed : Signature :=
  staticLayer "sha256:d" (base64_EncodeToString "k:sha256:d") (static.applied []).

Definition toy_ref : Reference := name_Tag "repo" "latest".
Definition toy_reg : Reg (Registry := toy_Registry) := λ r,
  if decide (r = toy_ref) then Some []
  else if decide (r = name_Tag "repo" "sha256-d.sig") then
    Some [(layer_of toy_signed,
           {[SignatureAnnotationKey := base64_EncodeToString "k:sha256:d"]})]
  else if decide (r = name_Tag "repo" "sha256-d.att") then
    Some [(layer_of (staticLayer (base64_EncodeToString "d") "" (static.applied [])), ∅)]
  else None.

Definition toy_co (cv : option (Signature → Hash → option (gmap string any) → res unit)) :
    CheckOpts (R := toy_Registry) :=
  mkCheckOpts (R := toy_Registry) [] None cv None (Some (toy_verifier (toy_key "k"))) None None "" ""
    false "" [].

Lemma VerifyImageSignatures_sound_witness :
  ∃ co' l b, VerifyImageSignatures (X := toy) (TR := toy_TrustRoot) (C := toy_Ct)
      (R := toy_Registry) 1 toy_reg toy_ref
      (toy_co (Some (SimpleClaimVerifier (X := toy)))) = (co', Ok (l, b)) ∧ l ≠ [].
Proof.
  destruct (ok_run (VerifyImageSignatures (X := toy) (TR := toy_TrustRoot) (C := toy_Ct)
    (R := toy_Registry) 1 toy_reg toy_ref (toy_co (Some (SimpleClaimVerifier (X := toy))))))
    as (co' & [l b] & E); [vm_compute; reflexivity|].
  exists co', l, b. split; [exact E|].
  exact (proj1 (VerifyImageSignatures_sound (X := toy) (TR := toy_TrustRoot) (C := toy_Ct)
    (R := toy_Registry) 1 toy_reg toy_ref (toy_co (Some (SimpleClaimVerifier (X := toy)))) co' l b
    eq_refl eq_refl E)).
Defined.

Lemma VerifyImageAttestations_sound_witness :
  ∃ co' l b, VerifyImageAttestations (X := toy) (TR := toy_TrustRoot) (C := toy_Ct)
      (R := toy_Registry) 1 toy_reg toy_ref
      (toy_co (Some (IntotoSubjectClaimVerifier (X := toy)))) = (co', Ok (l, b)) ∧ l ≠ [].
Proof.
  destruct (ok_run (VerifyImageAttestations (X := toy) (TR := toy_TrustRoot) (C := toy_Ct)
    (R := toy_Registry) 1 toy_reg toy_ref (toy_co (Some (IntotoSubjectClaimVerifier (X := toy))))))
    as (co' & [l b] & E); [vm_compute; reflexivity|].
  exists co', l, b. split; [exact E|].
  exact (proj1 (VerifyImageAttestations_sound (X := toy) (TR := toy_TrustRoot) (C := toy_Ct)
    (R := toy_Registry) 1 toy_reg toy_ref
    (toy_co (Some (IntotoSubjectClaimVerifier (X := toy)))) co' l b eq_refl E)).
Defined.

Lemma verifySignatures_correct_witness :
  snd (verifySignatures (X := toy) (TR := toy_TrustRoot) (C := toy_Ct) (R := toy_Registry)
    (Some (fakeOCISignatures [toy_sig; toy_signed])) (mkHash "sha256" "d") (toy_co None))
  = Ok ([toy_signed], false).
Proof.
  rewrite (verifySignatures_correct (X := toy) (TR := toy_TrustRoot) (C := toy_Ct)
    (R := toy_Registry) (fakeOCISignatures [toy_sig; toy_signed]) [toy_sig; toy_signed]
    (mkHash "sha256" "d") (toy_co None) eq_refl).
  - vm_compute. reflexivity.
  - intros s [->|[->|Hn%elem_of_nil]%elem_of_cons]%elem_of_cons; [vm_compute; reflexivity..|done].
Defined.



(** The certificate "cert" is not restricted; its issuer is. *)
Definition toy_id_co : CheckOpts (R := toy_Registry) :=
  mkCheckOpts (R := toy_Registry) [] None None None None (Some [toy_cert "root"]) None "" "" true ""
    [mkIdentity "https://issuer" ""].

Lemma identities_skip_SCT_witness :
  ValidateAndUnpackCert (X := toy) (TR := toy_TrustRoot) (C := toy_Ct) (R := toy_Registry)
    (toy_cert "cert") (set_EnforceSCT false toy_id_co)
  = ValidateAndUnpackCert (X := toy) (TR := toy_TrustRoot) (C := toy_Ct) (R := toy_Registry)
      (toy_cert "cert") toy_id_co.
Proof.
  exact (proj1 (identities_skip_SCT (X := toy) (TR := toy_TrustRoot) (C := toy_Ct)
    (R := toy_Registry) (toy_cert "cert") toy_id_co false ltac:(discriminate))).
Defined.

Lemma local_without_signatures_panics_witness :
  VerifyLocalImageSignatures (X := toy) (TR := toy_TrustRoot) (C := toy_Ct) (R := toy_Registry)
    toy_reg "path" toy_id_co = (toy_id_co, Panic "nil dereference").
Proof.
  apply (local_without_signatures_panics (X := toy) (TR := toy_TrustRoot) (C := toy_Ct)
    (R := toy_Registry) toy_reg "path" toy_id_co () (mkHash "sha256" "d"));
    [discriminate|reflexivity|vm_compute; reflexivity|vm_compute; reflexivity].
Defined.

(** A log entry without a proof of inclusion and without a timestamp. *)
Definition toy_unproved : LogEntryAnon :=
  mkLogEntryAnon (any_string (base64_EncodeToString toy_body)) None None None None.
Definition toy_lying_rekor : Rekor := mkRekor
  (λ _, Err (error_New "unavailable")) (λ _, Ok []) (λ _, Ok [ [(toy_uuid, toy_unproved)] ])
  (λ _, Ok []) (Ok "rekor").

Definition toy_key_co : CheckOpts (R := toy_Registry) :=
  mkCheckOpts (R := toy_Registry) [] None None (Some toy_lying_rekor)
    (Some (toy_verifier (toy_key "k"))) None None "" "" false "" [].

(** For a signature made with a key, finding an entry in the log is enough:
    the entry's proof of inclusion and timestamp are not verified.  The server
    below answers with an entry that [VerifyTLogEntry] rejects, and the
    signature is accepted. *)
Theorem key_log_entry_unverified :
  snd (VerifyImageSignature (X := toy) (TR := toy_TrustRoot) (C := toy_Ct) (R := toy_Registry)
    toy_signed (mkHash "sha256" "d") toy_key_co) = Ok false
  ∧ FindTlogEntry (X := toy) toy_lying_rekor (base64_EncodeToString "k:sha256:d") "sha256:d" "k"
    = Ok toy_unproved
  ∧ VerifyTLogEntry (X := toy) (TR := toy_TrustRoot) toy_lying_rekor toy_unproved
    = Err (error_New "inclusion proof not provided").
Proof. split; [|split]; vm_compute; reflexivity. Qed.
