(* ===== verification/Keys.v ===== *)
(** * Keys

    pkg/cosign/keys.go (generating, importing, encrypting and loading key
    pairs), pkg/signature/keys.go (key references), pkg/cosign/kubernetes
    (key pairs in secrets), pkg/cosign/git (key pairs in variables of GitLab and
    secrets of GitHub) and the commands generate-key-pair and import-key-pair of
    cmd/cosign/cli.

    The state is the secrets of the cluster, what the git hosting providers store,
    and the files the commands write.  Parsing and encryption of private keys, KMS
    and the answers of the servers are parameters; the keys of tokens are those of [Pkcs11Key] and [Piv]. *)
From S2P Require Import Prelude GoStd GoUrl External Concrete Pkcs11 Pkcs11Key Piv.
From S2P Require Import OciSignature OciSignatures OciEntity.
From S2P Require Import OciRemote Tuf Tlog Ctl Verify.

Inductive PrivateKey :=
  | rsa_PrivateKey (d : bytes)
  | ecdsa_PrivateKey (d : bytes)
  | ed25519_PrivateKey (d : bytes)
  | other_PrivateKey (d : bytes).
#[global] Instance PrivateKey_eq_dec : EqDecision PrivateKey.
Proof. solve_decision. Defined.

(** [cosign.PassFunc]: nil, or the password, asked for twice or once. *)
Definition PassFunc := option (bool → res bytes).

Class KeyExt := {
  ecdsa_GenerateKey : res PrivateKey;
  priv_Public : PrivateKey → PublicKey;
  x509_MarshalPKCS8PrivateKey : PrivateKey → res bytes;
  x509_ParsePKCS8PrivateKey : bytes → res PrivateKey;
  x509_ParsePKCS1PrivateKey : bytes → res bytes;        (* an RSA key *)
  x509_ParseECPrivateKey : bytes → res bytes;           (* an ECDSA key *)
  cryptoutils_ValidatePubKey : PublicKey → res unit;
  encrypted_Encrypt : bytes → bytes → res bytes;        (* plaintext, password *)
  encrypted_Decrypt : bytes → bytes → res bytes;
  pem_EncodeToMemory : string → bytes → bytes;
  (* LoadRSAPKCS1v15SignerVerifier, LoadECDSASignerVerifier, LoadED25519SignerVerifier *)
  signature_LoadSignerVerifier : PrivateKey → res SignerVerifier;
  signature_LoadECDSAVerifier : bytes → res Verifier;
  kms_Get : string → res SignerVerifier;
  key_Pkcs11 :: Pkcs11Ext;
  key_Piv :: PivExt;
  key_Device : Device;                                  (* the attached tokens *)
  os_LookupEnv : string → option string;
  gitlab_NewClient : string → option string → res unit; (* token, base URL *)
  (* the outcome of a request: an error, or the status of the response and its body *)
  gitlab_api_CreateVariable : string → string → res (Z * bytes);
  gitlab_api_GetVariable : string → string → res (Z * bytes);
  github_api_GetRepoPublicKey : string → string → res (string * (Z * bytes)); (* the key's identifier *)
  github_api_CreateOrUpdateRepoSecret : string → string → string → res (Z * bytes);
  k8s_Client : res unit;
  k8s_ServerVersion : res (Z * Z);
  k8s_SecretGet : string → string → res unit;           (* errors other than NotFound *)
  k8s_SecretWrite : string → string → res unit;
  os_Stat_IsDir : string → res bool;
  WriteFile : string → res unit }.

(** A secret: its data and whether it is immutable. *)
Record KeyWorld := mkKeyWorld {
  kw_Secrets : gmap (string * string) (gmap string bytes * bool);
  kw_Files : gmap string bytes;
  (* GitLab: the variables of a project *)
  kw_Variables : gmap (string * string) string;
  (* GitHub: the secrets of a repository (owner, name), each with the key's identifier *)
  kw_RepoSecrets : gmap (string * string * string) (string * string) }.

Definition set_Files (fs : gmap string bytes) (w : KeyWorld) : KeyWorld :=
  mkKeyWorld (kw_Secrets w) fs (kw_Variables w) (kw_RepoSecrets w).
(** Nothing but files. *)
Definition files (fs : gmap string bytes) : KeyWorld := mkKeyWorld ∅ fs ∅ ∅.

Section keys.
Context `{X : Ext, K : KeyExt}.

(** ** Files *)

Definition read_file (path : string) (w : KeyWorld) : res bytes :=
  match kw_Files w !! path with Some b => Ok b | None => os_ReadFile path end.

(** blob.LoadFileOrURL *)
Definition load_file_or_url (fileRef : string) (w : KeyWorld) : res bytes :=
  if strings_HasPrefix fileRef "http://" || strings_HasPrefix fileRef "https://"
  then http_Get fileRef else read_file (filepath_Clean fileRef) w.

Definition write_file (path : string) (b : bytes) : M KeyWorld unit :=
  lift (WriteFile path);;
  modify (λ w, set_Files (<[path := b]> (kw_Files w)) w).

(** The result of [os.Stat] is used even when its error is another one. *)
Definition FileExists (path : string) (w : KeyWorld) : res bool :=
  match kw_Files w !! path with
  | Some _ => Ok true
  | None =>
      match os_Stat_IsDir path with
      | Ok isDir => Ok (negb isDir)
      | Err e => if os_IsNotExist e then Ok false else Panic "nil dereference"
      | Panic why => Panic why
      end
  end.

(** ** pkg/cosign/keys.go *)

Definition CosignPrivateKeyPemType := "ENCRYPTED COSIGN PRIVATE KEY".
Definition RSAPrivateKeyPemType := "RSA PRIVATE KEY".
Definition ECPrivateKeyPemType := "EC PRIVATE KEY".
Definition PrivateKeyPemType := "PRIVATE KEY".

Record KeysBytes := mkKeysBytes { PrivateBytes : bytes; PublicBytes : bytes; Password : bytes }.

Definition GeneratePrivateKey : res PrivateKey := ecdsa_GenerateKey.

Definition call_pass (pf : PassFunc) (confirm : bool) : res bytes :=
  match pf with None => Ok "" | Some f => f confirm end.

Definition marshalKeyPair (private : PrivateKey) (public : PublicKey) (pf : PassFunc) :
    res KeysBytes :=
  x509Encoded ← wrap "x509 encoding private key" (x509_MarshalPKCS8PrivateKey private);
  password ← call_pass pf true;
  encBytes ← encrypted_Encrypt x509Encoded password;
  let privBytes := pem_EncodeToMemory CosignPrivateKeyPemType encBytes in
  pubBytes ← cryptoutils_MarshalPublicKeyToPEM public;
  Ok (mkKeysBytes privBytes pubBytes password).

Definition GenerateKeyPair (pf : PassFunc) : res KeysBytes :=
  priv ← GeneratePrivateKey; marshalKeyPair priv (priv_Public priv) pf.

(** A parse error is replaced by a message of its own. *)
Definition replace_err {A} (msg : string) (m : res A) : res A := map_err (λ _, error_New msg) m.

Definition import_pkcs8 (pk : PrivateKey) : res PrivateKey :=
  match pk with
  | rsa_PrivateKey _ =>
      wrap "error validating rsa key" (cryptoutils_ValidatePubKey (priv_Public pk));; Ok pk
  | ecdsa_PrivateKey _ =>
      wrap "error validating ecdsa key" (cryptoutils_ValidatePubKey (priv_Public pk));; Ok pk
  | ed25519_PrivateKey _ =>
      wrap "error validating ed25519 key" (cryptoutils_ValidatePubKey (priv_Public pk));; Ok pk
  | other_PrivateKey _ => Err (error_New "unexpected private key")
  end.

Definition import_private (typ : string) (b : bytes) : res PrivateKey :=
  if typ =?s RSAPrivateKeyPemType then
    d ← replace_err "error parsing rsa private key" (x509_ParsePKCS1PrivateKey b);
    let pk := rsa_PrivateKey d in
    wrap "error validating rsa key" (cryptoutils_ValidatePubKey (priv_Public pk));; Ok pk
  else if typ =?s ECPrivateKeyPemType then
    d ← replace_err "error parsing ecdsa private key" (x509_ParseECPrivateKey b);
    let pk := ecdsa_PrivateKey d in
    wrap "error validating ecdsa key" (cryptoutils_ValidatePubKey (priv_Public pk));; Ok pk
  else if typ =?s PrivateKeyPemType then
    pk ← replace_err "error parsing pkcs #8 private key" (x509_ParsePKCS8PrivateKey b);
    import_pkcs8 pk
  else Err (error_New "unsupported private key").

Definition ImportKeyPair (keyPath : string) (pf : PassFunc) (w : KeyWorld) : res KeysBytes :=
  kb ← read_file (filepath_Clean keyPath) w;
  match pem_Decode kb with
  | None => Err (error_New "invalid pem block")
  | Some ((typ, b), _) =>
      pk ← import_private typ b; marshalKeyPair pk (priv_Public pk) pf
  end.

Definition LoadPrivateKey (key pass : bytes) : res SignerVerifier :=
  match pem_Decode key with
  | None => Err (error_New "invalid pem block")
  | Some ((typ, b), _) =>
      if negb (typ =?s CosignPrivateKeyPemType)
      then Err (error_New ("unsupported pem type: " +:+ typ))
      else
        x509Encoded ← wrap "decrypt" (encrypted_Decrypt b pass);
        pk ← wrap "parsing private key" (x509_ParsePKCS8PrivateKey x509Encoded);
        match pk with
        | other_PrivateKey _ => Err (error_New "unsupported key type")
        | _ => signature_LoadSignerVerifier pk
        end
  end.

(** ** pkg/cosign/kubernetes/secret.go *)

Definition KeyReference := "k8s://".

Definition parseRef (k8sRef : string) : res (string * string) :=
  match strings_Split (strings_TrimPrefix k8sRef KeyReference) "/"%char with
  | [namespace; name] => Ok (namespace, name)
  | _ => Err (error_New
      "kubernetes specification should be in the format k8s://<namespace>/<secret>")
  end.

Definition secrets_Get (namespace name : string) (w : KeyWorld) :
    res (gmap string bytes * bool) :=
  k8s_SecretGet namespace name;;
  match kw_Secrets w !! (namespace, name) with
  | Some s => Ok s
  | None => Err (error_Kind kind_k8sNotFound "secrets not found")
  end.

Definition GetKeyPairSecret (k8sRef : string) (w : KeyWorld) : res (gmap string bytes) :=
  '(namespace, name) ← parseRef k8sRef;
  wrap "new for config" k8s_Client;;
  s ← wrap "checking if secret exists" (secrets_Get namespace name w);
  Ok (fst s).

Definition checkImmutableSecretSupported : res bool :=
  '(major, minor) ← k8s_ServerVersion; Ok ((1 <=? major)%Z && (21 <=? minor)%Z).

Definition secret (keys : KeysBytes) (data : gmap string bytes) (immutable : bool) :
    gmap string bytes * bool :=
  (<["cosign.password" := Password keys]>
     (<["cosign.pub" := PublicBytes keys]> (<["cosign.key" := PrivateBytes keys]> data)),
   immutable).

Definition secrets_Put (namespace name : string) (s : gmap string bytes * bool) : M KeyWorld unit :=
  lift (k8s_SecretWrite namespace name);;
  modify (λ w, mkKeyWorld (<[(namespace, name) := s]> (kw_Secrets w)) (kw_Files w) (kw_Variables w)
                 (kw_RepoSecrets w)).

Definition KeyPairSecret (k8sRef : string) (pf : PassFunc) : M KeyWorld unit :=
  '(namespace, name) ← lift (parseRef k8sRef);
  keys ← lift (wrap "generating key pair" (GenerateKeyPair pf));
  lift (wrap "new for config" k8s_Client);;
  immutable ← lift (wrap "check immutable" checkImmutableSecretSupported);
  existing ← M_try (reads (secrets_Get namespace name));
  match existing with
  | Ok s =>
      M_wrap ("updating secret " +:+ name +:+ " in ns " +:+ namespace)
        (secrets_Put namespace name (secret keys (fst s) immutable))
  | Err err =>
      if apierrs_IsNotFound err then
        M_wrap ("creating secret " +:+ name +:+ " in ns " +:+ namespace)
          (secrets_Put namespace name (secret keys ∅ immutable))
      else lift (wrap "checking if secret exists" (Err err))
  | Panic why => lift (Panic why)
  end;;
  write_file "cosign.pub" (PublicBytes keys).

(** ** pkg/cosign/git *)

(** The interface of a provider. *)
Record Git := mkGit {
  PutSecret : string → PassFunc → M KeyWorld unit;
  GetSecret : string → string → KeyWorld → res string }.

(** The check of a response, as it is written. *)
Definition bad_status (code : Z) : bool := (code <? 200)%Z && (300 <=? code)%Z.
Definition check_response (resp : Z * bytes) : res unit :=
  if bad_status (fst resp) then Err (error_New (snd resp)) else Ok ().

Definition gitlab_ReferenceScheme := "gitlab".
Definition github_ReferenceScheme := "github".

Definition gitlab_client : res unit :=
  match os_LookupEnv "GITLAB_TOKEN" with
  | None => Err (error_New ("could not find " +:+ quoted "GITLAB_TOKEN"))
  | Some token => wrap "could not create GitLab client" (gitlab_NewClient token (os_LookupEnv "GITLAB_HOST"))
  end.

Definition gitlab_CreateVariable (ref key value : string) : M KeyWorld unit :=
  resp ← lift (wrap ("could not create " +:+ quoted key +:+ " variable") (gitlab_api_CreateVariable ref key));
  modify (λ w, mkKeyWorld (kw_Secrets w) (kw_Files w) (<[(ref, key) := value]> (kw_Variables w))
                 (kw_RepoSecrets w));;
  lift (check_response resp).

Definition gitlab_PutSecret (ref : string) (pf : PassFunc) : M KeyWorld unit :=
  keys ← lift (wrap "generating key pair" (GenerateKeyPair pf));
  lift gitlab_client;;
  gitlab_CreateVariable ref "COSIGN_PASSWORD" (Password keys);;
  gitlab_CreateVariable ref "COSIGN_PRIVATE_KEY" (PrivateBytes keys);;
  gitlab_CreateVariable ref "COSIGN_PUBLIC_KEY" (PublicBytes keys);;
  write_file "cosign.pub" (PublicBytes keys).

(** A variable that does not exist is an error of the request. *)
Definition gitlab_GetSecret (ref key : string) (w : KeyWorld) : res string :=
  gitlab_client;;
  let msg := "could not retrieve " +:+ quoted "COSIGN_PUBLIC_KEY" +:+ " variable" in
  resp ← wrap msg (gitlab_api_GetVariable ref key);
  value ← wrap msg (match kw_Variables w !! (ref, key) with
                    | Some value => Ok value
                    | None => Err (error_New "404 Variable Not Found")
                    end);
  check_response resp;;
  Ok value.

Definition github_CreateOrUpdateRepoSecret (owner repo keyID name value : string) : M KeyWorld unit :=
  resp ← lift (wrap ("could not create " +:+ quoted name +:+ " github actions secret")
                (github_api_CreateOrUpdateRepoSecret owner repo name));
  modify (λ w, mkKeyWorld (kw_Secrets w) (kw_Files w) (kw_Variables w)
                 (<[(owner, repo, name) := (keyID, value)]> (kw_RepoSecrets w)));;
  lift (check_response resp).

(** The value that is called encrypted is the base64 form of the secret. *)
Definition github_PutSecret (ref : string) (pf : PassFunc) : M KeyWorld unit :=
  keys ← lift (wrap "generating key pair" (GenerateKeyPair pf));
  match os_LookupEnv "GITHUB_TOKEN" with
  | None => lift (Err (error_New ("could not find " +:+ quoted "GITHUB_TOKEN" +:+ " env variable")))
  | Some _ =>
      match strings_Split ref "/"%char with
      | owner :: repo :: _ =>
          '(keyID, resp) ← lift (wrap "could not get repository public key"
                                   (github_api_GetRepoPublicKey owner repo));
          lift (check_response resp);;
          github_CreateOrUpdateRepoSecret owner repo keyID "COSIGN_PASSWORD"
            (base64_EncodeToString (Password keys));;
          github_CreateOrUpdateRepoSecret owner repo keyID "COSIGN_PRIVATE_KEY"
            (base64_EncodeToString (PrivateBytes keys));;
          github_CreateOrUpdateRepoSecret owner repo keyID "COSIGN_PUBLIC_KEY"
            (base64_EncodeToString (PublicBytes keys));;
          write_file "cosign.pub" (PublicBytes keys)
      | _ => lift (Err (error_New "could not parse scheme, use github://<owner>/<repo> format"))
      end
  end.

(** Not implemented. *)
Definition github_GetSecret (ref key : string) (w : KeyWorld) : res string := Ok "".

(** providerMap; a provider that is not in it is a nil interface. *)
Definition GetProvider (provider : string) : option Git :=
  if provider =?s github_ReferenceScheme then Some (mkGit github_PutSecret github_GetSecret)
  else if provider =?s gitlab_ReferenceScheme then Some (mkGit gitlab_PutSecret gitlab_GetSecret)
  else None.

(** ** pkg/signature/keys.go *)

Definition pkcs11_ReferenceScheme := "pkcs11:".

Definition PublicKeyPem (key : Verifier) : res bytes :=
  pub ← Verifier_PublicKey key; cryptoutils_MarshalPublicKeyToPEM pub.

Definition VerifierForKeyRef (keyRef : string) (w : KeyWorld) : res Verifier :=
  match kms_Get keyRef with
  | Ok kmsKey => Ok (sv_Verifier kmsKey)
  | Panic why => Panic why
  | Err _ =>
      raw ← load_file_or_url keyRef w;
      pubKey ← wrap "pem to public key" (cryptoutils_UnmarshalPEMToPublicKey raw);
      signature_LoadVerifier pubKey
  end.

Definition LoadPublicKey (keyRef : string) (w : KeyWorld) : res Verifier := VerifierForKeyRef keyRef w.

Definition loadKey (keyPath : string) (pf : PassFunc) (w : KeyWorld) : res SignerVerifier :=
  kb ← read_file (filepath_Clean keyPath) w;
  pass ← call_pass pf false;
  LoadPrivateKey kb pass.

Definition LoadPublicKeyRaw (raw : bytes) : res Verifier :=
  ed ← wrap "pem to ecdsa" (PemToECDSAKey raw); signature_LoadECDSAVerifier ed.

(** The provider and the reference of <scheme>://<ref>. *)
Definition git_secret (keyRef : string) (w : KeyWorld) : res (string → res string) :=
  match strings_SplitSep keyRef "://" with
  | provider :: targetRef :: _ =>
      git ← deref (GetProvider provider); Ok (λ key, GetSecret git targetRef key w)
  | _ => Err (error_New "could not parse scheme, use <scheme>://<ref> format")
  end.

(** A reference with a scheme is a KMS key, one without is a file. *)
Definition kms_or_file (keyRef : string) (pf : PassFunc) (w : KeyWorld) : res SignerVerifier :=
  if strings_Contains keyRef "://"
  then map_err (λ e, error_Wrapped ("kms get: " +:+ Error e) e) (kms_Get keyRef)
  else loadKey keyRef pf w.

Definition SignerVerifierFromKeyRef (keyRef : string) (pf : PassFunc) (w : KeyWorld) :
    res SignerVerifier :=
  if strings_HasPrefix keyRef pkcs11_ReferenceScheme then
    pkcs11UriConfig ← wrap "parsing pkcs11 uri" (Parse url_hierarchical keyRef);
    sk ← wrap "opening pkcs11 token key" (pkcs11key.GetKeyWithURIConfig pkcs11UriConfig true);
    wrap "initializing pkcs11 token signer verifier" (pkcs11key.Key_SignerVerifier sk)
  else if strings_HasPrefix keyRef KeyReference then
    data ← GetKeyPairSecret keyRef w;
    if bool_decide (0 < size data)
    then LoadPrivateKey (default "" (data !! "cosign.key")) (default "" (data !! "cosign.password"))
    else kms_or_file keyRef pf w
  else if strings_HasPrefix keyRef gitlab_ReferenceScheme then
    get ← git_secret keyRef w;
    pk ← get "COSIGN_PRIVATE_KEY";
    pass ← get "COSIGN_PASSWORD";
    LoadPrivateKey pk pass
  else kms_or_file keyRef pf w.

Definition SignerFromKeyRef (keyRef : string) (pf : PassFunc) (w : KeyWorld) : res SignerVerifier :=
  SignerVerifierFromKeyRef keyRef pf w.

(** What is tried after the secret of the cluster. *)
Definition public_key_fallback (keyRef : string) (w : KeyWorld) : res Verifier :=
  if strings_HasPrefix keyRef pkcs11_ReferenceScheme then
    pkcs11UriConfig ← wrap "parsing pkcs11 uri" (Parse url_hierarchical keyRef);
    sk ← wrap "opening pkcs11 token key" (pkcs11key.GetKeyWithURIConfig pkcs11UriConfig false);
    wrap "initializing pkcs11 token verifier" (pkcs11key.Key_Verifier sk)
  else if strings_HasPrefix keyRef gitlab_ReferenceScheme then
    get ← git_secret keyRef w;
    pubKey ← get "COSIGN_PUBLIC_KEY";
    if bool_decide (0 < String.length pubKey) then LoadPublicKeyRaw pubKey
    else VerifierForKeyRef keyRef w
  else VerifierForKeyRef keyRef w.

Definition PublicKeyFromKeyRef (keyRef : string) (w : KeyWorld) : res Verifier :=
  if strings_HasPrefix keyRef KeyReference then
    data ← GetKeyPairSecret keyRef w;
    if bool_decide (0 < size data) then LoadPublicKeyRaw (default "" (data !! "cosign.pub"))
    else public_key_fallback keyRef w
  else public_key_fallback keyRef w.

(** The key of a PIV token, as the commands open it: the token, then the verifier, or
    the signer and the certificate. *)
Definition piv_Verifier (slot : string) : res (res Verifier) :=
  sk ← pivkey.GetKeyWithSlot slot key_Device; Ok (pivkey.Verifier_ sk key_Device).
Definition piv_Key (slot : string) : res (res SignerVerifier * res Certificate) :=
  sk ← pivkey.GetKeyWithSlot slot key_Device;
  Ok (pivkey.SignerVerifier_ sk key_Device, pivkey.Certificate_ sk key_Device).

(** The certificate with a PKCS #11 key that was opened to sign. *)
Definition pkcs11_Certificate (keyRef : string) : option Certificate :=
  match (conf ← Parse url_hierarchical keyRef; pkcs11key.GetKeyWithURIConfig conf true) with
  | Ok sk => pkcs11key.k_cert sk
  | _ => None
  end.

(** ** The commands *)

(** Whether the file may be written: it does not exist, or the user says so. *)
Definition may_write (path answer : string) (w : KeyWorld) : res bool :=
  e ← FileExists path w; Ok (negb e || (answer =?s "y") || (answer =?s "Y")).

Definition write_keys (keys : KeysBytes) (key pub answer : string) : M KeyWorld unit :=
  ok ← reads (may_write key answer);
  if negb ok then mret () else
  write_file key (PrivateBytes keys);; write_file pub (PublicBytes keys).

Definition ImportKeyPairCmd (keyVal : string) (pf : PassFunc) (answer : string) : M KeyWorld unit :=
  keys ← reads (ImportKeyPair keyVal pf);
  write_keys keys "import-cosign.key" "import-cosign.pub" answer.

Definition GenerateKeyPairCmd (kms_CreateKey : string → res PublicKey) (kmsVal : string)
    (args : list string) (pf : PassFunc) (answer : string) : M KeyWorld unit :=
  if negb (kmsVal =?s "") then
    _ ← lift (kms_Get kmsVal);
    pubKey ← lift (wrap "creating key" (kms_CreateKey kmsVal));
    pemBytes ← lift (cryptoutils_MarshalPublicKeyToPEM pubKey);
    write_file "cosign.pub" pemBytes
  else match args with
  | arg :: _ =>
      match strings_SplitSep arg "://" with
      | provider :: targetRef :: _ =>
          if provider =?s "k8s" then KeyPairSecret targetRef pf
          else if (provider =?s gitlab_ReferenceScheme) || (provider =?s github_ReferenceScheme)
          then git ← lift (deref (GetProvider provider)); PutSecret git targetRef pf
          else lift (Err (error_New ("undefined provider: " +:+ provider)))
      | _ => lift (Err (error_New "could not parse scheme, use <scheme>://<ref> format"))
      end
  | [] =>
      keys ← lift (GenerateKeyPair pf); write_keys keys "cosign.key" "cosign.pub" answer
  end.

End keys.

(** ** What the key formats are relied on for

    PKCS #8, PEM and PKIX encodings are read back as written; encryption is
    authenticated: only the password opens what was encrypted; generated keys
    are ECDSA keys. *)
Class KeyLaws `{X : Ext, K : KeyExt} : Prop := {
  pkcs8_roundtrip k b :
    x509_MarshalPKCS8PrivateKey k = Ok b → x509_ParsePKCS8PrivateKey b = Ok k;
  decrypt_same m p c : encrypted_Encrypt m p = Ok c → encrypted_Decrypt c p = Ok m;
  decrypt_other m p p' c :
    encrypted_Encrypt m p = Ok c → p' ≠ p → is_ok (encrypted_Decrypt c p') = false;
  pem_private b :
    pem_Decode (pem_EncodeToMemory CosignPrivateKeyPemType b)
    = Some ((CosignPrivateKeyPemType, b), "");
  pem_public k b :
    cryptoutils_MarshalPublicKeyToPEM k = Ok b → cryptoutils_UnmarshalPEMToPublicKey b = Ok k;
  generated_ecdsa k :
    ecdsa_GenerateKey = Ok k →
    (∃ d, k = ecdsa_PrivateKey d) ∧ ∃ der, priv_Public k = ecdsa_PublicKey der }.

Section theorems.
Context `{X : Ext, K : KeyExt, L : !KeyLaws}.

(** The kinds of private key that cosign uses. *)
Definition supported (k : PrivateKey) : Prop :=
  match k with other_PrivateKey _ => False | _ => True end.

Lemma marshalKeyPair_load priv pub pf keys :
  marshalKeyPair priv pub pf = Ok keys → supported priv →
  LoadPrivateKey (PrivateBytes keys) (Password keys) = signature_LoadSignerVerifier priv.
Proof.
  intros H Hs. unfold marshalKeyPair in H. go_inv. unfold LoadPrivateKey. cbn.
  rewrite pem_private. cbn. erewrite decrypt_same by done. cbn.
  erewrite pkcs8_roundtrip by done. by destruct priv.
Qed.

Lemma marshalKeyPair_wrong_password priv pub pf keys p :
  marshalKeyPair priv pub pf = Ok keys → p ≠ Password keys →
  is_ok (LoadPrivateKey (PrivateBytes keys) p) = false.
Proof.
  intros H Hp. unfold marshalKeyPair in H. go_inv. unfold LoadPrivateKey. cbn in *.
  rewrite pem_private. cbn.
  match goal with H : encrypted_Encrypt _ _ = Ok _ |- _ =>
    pose proof (decrypt_other _ _ _ _ H Hp) as Hd end.
  by destruct (encrypted_Decrypt _ p).
Qed.

Lemma marshalKeyPair_public priv pub pf keys :
  marshalKeyPair priv pub pf = Ok keys →
  call_pass pf true = Ok (Password keys)
  ∧ cryptoutils_UnmarshalPEMToPublicKey (PublicBytes keys) = Ok pub.
Proof. intros H. unfold marshalKeyPair in H. go_inv. split; [done|]. by apply pem_public. Qed.

(** A key pair that cosign writes, whether generated or imported from a PEM
    file, is read back: the encrypted private key opens with the password that
    was given and with no other one, and gives the signer of that key; the
    public half is the PEM form of the key's public key. *)
Theorem key_pair_roundtrip priv pub pf keys :
  marshalKeyPair priv pub pf = Ok keys → supported priv →
  (∀ p, call_pass pf true = Ok p →
     LoadPrivateKey (PrivateBytes keys) p = signature_LoadSignerVerifier priv)
  ∧ (∀ p, is_ok (LoadPrivateKey (PrivateBytes keys) p) = true → call_pass pf true = Ok p)
  ∧ cryptoutils_UnmarshalPEMToPublicKey (PublicBytes keys) = Ok pub.
Proof.
  intros H Hs. destruct (marshalKeyPair_public _ _ _ _ H) as [Hp Hpub]. split; [|split; [|done]].
  - intros p Hp'. rewrite Hp in Hp'. injection Hp' as <-. by eapply marshalKeyPair_load.
  - intros p Hok. destruct (decide (p = Password keys)) as [->|Hne]; [done|].
    by rewrite (marshalKeyPair_wrong_password _ _ _ _ _ H Hne) in Hok.
Qed.

(** *** Key pairs in secrets *)

Lemma k8s_not_pkcs11 keyRef :
  strings_HasPrefix keyRef KeyReference = true →
  strings_HasPrefix keyRef pkcs11_ReferenceScheme = false.
Proof. by intros [r ->]%HasPrefix_spec. Qed.

(** What [KeyPairSecret] leaves in the cluster. *)
Lemma KeyPairSecret_stored ref pf w w' :
  KeyPairSecret ref pf w = (w', Ok ()) →
  ∃ ns n priv keys data imm, parseRef ref = Ok (ns, n) ∧ GeneratePrivateKey = Ok priv
    ∧ marshalKeyPair priv (priv_Public priv) pf = Ok keys ∧ k8s_Client = Ok ()
    ∧ kw_Secrets w' = <[(ns, n) := secret keys data imm]> (kw_Secrets w)
    ∧ kw_Files w' = <["cosign.pub" := PublicBytes keys]> (kw_Files w).
Proof.
  intros H. unfold KeyPairSecret in H.
  apply M_bind_Ok in H as (w0 & [ns n] & Hp & H). apply lift_Ok in Hp as [Hp ->].
  M_inv. unfold GenerateKeyPair in *. go_inv.
  unfold M_try, reads in *.
  destruct (secrets_Get ns n w) as [s|err|] eqn:Hs; simplify_eq/=;
    try (destruct (apierrs_IsNotFound err)); unfold secrets_Put, write_file in *; M_inv; try done;
    eexists _, _, _, _, _, _; repeat split; eauto.
Qed.

(** C27: a key pair generated into a secret of the cluster is the pair that its
    reference names afterwards: signing and verifying with the reference use the
    two halves of one key, the public half is also in cosign.pub, and no other
    secret or file changes. *)
Theorem k8s_key_pair_roundtrip ref keyRef pf pf' w w' :
  (∀ ns n, k8s_SecretGet ns n = Ok ()) →
  KeyPairSecret ref pf w = (w', Ok ()) →
  strings_HasPrefix keyRef KeyReference = true → parseRef keyRef = parseRef ref →
  ∃ priv der, priv_Public priv = ecdsa_PublicKey der
    ∧ SignerVerifierFromKeyRef keyRef pf' w' = signature_LoadSignerVerifier priv
    ∧ PublicKeyFromKeyRef keyRef w' = signature_LoadECDSAVerifier der
    ∧ (∃ b, kw_Files w' = <["cosign.pub" := b]> (kw_Files w)
         ∧ cryptoutils_UnmarshalPEMToPublicKey b = Ok (priv_Public priv))
    ∧ ∀ ns n, parseRef keyRef ≠ Ok (ns, n) → kw_Secrets w' !! (ns, n) = kw_Secrets w !! (ns, n).
Proof.
  intros Hget H Hk8s Href. apply KeyPairSecret_stored in H
    as (ns & n & priv & keys & data & imm & Hp & Hg & Hm & Hc & Hsec & Hf).
  destruct (generated_ecdsa _ Hg) as [[d ->] [der Hder]].
  destruct (marshalKeyPair_public _ _ _ _ Hm) as [_ Hpub].
  assert (Hs : GetKeyPairSecret keyRef w' = Ok (fst (secret keys data imm))).
  { unfold GetKeyPairSecret, secrets_Get. rewrite Href, Hp. cbn [mbind res_bind]. rewrite Hc, Hget.
    cbn [wrap mbind res_bind]. by rewrite Hsec, lookup_insert_eq. }
  assert (Hne : 0 < size (fst (secret keys data imm))).
  { cbn. apply Nat.neq_0_lt_0. rewrite map_size_empty_iff. apply insert_non_empty. }
  exists (ecdsa_PrivateKey d), der. split; [done|]. split; [|split; [|split]].
  - unfold SignerVerifierFromKeyRef. rewrite (k8s_not_pkcs11 _ Hk8s), Hk8s, Hs.
    cbn [mbind res_bind]. rewrite bool_decide_true by done. cbn [fst secret].
    rewrite lookup_insert_eq. rewrite !lookup_insert_ne by done. rewrite lookup_insert_eq. cbn.
    by eapply marshalKeyPair_load.
  - unfold PublicKeyFromKeyRef. rewrite Hk8s, Hs. cbn [mbind res_bind].
    rewrite bool_decide_true by done. cbn [fst secret].
    rewrite lookup_insert_ne by done. rewrite lookup_insert_eq. cbn.
    unfold LoadPublicKeyRaw, PemToECDSAKey. rewrite Hpub, Hder. done.
  - eauto.
  - intros ns' n' Hne'. rewrite Hsec, lookup_insert_ne; [done|]. intros [= -> ->].
    by rewrite Href in Hne'.
Qed.

(** *** Key pairs at git hosting providers *)

(** No status is refused. *)
Lemma check_response_Ok resp : check_response resp = Ok ().
Proof.
  unfold check_response, bad_status. destruct (Z.ltb_spec (fst resp) 200), (Z.leb_spec 300 (fst resp)); done || lia.
Qed.

Lemma gitlab_CreateVariable_Ok ref key value w w' :
  gitlab_CreateVariable ref key value w = (w', Ok ()) →
  w' = mkKeyWorld (kw_Secrets w) (kw_Files w) (<[(ref, key) := value]> (kw_Variables w)) (kw_RepoSecrets w).
Proof. unfold gitlab_CreateVariable. intros H. M_inv. done. Qed.

(** What is left by generating a key pair at GitLab. *)
Lemma gitlab_PutSecret_stored ref pf w w' :
  gitlab_PutSecret ref pf w = (w', Ok ()) →
  ∃ priv keys, GeneratePrivateKey = Ok priv ∧ marshalKeyPair priv (priv_Public priv) pf = Ok keys
    ∧ gitlab_client = Ok ()
    ∧ kw_Variables w' = <[(ref, "COSIGN_PUBLIC_KEY") := PublicBytes keys]>
        (<[(ref, "COSIGN_PRIVATE_KEY") := PrivateBytes keys]>
          (<[(ref, "COSIGN_PASSWORD") := Password keys]> (kw_Variables w)))
    ∧ kw_Files w' = <["cosign.pub" := PublicBytes keys]> (kw_Files w) ∧ kw_Secrets w' = kw_Secrets w.
Proof.
  unfold gitlab_PutSecret. intros H.
  apply M_bind_Ok in H as (? & keys & [Hk ->]%lift_Ok & H). unfold GenerateKeyPair in Hk. go_inv.
  apply M_bind_Ok in H as (? & [] & [Hc ->]%lift_Ok & H).
  apply M_bind_Ok in H as (w1 & [] & ->%gitlab_CreateVariable_Ok & H).
  apply M_bind_Ok in H as (w2 & [] & ->%gitlab_CreateVariable_Ok & H).
  apply M_bind_Ok in H as (w3 & [] & ->%gitlab_CreateVariable_Ok & H).
  unfold write_file in H. M_inv. eexists _, _. repeat (split; [done|]). done.
Qed.

Lemma gitlab_GetSecret_stored ref key w v :
  (∀ r k, is_ok (gitlab_api_GetVariable r k) = true) → gitlab_client = Ok () →
  kw_Variables w !! (ref, key) = Some v → gitlab_GetSecret ref key w = Ok v.
Proof.
  intros Hget Hc Hv. unfold gitlab_GetSecret. rewrite Hc. cbn.
  destruct (ok_res _ (Hget ref key)) as [resp ->]. cbn. rewrite Hv. cbn. by rewrite check_response_Ok.
Qed.

(** A key pair that generate-key-pair stores at GitLab is the pair that its
    reference names afterwards: signing and verifying with gitlab://<project> use
    the two halves of one key, which the password stored beside it opens; the
    public half is also in cosign.pub, and the variables of other projects and the
    secrets of the cluster do not change. *)
Theorem gitlab_key_pair_roundtrip kms ref pf pf' answer w w' :
  strings_SplitSep ("gitlab://" +:+ ref) "://" = ["gitlab"; ref] →
  (∀ r k, is_ok (gitlab_api_GetVariable r k) = true) →
  is_ok (cryptoutils_UnmarshalPEMToPublicKey "") = false →
  GenerateKeyPairCmd kms "" ["gitlab://" +:+ ref] pf answer w = (w', Ok ()) →
  ∃ priv der, priv_Public priv = ecdsa_PublicKey der
    ∧ SignerVerifierFromKeyRef ("gitlab://" +:+ ref) pf' w' = signature_LoadSignerVerifier priv
    ∧ PublicKeyFromKeyRef ("gitlab://" +:+ ref) w' = signature_LoadECDSAVerifier der
    ∧ (∃ b, kw_Files w' = <["cosign.pub" := b]> (kw_Files w)
         ∧ cryptoutils_UnmarshalPEMToPublicKey b = Ok (priv_Public priv))
    ∧ (∀ r k, r ≠ ref → kw_Variables w' !! (r, k) = kw_Variables w !! (r, k))
    ∧ kw_Secrets w' = kw_Secrets w.
Proof.
  intros Hsplit Hget Hempty H. remember ("gitlab://" +:+ ref) as keyRef eqn:HkeyRef.
  assert (strings_HasPrefix keyRef pkcs11_ReferenceScheme = false
    ∧ strings_HasPrefix keyRef KeyReference = false
    ∧ strings_HasPrefix keyRef gitlab_ReferenceScheme = true) as (Hp1 & Hp2 & Hp3).
  { subst keyRef. repeat split. }
  unfold GenerateKeyPairCmd in H. rewrite Hsplit in H. cbn in H.
  apply gitlab_PutSecret_stored in H as (priv & keys & Hg & Hm & Hc & Hv & Hf & Hs).
  destruct (generated_ecdsa _ Hg) as [[d ->] [der Hder]].
  destruct (marshalKeyPair_public _ _ _ _ Hm) as [_ Hpub].
  assert (Hsec : git_secret keyRef w' = Ok (λ key, gitlab_GetSecret ref key w')).
  { unfold git_secret. by rewrite Hsplit. }
  assert (∀ key v, kw_Variables w' !! (ref, key) = Some v → gitlab_GetSecret ref key w' = Ok v) as Hsecret.
  { intros key v. by apply gitlab_GetSecret_stored. }
  exists (ecdsa_PrivateKey d), der. split; [done|]. split; [|split; [|split; [|split]]].
  - unfold SignerVerifierFromKeyRef. rewrite Hp1, Hp2, Hp3, Hsec. cbn [mbind res_bind].
    rewrite (Hsecret "COSIGN_PRIVATE_KEY" (PrivateBytes keys)) by (rewrite Hv, lookup_insert_ne by done; apply lookup_insert_eq).
    cbn [mbind res_bind].
    rewrite (Hsecret "COSIGN_PASSWORD" (Password keys)) by (rewrite Hv, !lookup_insert_ne by done; apply lookup_insert_eq).
    by eapply marshalKeyPair_load.
  - unfold PublicKeyFromKeyRef, public_key_fallback. rewrite Hp1, Hp2, Hp3, Hsec. cbn [mbind res_bind].
    rewrite (Hsecret "COSIGN_PUBLIC_KEY" (PublicBytes keys)) by (rewrite Hv; apply lookup_insert_eq). cbn [mbind res_bind].
    rewrite bool_decide_true; [unfold LoadPublicKeyRaw, PemToECDSAKey; by rewrite Hpub, Hder|].
    destruct (PublicBytes keys); [by rewrite Hpub in Hempty|cbn; lia].
  - eauto.
  - intros r k Hr. rewrite Hv, !lookup_insert_ne; [done|congruence..].
  - done.
Qed.

Lemma github_Secret_Ok owner repo keyID name value w w' :
  github_CreateOrUpdateRepoSecret owner repo keyID name value w = (w', Ok ()) →
  kw_RepoSecrets w' = <[(owner, repo, name) := (keyID, value)]> (kw_RepoSecrets w).
Proof. unfold github_CreateOrUpdateRepoSecret. intros H. M_inv. done. Qed.

(** What is stored at GitHub is not encrypted: after generate-key-pair for a
    repository, the secrets hold the base64 form of the password, of the private key
    and of the public key, from which each is read without any key. *)
Theorem github_secrets_plain kms ref pf answer w w' :
  strings_SplitSep ("github://" +:+ ref) "://" = ["github"; ref] →
  GenerateKeyPairCmd kms "" ["github://" +:+ ref] pf answer w = (w', Ok ()) →
  ∃ owner repo keyID priv keys, marshalKeyPair priv (priv_Public priv) pf = Ok keys
    ∧ ∀ name secret, (name, secret) ∈ [("COSIGN_PASSWORD", Password keys);
          ("COSIGN_PRIVATE_KEY", PrivateBytes keys); ("COSIGN_PUBLIC_KEY", PublicBytes keys)] →
        ∃ v, kw_RepoSecrets w' !! (owner, repo, name) = Some (keyID, v)
          ∧ base64_DecodeString v = Ok secret.
Proof.
  intros Hsplit H. unfold GenerateKeyPairCmd in H. rewrite Hsplit in H. cbn in H.
  apply M_bind_Ok in H as (? & git & [[= <-] ->]%lift_Ok & H). cbn in H.
  unfold github_PutSecret in H. apply M_bind_Ok in H as (? & keys & [Hk ->]%lift_Ok & H).
  unfold GenerateKeyPair in Hk. go_inv. destruct (os_LookupEnv "GITHUB_TOKEN"); [|done].
  destruct (strings_Split ref "/") as [|owner [|repo rest]]; [done..|].
  apply M_bind_Ok in H as (? & [keyID resp] & [_ ->]%lift_Ok & H).
  apply M_bind_Ok in H as (? & [] & [_ ->]%lift_Ok & H).
  apply M_bind_Ok in H as (w1 & [] & Hw1%github_Secret_Ok & H).
  apply M_bind_Ok in H as (w2 & [] & Hw2%github_Secret_Ok & H).
  apply M_bind_Ok in H as (w3 & [] & Hw3%github_Secret_Ok & H).
  unfold write_file in H. M_inv. exists owner, repo, keyID. eexists _, _. split; [eassumption|].
  intros name secret Hin. exists (base64_EncodeToString secret). split; [|apply base64_decode_encode].
  cbn. rewrite Hw3, Hw2, Hw1.
  repeat (apply elem_of_cons in Hin as [[= -> ->]|Hin]; [by simplify_map_eq|]). by apply not_elem_of_nil in Hin.
Qed.

End theorems.

(** ** Witnesses *)

Definition toy_priv_d (k : PrivateKey) : bytes :=
  match k with
  | rsa_PrivateKey d | ecdsa_PrivateKey d | ed25519_PrivateKey d | other_PrivateKey d => d
  end.

(** A private key is stored as its kind and its name, and "pw" is the only
    password. *)
Definition toy_pkcs8 (k : PrivateKey) : bytes :=
  match k with
  | rsa_PrivateKey d => String "r" d
  | ecdsa_PrivateKey d => String "e" d
  | ed25519_PrivateKey d => String "d" d
  | other_PrivateKey d => String "o" d
  end.
Definition toy_parse_pkcs8 (b : bytes) : res PrivateKey :=
  match b with
  | String "r" d => Ok (rsa_PrivateKey d)
  | String "e" d => Ok (ecdsa_PrivateKey d)
  | String "d" d => Ok (ed25519_PrivateKey d)
  | String "o" d => Ok (other_PrivateKey d)
  | _ => Err (error_New "asn1")
  end.
Definition toy_crypt (m p : bytes) : res bytes :=
  if p =?s "pw" then Ok m else Err (error_New "wrong password").

Definition toy_Keys : KeyExt := {|
  ecdsa_GenerateKey := Ok (ecdsa_PrivateKey "g");
  priv_Public k := ecdsa_PublicKey (toy_priv_d k);
  x509_MarshalPKCS8PrivateKey k := Ok (toy_pkcs8 k);
  x509_ParsePKCS8PrivateKey := toy_parse_pkcs8;
  x509_ParsePKCS1PrivateKey b := Ok b;
  x509_ParseECPrivateKey b := Ok b;
  cryptoutils_ValidatePubKey _ := Ok ();
  encrypted_Encrypt := toy_crypt;
  encrypted_Decrypt := toy_crypt;
  pem_EncodeToMemory _ b := String "!" b;
  signature_LoadSignerVerifier k :=
    Ok (mkSignerVerifier (λ m, Ok (toy_priv_d k +:+ ":" +:+ m)) (toy_verifier (toy_key (toy_priv_d k))));
  signature_LoadECDSAVerifier d := Ok (toy_verifier (toy_key d));
  kms_Get _ := Err (error_New "no KMS");
  key_Pkcs11 := toy_Pkcs11;
  key_Piv := toy_Piv;
  key_Device := "123456" : Device (PivExt := toy_Piv);
  os_LookupEnv v := if (v =?s "GITLAB_TOKEN") || (v =?s "GITHUB_TOKEN") then Some "token" else None;
  gitlab_NewClient _ _ := Ok ();
  gitlab_api_CreateVariable _ _ := Ok (201%Z, "");
  gitlab_api_GetVariable _ _ := Ok (200%Z, "");
  github_api_GetRepoPublicKey _ _ := Ok ("1", (200%Z, ""));
  github_api_CreateOrUpdateRepoSecret _ _ _ := Ok (201%Z, "");
  k8s_Client := Ok ();
  k8s_ServerVersion := Ok (1, 22)%Z;
  k8s_SecretGet _ _ := Ok ();
  k8s_SecretWrite _ _ := Ok ();
  os_Stat_IsDir _ := Err (error_Kind kind_NotExist "no such file");
  WriteFile _ := Ok () |}.

#[export] Instance toy_KeyLaws : KeyLaws (X := toy) (K := toy_Keys).
Proof.
  split.
  - intros k b [= <-]. by destruct k.
  - intros m p c. cbn. unfold toy_crypt. destruct (p =?s "pw"); intros [= <-]; done.
  - intros m p p' c. cbn. unfold toy_crypt. destruct (p =?s "pw") eqn:E; [|done].
    apply str_eqb_eq in E as ->. intros _ Hp. by rewrite (proj2 (str_eqb_neq _ _) Hp).
  - intros b. pose proof (TrimPrefix_append "!" b) as Ht. cbn in Ht.
    cbn [pem_Decode pem_EncodeToMemory toy toy_Keys]. rewrite Ht. by destruct b.
  - intros [[|a d]|d|d|d] b; [done| |done..]. by intros [= <-].
  - intros k [= <-]. eauto.
Qed.

Definition toy_pass : PassFunc := Some (λ _, Ok "pw").

Lemma key_pair_roundtrip_witness :
  LoadPrivateKey (X := toy) (K := toy_Keys) "!eg" "pw"
  = signature_LoadSignerVerifier (KeyExt := toy_Keys) (ecdsa_PrivateKey "g").
Proof.
  apply (proj1 (key_pair_roundtrip (X := toy) (K := toy_Keys) (ecdsa_PrivateKey "g")
    (ecdsa_PublicKey "g") toy_pass (mkKeysBytes "!eg" "g" "pw") eq_refl I) "pw").
  reflexivity.
Defined.

Lemma k8s_key_pair_roundtrip_witness :
  ∃ w', KeyPairSecret (X := toy) (K := toy_Keys) "ns/name" toy_pass (files ∅) = (w', Ok ())
    ∧ ∃ priv, SignerVerifierFromKeyRef (X := toy) (K := toy_Keys) "k8s://ns/name" None w'
        = signature_LoadSignerVerifier (KeyExt := toy_Keys) priv.
Proof.
  destruct (ok_run (KeyPairSecret (X := toy) (K := toy_Keys) "ns/name" toy_pass (files ∅)))
    as (w' & [] & H); [reflexivity|].
  exists w'. split; [exact H|].
  destruct (k8s_key_pair_roundtrip (X := toy) (K := toy_Keys) "ns/name" "k8s://ns/name" toy_pass
    None (files ∅) w') as (priv & der & _ & Hs & _).
  - reflexivity.
  - exact H.
  - reflexivity.
  - reflexivity.
  - exists priv. exact Hs.
Defined.

Lemma gitlab_key_pair_roundtrip_witness :
  ∃ w', GenerateKeyPairCmd (X := toy) (K := toy_Keys) (λ _, Err (error_New "kms")) "" ["gitlab://me/app"]
      toy_pass "n" (files ∅) = (w', Ok ())
    ∧ ∃ priv, SignerVerifierFromKeyRef (X := toy) (K := toy_Keys) "gitlab://me/app" None w'
        = signature_LoadSignerVerifier (KeyExt := toy_Keys) priv.
Proof.
  destruct (ok_run (GenerateKeyPairCmd (X := toy) (K := toy_Keys) (λ _, Err (error_New "kms")) ""
    ["gitlab://me/app"] toy_pass "n" (files ∅))) as (w' & [] & H); [vm_compute; reflexivity|].
  exists w'. split; [exact H|].
  destruct (gitlab_key_pair_roundtrip (X := toy) (K := toy_Keys) (λ _, Err (error_New "kms")) "me/app"
    toy_pass None "n" (files ∅) w') as (priv & der & _ & Hs & _).
  - reflexivity.
  - reflexivity.
  - reflexivity.
  - exact H.
  - exists priv. exact Hs.
Defined.

Lemma github_secrets_plain_witness :
  ∃ w' v, GenerateKeyPairCmd (X := toy) (K := toy_Keys) (λ _, Err (error_New "kms")) "" ["github://me/app"]
      toy_pass "n" (files ∅) = (w', Ok ())
    ∧ v ∈ (snd <$> map_to_list (kw_RepoSecrets w')) ∧ base64_DecodeString (snd v) = Ok "pw".
Proof.
  destruct (ok_run (GenerateKeyPairCmd (X := toy) (K := toy_Keys) (λ _, Err (error_New "kms")) ""
    ["github://me/app"] toy_pass "n" (files ∅))) as (w' & [] & H); [vm_compute; reflexivity|].
  destruct (github_secrets_plain (X := toy) (K := toy_Keys) (λ _, Err (error_New "kms")) "me/app"
    toy_pass "n" (files ∅) w') as (owner & repo & keyID & priv & keys & Hm & Hs).
  - reflexivity.
  - exact H.
  - destruct (Hs "COSIGN_PASSWORD" (Password keys)) as (v & Hv & Hd); [by left|].
    exists w', (keyID, v). split; [exact H|]. split.
    + apply list_elem_of_fmap. exists ((owner, repo, "COSIGN_PASSWORD"), (keyID, v)). split; [done|].
      by apply elem_of_map_to_list.
    + cbn. rewrite Hd. unfold marshalKeyPair in Hm. go_inv. cbn in *. congruence.
Defined.
