(* ===== verification/Sign.v ===== *)
(** * Signing

    internal/pkg/cosign (the payload, Fulcio, Rekor and ephemeral signers and
    the DSSE attestor), cmd/cosign/cli/fulcio (the key and certificate of a
    keyless signer) and cmd/cosign/cli/sign (the sign command).

    The state is the registry and the files that the command writes.  The
    identity provider and the Fulcio and Rekor servers are parameters. *)
From S2P Require Import Prelude GoStd External Concrete OciSignature OciSignatures OciEntity.
From S2P Require Import OciRemote Tuf Tlog Ctl Verify Keys.

Class SignExt `{R : Registry} := {
  dsse_PAE : string → bytes → bytes;
  json_Marshal_Envelope : Envelope → res bytes;
  x509_ParseCertificate : bytes → res Certificate;
  cryptoutils_EqualKeys : PublicKey → PublicKey → bool;
  providers_Enabled : bool;
  providers_Provide : string → res string;
  oauth_Connect : string → string → res (string * string);           (* flow, token: subject, raw *)
  stdin_IsTerminal : bool;
  ecdsa_SignASN1 : PrivateKey → bytes → res bytes;
  fulcio_NewClient : string → res unit;
  (* public key, proof, token: the certificate, its chain, the SCT *)
  fulcio_SigningCert : bytes → bytes → string → res (bytes * bytes * bytes);
  rekor_NewClient : string → res Rekor;
  anonymous_Get : Reference → res unit;
  tlog_Confirm : res string }.

(** ** Signers (internal/pkg/cosign) *)

Section signers.
Context `{X : Ext, TR : TrustRoot, C : CtExt, KX : KeyExt, R : Registry, S : !SignExt}.

(** [icosign.Signer] *)
Definition Signer := bytes → res (Signature * PublicKey).

Definition payload_Sign (s : SignerVerifier) : Signer := λ payload,
  sig ← SignMessage s payload;
  pk ← Verifier_PublicKey (sv_Verifier s);
  ociSig ← NewSignature payload (base64_EncodeToString sig) [];
  Ok (ociSig, pk).

Definition fulcio_Sign (inner : Signer) (cert chain : option bytes) : Signer := λ payload,
  '(sig, pub) ← inner payload;
  newSig ← mutate.Signature sig [mutate.WithCertChain cert chain];
  Ok (newSig, pub).

(** The index of the new entry is printed. *)
Definition uploadToTlog (rekorBytes : bytes) (upload : bytes → res LogEntryAnon) :
    res (option RekorBundle) :=
  entry ← upload rekorBytes;
  _ ← deref (le_LogIndex entry);
  EntryToBundle entry.

Definition rekor_Sign (inner : Signer) (rClient : Rekor) : Signer := λ payload,
  '(sig, pub) ← inner payload;
  payloadBytes ← Payload sig;
  b64Sig ← Base64Signature sig;
  sigBytes ← base64_DecodeString b64Sig;
  cert ← Cert sig;
  rekorBytes ← match cert with
               | Some cert => cryptoutils_MarshalCertificateToPEM cert
               | None => cryptoutils_MarshalPublicKeyToPEM pub
               end;
  bundle ← uploadToTlog rekorBytes (TLogUpload rClient sigBytes payloadBytes);
  newSig ← mutate.Signature sig [mutate.WithBundle bundle];
  Ok (newSig, pub).

Definition ephemeral_Sign (s : SignerVerifier) : Signer := λ payload,
  pub ← wrap "retrieving the static public key somehow failed" (Verifier_PublicKey (sv_Verifier s));
  sig ← SignMessage s payload;
  ociSig ← NewSignature payload (base64_EncodeToString sig) [];
  Ok (ociSig, pub).

Definition ephemeral_NewSigner : res Signer :=
  priv ← wrap "generating cert" GeneratePrivateKey;
  s ← wrap "creating a SignerVerifier from ephemeral key" (signature_LoadSignerVerifier priv);
  Ok (ephemeral_Sign s).

Definition DssePayloadType := "application/vnd.dsse.envelope.v1+json".

Definition DSSEAttest (s : SignerVerifier) (payloadType : string) : Signer := λ p,
  let pb := dsse_PAE payloadType p in
  sig ← SignMessage s pb;
  pk ← Verifier_PublicKey (sv_Verifier s);
  envelopeJSON ← json_Marshal_Envelope (mkEnvelope payloadType (base64_EncodeToString pb)
                   [("", base64_EncodeToString sig)]);
  att ← NewAttestation envelopeJSON [static.WithLayerMediaType DssePayloadType];
  Ok (att, pk).

(** ** Keyless signers (cmd/cosign/cli/fulcio) *)

Definition FlowNormal := "normal".
Definition FlowDevice := "device".
Definition FlowToken := "token".

Definition getCertForOauthID (priv : PrivateKey) (connect : res (string * string)) :
    res (bytes * bytes * bytes) :=
  pubBytes ← x509_MarshalPKIXPublicKey (priv_Public priv);
  '(subject, raw) ← connect;
  proof ← ecdsa_SignASN1 priv (sha256_Sum256 subject);
  fulcio_SigningCert pubBytes proof raw.

Definition GetCert (priv : PrivateKey) (idToken flow : string) : res (bytes * bytes * bytes) :=
  if (flow =?s FlowDevice) || (flow =?s FlowNormal) || (flow =?s FlowToken)
  then getCertForOauthID priv (oauth_Connect flow idToken)
  else Err (error_New ("unsupported oauth flow: " +:+ flow)).

Record FulcioSigner := mkFulcioSigner {
  fs_Cert : bytes; fs_Chain : bytes; fs_SCT : bytes; fs_signer : SignerVerifier }.

(** [Signer.PublicKey] returns the address of the field that holds the pointer
    to the key. *)
Definition fulcio_signer (sv : SignerVerifier) : SignerVerifier :=
  mkSignerVerifier (SignMessage sv)
    (mkVerifier (VerifySignature (sv_Verifier sv)) (Ok (other_PublicKey "**ecdsa.PublicKey"))).

Definition fulcio_NewSigner (idToken : string) : res FulcioSigner :=
  priv ← wrap "generating cert" GeneratePrivateKey;
  signer ← signature_LoadSignerVerifier priv;
  let flow := if negb (idToken =?s "") then FlowToken
              else if negb stdin_IsTerminal then FlowDevice else FlowNormal in
  '(cert, chain, sct) ← wrap "retrieving cert" (GetCert priv idToken flow);
  Ok (mkFulcioSigner cert chain sct (fulcio_signer signer)).

Definition fulcioverifier_NewSigner (idToken : string) : res FulcioSigner :=
  fs ← fulcio_NewSigner idToken;
  wrap "verifying SCT" (VerifySCT (fs_Cert fs) (fs_Chain fs) (fs_SCT fs));;
  Ok fs.

(** ** The signer of a command (cmd/cosign/cli/sign) *)

Record CertSigner := mkCertSigner {
  cs_Cert : option bytes; cs_Chain : option bytes; cs_Signer : SignerVerifier }.

(** [SignerVerifier.Bytes] *)
Definition CertSigner_Bytes (c : CertSigner) : res bytes :=
  match cs_Cert c with
  | Some cert => Ok cert
  | None => PublicKeyPem (sv_Verifier (cs_Signer c))
  end.

(** The OIDC settings go to the identity provider, behind [oauth_Connect]. *)
Record KeyOpts := mkKeyOpts {
  ko_Sk : bool;
  ko_Slot : string;
  ko_KeyRef : string;
  ko_FulcioURL : string;
  ko_RekorURL : string;
  ko_IDToken : string;
  ko_InsecureSkipFulcioVerify : bool;
  ko_PassFunc : PassFunc;
  ko_BundlePath : string }.

Definition signerFromSecurityKey (keySlot : string) : res CertSigner :=
  '(key, certFromPIV) ← piv_Key keySlot;
  sv ← key;
  pemBytes ← match certFromPIV with
             | Ok c => Some <$> cryptoutils_MarshalCertificateToPEM c
             | Err _ => Ok None
             | Panic why => Panic why
             end;
  Ok (mkCertSigner pemBytes None sv).

(** The certificate on the token of a PKCS #11 key. *)
Definition token_cert (keyRef : string) (k : SignerVerifier) :
    res (option (Certificate * bytes)) :=
  if negb (strings_HasPrefix keyRef pkcs11_ReferenceScheme) then Ok None else
  match pkcs11_Certificate keyRef with
  | None => Ok None
  | Some c =>
      pemBytes ← cryptoutils_MarshalCertificateToPEM c;
      pubKey ← Verifier_PublicKey (sv_Verifier k);
      ensure (cryptoutils_EqualKeys pubKey (cert_PublicKey c))
        (error_New "pkcs11 key and certificate do not match");;
      Ok (Some (c, pemBytes))
  end.

(** The --cert flag: a PEM or DER file.  [pem.Decode] may give nil. *)
Definition flag_cert (certPath : string) (k : SignerVerifier) : res (Certificate * bytes) :=
  certBytes ← wrap "read certificate" (os_ReadFile certPath);
  certBytes ←
    (if strings_HasPrefix certBytes "-----" then
       '(decoded, _) ← deref (pem_Decode certBytes);
       if negb (fst decoded =?s "CERTIFICATE")
       then Err (error_New ("supplied PEM file is not a certificate: " +:+ certPath))
       else Ok (snd decoded)
     else Ok certBytes);
  parsedCert ← wrap "parse x509 certificate" (x509_ParseCertificate certBytes);
  pk ← wrap "get public key" (Verifier_PublicKey (sv_Verifier k));
  ensure (cryptoutils_EqualKeys pk (cert_PublicKey parsedCert))
    (error_New "public key in certificate does not match the provided public key");;
  pemBytes ← wrap "marshaling certificate to PEM" (cryptoutils_MarshalCertificateToPEM parsedCert);
  Ok (parsedCert, pemBytes).

(** The --cert-chain flag: the chain must lead to its last certificate. *)
Definition flag_chain (certChainPath : string) (leafCert : Certificate) : res bytes :=
  certChainBytes ← wrap "reading certificate chain from path" (os_ReadFile certChainPath);
  certChain ← wrap "loading certificate chain"
                (cryptoutils_LoadCertificatesFromPEM certChainBytes);
  match last certChain with
  | None => Err (error_New "no certificates in certificate chain")
  | Some root =>
      _ ← wrap "unable to validate certificate chain"
            (TrustedCert leafCert (Some [root]) (Some (slice_init certChain)));
      contains ← ContainsSCT (cert_Raw leafCert);
      (if contains : bool then VerifyEmbeddedSCT (leafCert :: certChain) else Ok ());;
      Ok certChainBytes
  end.

Definition signerFromKeyRef (certPath certChainPath keyRef : string) (passFunc : PassFunc)
    (w : KeyWorld) : res CertSigner :=
  k ← wrap "reading key" (SignerVerifierFromKeyRef keyRef passFunc w);
  leaf ← token_cert keyRef k;
  leaf ← (if negb (certPath =?s "") then Some <$> flag_cert certPath k else Ok leaf);
  if certChainPath =?s "" then Ok (mkCertSigner (snd <$> leaf) None k) else
  match leaf with
  | None => Err (error_New "no leaf certificate found or provided while specifying chain")
  | Some (leafCert, pemBytes) =>
      chain ← flag_chain certChainPath leafCert;
      Ok (mkCertSigner (Some pemBytes) (Some chain) k)
  end.

Definition keylessSigner (ko : KeyOpts) : res CertSigner :=
  wrap "creating Fulcio client" (fulcio_NewClient (ko_FulcioURL ko));;
  tok ← (if (ko_IDToken ko =?s "") && providers_Enabled
         then wrap "fetching ambient OIDC credentials" (providers_Provide "sigstore")
         else Ok (ko_IDToken ko));
  k ← wrap "getting key from Fulcio"
        (if ko_InsecureSkipFulcioVerify ko then fulcio_NewSigner tok
         else fulcioverifier_NewSigner tok);
  Ok (mkCertSigner (Some (fs_Cert k)) (Some (fs_Chain k)) (fs_signer k)).

Definition SignerFromKeyOpts (certPath certChainPath : string) (ko : KeyOpts) (w : KeyWorld) :
    res CertSigner :=
  if ko_Sk ko then signerFromSecurityKey (ko_Slot ko)
  else if negb (ko_KeyRef ko =?s "")
  then signerFromKeyRef certPath certChainPath (ko_KeyRef ko) (ko_PassFunc ko) w
  else keylessSigner ko.

End signers.

(** ** The sign command *)

Record SignWorld `{R : Registry} := mkSignWorld { sw_Reg : Reg; sw_Files : gmap string bytes }.
Arguments mkSignWorld {_ _} _ _.

Section command.
Context `{X : Ext, TR : TrustRoot, C : CtExt, KX : KeyExt, R : Registry, S : !SignExt}.

Definition in_reg {A} (m : M Reg A) : M SignWorld A := λ w,
  let '(r, a) := m (sw_Reg w) in (mkSignWorld r (sw_Files w), a).

Definition os_WriteFile (path : string) (b : bytes) : M SignWorld unit :=
  lift (WriteFile path);;
  modify (λ w, mkSignWorld (sw_Reg w) (<[path := b]> (sw_Files w))).

(** options.EnableExperimental *)
Definition EnableExperimental : bool :=
  default false (strconv_ParseBool (os_Getenv "COSIGN_EXPERIMENTAL")).

(** options.NOf, of the arguments that are not zero, and options.OneOf *)
Definition NOf (nonzero : list bool) : nat := length (filter Is_true nonzero).
Definition OneOf (nonzero : list bool) : bool := bool_decide (NOf nonzero = 1).

(** The flags of the command. *)
Record SignOpts := mkSignOpts {
  so_Key : KeyOpts;
  so_RemoteOpts : list ROption;
  so_TagPrefix : string;
  so_Annotations : gmap string any;
  so_Upload : bool;
  so_OutputSignature : string;
  so_OutputCertificate : string;
  so_Force : bool;
  so_Recursive : bool;
  so_Attachment : string }.

(** RegistryOptions.ClientOpts, of the remote options and the tag prefix *)
Definition registry_ClientOpts (remoteOpts : list ROption) (tagPrefix : string) :
    res (list Option_) :=
  targetRepoOverride ← GetEnvTargetRepository;
  Ok ([WithRemoteOptions remoteOpts]
      ++ (if tagPrefix =?s "" then [] else [WithPrefix tagPrefix])
      ++ (if targetRepoOverride =?s "" then [] else [WithTargetRepository targetRepoOverride])).
Definition ClientOpts (o : SignOpts) : res (list Option_) :=
  registry_ClientOpts (so_RemoteOpts o) (so_TagPrefix o).

(** ToUpper of the answer is "Y". *)
Definition ShouldUploadToTlog (ref : Reference) (force : bool) : bool :=
  if negb EnableExperimental then false
  else if force then true
  else if is_ok (anonymous_Get ref) then true
  else match tlog_Confirm with
       | Ok r => (r =?s "y") || (r =?s "Y")
       | _ => false
       end.

Definition GetAttachedImageRef (reg : Reg) (ref : Reference) (attachment : string)
    (opts : list Option_) : res Reference :=
  if attachment =?s "" then Ok ref
  else if attachment =?s "sbom" then SBOMTag reg ref opts
  else Err (error_New ("unknown attachment type " +:+ attachment)).

(** The signers that [signDigest] composes. *)
Definition signer_for (o : SignOpts) (sv : CertSigner) (digest : Reference) : res Signer :=
  let s := payload_Sign (cs_Signer sv) in
  let s := match cs_Cert sv with
           | Some _ => fulcio_Sign s (cs_Cert sv) (cs_Chain sv)
           | None => s
           end in
  if ShouldUploadToTlog digest (so_Force o) then
    rClient ← rekor_NewClient (ko_RekorURL (so_Key o)); Ok (rekor_Sign s rClient)
  else Ok s.

(** strings.Replace(digest, ":", "-", 1) *)
Definition dash (d : string) : string := strings_Join (strings_SplitN2 d ":"%char) "-".

Definition write_outputs (o : SignOpts) (sv : CertSigner) (d b64sig : string) : M SignWorld unit :=
  (if so_OutputSignature o =?s "" then mret () else
     M_wrap "create signature file"
       (os_WriteFile (if so_Recursive o then so_OutputSignature o +:+ "-" +:+ dash d
                      else so_OutputSignature o) b64sig));;
  (if so_OutputCertificate o =?s "" then mret () else
     rekorBytes ← lift (wrap "create certificate file" (CertSigner_Bytes sv));
     M_wrap "create certificate file" (os_WriteFile (so_OutputCertificate o) rekorBytes)).

(** The payload can be passed to skip generation. *)
Definition sign_payload (o : SignOpts) (digest : Reference) (payload : bytes) : res bytes :=
  if payload =?s ""
  then wrap "payload" (payload_Cosign_MarshalJSON (Reference_String digest) (so_Annotations o))
  else Ok payload.

Definition signDigest (o : SignOpts) (sv : CertSigner) (repo : Repository) (d : string)
    (payload : bytes) (se : Entity) : M SignWorld unit :=
  let digest := name_Digest repo d in
  payload ← lift (sign_payload o digest payload);
  s ← lift (signer_for o sv digest);
  '(ociSig, _) ← lift (s payload);
  b64sig ← lift (Base64Signature ociSig);
  write_outputs o sv d b64sig;;
  if negb (so_Upload o) then mret () else
  newSE ← lift (AttachSignatureToEntity (Datatypes.S (eid se)) se ociSig
                  [WithDupeDetector (dd_Find (sv_Verifier (cs_Signer sv)))]);
  walkOpts ← lift (wrap "constructing client options" (ClientOpts o));
  in_reg (WriteSignatures repo newSE walkOpts).

(** ggcr's rebuilt indices, as in [Map], and the depth of the entities. *)
Context (mutate_AppendManifests : Entity → list (Entity * Descriptor) → v1Index).
Context (depth : nat).

(** The callback of the walk.  A panic stops the walk and goes through. *)
Definition walk_state : Type := SignWorld * option string.

Definition sign_entity (o : SignOpts) (sv : CertSigner) (repo : Repository) (payload : bytes)
    (se : Entity) : M SignWorld unit :=
  d ← lift (wrap "computing digest" (Entity_Digest se));
  M_wrap "signing digest" (signDigest o sv repo (Hash_String d) payload se).

Definition ErrSkipChildren : error := error_Kind kind_SkipChildren "skip child entities".

Definition sign_callback (o : SignOpts) (sv : CertSigner) (repo : Repository) (payload : bytes)
    (_ : pass) (se : Entity) (st : walk_state) : walk_state * option error :=
  match sign_entity o sv repo payload se (fst st) with
  | (w, Ok _) => ((w, snd st), if so_Recursive o then None else Some ErrSkipChildren)
  | (w, Err e) => ((w, snd st), Some e)
  | (w, Panic why) => ((w, Some why), Some (error_New why))
  end.

Definition walk_sign (o : SignOpts) (sv : CertSigner) (repo : Repository) (payload : bytes)
    (se : Entity) : M SignWorld unit := λ w,
  match walk_SignedEntity mutate_AppendManifests
          (sign_callback o sv repo payload) (Datatypes.S (Datatypes.S depth)) NoPass se (w, None) with
  | None => (w, Panic "out of fuel")
  | Some ((w, Some why), _) => (w, Panic why)
  | Some ((w, None), Ok None) => (w, Ok ())
  | Some ((w, None), Ok (Some e)) | Some ((w, None), Err e) => (w, wrap "recursively signing" (Err e))
  | Some ((w, None), Panic why) => (w, Panic why)
  end.

Definition sign_image (o : SignOpts) (sv : CertSigner) (payload : bytes) (inputImg : string) :
    M SignWorld unit :=
  ref ← lift (wrap "parsing reference" (name_ParseReference inputImg));
  opts ← lift (wrap "constructing client options" (ClientOpts o));
  ref ← reads (λ w, map_err (λ _, error_New ("unable to resolve attachment " +:+ so_Attachment o
           +:+ " for image " +:+ inputImg)) (GetAttachedImageRef (sw_Reg w) ref (so_Attachment o) opts));
  match ref, so_Recursive o with
  | name_Digest repo d, false =>
      se ← reads (λ w, wrap "accessing image" (remote_SignedEntity depth (sw_Reg w) ref opts));
      M_wrap "signing digest" (signDigest o sv repo d payload se)
  | _, _ =>
      se ← reads (λ w, wrap "accessing entity" (remote_SignedEntity depth (sw_Reg w) ref opts));
      walk_sign o sv (ref_Context ref) payload se
  end.

Fixpoint sign_images (o : SignOpts) (sv : CertSigner) (payload : bytes) (imgs : list string) :
    M SignWorld unit :=
  match imgs with
  | [] => mret ()
  | img :: imgs' => sign_image o sv payload img;; sign_images o sv payload imgs'
  end.

Definition SignCmd (o : SignOpts) (certPath certChainPath payloadPath : string) (kw : KeyWorld)
    (imgs : list string) : M SignWorld unit :=
  let n := NOf [negb (ko_KeyRef (so_Key o) =?s ""); ko_Sk (so_Key o)] in
  lift (ensure (if EnableExperimental then bool_decide (n ≤ 1) else bool_decide (n = 1))
          (error_Kind kind_KeyParse "exactly one of: key reference (--key), or hardware token (--sk) must be provided"));;
  sv ← lift (wrap "getting signer" (SignerFromKeyOpts certPath certChainPath (so_Key o) kw));
  staticPayload ← lift (if payloadPath =?s "" then Ok ""
                        else wrap "payload from file" (os_ReadFile (filepath_Clean payloadPath)));
  sign_images o sv staticPayload imgs.

End command.

(** ** Signing an entity and what it contains *)

Section recursive.
Context `{X : Ext, TR : TrustRoot, C : CtExt, KX : KeyExt, R : Registry, S : !SignExt}.

(** The nesting of what is read from a registry is bounded, which gives the
    walk the fuel it needs. *)
Lemma depth_index id core ms k :
  (∀ desc x, (desc, Ok x) ∈ ms → OciEntity.depth x ≤ k) →
  OciEntity.depth (EIndex id core (Ok ms)) ≤ Datatypes.S k.
Proof.
  intros H. cbn. apply le_n_S. induction ms as [|[desc [x| |]] ms IH]; [lia|..].
  - apply Nat.max_lub; [eapply H; by left|]. apply IH. intros. eapply H. by right.
  - apply IH. intros. eapply H. by right.
  - apply IH. intros. eapply H. by right.
Qed.

Lemma depth_remote_index d reg id ii o opts :
  OciEntity.depth (remote_index d reg id ii o opts) ≤ Datatypes.S (Datatypes.S d).
Proof.
  induction d as [|d IH] in id, ii |- *; cbn [remote_index];
    (destruct (Index_Manifest ii) as [ms| |]; cbn [mbind res_bind]; [|cbn; lia..]); apply depth_index;
    intros desc x Hin; apply list_elem_of_lookup in Hin as [i Hin];
    rewrite list_lookup_imap in Hin; destruct (ms !! i) as [desc'|]; simplify_eq/=;
    destruct (is_index_type _); go_inv; try (cbn; lia); apply IH.
Qed.

Lemma depth_remote_entity d reg ref opts se :
  remote_SignedEntity d reg ref opts = Ok se → OciEntity.depth se ≤ Datatypes.S (Datatypes.S d).
Proof.
  unfold remote_SignedEntity. intros H. apply bind_Ok in H as ([[mt h] [img idx]] & _ & H).
  destruct (is_index_type mt), (is_image_type mt); go_inv; try apply depth_remote_index; cbn; lia.
Qed.

(** Signing a list of entities until one fails. *)
Fixpoint sign_each (o : SignOpts) (sv : CertSigner) (repo : Repository) (payload : bytes)
    (l : list Entity) : M SignWorld unit :=
  match l with
  | [] => mret ()
  | e :: l' => sign_entity o sv repo payload e;; sign_each o sv repo payload l'
  end.

Lemma run_calls_sign o sv repo payload l w :
  so_Recursive o = true →
  match run_calls (sign_callback o sv repo payload) l (w, None) with
  | ((w', None), None) => sign_each o sv repo payload (snd <$> l) w = (w', Ok ())
  | ((w', None), Some e) => sign_each o sv repo payload (snd <$> l) w = (w', Err e)
  | ((w', Some why), Some _) => sign_each o sv repo payload (snd <$> l) w = (w', Panic why)
  | ((_, Some _), None) => False
  end.
Proof.
  intros Hr. induction l as [|[p e] l IH] in w |- *; cbn; [done|].
  unfold sign_callback at 1. cbn [fst snd]. rewrite Hr.
  unfold mbind, M_bind. destruct (sign_entity o sv repo payload e w) as [w1 [[]|err|why]]; [apply IH|done..].
Qed.

(** No step of signing an entity of the tree fails with the sentinel that makes a
    walk skip an index. *)
Definition sign_no_skip (o : SignOpts) (sv : CertSigner) (repo : Repository) (payload : bytes)
    (se : Entity) : Prop :=
  ∀ p e w w' err, (p, e) ∈ preorder NoPass se →
    sign_entity o sv repo payload e w = (w', Err err) → errors_Is_SkipChildren err = false.

Lemma sign_callback_no_skip o sv repo payload se :
  so_Recursive o = true → sign_no_skip o sv repo payload se →
  no_skip (sign_callback o sv repo payload) (preorder NoPass se).
Proof.
  intros Hr Hns p e [w q] st' err Hin. unfold sign_callback. rewrite Hr. cbn [fst snd].
  destruct (sign_entity o sv repo payload e w) as [w1 [[]|err'|why]] eqn:E; intros [= _ <-]; [|done].
  by eapply Hns.
Qed.

(** C21: what `cosign sign` signs.  Without --recursive the walk signs the
    entity that the reference names and nothing below it.  With it, it signs the
    entity and every nested index and image, parents first and in manifest order,
    and stops with the first error; the walk always returns, since the nesting
    of what is read from a registry bounds it. *)
Theorem walk_sign_correct am depth o sv repo payload reg ref opts se w :
  remote_SignedEntity depth reg ref opts = Ok se → sign_no_skip o sv repo payload se →
  if so_Recursive o then
    resolved se = true →
    walk_sign am depth o sv repo payload se w
    = M_wrap "recursively signing" (sign_each o sv repo payload (snd <$> preorder NoPass se)) w
  else
    walk_sign am depth o sv repo payload se w
    = M_wrap "recursively signing" (sign_entity o sv repo payload se) w.
Proof.
  intros Hse Hns. destruct (so_Recursive o) eqn:Hr.
  - intros Hres. unfold walk_sign, walk_SignedEntity.
    rewrite (Map_preorder am (sign_callback o sv repo payload) _ NoPass se);
      [|by apply sign_callback_no_skip|done|by eapply depth_remote_entity].
    pose proof (run_calls_sign o sv repo payload (preorder NoPass se) w Hr) as H. unfold M_wrap.
    destruct (run_calls _ _ _) as [[w' [why|]] [e|]]; cbn; by rewrite ?H.
  - unfold walk_sign, walk_SignedEntity. cbn [Map]. unfold walk_fn at 1, sign_callback at 1.
    cbn [fst snd]. rewrite Hr. unfold M_wrap.
    destruct (sign_entity o sv repo payload se w) as [w1 [[]|err|why]] eqn:E; cbn; [done| |done].
    rewrite (Hns BeforeChildren se w w1 err); [done| |done]. by destruct se; left.
Qed.

End recursive.

(** ** What the signers produce *)

Section pipeline.
Context `{X : Ext, TR : TrustRoot, C : CtExt, KX : KeyExt, R : Registry, S : !SignExt,
  PL : !PemLaws, BL : !BundleJsonLaws}.

(** The certificate and the chain of a signature are those given. *)
Definition carries_cert (cert chain : option bytes) (sig : Signature) : Prop :=
  match cert with
  | None => Cert sig = Ok None ∧ Chain sig = Ok []
  | Some c =>
      (∃ c0 cs, cryptoutils_LoadCertificatesFromPEM c = Ok (c0 :: cs) ∧ Cert sig = Ok (Some c0))
      ∧ Chain sig = match chain with
                    | Some ch => cryptoutils_LoadCertificatesFromPEM ch
                    | None => Ok []
                    end
  end.

(** The signature made by [sv] over the payload. *)
Record signed_by_key (sv : SignerVerifier) (payload : bytes) (sig : Signature) : Prop := {
  sbk_Payload : Payload sig = Ok payload;
  sbk_Signature : ∃ raw, SignMessage sv payload = Ok raw
    ∧ Base64Signature sig = Ok (base64_EncodeToString raw);
  sbk_Consistent : ∃ a, Consistent sig a }.

Lemma proper_nil : proper_options (static.applied []).
Proof. split; [|done]. by intros m [= <-]. Qed.

Lemma payload_Sign_spec sv payload sig pk :
  payload_Sign sv payload = Ok (sig, pk) →
  signed_by_key sv payload sig ∧ carries_cert None None sig ∧ Bundle sig = Ok None
  ∧ Verifier_PublicKey (sv_Verifier sv) = Ok pk.
Proof.
  unfold payload_Sign. intros H. go_inv.
  destruct (NewSignature_consistent payload (base64_EncodeToString x) [] _ proper_nil eq_refl)
    as (a & Ha & Hp & Hb).
  split; [split; eauto|]. unfold static_Cert, static_Chain. cbn. by rewrite load_empty.
Qed.

Lemma fulcio_Sign_spec sv c chain payload sig pk :
  fulcio_Sign (payload_Sign sv) (Some c) chain payload = Ok (sig, pk) →
  signed_by_key sv payload sig ∧ carries_cert (Some c) chain sig ∧ Bundle sig = Ok None
  ∧ Verifier_PublicKey (sv_Verifier sv) = Ok pk.
Proof.
  unfold fulcio_Sign. intros H. apply bind_Ok in H as ([s0 pk0] & Hs & H). go_inv.
  destruct (payload_Sign_spec _ _ _ _ Hs) as ([Hp Hr [a Ha]] & [Hc Hch] & Hb & Hk).
  match goal with H : mutate.Signature _ _ = Ok _ |- _ => rename H into Hm end.
  destruct (mutate_consistent _ _ _ _ Ha ltac:(by right) Hm) as (a' & Ha' & Hp' & Hs').
  split; [split; [by rewrite Hp'|by rewrite Hs'|eauto]|].
  unfold mutate.Signature in Hm. cbn in Hm.
  apply bind_Ok in Hm as (old & Hold & Hm). go_inv.
  match goal with x : list Certificate |- _ => destruct x as [|c0 cs]; [done|] end. cbn in *.
  destruct chain as [ch|]; go_inv; cbn; (split; [split; [by eauto|done]|done]).
Qed.

(** What was uploaded, and the bundle that the signature carries for it. *)
Definition uploaded (url : string) (sv : SignerVerifier) (payload : bytes) (sig : Signature) : Prop :=
  ∃ rc raw pem entry b, rekor_NewClient url = Ok rc ∧ SignMessage sv payload = Ok raw
    ∧ (cert ← Cert sig;
       match cert with
       | Some c => cryptoutils_MarshalCertificateToPEM c
       | None => pub ← Verifier_PublicKey (sv_Verifier sv); cryptoutils_MarshalPublicKeyToPEM pub
       end) = Ok pem
    ∧ TLogUpload rc raw payload pem = Ok entry
    ∧ EntryToBundle entry = Ok b ∧ Bundle sig = Ok b.

Lemma rekor_Sign_spec url sv cert chain inner rc payload sig pk :
  rekor_NewClient url = Ok rc →
  (∀ s k, inner payload = Ok (s, k) →
     signed_by_key sv payload s ∧ carries_cert cert chain s ∧ Bundle s = Ok None
     ∧ Verifier_PublicKey (sv_Verifier sv) = Ok k) →
  rekor_Sign inner rc payload = Ok (sig, pk) →
  signed_by_key sv payload sig ∧ carries_cert cert chain sig ∧ uploaded url sv payload sig.
Proof.
  intros Hrc Hin H. unfold rekor_Sign in H. apply bind_Ok in H as ([s0 pk0] & Hs & H).
  destruct (Hin _ _ Hs) as ([Hp (raw & Hr & Hb64) [a Ha]] & Hc & Hb & Hk).
  rewrite Hp in H. cbn [mbind res_bind] in H. rewrite Hb64 in H. cbn [mbind res_bind] in H.
  rewrite base64_decode_encode in H. cbn [mbind res_bind] in H.
  apply bind_Ok in H as (ce & Hce & H). apply bind_Ok in H as (pem & Hpem & H).
  apply bind_Ok in H as (b & Hup & H). apply bind_Ok in H as (s1 & Hm & H). injection H as <- <-.
  destruct (mutate_consistent s0 a [mutate.WithBundle b] s1 Ha ltac:(by intros []) Hm) as (a' & Ha' & Hp' & Hs').
  unfold uploadToTlog in Hup. go_inv.
  unfold mutate.Signature in Hm. cbn in Hm. apply bind_Ok in Hm as (old & Hold & Hm).
  apply bind_Ok in Hm as (n1 & Hn1 & Hm). injection Hm as <-.
  split; [split; [done|by rewrite Hs'; eauto|eauto]|]. split; [exact Hc|].
  eexists rc, raw, pem, _, b. split; [done|]. split; [done|]. split.
  { cbn. rewrite Hce. cbn. destruct ce; [done|]. by rewrite Hk. }
  repeat split; try done. cbn. by destruct b.
Qed.

Lemma signers_correct_spec o sv digest s payload sig pk :
  signer_for o sv digest = Ok s → s payload = Ok (sig, pk) →
  signed_by_key (cs_Signer sv) payload sig
  ∧ carries_cert (cs_Cert sv) (match cs_Cert sv with Some _ => cs_Chain sv | None => None end) sig
  ∧ if ShouldUploadToTlog digest (so_Force o)
    then uploaded (ko_RekorURL (so_Key o)) (cs_Signer sv) payload sig
    else Bundle sig = Ok None.
Proof.
  unfold signer_for. set (inner := match cs_Cert sv with Some _ => _ | None => _ end).
  assert (Hin : ∀ s k, inner payload = Ok (s, k) → signed_by_key (cs_Signer sv) payload s
    ∧ carries_cert (cs_Cert sv) (match cs_Cert sv with Some _ => cs_Chain sv | None => None end) s
    ∧ Bundle s = Ok None ∧ Verifier_PublicKey (sv_Verifier (cs_Signer sv)) = Ok k).
  { intros s0 k. subst inner. destruct (cs_Cert sv) as [c|];
      [apply fulcio_Sign_spec|apply payload_Sign_spec]. }
  destruct (ShouldUploadToTlog digest (so_Force o)); intros Hs Hp; go_inv.
  - by eapply rekor_Sign_spec.
  - naive_solver.
Qed.

(** What `cosign sign` attaches.  Whatever signers the options compose, the
    signature is over exactly the given payload and made by the given key, it
    carries the certificate and the chain of the signer when there is one, and,
    exactly when the payload was uploaded to the transparency log, the bundle of
    the entry that the log returned for this signature, payload and certificate
    (or key); what a reader recovers from the annotations is the same. *)
Theorem signers_correct o sv digest s payload sig pk :
  signer_for o sv digest = Ok s → s payload = Ok (sig, pk) →
  signed_by_key (cs_Signer sv) payload sig
  ∧ carries_cert (cs_Cert sv) (match cs_Cert sv with Some _ => cs_Chain sv | None => None end) sig
  ∧ if ShouldUploadToTlog digest (so_Force o)
    then uploaded (ko_RekorURL (so_Key o)) (cs_Signer sv) payload sig
    else Bundle sig = Ok None.
Proof. apply signers_correct_spec. Qed.

End pipeline.

(** ** Signing, then verifying *)

Section roundtrip.
Context `{X : Ext, TR : TrustRoot, C : CtExt, KX : KeyExt, R : Registry, S : !SignExt,
  PL : !PemLaws, BL : !BundleJsonLaws, GL : !GgcrLaws, RL : !RegistryLaws}.

Lemma ClientOpts_package remoteOpts prefix opts :
  registry_ClientOpts remoteOpts prefix = Ok opts → Forall package_option opts.
Proof.
  unfold registry_ClientOpts. intros H. go_inv. repeat (apply Forall_cons; split; [constructor|]).
  apply Forall_app. split; destruct (_ =?s _); repeat constructor.
Qed.

(** An entity read from the registry answers from the registry. *)
Lemma remote_entity_signatures depth reg ref opts se :
  remote_SignedEntity depth reg ref opts = Ok se →
  Entity_Signatures se = signatures reg (Entity_Digest se) (makeOptions (ref_Context ref) opts) opts.
Proof.
  unfold remote_SignedEntity. intros H. apply bind_Ok in H as ([[mt d] [img idx]] & _ & H).
  destruct (is_index_type mt), (is_image_type mt); go_inv; by destruct depth.
Qed.

Lemma remote_entity_again depth reg reg' ref opts se :
  remoteGet reg' (ROpt (makeOptions (ref_Context ref) opts)) ref
    = remoteGet reg (ROpt (makeOptions (ref_Context ref) opts)) ref →
  remote_SignedEntity depth reg ref opts = Ok se →
  ∃ se', remote_SignedEntity depth reg' ref opts = Ok se' ∧ Entity_Digest se' = Entity_Digest se.
Proof.
  unfold remote_SignedEntity. intros ->. intros H. apply bind_Ok in H as ([[mt d] [img idx]] & -> & H).
  cbn [mbind res_bind]. destruct (is_index_type mt), (is_image_type mt); go_inv;
    repeat match goal with H : _ = Ok _ |- _ => rewrite H end; cbn [mbind res_bind];
    (eexists; split; [done|]); by destruct depth.
Qed.

(** What is pushed for a set that was read is what was read. *)
Lemma remote_Signatures_pushed reg ref opts s sl :
  remote_Signatures reg ref opts = Ok s → Get s = Ok sl → pushed s = Ok sl.
Proof.
  unfold remote_Signatures. destruct (remoteImage _ _ _) as [img|e|]; cbn; [|..|done].
  - intros [= <-]. done.
  - destruct (errors_kind e) as [[]|]; try done. destruct (decide _); [|done].
    intros [= <-] [= <-]. apply empty_reads.
Qed.

(** A signature without a bundle, made with the configured key over a payload
    that names the image, is accepted when no log is asked. *)
Lemma VerifyImageSignature_accepts co v sig h payload raw annotations :
  SigVerifier co = Some v → RekorClient co = None → ClaimVerifier co = Some SimpleClaimVerifier →
  Payload sig = Ok payload → Base64Signature sig = Ok (base64_EncodeToString raw) →
  Bundle sig = Ok None → VerifySignature v raw payload = Ok () →
  json_Unmarshal_SimpleContainerImage payload
    = Ok (mkSimpleContainerImage (Hash_String h) annotations) →
  (∀ wanted, co_Annotations co = Some wanted → correctAnnotations wanted annotations = Ok true) →
  VerifyImageSignature sig h co = (co, Ok false).
Proof.
  intros Hv Hr Hc Hp Hs Hb Hver Hj Ha.
  assert (Hcl : check_claims sig h co = Ok ()).
  { unfold check_claims. rewrite Hc. unfold SimpleClaimVerifier. rewrite Hp. cbn. rewrite Hj. cbn.
    rewrite str_eqb_refl. cbn. destruct (co_Annotations co) as [wanted|]; [|done].
    by rewrite (Ha _ eq_refl). }
  assert (Hlog : verify_log sig co = Ok false).
  { unfold verify_log, VerifyBundle. rewrite Hb. cbn. by rewrite Hr. }
  unfold VerifyImageSignature, sig_verifier, verifyOCISignature, lift, reads, mbind, M_bind.
  rewrite Hv, Hs. cbn. rewrite base64_decode_encode. cbn. rewrite Hp. cbn. rewrite Hver.
  rewrite Hcl. cbn. by rewrite Hlog.
Qed.

Lemma in_reg_Ok {A} (m : M Reg A) w w' a :
  in_reg m w = (w', Ok a) → m (sw_Reg w) = (sw_Reg w', Ok a) ∧ sw_Files w' = sw_Files w.
Proof. unfold in_reg. destruct (m (sw_Reg w)) as [r b]. by intros [= <- ->]. Qed.

Lemma os_WriteFile_reg path b w w' : os_WriteFile path b w = (w', Ok ()) → sw_Reg w' = sw_Reg w.
Proof. unfold os_WriteFile. intros H. M_inv. done. Qed.

Lemma write_outputs_reg o sv d b w w' :
  write_outputs o sv d b w = (w', Ok ()) → sw_Reg w' = sw_Reg w.
Proof.
  unfold write_outputs. intros H. apply M_bind_Ok in H as (w1 & [] & H1 & H2).
  transitivity (sw_Reg w1).
  - destruct (so_OutputCertificate o =?s ""); M_inv; [done|]. by eapply os_WriteFile_reg.
  - destruct (so_OutputSignature o =?s ""); M_inv; [done|]. by eapply os_WriteFile_reg.
Qed.

(** What a run of [signDigest] that uploads has done. *)
Lemma signDigest_run o sv repo d payload se w w' :
  signDigest o sv repo d payload se w = (w', Ok ()) → so_Upload o = true →
  ∃ p s sig pk opts e',
    sign_payload o (name_Digest repo d) payload = Ok p
    ∧ signer_for o sv (name_Digest repo d) = Ok s ∧ s p = Ok (sig, pk) ∧ ClientOpts o = Ok opts
    ∧ AttachSignatureToEntity (Datatypes.S (eid se)) se sig
        [WithDupeDetector (dd_Find (sv_Verifier (cs_Signer sv)))] = Ok e'
    ∧ WriteSignatures repo e' opts (sw_Reg w) = (sw_Reg w', Ok ()).
Proof.
  unfold signDigest. intros H Hu.
  apply M_bind_Ok in H as (? & p & [Hp ->]%lift_Ok & H).
  apply M_bind_Ok in H as (? & s & [Hs ->]%lift_Ok & H).
  apply M_bind_Ok in H as (? & [sig pk] & [Hsig ->]%lift_Ok & H).
  apply M_bind_Ok in H as (? & b64 & [Hb ->]%lift_Ok & H).
  apply M_bind_Ok in H as (w1 & [] & Hw & H). rewrite Hu in H. cbn [negb] in H.
  apply M_bind_Ok in H as (? & e' & [He ->]%lift_Ok & H).
  apply M_bind_Ok in H as (? & opts & [Ho ->]%lift_Ok & H).
  apply in_reg_Ok in H as [H _]. rewrite (write_outputs_reg _ _ _ _ _ _ Hw) in H. apply wrap_Ok in Ho.
  exists p, s, sig, pk, opts, e'. done.
Qed.

(** What is relied on: the verifier of a key accepts what the key signed, and
    the payload names the digest and carries the annotations. *)
Class SignLaws (sv : SignerVerifier) (repo : Repository) (d : string) (a : gmap string any) :
    Prop := {
  sign_verifies m raw :
    SignMessage sv m = Ok raw → VerifySignature (sv_Verifier sv) raw m = Ok ();
  payload_json p :
    payload_Cosign_MarshalJSON (Reference_String (name_Digest repo d)) a = Ok p →
    json_Unmarshal_SimpleContainerImage p = Ok (mkSimpleContainerImage d a) }.

(** The options of a verification with the key [v] that asks no log. *)
Record key_check (v : Verifier) (opts : list Option_) (annotations : gmap string any)
    (co : CheckOpts) : Prop := {
  kc_SigVerifier : SigVerifier co = Some v;
  kc_RekorClient : RekorClient co = None;
  kc_ClaimVerifier : ClaimVerifier co = Some SimpleClaimVerifier;
  kc_RegistryClientOpts : RegistryClientOpts co = opts;
  kc_SignatureRef : SignatureRef co = "";
  kc_Annotations wanted :
    co_Annotations co = Some wanted → correctAnnotations wanted annotations = Ok true }.

(** An entity after a set was written for it: the entity is read as before, and
    the set is what was pushed. *)
Lemma write_set_again depth repo d set suffix opts reg reg' se h :
  Forall package_option opts →
  write_set repo set (Ok h) suffix opts reg = (reg', Ok ()) →
  remote_SignedEntity depth reg (name_Digest repo d) opts = Ok se → Entity_Digest se = Ok h →
  let o := makeOptions repo opts in
  ∃ s se' s', set = Ok s ∧ remote_SignedEntity depth reg' (name_Digest repo d) opts = Ok se'
    ∧ Entity_Digest se' = Ok h ∧ Get s' = pushed s
    ∧ remote_Signatures reg' (name_Tag (TargetRepository o) (normalize h (TagPrefix o) (suffix o)))
        opts = Ok s'.
Proof.
  intros Hpk Hw Hse Hh o.
  assert (∃ s, set = Ok s) as [s ->] by (unfold write_set in Hw; M_inv; eauto).
  destruct (write_set_read _ _ _ _ _ _ _ _ _ Hpk Hw eq_refl eq_refl) as [(s' & Hr & Hg') _].
  assert (Hget : remoteGet reg' (ROpt (makeOptions repo opts)) (name_Digest repo d)
    = remoteGet reg (ROpt (makeOptions repo opts)) (name_Digest repo d)).
  { unfold write_set in Hw. M_inv. unfold remote_SignedEntity in Hse.
    apply bind_Ok in Hse as (x & Hx%not_found_Ok & _). cbn in Hx. rewrite Hx. by eapply write_keeps. }
  destruct (remote_entity_again _ _ _ (name_Digest repo d) _ _ Hget Hse) as (se' & Hse' & Hdd).
  exists s, se', s'. rewrite Hdd, Hh. done.
Qed.

(** The image after it was signed: what a reader of the registry finds. *)
Lemma signDigest_published o sv repo d payload depth se h base sl opts w w' :
  signDigest o sv repo d payload se w = (w', Ok ()) → so_Upload o = true → ClientOpts o = Ok opts →
  remote_SignedEntity depth (sw_Reg w) (name_Digest repo d) opts = Ok se →
  Entity_Digest se = Ok h → Entity_Signatures se = Ok base → Get base = Ok sl →
  ∃ p s sig pk se' s',
    sign_payload o (name_Digest repo d) payload = Ok p
    ∧ signer_for o sv (name_Digest repo d) = Ok s ∧ s p = Ok (sig, pk)
    ∧ remote_SignedEntity depth (sw_Reg w') (name_Digest repo d) opts = Ok se'
    ∧ Entity_Digest se' = Ok h ∧ Entity_Signatures se' = Ok s'
    ∧ ((∃ dup, dup ∈ sl ∧ Duplicate (sv_Verifier (cs_Signer sv)) sig dup ∧ Get s' = Ok sl)
       ∨ ∃ new, same_signature sig new ∧ Get s' = Ok (sl ++ [new])).
Proof.
  intros H Hu Ho Hse Hh Hb Hg.
  destruct (signDigest_run _ _ _ _ _ _ _ _ H Hu) as (p & s & sig & pk & opts' & e' & Hp & Hs & Hsig & Ho' & Ha & Hw).
  rewrite Ho in Ho'. injection Ho' as <-.
  destruct (signers_correct_spec _ _ _ _ _ _ _ Hs Hsig) as ([_ _ Hc] & _).
  pose proof (ClientOpts_package _ _ _ Ho) as Hpk.
  assert (Hpu : pushed base = Ok sl).
  { rewrite (remote_entity_signatures _ _ _ _ _ Hse), Hh in Hb. cbn in Hb.
    by eapply remote_Signatures_pushed. }
  unfold WriteSignatures in Hw. assert (Hd' : Entity_Digest e' = Ok h) by (by rewrite (AttachSignatureToEntity_digest _ _ _ _ _ Ha)).
  rewrite Hd' in Hw.
  destruct (write_set_again _ _ _ _ _ _ _ _ _ _ Hpk Hw Hse Hh) as (s1 & se' & s' & Hs1 & Hse' & Hdd & Hg' & Hr).
  exists p, s, sig, pk, se', s'. do 5 (split; [done|]). split.
  { rewrite (remote_entity_signatures _ _ _ _ _ Hse'), Hdd. exact Hr. }
  rewrite Hg'.
  destruct (attach_signature_published _ _ _ _ _ _ _ _ _ Ha Hb Hg Hpu Hc Hs1)
    as [(dup & ?)|(_ & new & ?)]; eauto.
Qed.

(** C15: what `cosign sign` publishes, `cosign verify` accepts.  After an image
    given by digest was signed with a key, without the transparency log, a
    verification with the key's verifier succeeds, and lists a signature with
    the payload that was signed, unless the image already carried a duplicate of
    the signature, in which case the published set is unchanged. *)
Theorem sign_then_verify am depth o sv img repo d opts co w w' se h base sl :
  SignLaws (cs_Signer sv) repo d (so_Annotations o) → name_ParseReference img = Ok (name_Digest repo d) →
  so_Attachment o = "" → so_Recursive o = false → so_Upload o = true → cs_Cert sv = None →
  ShouldUploadToTlog (name_Digest repo d) (so_Force o) = false → ClientOpts o = Ok opts →
  remote_SignedEntity depth (sw_Reg w) (name_Digest repo d) opts = Ok se →
  Entity_Digest se = Ok h → Hash_String h = d → Entity_Signatures se = Ok base → Get base = Ok sl →
  key_check (sv_Verifier (cs_Signer sv)) opts (so_Annotations o) co →
  (∀ s, s ∈ sl → is_panic (verdict (λ s, VerifyImageSignature s h) co s) = false) →
  sign_image am depth o sv "" img w = (w', Ok ()) →
  ∃ p sig, sign_payload o (name_Digest repo d) "" = Ok p ∧ Payload sig = Ok p
    ∧ ((∃ dup se' s', dup ∈ sl ∧ Duplicate (sv_Verifier (cs_Signer sv)) sig dup
           ∧ remote_SignedEntity depth (sw_Reg w') (name_Digest repo d) opts = Ok se'
           ∧ Entity_Signatures se' = Ok s' ∧ Get s' = Ok sl)
       ∨ ∃ l b new, snd (VerifyImageSignatures depth (sw_Reg w') (name_Digest repo d) co) = Ok (l, b)
           ∧ new ∈ l ∧ same_signature sig new).
Proof.
  intros HL Hpr Hat Hrec Hup Hcert Htl Ho Hse Hh Hd Hb Hg [K1 K2 K3 K4 K5 K6] Hnp H.
  assert (Hsd : signDigest o sv repo d "" se w = (w', Ok ())).
  { unfold sign_image in H. M_inv. rewrite Hpr in *. rewrite Ho in *. simplify_eq.
    unfold GetAttachedImageRef in *. rewrite Hat in *. cbn in *. simplify_eq/=. rewrite Hrec in *.
    M_inv. congruence. }
  destruct (signDigest_published _ _ _ _ _ _ _ _ _ _ _ _ _ Hsd Hup Ho Hse Hh Hb Hg)
    as (p & s & sig & pk & se' & s' & Hp & Hs & Hsig & Hse' & Hh' & Hs' & Hpub).
  destruct (signers_correct_spec _ _ _ _ _ _ _ Hs Hsig) as ([Hpay (raw & Hraw & Hb64) _] & _ & Hbun).
  rewrite Htl in Hbun. exists p, sig. split; [done|]. split; [done|].
  destruct Hpub as [(dup & Hin & Hdup & Hg')|(new & Hsame & Hg')];
    [left; exists dup, se', s'; done|right].
  destruct Hsame as (E1 & E2 & E3 & E4 & E5).
  assert (Hv : verdict (λ s, VerifyImageSignature s h) co new = Ok false).
  { unfold verdict. rewrite (VerifyImageSignature_accepts _ _ _ _ p raw (so_Annotations o) K1 K2 K3);
      try done; try congruence.
    - by eapply sign_verifies.
    - unfold sign_payload in Hp. cbn in Hp. apply wrap_Ok in Hp. rewrite Hd.
      by apply payload_json. }
  destruct (verify_set_accepts "no matching signatures:" VerifyImageSignature s' sl new h co false)
    as (l & bv & Hvs & Hin); [intros; apply VerifyImageSignature_independent|done..|].
  exists l, bv, new. split; [|repeat split; congruence].
  unfold VerifyImageSignatures, require_verifier, no_verifier, getSignedEntity, reads, gets, lift, mbind, M_bind.
  rewrite K1, K4, K5, Hse'. cbn [mbind res_bind]. rewrite Hh'. cbn.
  destruct (RootCerts co); cbn; rewrite Hs'; cbn; by rewrite str_eqb_refl.
Qed.

End roundtrip.

(** ** The certificate of a signer *)

Section certificate.
Context `{X : Ext, TR : TrustRoot, C : CtExt, KX : KeyExt, R : Registry, S : !SignExt}.

(** The certificate is for the key that signs. *)
Definition matches_key (k : SignerVerifier) (leaf : Certificate) : Prop :=
  ∃ pk, Verifier_PublicKey (sv_Verifier k) = Ok pk ∧ cryptoutils_EqualKeys pk (cert_PublicKey leaf) = true.

(** The chain leads from the certificate to its own last certificate, and the
    certificate timestamp that the certificate embeds, if any, is valid. *)
Definition chain_valid (leaf : Certificate) (chain : bytes) : Prop :=
  ∃ certs root, cryptoutils_LoadCertificatesFromPEM chain = Ok certs ∧ last certs = Some root
    ∧ is_ok (TrustedCert leaf (Some [root]) (Some (slice_init certs))) = true
    ∧ (ContainsSCT (cert_Raw leaf) = Ok true → VerifyEmbeddedSCT (leaf :: certs) = Ok ()).

Lemma token_cert_sound keyRef k leaf pem :
  token_cert keyRef k = Ok (Some (leaf, pem)) →
  matches_key k leaf ∧ cryptoutils_MarshalCertificateToPEM leaf = Ok pem.
Proof. unfold token_cert, matches_key. intros H. repeat case_match; go_inv; eauto. Qed.

Lemma flag_cert_sound certPath k leaf pem :
  flag_cert certPath k = Ok (leaf, pem) →
  matches_key k leaf ∧ cryptoutils_MarshalCertificateToPEM leaf = Ok pem.
Proof.
  unfold flag_cert, matches_key. intros H.
  apply bind_Ok in H as (b & _ & H). apply bind_Ok in H as (b' & _ & H). go_inv. eauto.
Qed.

Lemma flag_chain_sound path leaf chain : flag_chain path leaf = Ok chain → chain_valid leaf chain.
Proof.
  unfold flag_chain, chain_valid. intros H.
  apply bind_Ok in H as (b & _ & H). apply bind_Ok in H as (certs & Hl & H). apply wrap_Ok in Hl.
  destruct (last certs) as [root|] eqn:Hlast; [|done].
  apply bind_Ok in H as (cs & Ht & H). apply wrap_Ok in Ht.
  apply bind_Ok in H as (c & Hc & H). apply bind_Ok in H as ([] & Hv & H). injection H as <-.
  exists certs, root. rewrite Ht. repeat split; try done.
  rewrite Hc. by intros [= ->].
Qed.

Lemma signerFromKeyRef_spec certPath certChainPath keyRef pf w cs :
  signerFromKeyRef certPath certChainPath keyRef pf w = Ok cs →
  SignerVerifierFromKeyRef keyRef pf w = Ok (cs_Signer cs)
  ∧ (certPath ≠ "" → cs_Cert cs ≠ None) ∧ (cs_Chain cs = None ↔ certChainPath = "")
  ∧ match cs_Cert cs with
    | None => cs_Chain cs = None
    | Some pem => ∃ leaf, matches_key (cs_Signer cs) leaf
        ∧ cryptoutils_MarshalCertificateToPEM leaf = Ok pem
        ∧ ∀ chain, cs_Chain cs = Some chain → chain_valid leaf chain
    end.
Proof.
  unfold signerFromKeyRef. intros H.
  apply bind_Ok in H as (k & Hk & H). apply wrap_Ok in Hk.
  apply bind_Ok in H as (tok & Ht & H). apply bind_Ok in H as (leaf & Hl & H).
  assert (Hleaf : (certPath ≠ "" → leaf ≠ None) ∧ ∀ c pem, leaf = Some (c, pem) →
    matches_key k c ∧ cryptoutils_MarshalCertificateToPEM c = Ok pem).
  { destruct (certPath =?s "") eqn:E; cbn in Hl.
    - apply str_eqb_eq in E as ->. injection Hl as <-. split; [done|].
      intros c pem ->. by eapply token_cert_sound.
    - apply fmap_Ok in Hl as ([c p] & Hf & ->). split; [done|].
      intros c' pem [= <- <-]. by eapply flag_cert_sound. }
  destruct Hleaf as [Hne Hm]. destruct (certChainPath =?s "") eqn:Ec.
  - apply str_eqb_eq in Ec as ->. injection H as <-. cbn. destruct leaf as [[c pem]|]; [|naive_solver].
    destruct (Hm _ _ eq_refl). split_and!; try done. by exists c.
  - apply str_eqb_neq in Ec. destruct leaf as [[c pem]|]; [|done].
    apply bind_Ok in H as (ch & Hch & H). injection H as <-. cbn. destruct (Hm _ _ eq_refl).
    split_and!; try done. exists c. split_and!; try done. intros ? [= <-]. by eapply flag_chain_sound.
Qed.

(** The signer signs and verifies as the pair of the private key does. *)
Definition signs_with (priv : PrivateKey) (k : SignerVerifier) : Prop :=
  ∃ sv, signature_LoadSignerVerifier priv = Ok sv ∧ SignMessage k = SignMessage sv
    ∧ VerifySignature (sv_Verifier k) = VerifySignature (sv_Verifier sv).

(** What Fulcio returned for the key: the certificate, the chain and the timestamp. *)
Definition certified (priv : PrivateKey) (cert chain sct : bytes) : Prop :=
  ∃ pub proof raw, x509_MarshalPKIXPublicKey (priv_Public priv) = Ok pub
    ∧ fulcio_SigningCert pub proof raw = Ok (cert, chain, sct).

Lemma fulcio_NewSigner_sound tok fs :
  fulcio_NewSigner tok = Ok fs →
  ∃ priv, GeneratePrivateKey = Ok priv ∧ signs_with priv (fs_signer fs)
    ∧ certified priv (fs_Cert fs) (fs_Chain fs) (fs_SCT fs).
Proof.
  unfold fulcio_NewSigner. intros H. apply bind_Ok in H as (priv & Hp%wrap_Ok & H).
  apply bind_Ok in H as (sv & Hsv & H). apply bind_Ok in H as ([[c ch] sct] & Hg%wrap_Ok & H).
  injection H as <-. exists priv. split; [done|]. split; [by exists sv|].
  unfold GetCert in Hg. destruct (_ || _); [|done]. unfold getCertForOauthID in Hg.
  apply bind_Ok in Hg as (pub & Hpub & Hg). apply bind_Ok in Hg as ([subj raw] & _ & Hg).
  apply bind_Ok in Hg as (proof & _ & Hg). by exists pub, proof, raw.
Qed.

Lemma keylessSigner_sound ko cs :
  keylessSigner ko = Ok cs →
  ∃ priv cert chain sct, cs_Cert cs = Some cert ∧ cs_Chain cs = Some chain
    ∧ GeneratePrivateKey = Ok priv ∧ signs_with priv (cs_Signer cs) ∧ certified priv cert chain sct
    ∧ (ko_InsecureSkipFulcioVerify ko = false → VerifySCT cert chain sct = Ok ()).
Proof.
  unfold keylessSigner. intros H. apply bind_Ok in H as ([] & _ & H).
  apply bind_Ok in H as (tok & _ & H). apply bind_Ok in H as (fs & Hf%wrap_Ok & H).
  assert (Hn : fulcio_NewSigner tok = Ok fs
    ∧ (ko_InsecureSkipFulcioVerify ko = false → VerifySCT (fs_Cert fs) (fs_Chain fs) (fs_SCT fs) = Ok ())).
  { destruct (ko_InsecureSkipFulcioVerify ko); [done|]. unfold fulcioverifier_NewSigner in Hf.
    apply bind_Ok in Hf as (fs' & Hn & Hf). by apply bind_Ok in Hf as ([] & Hv%wrap_Ok & [= ->]). }
  destruct Hn as [(priv & Hp & Hs & Hc)%fulcio_NewSigner_sound Hsct].
  injection H as <-. by exists priv, (fs_Cert fs), (fs_Chain fs), (fs_SCT fs).
Qed.

(** C28: the key of a signer and the certificate that it publishes.  With --sk, the signer
    is the key of the token's slot, the certificate is the one the token gives, if it
    gives one, and there is no chain; the code does not compare the two.  With a key
    reference, the signer is the referenced key, a certificate that is attached carries
    the public key of the signer, and a chain is attached exactly when one was given,
    with a leaf, and leads from the leaf to its last certificate; if the leaf embeds a
    certificate timestamp, that is valid.  A keyless signer signs with a newly generated
    key and attaches the certificate and the chain that Fulcio returned for the public
    half of that key, and unless the check is switched off the certificate timestamp
    that came with them was verified. *)
Theorem SignerFromKeyOpts_sound certPath certChainPath ko w cs :
  SignerFromKeyOpts certPath certChainPath ko w = Ok cs →
  if ko_Sk ko then
    cs_Chain cs = None ∧ ∃ tokenCert, piv_Key (ko_Slot ko) = Ok (Ok (cs_Signer cs), tokenCert)
      ∧ match cs_Cert cs with
        | None => is_ok tokenCert = false
        | Some pem => ∃ c, tokenCert = Ok c ∧ cryptoutils_MarshalCertificateToPEM c = Ok pem
        end
  else if ko_KeyRef ko =?s "" then
    ∃ priv cert chain sct, cs_Cert cs = Some cert ∧ cs_Chain cs = Some chain
      ∧ GeneratePrivateKey = Ok priv ∧ signs_with priv (cs_Signer cs) ∧ certified priv cert chain sct
      ∧ (ko_InsecureSkipFulcioVerify ko = false → VerifySCT cert chain sct = Ok ())
  else
    SignerVerifierFromKeyRef (ko_KeyRef ko) (ko_PassFunc ko) w = Ok (cs_Signer cs)
    ∧ (certPath ≠ "" → cs_Cert cs ≠ None) ∧ (cs_Chain cs = None ↔ certChainPath = "")
    ∧ match cs_Cert cs with
      | None => cs_Chain cs = None
      | Some pem => ∃ leaf, matches_key (cs_Signer cs) leaf
          ∧ cryptoutils_MarshalCertificateToPEM leaf = Ok pem
          ∧ ∀ chain, cs_Chain cs = Some chain → chain_valid leaf chain
      end.
Proof.
  unfold SignerFromKeyOpts. intros H. destruct (ko_Sk ko).
  - unfold signerFromSecurityKey in H. apply bind_Ok in H as ([key tc] & Hk & H).
    apply bind_Ok in H as (sv & -> & H). apply bind_Ok in H as (pem & Hp & H). injection H as <-.
    split; [done|]. exists tc. split; [done|]. cbn.
    destruct tc as [c|e|]; [|by injection Hp as <-|done]. apply fmap_Ok in Hp as (p & Hp & ->). eauto.
  - destruct (ko_KeyRef ko =?s "") eqn:E; cbn in H;
      [by apply keylessSigner_sound|by apply signerFromKeyRef_spec in H].
Qed.

End certificate.

(** ** Witnesses *)

Definition toy_Sign : SignExt (R := toy_Registry) := {|
  dsse_PAE t p := t +:+ p;
  json_Marshal_Envelope e := Ok (env_Payload e);
  x509_ParseCertificate b := Ok (toy_cert b);
  cryptoutils_EqualKeys k k' := bool_decide (k = k');
  providers_Enabled := false;
  providers_Provide _ := Err (error_New "no provider");
  oauth_Connect _ t := Ok ("subject", t);
  stdin_IsTerminal := true;
  ecdsa_SignASN1 _ b := Ok b;
  fulcio_NewClient _ := Ok ();
  fulcio_SigningCert _ _ _ := Ok ("g", "root", "");
  rekor_NewClient _ := Ok toy_rekor;
  anonymous_Get _ := Ok ();
  tlog_Confirm := Ok "y" |}.

Definition toy_sv : SignerVerifier :=
  mkSignerVerifier (λ m, Ok ("k:" +:+ m)) (toy_verifier (toy_key "k")).
Definition toy_so : SignOpts (R := toy_Registry) :=
  mkSignOpts (mkKeyOpts false "" "cosign.key" "" "" "" false toy_pass "") [] "" ∅ true "" "" false false "".
Definition toy_sign_world : SignWorld (R := toy_Registry) :=
  mkSignWorld (R := toy_Registry) (λ r, if decide (r = name_Digest "repo" "sha256:d")
                                        then Some [] else None) ∅.

(** The certificate "k" for the key "k", given with --cert. *)
Definition toy_cs (cert : option bytes) : CertSigner := mkCertSigner cert None toy_sv.

Lemma signers_correct_witness :
  ∃ sig, signed_by_key (X := toy) toy_sv "payload" sig
    ∧ Bundle (X := toy) sig = Ok None ∧ Cert (X := toy) sig = Ok (Some (toy_cert "c")).
Proof.
  destruct (signers_correct (X := toy) (TR := toy_TrustRoot) (R := toy_Registry) (S := toy_Sign) toy_so (toy_cs (Some "c"))
    (name_Digest "repo" "sha256:d") _ "payload" _ _ eq_refl eq_refl) as (Hk & [(c0 & cs & Hl & Hc) _] & Hb).
  eexists. split; [exact Hk|]. split; [exact Hb|]. injection Hl as <- <-. exact Hc.
Defined.

(** A verification with the key "k". *)
Definition toy_sign_co : CheckOpts (R := toy_Registry) :=
  mkCheckOpts (R := toy_Registry) [WithRemoteOptions []] None (Some (SimpleClaimVerifier (X := toy)))
    None (Some (toy_verifier (toy_key "k"))) None None "" "" false "" [].

Lemma sign_then_verify_witness :
  ∃ w' l b, sign_image (X := toy) (TR := toy_TrustRoot) (KX := toy_Keys) (R := toy_Registry) (S := toy_Sign) toy_AppendManifests 1 toy_so
      (toy_cs None) "" "repo@sha256:d" toy_sign_world = (w', Ok ())
    ∧ snd (VerifyImageSignatures (X := toy) (TR := toy_TrustRoot) (C := toy_Ct) (R := toy_Registry) 1
        (sw_Reg w') (name_Digest "repo" "sha256:d") toy_sign_co)
      = Ok (l, b) ∧ l ≠ [].
Proof.
  destruct (ok_run (sign_image (X := toy) (TR := toy_TrustRoot) (KX := toy_Keys) (R := toy_Registry) (S := toy_Sign) toy_AppendManifests
    1 toy_so (toy_cs None) "" "repo@sha256:d" toy_sign_world))
    as (w' & [] & Hs); [vm_compute; reflexivity|].
  assert (HL : SignLaws (X := toy) (cs_Signer (toy_cs None)) "repo" "sha256:d"
    (so_Annotations toy_so)).
  { split; [|by intros p [= <-]]. intros m raw [= <-]. cbn. unfold toy_verify. cbn.
    by rewrite str_eqb_refl. }
  assert (HK : key_check (X := toy) (R := toy_Registry) (sv_Verifier (cs_Signer (toy_cs None)))
    [WithRemoteOptions []] (so_Annotations toy_so) toy_sign_co) by (by split).
  assert (Hnp : ∀ s, s ∈ ([] : list Signature) → is_panic (verdict (λ s,
    VerifyImageSignature (X := toy) (TR := toy_TrustRoot) (C := toy_Ct) (R := toy_Registry) s
      (mkHash "sha256" "d")) toy_sign_co s) = false) by (by intros s Hin%elem_of_nil).
  destruct (sign_then_verify (X := toy) (TR := toy_TrustRoot) (C := toy_Ct) (KX := toy_Keys)
    (R := toy_Registry) (S := toy_Sign) _ 1 toy_so (toy_cs None) "repo@sha256:d" "repo" "sha256:d"
    [WithRemoteOptions []] toy_sign_co toy_sign_world w' _ (mkHash "sha256" "d") _ [] HL eq_refl eq_refl
    eq_refl eq_refl eq_refl eq_refl eq_refl eq_refl eq_refl eq_refl eq_refl eq_refl HK Hnp Hs)
    as (p & sig & _ & _ & [(dup & se & s & Hin & _)|(l & b & new & Hv & Hin & _)]).
  - by apply elem_of_nil in Hin.
  - exists w', l, b. split; [exact Hs|]. split; [exact Hv|]. intros ->. by apply elem_of_nil in Hin.
Defined.

Lemma SignerFromKeyOpts_sound_witness :
  ∃ cs cert chain sct priv, SignerFromKeyOpts (X := toy) (TR := toy_TrustRoot) (C := toy_Ct) (KX := toy_Keys)
      (R := toy_Registry) (S := toy_Sign) "" "" (mkKeyOpts false "" "" "" "" "token" false toy_pass "")
      (files ∅) = Ok cs
    ∧ cs_Cert cs = Some cert ∧ signs_with (KX := toy_Keys) priv (cs_Signer cs)
    ∧ VerifySCT (X := toy) (TR := toy_TrustRoot) (C := toy_Ct) cert chain sct = Ok ().
Proof.
  destruct (ok_res (SignerFromKeyOpts (X := toy) (TR := toy_TrustRoot) (C := toy_Ct) (KX := toy_Keys)
    (R := toy_Registry) (S := toy_Sign) "" "" (mkKeyOpts false "" "" "" "" "token" false toy_pass "")
    (files ∅))) as [cs Hs]; [vm_compute; reflexivity|].
  destruct (SignerFromKeyOpts_sound (X := toy) (TR := toy_TrustRoot) (C := toy_Ct) (KX := toy_Keys)
    (R := toy_Registry) (S := toy_Sign) _ _ (mkKeyOpts _ _ _ _ _ _ _ _ _) _ cs Hs)
    as (priv & cert & chain & sct & Hc & _ & _ & Hsign & _ & Hv).
  exists cs, cert, chain, sct, priv. split; [exact Hs|]. split; [exact Hc|]. split; [exact Hsign|]. by apply Hv.
Defined.

(** The index "index", signed with the image it holds. *)
Definition toy_rec_so : SignOpts (R := toy_Registry) :=
  mkSignOpts (mkKeyOpts false "" "cosign.key" "" "" "" false toy_pass "") [] "" ∅ true "" "" false true "".
Definition toy_index_ref : Reference := name_Tag "index" "latest".

Lemma walk_sign_correct_witness :
  ∃ se, remote_SignedEntity (R := toy_Registry) 1 (λ _, None) toy_index_ref [] = Ok se
    ∧ length (preorder NoPass se) = 2
    ∧ ∀ w, walk_sign (X := toy) (TR := toy_TrustRoot) (KX := toy_Keys) (R := toy_Registry) (S := toy_Sign)
        toy_AppendManifests 1 toy_rec_so (toy_cs None) "index" "" se w
      = M_wrap "recursively signing" (sign_each (X := toy) (TR := toy_TrustRoot) (KX := toy_Keys)
          (R := toy_Registry) (S := toy_Sign) toy_rec_so (toy_cs None) "index" ""
          (snd <$> preorder NoPass se)) w.
Proof.
  eexists. split; [reflexivity|]. split; [reflexivity|]. intros w.
  refine (walk_sign_correct (X := toy) (TR := toy_TrustRoot) (KX := toy_Keys)
    (R := toy_Registry) (S := toy_Sign) toy_AppendManifests 1 toy_rec_so
    (toy_cs None) "index" "" (λ _, None) toy_index_ref [] _ w eq_refl _ eq_refl).
  intros p e w0 w' err Hin He. exfalso. apply (f_equal (is_ok ∘ snd)) in He. cbn [is_ok snd compose] in He.
  cbn in Hin. repeat (apply elem_of_cons in Hin as [[= -> ->]|Hin]; [vm_compute in He; done|]).
  by apply elem_of_nil in Hin.
Defined.
