(* ===== verification/Credentials.v ===== *)
(** * Where tokens, passwords and public keys come from

    pkg/providers (the registry of OIDC providers and the five providers),
    pkg/cosign/common.go and generate_key_pair.go (passwords), and
    cmd/cosign/cli/publickey/public_key.go (the public-key command).

    A provider is a record of its two methods.  [range] over the map of providers
    visits them in an order of its own, which is an argument. *)
From S2P Require Import Prelude GoStd External Concrete OciSignature OciSignatures OciEntity.
From S2P Require Import OciRemote Tuf Tlog Ctl Verify Keys Sign.

Class CredentialExt := {
  os_Stat_ok : string → bool;
  (* GET of a URL with an Authorization header: the field "value" of the answer *)
  http_GetValue : string → string → res string;
  idtoken_Token : string → res string;                     (* audience *)
  impersonate_Token : string → string → res string;        (* target, audience *)
  spiffe_FetchJWTSVID : string → string → res string;      (* address, audience *)
  unicode_space : string → string;                         (* TrimSpace of other than ASCII *)
  term_IsTerminal : bool;
  stdin_All : res bytes }.

(** ** Providers *)

Record Provider := mkProvider { p_Enabled : bool; p_Provide : string → res string }.

Section credentials.
Context `{X : Ext, KX : KeyExt, D : CredentialExt}.

Definition Register (name : string) (p : Provider) : M (gmap string Provider) unit :=
  λ providers,
    match providers !! name with
    | Some _ => (providers, Panic ("duplicate provider for name " +:+ name))
    | None => (<[name := p]> providers, Ok ())
    end.

Definition Enabled (order : list Provider) : bool := existsb p_Enabled order.

(** [err] is the error of the last provider that failed. *)
Fixpoint provide_loop (audience : string) (order : list Provider) (err : option error) : res string :=
  match order with
  | [] =>
      Err (default (error_New "no providers are enabled, check providers.Enabled() before providers.Provide()")
             err)
  | p :: order' =>
      if negb (p_Enabled p) then provide_loop audience order' err
      else catch (p_Provide p audience) (λ e, provide_loop audience order' (Some e)) Ok
  end.
Definition Provide (order : list Provider) (audience : string) : res string :=
  provide_loop audience order None.

(** *** The providers *)

Definition RequestTokenEnvKey := "ACTIONS_ID_TOKEN_REQUEST_TOKEN".
Definition RequestURLEnvKey := "ACTIONS_ID_TOKEN_REQUEST_URL".
Definition githubActions : Provider :=
  mkProvider (negb (os_Getenv RequestTokenEnvKey =?s "") && negb (os_Getenv RequestURLEnvKey =?s ""))
    (λ audience, http_GetValue (os_Getenv RequestURLEnvKey +:+ "&audience=" +:+ audience)
                   ("bearer " +:+ os_Getenv RequestTokenEnvKey)).

Definition FilesystemTokenPath := "/var/run/sigstore/cosign/oidc-token".
Definition filesystem : Provider :=
  mkProvider (os_Stat_ok FilesystemTokenPath) (λ _, os_ReadFile FilesystemTokenPath).

Definition gceProductNameFile := "/sys/class/dmi/id/product_name".
Definition googleWorkloadIdentity : Provider :=
  mkProvider
    (match os_ReadFile gceProductNameFile with
     | Ok data =>
         let name := strings_TrimSpace unicode_space data in
         ((name =?s "Google") || (name =?s "Google Compute Engine")) && is_ok (idtoken_Token "garbage")
     | _ => false
     end)
    idtoken_Token.

Definition googleImpersonate : Provider :=
  mkProvider (negb (os_Getenv "GOOGLE_SERVICE_ACCOUNT_NAME" =?s ""))
    (impersonate_Token (os_Getenv "GOOGLE_SERVICE_ACCOUNT_NAME")).

Definition defaultSocketPath := "/tmp/spire-agent/public/api.sock".
Definition socketEnv := "SPIFFE_ENDPOINT_SOCKET".
Definition getSocketPath : string :=
  if negb (os_Getenv socketEnv =?s "") then os_Getenv socketEnv else defaultSocketPath.
Definition spiffe : Provider :=
  mkProvider (os_Stat_ok getSocketPath) (spiffe_FetchJWTSVID ("unix://" +:+ getSocketPath)).

(** The init functions of the packages. *)
Definition register_all : M (gmap string Provider) unit :=
  Register "filesystem" filesystem;;
  Register "github-actions" githubActions;;
  Register "google-workload-identity" googleWorkloadIdentity;;
  Register "google-impersonate" googleImpersonate;;
  Register "spiffe" spiffe.

(** ** Passwords *)

(** The state is what the terminal answers, one result per question. *)
Definition term_ReadPassword : M (list (res bytes)) bytes := λ tty,
  match tty with
  | [] => ([], Err (error_Kind kind_EOF "EOF"))
  | r :: tty' => (tty', r)
  end.

Definition GetPassFromTerm (confirm : bool) : M (list (res bytes)) bytes :=
  pw1 ← term_ReadPassword;
  if negb confirm then mret pw1 else
  confirmpw ← term_ReadPassword;
  lift (ensure (pw1 =?s confirmpw) (error_New "passwords do not match"));;
  mret pw1.

Definition GetPass (confirm : bool) : M (list (res bytes)) bytes :=
  match os_LookupEnv "COSIGN_PASSWORD" with
  | Some pw => mret pw
  | None => if term_IsTerminal then GetPassFromTerm confirm else lift stdin_All
  end.

(** The password function of the commands, for what the terminal answers. *)
Definition pass_of (tty : list (res bytes)) : PassFunc := Some (λ confirm, snd (GetPass confirm tty)).

(** ** public-key *)

Record Pkopts := mkPkopts { pk_KeyRef : string; pk_Sk : bool; pk_Slot : string }.

(** What is written; a command without a key and a token calls a nil
    interface. *)
Definition GetPublicKey (opts : Pkopts) (pf : PassFunc)
    (w : KeyWorld) : res bytes :=
  k ← (if negb (pk_KeyRef opts =?s "") then sv_Verifier <$> SignerFromKeyRef (pk_KeyRef opts) pf w
       else if pk_Sk opts then
         sk ← wrap "opening piv token" (piv_Verifier (pk_Slot opts));
         wrap "initializing piv token verifier" sk
       else Panic "nil dereference");
  PublicKeyPem k.

(** ** What they promise *)

(** A token comes from the first enabled provider, in the order of the map, that
    gives one: every enabled provider before it failed. *)
Theorem Provide_first order audience id :
  Provide order audience = Ok id ↔
  ∃ pre p post, order = pre ++ p :: post ∧ p_Enabled p = true ∧ p_Provide p audience = Ok id
    ∧ ∀ q, q ∈ pre → p_Enabled q = true → ∃ e, p_Provide q audience = Err e.
Proof.
  unfold Provide. generalize (@None error). induction order as [|p order IH]; intros err; cbn [provide_loop].
  { split; [done|]. by intros ([] & ? & ? & ? & _). }
  assert (Hskip : (p_Enabled p = true → ∃ e, p_Provide p audience = Err e) →
    (∃ pre p' post, order = pre ++ p' :: post ∧ p_Enabled p' = true ∧ p_Provide p' audience = Ok id
       ∧ ∀ q, q ∈ pre → p_Enabled q = true → ∃ e, p_Provide q audience = Err e) ↔
    ∃ pre p' post, p :: order = pre ++ p' :: post ∧ p_Enabled p' = true ∧ p_Provide p' audience = Ok id
       ∧ ∀ q, q ∈ pre → p_Enabled q = true → ∃ e, p_Provide q audience = Err e).
  { intros Hp. split.
    - intros (pre & p' & post & -> & He & Ho & Hq). exists (p :: pre), p', post. do 3 (split; [done|]).
      intros q [->|?]%elem_of_cons; [done|by apply Hq].
    - intros ([|p0 pre] & p' & post & [= -> ->] & He & Ho & Hq).
      + destruct (Hp He) as [e Hn]. congruence.
      + exists pre, p', post. do 3 (split; [done|]). intros. apply Hq; [by right|done]. }
  destruct (p_Enabled p) eqn:Ee; cbn [negb].
  - destruct (p_Provide p audience) as [t|e|why] eqn:Ep; cbn [catch].
    + split.
      * intros [= ->]. exists [], p, order. do 3 (split; [done|]). by intros ? ?%not_elem_of_nil.
      * intros ([|p0 pre] & p' & post & [= -> ->] & He & Ho & Hq); [congruence|].
        destruct (Hq p0) as [? ?]; [by left|done|congruence].
    + rewrite IH. apply Hskip. by exists e.
    + split; [done|]. intros ([|p0 pre] & p' & post & [= -> ->] & He & Ho & Hq); [congruence|].
      destruct (Hq p0) as [? ?]; [by left|done|congruence].
  - rewrite IH. by apply Hskip.
Qed.

(** A token is obtained whenever an enabled provider has one, in whatever order
    the map is visited; which one is given depends on the order. *)
Theorem Provide_live order order' audience :
  order ≡ₚ order' → (∀ p, p ∈ order → is_panic (p_Provide p audience) = false) →
  is_ok (Provide order audience) = true
  ↔ ∃ p, p ∈ order' ∧ p_Enabled p = true ∧ is_ok (p_Provide p audience) = true.
Proof.
  intros Ho Hnp. setoid_rewrite <-Ho. clear order' Ho. unfold Provide. generalize (@None error).
  induction order as [|p order IH]; intros err; cbn [provide_loop]; [set_solver|].
  setoid_rewrite elem_of_cons. pose proof (Hnp p (list_elem_of_here _ _)) as Hp.
  destruct (p_Enabled p) eqn:Ee; cbn [negb].
  - destruct (p_Provide p audience) as [t|e|] eqn:Ep; cbn [catch]; [|rewrite IH by set_solver|done].
    + split; [|done]. intros _. exists p. rewrite Ep. auto.
    + split; [set_solver|]. intros (q & [->|?] & ? & ?); [by rewrite Ep in *|by exists q].
  - rewrite IH by set_solver. split; [set_solver|].
    intros (q & [->|?] & ? & ?); [congruence|by exists q].
Qed.

(** A password that a terminal was asked to confirm was typed twice. *)
Lemma GetPass_confirmed tty tty' pw :
  GetPassFromTerm true tty = (tty', Ok pw) ↔ tty = Ok pw :: Ok pw :: tty'.
Proof.
  unfold GetPassFromTerm, term_ReadPassword, mbind, M_bind, mret, M_ret, lift, ensure.
  destruct tty as [|[p1| |] [|[p2| |] tty]]; cbn; try (split; [naive_solver|naive_solver]).
  destruct (p1 =?s p2) eqn:E; cbn; autorewrite with go in E; naive_solver.
Qed.

End credentials.

Section public_key.
Context `{X : Ext, KX : KeyExt, L : !KeyLaws, D : CredentialExt}.

(** The public-key command gives back the public half that was written with the
    private key, when it is asked for the key file with the same password. *)
Theorem public_key_of_pair priv pf pf' keys path slot sk w sv :
  marshalKeyPair priv (priv_Public priv) pf = Ok keys → supported priv →
  read_file (filepath_Clean path) w = Ok (PrivateBytes keys) → call_pass pf' false = call_pass pf true →
  signature_LoadSignerVerifier priv = Ok sv → Verifier_PublicKey (sv_Verifier sv) = Ok (priv_Public priv) →
  path ≠ "" → strings_HasPrefix path pkcs11_ReferenceScheme = false →
  strings_HasPrefix path KeyReference = false → strings_HasPrefix path gitlab_ReferenceScheme = false →
  strings_Contains path "://" = false →
  GetPublicKey (mkPkopts path sk slot) pf' w = Ok (PublicBytes keys).
Proof.
  intros Hm Hs Hr Hp Hl Hv Hne H1 H2 H3 H4. destruct (marshalKeyPair_public _ _ _ _ Hm) as [Hpw _].
  unfold GetPublicKey, SignerFromKeyRef, SignerVerifierFromKeyRef, kms_or_file, loadKey. cbn [pk_KeyRef].
  rewrite (proj2 (str_eqb_neq _ _) Hne), H1, H2, H3, H4. cbn [negb]. rewrite Hr. cbn [mbind res_bind].
  rewrite Hp, Hpw. cbn [mbind res_bind]. rewrite (marshalKeyPair_load _ _ _ _ Hm Hs), Hl. cbn.
  unfold PublicKeyPem. rewrite Hv. cbn. unfold marshalKeyPair in Hm. go_inv. done.
Qed.

End public_key.

(** ** Witnesses *)

Definition toy_Credentials : CredentialExt := {|
  os_Stat_ok p := p =?s "/var/run/sigstore/cosign/oidc-token";
  http_GetValue _ _ := Err (error_New "no network");
  idtoken_Token _ := Err (error_New "no network");
  impersonate_Token _ _ := Err (error_New "no network");
  spiffe_FetchJWTSVID _ _ := Err (error_New "no agent");
  unicode_space s := s;
  term_IsTerminal := true;
  stdin_All := Ok "" |}.

Example register_all_ex :
  elements (dom (fst (register_all (X := toy) (D := toy_Credentials) ∅)))
  ≡ₚ ["filesystem"; "github-actions"; "google-impersonate"; "google-workload-identity"; "spiffe"].
Proof. vm_compute. solve_Permutation. Qed.

Example Provide_ex :
  Provide [spiffe (X := toy) (D := toy_Credentials); mkProvider true (λ _, Err (error_New "down"));
           mkProvider true (λ a, Ok ("token for " +:+ a))] "sigstore" = Ok "token for sigstore".
Proof. reflexivity. Qed.

Lemma Provide_live_witness :
  is_ok (Provide [mkProvider true (λ _, Err (error_New "down")); mkProvider true (λ a, Ok a)] "sigstore") = true.
Proof.
  apply (Provide_live _ [mkProvider true (λ a, Ok a); mkProvider true (λ _, Err (error_New "down"))]).
  - apply Permutation_swap.
  - intros p Hp. apply elem_of_cons in Hp as [->| ->%list_elem_of_singleton]; reflexivity.
  - eexists. split; [left|]. split; reflexivity.
Defined.

Lemma public_key_of_pair_witness :
  ∃ keys, marshalKeyPair (X := toy) (K := toy_Keys) (ecdsa_PrivateKey "k")
      (priv_Public (KeyExt := toy_Keys) (ecdsa_PrivateKey "k")) toy_pass = Ok keys
    ∧ GetPublicKey (X := toy) (KX := toy_Keys)
        (mkPkopts "cosign.key" false "") toy_pass
        (files {["cosign.key" := PrivateBytes keys]}) = Ok (PublicBytes keys).
Proof.
  destruct (ok_res (marshalKeyPair (X := toy) (K := toy_Keys) (ecdsa_PrivateKey "k")
    (priv_Public (KeyExt := toy_Keys) (ecdsa_PrivateKey "k")) toy_pass)) as [keys H]; [reflexivity|].
  exists keys. split; [exact H|].
  eapply (public_key_of_pair (X := toy) (KX := toy_Keys) (ecdsa_PrivateKey "k") toy_pass toy_pass keys);
    [exact H|done|reflexivity|reflexivity|reflexivity|reflexivity|done|reflexivity..].
Defined.

Example GetPass_ex : snd (GetPass (KX := toy_Keys) (D := toy_Credentials) true [Ok "a"; Ok "b"])
  = Err (error_New "passwords do not match").
Proof. reflexivity. Qed.
