(* ===== verification/Attest.v ===== *)
(** * Attestations

    pkg/cosign/attestation/attestation.go (in-toto statements from predicates),
    the predicate types of cmd/cosign/cli/options/predicate.go, and
    cmd/cosign/cli/attest/attest.go (`cosign attest`). *)
From S2P Require Import Prelude GoStd External Concrete OciSignature OciSignatures OciEntity.
From S2P Require Import OciRemote Tuf Tlog Ctl Verify Keys Sign.

Definition CosignCustomProvenanceV01 := "cosign.sigstore.dev/attestation/v1".
Definition CosignVulnProvenanceV01 := "cosign.sigstore.dev/attestation/vuln/v1".

(** ** Vulnerability scans *)

Record Invocation := mkInvocation {
  inv_Parameters : any; inv_URI : string; inv_EventID : string; inv_BuilderID : string }.
Record DB := mkDB { db_URI : string; db_Version : string }.
Record Scanner := mkScanner {
  scn_URI : string; scn_Version : string; scn_DB : DB; scn_Result : gmap string any }.
(** Times as seconds. *)
Record Metadata := mkMetadata { md_ScanStartedOn : Z; md_ScanFinishedOn : Z }.
Record CosignVulnPredicate := mkCosignVulnPredicate {
  vp_Invocation : Invocation; vp_Scanner : Scanner; vp_Metadata : Metadata }.

(** attestation.CosignPredicate *)
Record CosignPredicate := mkCosignPredicate { cp_Data : string; cp_Timestamp : string }.

(** in_toto.StatementHeader *)
Record StatementHeader := mkStatementHeader {
  sh_Type : string; sh_PredicateType : string; sh_Subject : list Subject }.

(** Types, constants and calls of in-toto-golang and sigstore.  The fields of a
    type are given by their JSON tags. *)
Class AttestExt := {
  Link : Type;
  ProvenancePredicate : Type;
  StatementInTotoV01 : string;
  in_toto_PredicateSPDX : string;
  in_toto_PredicateLinkV1 : string;
  slsa_PredicateSLSAProvenance : string;
  Link_tags : list string;
  ProvenancePredicate_tags : list string;
  json_Unmarshal_Link : bytes → res Link;
  json_Unmarshal_Provenance : bytes → res ProvenancePredicate;
  json_Unmarshal_Vuln : bytes → res CosignVulnPredicate;
  time_Now : Z;
  time_Format_RFC3339 : Z → string;
  url_ParseRequestURI : string → res unit;
  (* dsse.WrapSigner(sv, payloadType).SignMessage *)
  dsse_WrapSigner : SignerVerifier → string → bytes → res bytes }.

(** The statements that are generated, with their predicates. *)
Inductive AnyStatement `{A : AttestExt} :=
  | stmt_Custom (h : StatementHeader) (p : CosignPredicate)
  | stmt_Map (h : StatementHeader) (p : gmap string any)
  | stmt_Vuln (h : StatementHeader) (p : CosignVulnPredicate)
  | stmt_SLSA (h : StatementHeader) (p : ProvenancePredicate)
  | stmt_Link (h : StatementHeader) (p : Link)
  | stmt_SPDX (h : StatementHeader) (p : CosignPredicate).

Definition stmt_Header `{A : AttestExt} (s : AnyStatement) : StatementHeader :=
  match s with
  | stmt_Custom h _ | stmt_Map h _ | stmt_Vuln h _ | stmt_SLSA h _ | stmt_Link h _
  | stmt_SPDX h _ => h
  end.

Section statements.
Context `{X : Ext, A : AttestExt}.

(** attestation.GenerateOpts: the outcome of reading the predicate, and the
    clock. *)
Record GenerateOpts := mkGenerateOpts {
  go_Predicate : res bytes;
  go_Type : string;
  go_Digest : string;
  go_Repo : string;
  go_Time : option Z }.

Definition timestamp (opts : GenerateOpts) : string :=
  time_Format_RFC3339 (default time_Now (go_Time opts)).

Definition customType (opts : GenerateOpts) : string :=
  if negb (go_Type opts =?s "custom") then go_Type opts else CosignCustomProvenanceV01.

Definition generateStatementHeader (digest repo predicateType : string) : StatementHeader :=
  mkStatementHeader StatementInTotoV01 predicateType [mkSubject repo {["sha256" := digest]}].

(** The predicate is the statement's constructor applied to its header. *)
Definition generateCustomPredicate (rawPayload : bytes) (customType timestamp : string) :
    res (StatementHeader → AnyStatement) :=
  if customType =?s CosignCustomProvenanceV01
  then Ok (λ h, stmt_Custom h (mkCosignPredicate rawPayload timestamp))
  else
    result ← wrap ("invalid JSON payload for predicate type " +:+ customType)
               (json_Unmarshal_map rawPayload);
    Ok (λ h, stmt_Map h result).

Definition generateCustomStatement (rawPayload : bytes) (customType digest repo timestamp : string) :
    res AnyStatement :=
  payload ← generateCustomPredicate rawPayload customType timestamp;
  Ok (payload (generateStatementHeader digest repo customType)).

Definition generateVulnStatement (predicate : bytes) (digest repo : string) : res AnyStatement :=
  vuln ← json_Unmarshal_Vuln predicate;
  Ok (stmt_Vuln (generateStatementHeader digest repo CosignVulnProvenanceV01) vuln).

(** strings.SplitN(tag, ",", 2): a tag with options is an optional field. *)
Definition required_fields (tags : list string) : list string :=
  omap (λ tag, match strings_SplitN2 tag ","%char with [field] => Some field | _ => None end) tags.

Fixpoint check_fields (allFields : list string) (tmp : gmap string any) : res unit :=
  match allFields with
  | [] => Ok ()
  | field :: allFields' =>
      match tmp !! field with
      | None => Err (error_New ("required field " +:+ field +:+ " missing"))
      | Some _ => check_fields allFields' tmp
      end
  end.

Definition checkRequiredJSONFields (rawPayload : bytes) (tags : list string) : res unit :=
  tmp ← json_Unmarshal_map rawPayload; check_fields (required_fields tags) tmp.

Definition wrap_colon {B} (msg : string) (m : res B) : res B :=
  map_err (λ e, error_Wrapped (msg +:+ ": " +:+ Error e) e) m.

Definition generateSLSAProvenanceStatement (rawPayload : bytes) (digest repo : string) :
    res AnyStatement :=
  wrap_colon "provenance predicate" (checkRequiredJSONFields rawPayload ProvenancePredicate_tags);;
  predicate ← wrap "unmarshal Provenance predicate" (json_Unmarshal_Provenance rawPayload);
  Ok (stmt_SLSA (generateStatementHeader digest repo slsa_PredicateSLSAProvenance) predicate).

Definition generateLinkStatement (rawPayload : bytes) (digest repo : string) : res AnyStatement :=
  wrap_colon "link statement" (checkRequiredJSONFields rawPayload Link_tags);;
  link ← wrap "unmarshal Link statement" (json_Unmarshal_Link rawPayload);
  Ok (stmt_Link (generateStatementHeader digest repo in_toto_PredicateLinkV1) link).

Definition generateSPDXStatement (rawPayload : bytes) (digest repo : string) : res AnyStatement :=
  Ok (stmt_SPDX (generateStatementHeader digest repo in_toto_PredicateSPDX)
        (mkCosignPredicate rawPayload "")).

Definition GenerateStatement (opts : GenerateOpts) : res AnyStatement :=
  predicate ← go_Predicate opts;
  if go_Type opts =?s "slsaprovenance" then
    generateSLSAProvenanceStatement predicate (go_Digest opts) (go_Repo opts)
  else if go_Type opts =?s "spdx" then
    generateSPDXStatement predicate (go_Digest opts) (go_Repo opts)
  else if go_Type opts =?s "link" then
    generateLinkStatement predicate (go_Digest opts) (go_Repo opts)
  else if go_Type opts =?s "vuln" then
    generateVulnStatement predicate (go_Digest opts) (go_Repo opts)
  else
    let stamp := timestamp opts in
    let predicateType := customType opts in
    generateCustomStatement predicate predicateType (go_Digest opts) (go_Repo opts) stamp.

(** ** Predicate types (options/predicate.go) *)

Definition PredicateCustom := "custom".
Definition PredicateSLSA := "slsaprovenance".
Definition PredicateSPDX := "spdx".
Definition PredicateLink := "link".
Definition PredicateVuln := "vuln".

Definition PredicateTypeMap : gmap string string :=
  {[ PredicateCustom := CosignCustomProvenanceV01; PredicateSLSA := slsa_PredicateSLSAProvenance;
     PredicateSPDX := in_toto_PredicateSPDX; PredicateLink := in_toto_PredicateLinkV1;
     PredicateVuln := CosignVulnProvenanceV01 ]}.

Definition ParsePredicateType (t : string) : res string :=
  match PredicateTypeMap !! t with
  | Some uri => Ok uri
  | None =>
      map_err (λ _, error_New ("invalid predicate type: " +:+ t)) (url_ParseRequestURI t);; Ok t
  end.

End statements.

(** ** cosign attest *)

Section attest.
Context `{X : Ext, TR : TrustRoot, C : CtExt, KX : KeyExt, R : Registry, S : !SignExt, A : AttestExt}.
Context (json_Marshal_AnyStatement : AnyStatement → res bytes).

Definition attest_uploadToTlog (sv : CertSigner) (rekorURL : string)
    (upload : Rekor → bytes → res LogEntryAnon) : res (option RekorBundle) :=
  rekorBytes ← match cs_Cert sv with
               | Some cert => Ok cert
               | None => PublicKeyPem (sv_Verifier (cs_Signer sv))
               end;
  rekorClient ← rekor_NewClient rekorURL;
  entry ← upload rekorClient rekorBytes;
  _ ← deref (le_LogIndex entry);
  EntryToBundle entry.

(** The flags of the command. *)
Record AttestOpts := mkAttestOpts {
  ao_Key : KeyOpts;
  ao_RemoteOpts : list ROption;
  ao_TagPrefix : string;
  ao_CertPath : string;
  ao_CertChainPath : string;
  ao_NoUpload : bool;
  ao_PredicatePath : string;
  ao_Force : bool;
  ao_PredicateType : string;
  ao_Replace : bool }.

Definition attest_statement (o : AttestOpts) (repo d : string) : res bytes :=
  (* the error of v1.NewHash is dropped: an empty hash *)
  let h := match v1_NewHash d with Ok h => h | _ => mkHash "" "" end in
  sh ← GenerateStatement (mkGenerateOpts (os_ReadFile (ao_PredicatePath o)) (ao_PredicateType o)
         (Hex h) repo None);
  json_Marshal_AnyStatement sh.

Definition attest_static_opts (o : AttestOpts) (sv : CertSigner) (digest : Reference)
    (signedPayload : bytes) : res (list static.Option) :=
  let opts := [static.WithLayerMediaType DssePayloadType]
              ++ match cs_Cert sv with
                 | Some _ => [static.WithCertChain (cs_Cert sv) (cs_Chain sv)]
                 | None => []
                 end in
  if ShouldUploadToTlog digest (ao_Force o) then
    bundle ← attest_uploadToTlog sv (ko_RekorURL (ao_Key o))
               (λ r b, TLogUploadInTotoAttestation r signedPayload b);
    Ok (opts ++ [static.WithBundle bundle])
  else Ok opts.

Context (depth : nat).

Definition attach_attestation (o : AttestOpts) (sv : CertSigner) (predicateURI repo d : string)
    (signedPayload : bytes) (ociremoteOpts : list Option_) : M Reg unit :=
  let digest := name_Digest repo d in
  opts ← lift (attest_static_opts o sv digest signedPayload);
  sig ← lift (NewAttestation signedPayload opts);
  se ← reads (λ reg, remote_SignedEntity depth reg digest ociremoteOpts);
  let signOpts := [WithDupeDetector (dd_Find (sv_Verifier (cs_Signer sv)))]
                  ++ (if ao_Replace o then [WithReplaceOp (ro_Replace predicateURI)] else []) in
  newSE ← lift (AttachAttestationToEntity (Datatypes.S (eid se)) se sig signOpts);
  WriteAttestations repo newSE ociremoteOpts.

(** What is printed is the result when nothing is uploaded. *)
Definition AttestCmd (o : AttestOpts) (kw : KeyWorld) (imageRef : string) : M Reg (option bytes) :=
  let n := NOf [negb (ko_KeyRef (ao_Key o) =?s ""); ko_Sk (ao_Key o)] in
  lift (ensure (if EnableExperimental then bool_decide (n ≤ 1) else bool_decide (n = 1))
          (error_Kind kind_KeyParse "exactly one of: key reference (--key), or hardware token (--sk) must be provided"));;
  predicateURI ← lift (ParsePredicateType (ao_PredicateType o));
  ref ← lift (wrap "parsing reference" (name_ParseReference imageRef));
  ociremoteOpts ← lift (registry_ClientOpts (ao_RemoteOpts o) (ao_TagPrefix o));
  digest ← reads (λ reg, ResolveDigest reg ref ociremoteOpts);
  match digest with
  | name_Tag _ _ => lift (Panic "unreachable")      (* ResolveDigest gives digests *)
  | name_Digest repo d =>
      sv ← lift (wrap "getting signer" (SignerFromKeyOpts (ao_CertPath o) (ao_CertChainPath o)
                                          (ao_Key o) kw));
      payload ← lift (attest_statement o repo d);
      signedPayload ← lift (wrap "signing" (dsse_WrapSigner (cs_Signer sv) IntotoPayloadType payload));
      if ao_NoUpload o then mret (Some signedPayload)
      else attach_attestation o sv predicateURI repo d signedPayload ociremoteOpts;; mret None
  end.

End attest.

(** ** Statements and their types *)

Section theorems.
Context `{X : Ext, A : AttestExt}.

Lemma check_fields_Ok fields tmp :
  check_fields fields tmp = Ok () ↔ ∀ f, f ∈ fields → is_Some (tmp !! f).
Proof.
  induction fields as [|f fields IH]; cbn; [set_solver|].
  destruct (tmp !! f) eqn:E; [rewrite IH; set_solver|]. split; [done|].
  intros H. destruct (H f ltac:(set_solver)). congruence.
Qed.

(** The mandatory fields are those whose tag has no option. *)
Lemma checkRequiredJSONFields_Ok raw tags :
  checkRequiredJSONFields raw tags = Ok () ↔
  ∃ tmp, json_Unmarshal_map raw = Ok tmp
    ∧ ∀ tag f, tag ∈ tags → strings_SplitN2 tag ","%char = [f] → is_Some (tmp !! f).
Proof.
  unfold checkRequiredJSONFields, required_fields. rewrite bind_Ok. f_equiv. intros tmp.
  rewrite check_fields_Ok. f_equiv. split.
  - intros H tag f Hin Hs. apply H. apply list_elem_of_omap. exists tag. by rewrite Hs.
  - intros H f (tag & Hin & Hs)%list_elem_of_omap. apply (H tag); [done|].
    destruct (strings_SplitN2 tag _) as [|f' [|]]; by simplify_eq.
Qed.

(** The five names of the map. *)
Lemma PredicateTypeMap_names :
  PredicateTypeMap !! "custom" = Some CosignCustomProvenanceV01
  ∧ PredicateTypeMap !! "slsaprovenance" = Some slsa_PredicateSLSAProvenance
  ∧ PredicateTypeMap !! "spdx" = Some in_toto_PredicateSPDX
  ∧ PredicateTypeMap !! "link" = Some in_toto_PredicateLinkV1
  ∧ PredicateTypeMap !! "vuln" = Some CosignVulnProvenanceV01.
Proof. repeat split. Qed.

(** The header of a statement of a type of the map, or of another one. *)
Lemma PredicateTypeMap_other t :
  t ≠ "custom" → t ≠ "slsaprovenance" → t ≠ "spdx" → t ≠ "link" → t ≠ "vuln" →
  PredicateTypeMap !! t = None.
Proof. intros. unfold PredicateTypeMap. by simplify_map_eq. Qed.

(** The statement that is generated is of the predicate type that its flag
    stands for, which is also the type of the attestations that --replace
    replaces, and its only subject is the image. *)
Theorem GenerateStatement_header opts uri st :
  ParsePredicateType (go_Type opts) = Ok uri → GenerateStatement opts = Ok st →
  stmt_Header st = mkStatementHeader StatementInTotoV01 uri
                     [mkSubject (go_Repo opts) {["sha256" := go_Digest opts]}].
Proof.
  destruct opts as [p t d repo tm]. unfold GenerateStatement, ParsePredicateType.
  cbn [go_Predicate go_Type go_Digest go_Repo].
  intros Hu H. apply bind_Ok in H as (b & _ & H).
  destruct PredicateTypeMap_names as (Hcustom & Hslsa & Hspdx & Hlink & Hvuln).
  destruct (t =?s "slsaprovenance") eqn:E1; [apply str_eqb_eq in E1 as ->|].
  { unfold generateSLSAProvenanceStatement in H. rewrite Hslsa in Hu. go_inv. done. }
  destruct (t =?s "spdx") eqn:E2; [apply str_eqb_eq in E2 as ->|].
  { unfold generateSPDXStatement in H. rewrite Hspdx in Hu. go_inv. done. }
  destruct (t =?s "link") eqn:E3; [apply str_eqb_eq in E3 as ->|].
  { unfold generateLinkStatement in H. rewrite Hlink in Hu. go_inv. done. }
  destruct (t =?s "vuln") eqn:E4; [apply str_eqb_eq in E4 as ->|].
  { unfold generateVulnStatement in H. rewrite Hvuln in Hu. go_inv. done. }
  apply str_eqb_neq in E1, E2, E3, E4.
  assert (Ht : customType (mkGenerateOpts p t d repo tm) = uri).
  { unfold customType. cbn. destruct (t =?s "custom") eqn:E5; cbn.
    - apply str_eqb_eq in E5 as ->. rewrite Hcustom in Hu. by go_inv.
    - apply str_eqb_neq in E5. rewrite PredicateTypeMap_other in Hu by done. by go_inv. }
  rewrite Ht in H. unfold generateCustomStatement, generateCustomPredicate in H.
  destruct (uri =?s CosignCustomProvenanceV01); go_inv; done.
Qed.

End theorems.

(** ** Attesting, then verifying *)

Section roundtrip.
Context `{X : Ext, TR : TrustRoot, C : CtExt, KX : KeyExt, R : Registry, S : !SignExt, A : AttestExt,
  PL : !PemLaws, BL : !BundleJsonLaws, GL : !GgcrLaws, RL : !RegistryLaws}.
Context (json_Marshal_AnyStatement : AnyStatement → res bytes).

(** What is relied on: a statement's header is read back, and an envelope that
    the wrapped signer makes holds the payload and is accepted by the verifier of
    the same key. *)
Class AttestLaws (sv : SignerVerifier) : Prop := {
  statement_json st b : json_Marshal_AnyStatement st = Ok b →
    ∃ p, json_Unmarshal_Statement b = Ok (mkStatement (sh_Type (stmt_Header st))
           (sh_PredicateType (stmt_Header st)) (sh_Subject (stmt_Header st)) p);
  wrapped_verifies t p e : dsse_WrapSigner sv t p = Ok e →
    ∃ env dssev, json_Unmarshal_Envelope e = Ok env ∧ env_PayloadType env = t
      ∧ env_Payload env = base64_EncodeToString p
      ∧ dsse_NewEnvelopeVerifier (sv_Verifier sv) = Ok dssev ∧ dssev env = Ok () }.

(** An attestation without a bundle, of the configured key, whose statement has
    the image as a subject. *)
Lemma verify_attestation_accepts co v att h p env dssev raw st repo :
  SigVerifier co = Some v → RekorClient co = None →
  ClaimVerifier co = Some IntotoSubjectClaimVerifier →
  Payload att = Ok p → Bundle att = Ok None → json_Unmarshal_Envelope p = Ok env →
  env_PayloadType env = IntotoPayloadType → env_Payload env = base64_EncodeToString raw →
  dsse_NewEnvelopeVerifier v = Ok dssev → dssev env = Ok () →
  json_Unmarshal_Statement raw = Ok st → st_Subject st = [mkSubject repo {["sha256" := Hex h]}] →
  Algorithm h = "sha256" → verify_attestation att h co = (co, Ok false).
Proof.
  intros Hv Hr Hc Hp Hb He Ht Hpl Hd Hok Hj Hs Ha.
  assert (Hcl : check_claims att h co = Ok ()).
  { unfold check_claims. rewrite Hc. unfold IntotoSubjectClaimVerifier. rewrite Hp. cbn. rewrite He.
    cbn. rewrite Hpl, base64_decode_encode. cbn. rewrite Hj. cbn. rewrite Hs. cbn [existsb subj_Digest].
    rewrite lookup_singleton_eq. unfold Hash_String. rewrite Ha, str_eqb_refl. done. }
  assert (Hlog : verify_log att co = Ok false).
  { unfold verify_log, VerifyBundle. rewrite Hb. cbn. by rewrite Hr. }
  unfold verify_attestation, sig_verifier, verifyOCIAttestation, lift, reads, mbind, M_bind.
  rewrite Hv, Hp. cbn. rewrite He. cbn. rewrite Ht, str_eqb_refl. cbn. rewrite Hd. cbn. rewrite Hok.
  rewrite Hcl. cbn. by rewrite Hlog.
Qed.

Lemma remote_entity_attestations depth reg ref opts se :
  remote_SignedEntity depth reg ref opts = Ok se →
  Entity_Attestations se = attestations reg (Entity_Digest se) (makeOptions (ref_Context ref) opts) opts.
Proof.
  unfold remote_SignedEntity. intros H. apply bind_Ok in H as ([[mt d] [img idx]] & _ & H).
  destruct (is_index_type mt), (is_image_type mt); go_inv; by destruct depth.
Qed.

Lemma proper_dsse : proper_options (static.applied [static.WithLayerMediaType DssePayloadType]).
Proof. split; [|done]. by intros m [= <-]. Qed.

(** What a reader of the registry finds after the attestation was attached with
    a key, without the log and without replacing. *)
Lemma attach_attestation_read depth o sv uri repo d e opts reg reg' se h base sl :
  attach_attestation depth o sv uri repo d e opts reg = (reg', Ok ()) →
  Forall package_option opts → cs_Cert sv = None → ao_Replace o = false →
  ShouldUploadToTlog (name_Digest repo d) (ao_Force o) = false →
  remote_SignedEntity depth reg (name_Digest repo d) opts = Ok se → Entity_Digest se = Ok h →
  Entity_Attestations se = Ok base → Get base = Ok sl →
  ∃ att se' s', Payload att = Ok e ∧ Bundle att = Ok None
    ∧ remote_SignedEntity depth reg' (name_Digest repo d) opts = Ok se' ∧ Entity_Digest se' = Ok h
    ∧ Entity_Attestations se' = Ok s'
    ∧ ((∃ dup, dup ∈ sl ∧ Duplicate (sv_Verifier (cs_Signer sv)) att dup ∧ Get s' = Ok sl)
       ∨ ∃ new, same_signature att new ∧ Get s' = Ok (sl ++ [new])).
Proof.
  intros H Hpk Hcert Hrep Htl Hse Hh Hb Hg. unfold attach_attestation, attest_static_opts in H.
  rewrite Hcert, Hrep, Htl in H. cbn [app] in H.
  apply M_bind_Ok in H as (? & so & [[= <-] ->]%lift_Ok & H).
  apply M_bind_Ok in H as (? & att & [Hatt ->]%lift_Ok & H).
  apply M_bind_Ok in H as (? & se0 & [Hse0 ->]%reads_Ok & H). rewrite Hse in Hse0. injection Hse0 as <-.
  apply M_bind_Ok in H as (? & ne & [Hne ->]%lift_Ok & Hw).
  destruct (NewSignature_consistent _ _ _ _ proper_dsse Hatt) as (a & Hc & Hp & _).
  assert (Hbun : Bundle att = Ok None) 
    by (unfold NewAttestation, NewSignature, static.makeOptions in Hatt; cbn in Hatt; go_inv; done).
  assert (Hpu : pushed base = Ok sl).
  { rewrite (remote_entity_attestations _ _ _ _ _ Hse), Hh in Hb. cbn in Hb.
    by eapply remote_Signatures_pushed. }
  unfold WriteAttestations in Hw.
  assert (Hd' : Entity_Digest ne = Ok h) by (by rewrite (AttachAttestationToEntity_digest _ _ _ _ _ Hne)). rewrite Hd' in Hw.
  destruct (write_set_again _ _ _ _ _ _ _ _ _ _ Hpk Hw Hse Hh) as (s1 & se' & s' & Hs1 & Hse' & Hdd & Hg' & Hr).
  exists att, se', s'. do 4 (split; [done|]). split.
  { rewrite (remote_entity_attestations _ _ _ _ _ Hse'), Hdd. exact Hr. }
  rewrite Hg'.
  destruct (attach_attestation_published _ _ _ _ _ _ _ _ _ Hne Hb Hg Hpu ltac:(eauto) Hs1)
    as [(dup & ?)|(_ & new & ?)]; eauto.
Qed.

(** The options of a verification with the key [v] that asks no log. *)
Record attest_check (v : Verifier) (opts : list Option_) (co : CheckOpts) : Prop := {
  ac_SigVerifier : SigVerifier co = Some v;
  ac_RekorClient : RekorClient co = None;
  ac_ClaimVerifier : ClaimVerifier co = Some IntotoSubjectClaimVerifier;
  ac_RegistryClientOpts : RegistryClientOpts co = opts }.

(** The new attestation of a statement about the image is acceptable. *)
Lemma attested_verdict o sv repo d h e payload att new co opts :
  AttestLaws (cs_Signer sv) → v1_NewHash d = Ok h → Algorithm h = "sha256" →
  is_ok (ParsePredicateType (ao_PredicateType o)) = true →
  attest_statement json_Marshal_AnyStatement o repo d = Ok payload →
  dsse_WrapSigner (cs_Signer sv) IntotoPayloadType payload = Ok e →
  Payload att = Ok e → Bundle att = Ok None → same_signature att new →
  attest_check (sv_Verifier (cs_Signer sv)) opts co →
  verdict (λ s, verify_attestation s h) co new = Ok false.
Proof.
  intros HL Hh Ha [uri Hu]%ok_res Hst Hsig Hp Hb (E1 & _ & _ & _ & E5) [K1 K2 K3 _].
  unfold attest_statement in Hst. rewrite Hh in Hst. apply bind_Ok in Hst as (st & Hg & Hm).
  destruct (statement_json _ _ Hm) as [pr Hj].
  destruct (wrapped_verifies _ _ _ Hsig) as (env & dssev & He & Ht & Hpl & Hv & Hok).
  pose proof (GenerateStatement_header (mkGenerateOpts _ _ _ _ _) uri st Hu Hg) as Hhd. rewrite Hhd in Hj.
  unfold verdict. by erewrite (verify_attestation_accepts co _ new h e env dssev payload _ repo K1 K2 K3
    ltac:(congruence) ltac:(congruence) He Ht Hpl Hv Hok Hj eq_refl Ha).
Qed.

(** C16: what `cosign attest` publishes, `cosign verify-attestation` accepts.
    After an image given by digest was attested with a key, without the
    transparency log and without --replace, a verification with the key's
    verifier succeeds and lists the attestation that was attached, unless the
    image already carried a duplicate of it, in which case the published set is
    unchanged. *)
Theorem attest_then_verify depth o kw img repo d opts co reg reg' sv r se h base sl :
  AttestLaws (cs_Signer sv) → name_ParseReference img = Ok (name_Digest repo d) →
  ao_NoUpload o = false → ao_Replace o = false → cs_Cert sv = None →
  ShouldUploadToTlog (name_Digest repo d) (ao_Force o) = false →
  registry_ClientOpts (ao_RemoteOpts o) (ao_TagPrefix o) = Ok opts →
  SignerFromKeyOpts (ao_CertPath o) (ao_CertChainPath o) (ao_Key o) kw = Ok sv →
  remote_SignedEntity depth reg (name_Digest repo d) opts = Ok se → Entity_Digest se = Ok h →
  v1_NewHash d = Ok h → Algorithm h = "sha256" → Entity_Attestations se = Ok base → Get base = Ok sl →
  attest_check (sv_Verifier (cs_Signer sv)) opts co →
  (∀ s, s ∈ sl → is_panic (verdict (λ s, verify_attestation s h) co s) = false) →
  AttestCmd json_Marshal_AnyStatement depth o kw img reg = (reg', Ok r) →
  ∃ payload e att, attest_statement json_Marshal_AnyStatement o repo d = Ok payload
    ∧ dsse_WrapSigner (cs_Signer sv) IntotoPayloadType payload = Ok e ∧ Payload att = Ok e
    ∧ ((∃ dup se' s', dup ∈ sl ∧ Duplicate (sv_Verifier (cs_Signer sv)) att dup
           ∧ remote_SignedEntity depth reg' (name_Digest repo d) opts = Ok se'
           ∧ Entity_Attestations se' = Ok s' ∧ Get s' = Ok sl)
       ∨ ∃ l b new, snd (VerifyImageAttestations depth reg' (name_Digest repo d) co) = Ok (l, b)
           ∧ new ∈ l ∧ same_signature att new).
Proof.
  intros HL Hpr Hno Hrep Hcert Htl Ho Hsv Hse Hh Hnh Halg Hb Hg HK Hnp H.
  unfold AttestCmd in H. apply M_bind_Ok in H as (? & [] & [_ ->]%lift_Ok & H).
  apply M_bind_Ok in H as (? & uri & [Hu ->]%lift_Ok & H).
  apply M_bind_Ok in H as (? & ref & [Href%wrap_Ok ->]%lift_Ok & H). rewrite Hpr in Href. injection Href as <-.
  apply M_bind_Ok in H as (? & opts' & [Ho' ->]%lift_Ok & H). rewrite Ho in Ho'. injection Ho' as <-.
  apply M_bind_Ok in H as (? & dg & [[= <-] ->]%reads_Ok & H).
  apply M_bind_Ok in H as (? & sv' & [Hsv'%wrap_Ok ->]%lift_Ok & H). rewrite Hsv in Hsv'. injection Hsv' as <-.
  apply M_bind_Ok in H as (? & payload & [Hpl ->]%lift_Ok & H).
  apply M_bind_Ok in H as (? & e & [He%wrap_Ok ->]%lift_Ok & H). rewrite Hno in H.
  apply M_bind_Ok in H as (reg1 & [] & Hatt & [_ ->]%M_ret_Ok).
  destruct (attach_attestation_read _ _ _ _ _ _ _ _ _ _ _ _ _ _ Hatt (ClientOpts_package _ _ _ Ho) Hcert
    Hrep Htl Hse Hh Hb Hg) as (att & se' & s' & Hp & Hbun & Hse' & Hh' & Hs' & Hpub).
  exists payload, e, att. do 3 (split; [done|]).
  destruct Hpub as [(dup & ?)|(new & Hsame & Hg')]; [left; exists dup, se', s'; naive_solver|right].
  pose proof (attested_verdict _ _ _ _ _ _ _ _ _ _ _ HL Hnh Halg ltac:(by rewrite Hu) Hpl He Hp Hbun
    Hsame HK) as Hv. destruct HK as [K1 K2 K3 K4].
  destruct (verify_set_accepts "no matching attestations:" verify_attestation s' sl new h co false)
    as (l & bv & Hvs & Hin); [intros; apply verify_attestation_independent|done..|].
  exists l, bv, new. split; [|done].
  unfold VerifyImageAttestations, require_verifier, no_verifier, getSignedEntity, reads, gets, lift, mbind, M_bind.
  rewrite K1, K4, Hse'. cbn [mbind res_bind]. rewrite Hh'. cbn.
  destruct (RootCerts co); cbn; by rewrite Hs'.
Qed.

End roundtrip.

(** ** Witnesses *)

(** The statements of toy's JSON: custom ones about an image of "repo". *)
Definition toy_Attest : AttestExt := {|
  Link := unit;
  ProvenancePredicate := unit;
  StatementInTotoV01 := "";
  in_toto_PredicateSPDX := "spdx";
  in_toto_PredicateLinkV1 := "link";
  slsa_PredicateSLSAProvenance := "slsa";
  Link_tags := ["_type"; "command,omitempty"];
  ProvenancePredicate_tags := [];
  json_Unmarshal_Link _ := Ok ();
  json_Unmarshal_Provenance _ := Ok ();
  json_Unmarshal_Vuln _ := Err (error_New "unmarshal");
  time_Now := 150;
  time_Format_RFC3339 _ := "now";
  url_ParseRequestURI _ := Ok ();
  dsse_WrapSigner sv t p :=
    let e := base64_EncodeToString p in
    if (t =?s IntotoPayloadType) && negb (strings_HasPrefix e "#") then Ok e
    else Err (error_New "sign") |}.

Definition toy_marshal_statement (st : AnyStatement (A := toy_Attest)) : res bytes :=
  match sh_Subject (stmt_Header (A := toy_Attest) st) with
  | [s] =>
      match subj_Digest s !! "sha256" with
      | Some d =>
          if decide (subj_Digest s = {["sha256" := d]} ∧ subj_Name s = "repo"
                     ∧ sh_Type (stmt_Header (A := toy_Attest) st) = ""
                     ∧ sh_PredicateType (stmt_Header (A := toy_Attest) st) = CosignCustomProvenanceV01)
          then Ok d else Err (error_New "marshal")
      | None => Err (error_New "marshal")
      end
  | _ => Err (error_New "marshal")
  end.

#[local] Instance toy_AttestLaws v :
  AttestLaws (X := toy) (A := toy_Attest) toy_marshal_statement
    (mkSignerVerifier v (toy_verifier (toy_key "k"))).
Proof.
  split.
  - intros st b. unfold toy_marshal_statement.
    destruct (stmt_Header st) as [t pt subjects]. cbn. destruct subjects as [|[n m] [|]]; [done| |done].
    cbn. destruct (m !! "sha256") as [d|]; [|done]. destruct (decide _) as [(-> & -> & -> & ->)|]; [|done].
    intros [= <-]. by eexists.
  - intros t p e. cbn. destruct (t =?s IntotoPayloadType) eqn:Et; [|done].
    apply str_eqb_eq in Et as ->. cbn [andb]. destruct (strings_HasPrefix _ _) eqn:Eh; [done|].
    intros [= <-]. cbn. rewrite Eh. do 2 eexists. repeat split. cbn. unfold toy_verify. cbn.
    by rewrite str_eqb_refl.
Qed.

Definition toy_ao : AttestOpts (R := toy_Registry) :=
  mkAttestOpts (R := toy_Registry) (mkKeyOpts false "" "cosign.key" "" "" "" false toy_pass "") [] "" "" "" false
    "predicate" false "custom" false.
(** The key "k" in its file. *)
Definition toy_kw : KeyWorld := files {["cosign.key" := "!ek"]}.
Definition toy_attest_co : CheckOpts (R := toy_Registry) :=
  mkCheckOpts (R := toy_Registry) [WithRemoteOptions []] None (Some (IntotoSubjectClaimVerifier (X := toy)))
    None (Some (toy_verifier (toy_key "k"))) None None "" "" false "" [].

Lemma GenerateStatement_header_witness :
  ∃ st, GenerateStatement (X := toy) (A := toy_Attest)
      (mkGenerateOpts (Ok "{}") "https://example.com/p" "d" "repo" None) = Ok st
    ∧ sh_PredicateType (stmt_Header (A := toy_Attest) st) = "https://example.com/p".
Proof.
  destruct (ok_res (GenerateStatement (X := toy) (A := toy_Attest)
    (mkGenerateOpts (Ok "{}") "https://example.com/p" "d" "repo" None))) as [st H]; [reflexivity|].
  exists st. split; [exact H|].
  by rewrite (GenerateStatement_header (X := toy) (A := toy_Attest)
    (mkGenerateOpts (Ok "{}") "https://example.com/p" "d" "repo" None) _ st eq_refl H).
Defined.

#[local] Notation toy_attest := (AttestCmd (X := toy) (TR := toy_TrustRoot) (C := toy_Ct)
  (KX := toy_Keys) (R := toy_Registry) (S := toy_Sign) (A := toy_Attest) toy_marshal_statement 1 toy_ao
  toy_kw "repo@sha256:d").

Lemma attest_then_verify_witness :
  ∃ reg' r l b, toy_attest (sw_Reg toy_sign_world) = (reg', Ok r)
    ∧ snd (VerifyImageAttestations (X := toy) (TR := toy_TrustRoot) (C := toy_Ct) (R := toy_Registry) 1
        reg' (name_Digest "repo" "sha256:d") toy_attest_co) = Ok (l, b) ∧ l ≠ [].
Proof.
  destruct (ok_run (toy_attest (sw_Reg toy_sign_world))) as (reg' & r & H); [vm_compute; reflexivity|].
  destruct (ok_res (SignerFromKeyOpts (X := toy) (TR := toy_TrustRoot) (C := toy_Ct) (KX := toy_Keys)
    (R := toy_Registry) (S := toy_Sign) "" "" (ao_Key toy_ao) toy_kw)) as [sv Hsv]; [reflexivity|].
  pose proof Hsv as Hsv'. injection Hsv' as Hsv'.
  assert (HL : AttestLaws (X := toy) (A := toy_Attest) toy_marshal_statement (cs_Signer sv))
    by (rewrite <- Hsv'; apply toy_AttestLaws).
  assert (HK : attest_check (X := toy) (R := toy_Registry) (sv_Verifier (cs_Signer sv))
    [WithRemoteOptions []] toy_attest_co) by (rewrite <- Hsv'; by split).
  assert (Hnp : ∀ s, s ∈ ([] : list Signature) → is_panic (verdict (λ s,
    verify_attestation (X := toy) (TR := toy_TrustRoot) (C := toy_Ct) (R := toy_Registry) s
      (mkHash "sha256" "d")) toy_attest_co s) = false) by (by intros s Hin%elem_of_nil).
  destruct (attest_then_verify (X := toy) (TR := toy_TrustRoot) (C := toy_Ct) (KX := toy_Keys)
    (R := toy_Registry) (S := toy_Sign) (A := toy_Attest) toy_marshal_statement 1 toy_ao toy_kw
    "repo@sha256:d" "repo" "sha256:d" [WithRemoteOptions []] toy_attest_co (sw_Reg toy_sign_world) reg' sv r
    _ (mkHash "sha256" "d") _ [] HL eq_refl eq_refl eq_refl ltac:(by rewrite <- Hsv') eq_refl eq_refl
    Hsv eq_refl eq_refl eq_refl eq_refl eq_refl eq_refl HK Hnp H)
    as (p & e & att & _ & _ & _ & [(dup & se & s & Hin & _)|(l & b & new & Hv & Hin & _)]).
  - by apply elem_of_nil in Hin.
  - exists reg', r, l, b. split; [exact H|]. split; [exact Hv|]. intros ->. by apply elem_of_nil in Hin.
Defined.
