(* ===== verification/Blob.v ===== *)
(** * Signing and verifying blobs

    cmd/cosign/cli/sign/sign_blob.go, cmd/cosign/cli/verify/verify_blob.go with
    the certificate loaders of verify.go, and pkg/cosign/fetch.go (signed
    payloads of an image, and the bundle file of a blob).

    The state is the files that commands write, the secrets of the cluster, and
    the package variables of the Fulcio roots. *)
From stdpp Require Import pretty.
From S2P Require Import Prelude GoStd External Concrete OciSignature OciSignatures OciEntity.
From S2P Require Import OciRemote Tuf Tlog Ctl Verify Keys Sign.

(** cosign.LocalSignedPayload *)
Record LocalSignedPayload := mkLocalSignedPayload {
  lsp_Base64Signature : string;
  lsp_Cert : string;
  lsp_Bundle : option RekorBundle }.

(** cosign.SignedPayload *)
Record SignedPayload := mkSignedPayload {
  sp_Base64Signature : string;
  sp_Payload : bytes;
  sp_Cert : option Certificate;
  sp_Chain : list Certificate;
  sp_Bundle : option RekorBundle }.

(** The entry implementations that rekor's types.NewEntry may give. *)
Inductive EntryImpl :=
  | rekord_V001Entry (obj : RekordSchema)
  | hashedrekord_V001Entry (obj : RekordSchema)
  | other_Entry.

Class BlobExt := {
  stdin_ReadAll : res bytes;
  stdout_Write : bytes → res unit;
  (* the JSON text null gives a nil pointer *)
  json_Unmarshal_LocalSignedPayload : bytes → res (option LocalSignedPayload);
  json_Marshal_LocalSignedPayload : LocalSignedPayload → res bytes;
  dsse_WrapVerifier : Verifier → Verifier;
  (* models.UnmarshalProposedEntry and types.NewEntry *)
  rekor_NewEntry : bytes → res EntryImpl }.

Record BlobWorld := mkBlobWorld { bw_Keys : KeyWorld; bw_Roots : RootsVars }.

Section blob.
Context `{X : Ext, TR : TrustRoot, C : CtExt, KX : KeyExt, R : Registry, S : !SignExt, B : BlobExt}.

Definition in_keys {A} (m : M KeyWorld A) : M BlobWorld A := λ w,
  let '(k, a) := m (bw_Keys w) in (mkBlobWorld k (bw_Roots w), a).
Definition in_roots {A} (m : M RootsVars A) : M BlobWorld A := λ w,
  let '(r, a) := m (bw_Roots w) in (mkBlobWorld (bw_Keys w) r, a).
Definition from_keys {A} (f : KeyWorld → res A) : M BlobWorld A := reads (λ w, f (bw_Keys w)).

(** ** pkg/cosign/fetch.go *)

Definition fetch_one (sig : Signature) : res SignedPayload :=
  payload ← Payload sig;
  b64 ← Base64Signature sig;
  cert ← Cert sig;
  chain ← Chain sig;
  bundle ← Bundle sig;
  Ok (mkSignedPayload b64 payload cert chain bundle).

(** The goroutines of the pool write to distinct elements, and the pool returns
    one of their errors: the order of the set is used. *)
Fixpoint fetch_all (l : list Signature) : res (list SignedPayload) :=
  match l with
  | [] => Ok []
  | sig :: l' => p ← fetch_one sig; ps ← fetch_all l'; Ok (p :: ps)
  end.

Definition FetchSignaturesForReference (depth : nat) (reg : Reg) (ref : Reference)
    (opts : list Option_) : res (list SignedPayload) :=
  simg ← remote_SignedEntity depth reg ref opts;
  sigs ← wrap "remote image" (Entity_Signatures simg);
  l ← wrap "fetching signatures" (Get sigs);
  match l with
  | [] => Err (error_New ("no signatures associated with " +:+ Reference_String ref))
  | _ => fetch_all l
  end.

(** An error of [Payload] is dropped: the empty text is decoded. *)
Definition fetch_attestation (att : Signature) : res Envelope :=
  match Payload att with
  | Ok p => json_Unmarshal_Envelope p
  | Err _ => json_Unmarshal_Envelope ""
  | Panic why => Panic why
  end.

Fixpoint fetch_attestations (l : list Signature) : res (list Envelope) :=
  match l with
  | [] => Ok []
  | att :: l' => e ← fetch_attestation att; es ← fetch_attestations l'; Ok (e :: es)
  end.

Definition FetchAttestationsForReference (depth : nat) (reg : Reg) (ref : Reference)
    (opts : list Option_) : res (list Envelope) :=
  simg ← remote_SignedEntity depth reg ref opts;
  atts ← wrap "remote image" (Entity_Attestations simg);
  l ← wrap "fetching attestations" (Get atts);
  match l with
  | [] => Err (error_New ("no attestations associated with " +:+ Reference_String ref))
  | _ => fetch_attestations l
  end.

Definition FetchLocalSignedPayloadFromPath (path : string) (w : KeyWorld) :
    res (option LocalSignedPayload) :=
  contents ← wrap ("reading " +:+ path) (read_file path w);
  json_Unmarshal_LocalSignedPayload contents.

(** ** Certificates from files (verify.go) *)

Definition loadCertFromPEM (pems : bytes) : res Certificate :=
  let out := match base64_DecodeString pems with Ok out => out | _ => pems end in
  certs ← cryptoutils_UnmarshalCertificatesFromPEM out;
  match certs with
  | [] => Err (error_New "no certs found in pem file")
  | c :: _ => Ok c
  end.

Definition loadCertFromFileOrURL (path : string) (w : KeyWorld) : res Certificate :=
  pems ← load_file_or_url path w; loadCertFromPEM pems.

Definition loadCertChainFromFileOrURL (path : string) (w : KeyWorld) : res (list Certificate) :=
  pems ← load_file_or_url path w; cryptoutils_LoadCertificatesFromPEM pems.

(** ** sign-blob *)

Definition SignBlobCmd (ko : KeyOpts) (payloadPath : string) (b64 : bool)
    (outputSignature outputCertificate : string) : M KeyWorld bytes :=
  payload ← (if payloadPath =?s "-" then lift stdin_ReadAll
             else reads (read_file (filepath_Clean payloadPath)));
  sv ← reads (SignerFromKeyOpts "" "" ko);
  sig ← lift (wrap "signing blob" (SignMessage (cs_Signer sv) payload));
  '(rekorBytes, bundle) ← lift
    (if EnableExperimental then
       rekorBytes ← CertSigner_Bytes sv;
       rekorClient ← rekor_NewClient (ko_RekorURL ko);
       entry ← TLogUpload rekorClient sig payload rekorBytes;
       _ ← deref (le_LogIndex entry);
       bundle ← EntryToBundle entry;
       Ok (rekorBytes, bundle)
     else Ok ("", None));
  if negb (ko_BundlePath ko =?s "") then
    let b64sig := base64_EncodeToString sig in
    contents ← lift (json_Marshal_LocalSignedPayload
                 (mkLocalSignedPayload b64sig (base64_EncodeToString rekorBytes) bundle));
    write_file (ko_BundlePath ko) contents;;
    mret b64sig
  else
    sig ← (if negb (outputSignature =?s "") then
             M_wrap "create signature file"
               (write_file outputSignature (if b64 then base64_EncodeToString sig else sig));;
             mret sig
           else if b64 then mret (base64_EncodeToString sig)
           else lift (stdout_Write sig);; mret sig);
    (if negb (outputCertificate =?s "") && negb (rekorBytes =?s "") then
       M_wrap "create certificate file"
         (write_file outputCertificate
            (if b64 then base64_EncodeToString rekorBytes else rekorBytes))
     else mret ());;
    mret sig.

(** ** verify-blob *)

Definition isb64 (data : bytes) : bool := is_ok (base64_DecodeString data).

Definition isIntotoDSSE (blobBytes : bytes) : bool :=
  match json_Unmarshal_Envelope blobBytes with
  | Ok env => env_PayloadType env =?s IntotoPayloadType
  | _ => false
  end.

(** The raw signature and its base64 form. *)
Definition both_forms (targetSig : bytes) : string * string :=
  match base64_DecodeString targetSig with
  | Ok sig => (sig, targetSig)
  | _ => (targetSig, base64_EncodeToString targetSig)
  end.

Definition signatures_of (sigRef bundlePath : string) (w : KeyWorld) : res (string * string) :=
  targetSig ←
    (if negb (sigRef =?s "") then
       catch (load_file_or_url sigRef w) (λ e, if os_IsNotExist e then Ok sigRef else Err e) Ok
     else if negb (bundlePath =?s "") then
       b ← FetchLocalSignedPayloadFromPath bundlePath w;
       b ← deref b;
       Ok (lsp_Base64Signature b)
     else Err (error_New "missing flag '--signature'"));
  Ok (both_forms targetSig).

Definition payloadBytes (blobRef : string) (w : KeyWorld) : res bytes :=
  if blobRef =?s "-" then stdin_ReadAll else load_file_or_url blobRef w.

(** The certificates in the key of a log entry. *)
Definition extractCerts (e : LogEntryAnon) : res (list Certificate) :=
  body ← as_string (le_Body e);
  b ← base64_DecodeString body;
  eimpl ← rekor_NewEntry b;
  publicKeyB64 ← match eimpl with
                 | rekord_V001Entry obj | hashedrekord_V001Entry obj =>
                     sg ← deref (rs_Signature obj); Ok (base64_EncodeToString (snd sg))
                 | other_Entry => Err (error_New "unexpected tlog entry type")
                 end;
  publicKey ← base64_DecodeString publicKeyB64;
  certs ← cryptoutils_UnmarshalCertificatesFromPEM publicKey;
  match certs with
  | [] => Err (error_New "no certs found in pem tlog")
  | _ => Ok certs
  end.

Definition verifyRekorBundle (bundlePath : string) (cert : option Certificate) (w : KeyWorld) :
    res unit :=
  b ← FetchLocalSignedPayloadFromPath bundlePath w;
  b ← deref b;
  match lsp_Bundle b with
  | None => Err (error_New "rekor entry is not available")
  | Some bundle =>
      publicKeys ← wrap "retrieving rekor public key" GetRekorPubs;
      match publicKeys !! rp_LogID (rb_Payload bundle) with
      | None => Err (error_New "rekor log public key not found for payload")
      | Some pubKey =>
          VerifySET (rb_Payload bundle) (rb_SignedEntryTimestamp bundle) (rpk_PubKey pubKey);;
          match cert with
          | None => Ok ()
          | Some cert => CheckExpiry cert (rp_IntegratedTime (rb_Payload bundle))
          end
      end
  end.

(** The key or certificate under which the entry was uploaded. *)
Definition entry_key (pubKey : option Verifier) (cert : option Certificate) : res bytes :=
  pubBytes ← match pubKey with Some v => PublicKeyPem v | None => Ok "" end;
  match cert with
  | Some c => cryptoutils_MarshalCertificateToPEM c
  | None => Ok pubBytes
  end.

(** An entry that does not verify is not an error. *)
Definition verify_entry (rekorClient : Rekor) (e : LogEntryAnon) (cert : option Certificate) :
    res unit :=
  catch (VerifyTLogEntry rekorClient e) (λ _, Ok ()) (λ _,
    _ ← ComputeLeafHash e;
    v ← deref (le_Verification e);
    ip ← deref (lev_InclusionProof v);
    _ ← deref (ip_LogIndex ip);
    match cert with
    | None => Ok ()
    | Some cert => it ← deref (le_IntegratedTime e); CheckExpiry cert it
    end).

Definition verifyRekorEntry (ko : KeyOpts) (e : option LogEntryAnon) (pubKey : option Verifier)
    (cert : option Certificate) (b64sig : string) (blobBytes : bytes) (w : KeyWorld) : res unit :=
  let online :=
    if negb EnableExperimental then Ok () else
    rekorClient ← rekor_NewClient (ko_RekorURL ko);
    e ← match e with
        | Some e => Ok e
        | None =>
            pubBytes ← entry_key pubKey cert;
            FindTlogEntry rekorClient b64sig blobBytes pubBytes
        end;
    verify_entry rekorClient e cert in
  if ko_BundlePath ko =?s "" then online
  else catch (verifyRekorBundle (ko_BundlePath ko) cert w) (λ _, online) (λ _, Ok ()).

(** The options under which a certificate is checked. *)
Definition blob_opts (roots ints : CertPool) (certEmail certOidcIssuer : string)
    (enforceSCT : bool) : CheckOpts :=
  mkCheckOpts [] None None None None roots ints certEmail certOidcIssuer enforceSCT "" [].

Definition dsse_verifier (verifier : Verifier) (blobBytes : bytes) : Verifier :=
  if isIntotoDSSE blobBytes then dsse_WrapVerifier verifier else verifier.

(** The certificate embedded in the binary, which [initRoots] appends. *)
Context (fulcioIntermediateV1 : bytes).

(** One log entry: an error makes the loop continue. *)
Definition check_uuid (ko : KeyOpts) (rClient : Rekor) (certEmail certOidcIssuer : string)
    (sig b64sig u : string) (blobBytes : bytes) (enforceSCT : bool) : M BlobWorld unit :=
  tlogEntry ← lift (GetTlogEntry rClient u);
  certs ← lift (extractCerts tlogEntry);
  roots ← in_roots (fulcioroots_Get fulcioIntermediateV1);
  ints ← in_roots (fulcioroots_GetIntermediates fulcioIntermediateV1);
  cert ← lift (match certs with c :: _ => Ok c | [] => Panic "index out of range" end);
  verifier ← lift (ValidateAndUnpackCert cert
                     (blob_opts roots ints certEmail certOidcIssuer enforceSCT));
  let verifier := dsse_verifier verifier blobBytes in
  lift (VerifySignature verifier sig blobBytes);;
  from_keys (verifyRekorEntry ko (Some tlogEntry) (Some verifier) (Some cert) b64sig blobBytes).

Fixpoint check_uuids (check : string → M BlobWorld unit) (uuids : list string)
    (validSigExists : bool) : M BlobWorld bool :=
  match uuids with
  | [] => mret validSigExists
  | u :: uuids' =>
      r ← M_try (check u);
      check_uuids check uuids' (validSigExists || is_ok r)
  end.

Definition verifySigByUUID (ko : KeyOpts) (rClient : Rekor) (certEmail certOidcIssuer : string)
    (sig b64sig : string) (uuids : list string) (blobBytes : bytes) (enforceSCT : bool) :
    M BlobWorld unit :=
  validSigExists ← check_uuids (λ u, check_uuid ko rClient certEmail certOidcIssuer sig b64sig u
                                       blobBytes enforceSCT) uuids false;
  lift (ensure validSigExists
          (error_New ("could not find a valid tlog entry for provided blob, found "
                      +:+ pretty (length uuids) +:+ " invalid entries"))).

(** The verifier and the certificate that the flags give; [None] is the keyless
    search of the log. *)
Definition blob_verifier (ko : KeyOpts) (certRef certEmail certOidcIssuer certChain : string)
    (enforceSCT : bool) (w : KeyWorld) : res (option (Verifier * option Certificate)) :=
  if negb (ko_KeyRef ko =?s "") then
    v ← wrap "loading public key" (PublicKeyFromKeyRef (ko_KeyRef ko) w); Ok (Some (v, None))
  else if ko_Sk ko then
    sk ← wrap "opening piv token" (piv_Verifier (ko_Slot ko));
    v ← wrap "loading public key from token" sk; Ok (Some (v, None))
  else if negb (certRef =?s "") then
    cert ← loadCertFromFileOrURL certRef w;
    v ← (if certChain =?s "" then signature_LoadVerifier (cert_PublicKey cert)
         else
           chain ← loadCertChainFromFileOrURL certChain w;
           snd (ValidateAndUnpackCertWithChain cert chain
                  (blob_opts None None certEmail certOidcIssuer enforceSCT)));
    Ok (Some (v, Some cert))
  else if negb (ko_BundlePath ko =?s "") then
    b ← FetchLocalSignedPayloadFromPath (ko_BundlePath ko) w;
    b ← deref b;
    if lsp_Cert b =?s ""
    then Err (error_New "bundle does not contain cert for verification, please provide public key")
    else
      let certBytes := match base64_DecodeString (lsp_Cert b) with Ok c => c | _ => lsp_Cert b end in
      catch (loadCertFromPEM certBytes)
        (λ _, v ← LoadPublicKeyRaw certBytes; Ok (Some (v, None)))
        (λ cert, v ← signature_LoadVerifier (cert_PublicKey cert); Ok (Some (v, Some cert)))
  else Ok None.

(** Without a key, a certificate or a bundle the log is searched; the code
    reaches neither case only with the experimental mode off, which the first
    check excludes. *)
Definition VerifyBlobCmd (ko : KeyOpts) (certRef certEmail certOidcIssuer certChain sigRef
    blobRef : string) (enforceSCT : bool) : M BlobWorld unit :=
  lift (ensure (OneOf [negb (ko_KeyRef ko =?s ""); ko_Sk ko; negb (certRef =?s "")]
                || EnableExperimental || negb (ko_BundlePath ko =?s ""))
          (error_Kind kind_PubKeyParse "one of: key, security key or certificate must be provided"));;
  '(sig, b64sig) ← from_keys (signatures_of sigRef (ko_BundlePath ko));
  blobBytes ← from_keys (payloadBytes blobRef);
  found ← from_keys (blob_verifier ko certRef certEmail certOidcIssuer certChain enforceSCT);
  match found with
  | Some (v, cert) =>
      let v := dsse_verifier v blobBytes in
      lift (VerifySignature v sig blobBytes);;
      from_keys (verifyRekorEntry ko None (Some v) cert b64sig blobBytes)
  | None =>
      if negb EnableExperimental then lift (Panic "nil dereference") else
      rClient ← lift (rekor_NewClient (ko_RekorURL ko));
      uuids ← lift (FindTLogEntriesByPayload rClient blobBytes);
      lift (ensure (negb (bool_decide (uuids = [])))
              (error_New "could not find a tlog entry for provided blob"));;
      verifySigByUUID ko rClient certEmail certOidcIssuer sig b64sig uuids blobBytes enforceSCT
  end.

End blob.

(** ** What an accepted blob means *)

Section spec.
Context `{X : Ext, TR : TrustRoot, C : CtExt, KX : KeyExt, R : Registry, S : !SignExt, B : BlobExt}.

(** The bytes of the field of a bundle that holds a certificate or a key: in base64, or
    as they are. *)
Definition bundle_bytes (b : LocalSignedPayload) (raw : bytes) : Prop :=
  base64_DecodeString (lsp_Cert b) = Ok raw
  ∨ is_ok (base64_DecodeString (lsp_Cert b)) = false ∧ raw = lsp_Cert b.

(** Where the verifier of a blob, and the certificate that its log entry was
    made under, come from: the first that is given of the key, the token, the
    certificate and the bundle file. *)
Inductive blob_trust (ko : KeyOpts) (certRef certEmail certOidcIssuer certChain : string)
    (enforceSCT : bool) (w : KeyWorld) : Verifier → option Certificate → Prop :=
  | trust_key v :
      ko_KeyRef ko ≠ "" → PublicKeyFromKeyRef (ko_KeyRef ko) w = Ok v →
      blob_trust ko certRef certEmail certOidcIssuer certChain enforceSCT w v None
  | trust_token v :
      ko_KeyRef ko = "" → ko_Sk ko = true → piv_Verifier (ko_Slot ko) = Ok (Ok v) →
      blob_trust ko certRef certEmail certOidcIssuer certChain enforceSCT w v None
  | trust_cert cert v :
      ko_KeyRef ko = "" → ko_Sk ko = false → certRef ≠ "" → certChain = "" → loadCertFromFileOrURL certRef w = Ok cert →
      signature_LoadVerifier (cert_PublicKey cert) = Ok v →
      blob_trust ko certRef certEmail certOidcIssuer certChain enforceSCT w v (Some cert)
  | trust_chain cert chain root v :
      ko_KeyRef ko = "" → ko_Sk ko = false → certRef ≠ "" → certChain ≠ "" → loadCertFromFileOrURL certRef w = Ok cert →
      loadCertChainFromFileOrURL certChain w = Ok chain → last chain = Some root →
      cert_trusted (blob_opts (Some [root]) (Some (slice_init chain)) certEmail certOidcIssuer
                      enforceSCT) cert (Some (slice_init chain)) v →
      blob_trust ko certRef certEmail certOidcIssuer certChain enforceSCT w v (Some cert)
  | trust_bundle b raw v cert :
      ko_KeyRef ko = "" → ko_Sk ko = false → certRef = "" → ko_BundlePath ko ≠ "" →
      FetchLocalSignedPayloadFromPath (ko_BundlePath ko) w = Ok (Some b) → lsp_Cert b ≠ "" →
      bundle_bytes b raw →
      match cert with
      | Some c => loadCertFromPEM raw = Ok c ∧ signature_LoadVerifier (cert_PublicKey c) = Ok v
      | None => (∃ e, loadCertFromPEM raw = Err e) ∧ LoadPublicKeyRaw raw = Ok v
      end →
      blob_trust ko certRef certEmail certOidcIssuer certChain enforceSCT w v cert.

Lemma blob_verifier_trust ko certRef certEmail certOidcIssuer certChain enforceSCT w v cert :
  blob_verifier ko certRef certEmail certOidcIssuer certChain enforceSCT w = Ok (Some (v, cert)) →
  blob_trust ko certRef certEmail certOidcIssuer certChain enforceSCT w v cert.
Proof.
  unfold blob_verifier. intros H. destruct (ko_KeyRef ko =?s "") eqn:Ek; cbn in H.
  2: { go_inv. apply str_eqb_neq in Ek. by apply trust_key. }
  apply str_eqb_eq in Ek. destruct (ko_Sk ko) eqn:Es; [go_inv; by apply trust_token|].
  destruct (certRef =?s "") eqn:Er; cbn in H.
  - destruct (ko_BundlePath ko =?s "") eqn:Eb; cbn in H; [done|].
    apply bind_Ok in H as (ob & Hb & H). apply bind_Ok in H as (b & ->%deref_Ok & H).
    destruct (lsp_Cert b =?s "") eqn:Ec; [done|].
    apply str_eqb_eq in Er. apply str_eqb_neq in Eb, Ec.
    set (raw := match base64_DecodeString (lsp_Cert b) with Ok c => c | _ => _ end) in H.
    assert (Hraw : bundle_bytes b raw).
    { unfold bundle_bytes. subst raw. destruct (base64_DecodeString _); [by left|by right..]. }
    destruct (loadCertFromPEM raw) as [c|e|] eqn:El; cbn in H; [| |done];
      apply bind_Ok in H as (v' & Hv & H); simplify_eq; eapply (trust_bundle _ _ _ _ _ _ _ b raw); eauto.
  - apply str_eqb_neq in Er. apply bind_Ok in H as (c & Hc & H). apply bind_Ok in H as (v' & Hv & H).
    simplify_eq. destruct (certChain =?s "") eqn:Ech.
    + apply str_eqb_eq in Ech. by apply trust_cert.
    + apply str_eqb_neq in Ech. apply bind_Ok in Hv as (chain & Hch & Hv).
      unfold ValidateAndUnpackCertWithChain in Hv. destruct (last chain) as [root|] eqn:El; [|done].
      apply ValidateAndUnpackCert_trusted in Hv. by eapply trust_chain.
Qed.

Lemma blob_verifier_none ko certRef certEmail certOidcIssuer certChain enforceSCT w :
  blob_verifier ko certRef certEmail certOidcIssuer certChain enforceSCT w = Ok None →
  ko_KeyRef ko = "" ∧ ko_Sk ko = false ∧ certRef = "" ∧ ko_BundlePath ko = "".
Proof.
  unfold blob_verifier. intros H. destruct (ko_KeyRef ko =?s "") eqn:Ek; cbn in H; [|by go_inv].
  destruct (ko_Sk ko); [by go_inv|]. destruct (certRef =?s "") eqn:Er; cbn in H; [|by go_inv].
  destruct (ko_BundlePath ko =?s "") eqn:Eb; cbn in H; [by apply str_eqb_eq in Ek, Er, Eb|].
  apply bind_Ok in H as (ob & _ & H). apply bind_Ok in H as (b & _ & H).
  destruct (lsp_Cert b =?s ""); [done|]. destruct (loadCertFromPEM _); cbn in H; by go_inv.
Qed.

(** The bundle file holds a log entry that a trusted log key signed, of the
    lifetime of the certificate. *)
Definition blob_bundle_proof (path : string) (cert : option Certificate) (w : KeyWorld) : Prop :=
  ∃ b bundle der, FetchLocalSignedPayloadFromPath path w = Ok (Some b) ∧ lsp_Bundle b = Some bundle
    ∧ tuf_log_key der ∧ getLogID (ecdsa_PublicKey der) = Ok (rp_LogID (rb_Payload bundle))
    ∧ VerifySET (rb_Payload bundle) (rb_SignedEntryTimestamp bundle) der = Ok ()
    ∧ ∀ c, cert = Some c →
        (cert_NotBefore c ≤ rp_IntegratedTime (rb_Payload bundle) ≤ cert_NotAfter c)%Z.

Lemma verifyRekorBundle_proof path cert w :
  verifyRekorBundle path cert w = Ok () → blob_bundle_proof path cert w.
Proof.
  unfold verifyRekorBundle, blob_bundle_proof. intros H.
  apply bind_Ok in H as (ob & Hb & H). apply bind_Ok in H as (b & ->%deref_Ok & H).
  destruct (lsp_Bundle b) as [bundle|] eqn:Eb; [|done].
  apply bind_Ok in H as (pubs & Hp%wrap_Ok & H).
  destruct (pubs !! _) as [k|] eqn:Ek; [|done]. destruct (GetRekorPubs_spec _ _ _ Hp Ek) as [Ht Hid].
  apply bind_Ok in H as ([] & Hset & H). exists b, bundle, (rpk_PubKey k). repeat (split; [done|]).
  intros c ->. by apply CheckExpiry_Ok.
Qed.

(** In experimental mode: a bundle, or an entry of the log; if the entry
    verifies, it is of the lifetime of the certificate. *)
Definition blob_logged (ko : KeyOpts) (e : option LogEntryAnon) (v : Verifier)
    (cert : option Certificate) (b64sig : string) (blob : bytes) (w : KeyWorld) : Prop :=
  EnableExperimental = true →
  ko_BundlePath ko ≠ "" ∧ blob_bundle_proof (ko_BundlePath ko) cert w
  ∨ ∃ rc e', rekor_NewClient (ko_RekorURL ko) = Ok rc
      ∧ (e = Some e' ∨ e = None ∧ ∃ pem, entry_key (Some v) cert = Ok pem
           ∧ FindTlogEntry rc b64sig blob pem = Ok e')
      ∧ (VerifyTLogEntry rc e' = Ok () → ∀ c, cert = Some c →
           ∃ it, le_IntegratedTime e' = Some it ∧ (cert_NotBefore c ≤ it ≤ cert_NotAfter c)%Z).

Lemma verify_entry_expiry rc e cert :
  verify_entry rc e cert = Ok () → VerifyTLogEntry rc e = Ok () → ∀ c, cert = Some c →
  ∃ it, le_IntegratedTime e = Some it ∧ (cert_NotBefore c ≤ it ≤ cert_NotAfter c)%Z.
Proof.
  unfold verify_entry. intros H Hv c ->. rewrite Hv in H. cbn [catch] in H. go_inv.
  eexists. split; [done|]. by apply CheckExpiry_Ok.
Qed.

Lemma verifyRekorEntry_logged ko e v cert b64sig blob w :
  verifyRekorEntry ko e (Some v) cert b64sig blob w = Ok () → blob_logged ko e v cert b64sig blob w.
Proof.
  unfold verifyRekorEntry. set (online := if negb EnableExperimental then _ else _).
  assert (Hon : online = Ok () → blob_logged ko e v cert b64sig blob w).
  { subst online. intros H Hexp. right. rewrite Hexp in H. cbn [negb] in H.
    apply bind_Ok in H as (rc & Hrc & H). apply bind_Ok in H as (e' & He & H).
    exists rc, e'. split; [done|]. split; [|by apply verify_entry_expiry].
    destruct e; go_inv; [by left|]. right. split; [done|]. by eexists. }
  destruct (ko_BundlePath ko =?s "") eqn:Eb; [done|]. apply str_eqb_neq in Eb.
  destruct (verifyRekorBundle _ _ _) as [[]| |] eqn:Ev; cbn; [|done..].
  intros _ _. left. split; [done|]. by apply verifyRekorBundle_proof.
Qed.

(** The Fulcio pools of the process. *)
Definition fulcio_pools (v1 : bytes) (v : RootsVars) (roots ints : CertPool) : Prop :=
  if rv_done v then rv_roots v = roots ∧ rv_intermediates v = ints
  else ∃ r i, initRoots v1 = Ok (r, i) ∧ roots = Some r ∧ ints = Some i.

Lemma fulcio_pools_stable v1 v v' roots :
  fulcioroots_Get v1 v = (v', Ok roots) → ∃ ints,
    fulcioroots_GetIntermediates v1 v' = (v', Ok ints) ∧ fulcio_pools v1 v roots ints
    ∧ rv_done v' = true ∧ fulcio_pools v1 v' roots ints.
Proof.
  unfold fulcioroots_Get, fulcioroots_GetIntermediates, rootsOnce, fulcio_pools, mbind, M_bind, gets.
  destruct (rv_done v) eqn:Ed; cbn.
  - intros [= <- <-]. eexists. rewrite Ed. cbn. repeat split; eauto.
  - destruct (initRoots v1) as [[r i]| |]; [|done..]. cbn. intros [= <- <-]. cbn. eauto 10.
Qed.

(** A keyless blob: a log entry found for the blob carries a certificate of the
    Fulcio pools, and its key made the signature. *)
Definition blob_keyless (v1 : bytes) (ko : KeyOpts) (certRef certEmail certOidcIssuer : string)
    (enforceSCT : bool) (sig b64sig : string) (blob : bytes) (w : BlobWorld) : Prop :=
  ko_KeyRef ko = "" ∧ ko_Sk ko = false ∧ certRef = "" ∧ ko_BundlePath ko = ""
  ∧ EnableExperimental = true
  ∧ ∃ rc uuids u e cert certs roots ints v,
    rekor_NewClient (ko_RekorURL ko) = Ok rc ∧ FindTLogEntriesByPayload rc blob = Ok uuids ∧ u ∈ uuids
    ∧ GetTlogEntry rc u = Ok e ∧ extractCerts e = Ok (cert :: certs)
    ∧ fulcio_pools v1 (bw_Roots w) roots ints
    ∧ cert_trusted (blob_opts roots ints certEmail certOidcIssuer enforceSCT) cert ints v
    ∧ VerifySignature (dsse_verifier v blob) sig blob = Ok ()
    ∧ blob_logged ko (Some e) (dsse_verifier v blob) (Some cert) b64sig blob (bw_Keys w).

Lemma in_roots_Ok {A} (m : M RootsVars A) w w' a :
  in_roots m w = (w', Ok a) → m (bw_Roots w) = (bw_Roots w', Ok a) ∧ bw_Keys w' = bw_Keys w.
Proof. unfold in_roots. destruct (m (bw_Roots w)). by intros [= <- ->]. Qed.

(** A call that does not panic leaves the files and the Fulcio pools. *)
Definition stable {A} (v1 : bytes) (m : M BlobWorld A) : Prop := ∀ w w' r,
  m w = (w', r) → (∀ why, r ≠ Panic why) → bw_Keys w' = bw_Keys w
  ∧ ∀ roots ints, fulcio_pools v1 (bw_Roots w') roots ints → fulcio_pools v1 (bw_Roots w) roots ints.

Lemma stable_lift {A} v1 (r : res A) : stable v1 (lift r).
Proof. by intros w w' ? [= <- <-]. Qed.
Lemma stable_from_keys {A} v1 (f : KeyWorld → res A) : stable v1 (from_keys f).
Proof. by intros w w' ? [= <- <-]. Qed.
Lemma stable_bind {A A'} v1 (m : M BlobWorld A) (f : A → M BlobWorld A') :
  stable v1 m → (∀ a, stable v1 (f a)) → stable v1 (m ≫= f).
Proof.
  intros Hm Hf w w' r. unfold mbind, M_bind. destruct (m w) as [w1 [a|e|why]] eqn:Em.
  - intros Hr Hn. destruct (Hm _ _ _ Em) as [Hk Hp]; [done|].
    destruct (Hf a _ _ _ Hr Hn) as [Hk' Hp']. split; [congruence|]. eauto.
  - intros [= <- <-] _. by apply (Hm _ _ _ Em).
  - intros [= <- <-] Hn. by destruct (Hn why).
Qed.
Lemma stable_pool {A} v1 (f : RootsVars → A) : stable v1 (in_roots (rootsOnce v1;; gets f)).
Proof.
  intros w w' r. unfold in_roots, rootsOnce, mbind, M_bind, gets, fulcio_pools.
  destruct (rv_done (bw_Roots w)) eqn:Ed; [intros [= <- <-]; cbn; rewrite Ed; eauto|].
  destruct (initRoots v1) as [[r' i]| |]; intros [= <- <-] Hn; cbn; [|by edestruct Hn..].
  split; [done|]. intros ?? [<- <-]. eauto.
Qed.
Hint Resolve stable_lift stable_from_keys stable_bind stable_pool : core.

Lemma check_uuid_stable v1 ko rc certEmail certOidcIssuer sig b64sig u blob enforceSCT :
  stable v1 (check_uuid v1 ko rc certEmail certOidcIssuer sig b64sig u blob enforceSCT).
Proof. unfold check_uuid, fulcioroots_Get, fulcioroots_GetIntermediates. auto 20. Qed.

(** A loop that finds a valid entry has one whose check succeeded, in a world
    with the same files and pools. *)
Lemma check_uuids_true v1 check uuids : (∀ u, stable v1 (check u)) → ∀ b w w',
  check_uuids check uuids b w = (w', Ok true) → b = true ∨ ∃ u w1 w2, u ∈ uuids
    ∧ check u w1 = (w2, Ok ()) ∧ bw_Keys w1 = bw_Keys w
    ∧ ∀ roots ints, fulcio_pools v1 (bw_Roots w1) roots ints → fulcio_pools v1 (bw_Roots w) roots ints.
Proof.
  intros Hs. induction uuids as [|u uuids IH]; cbn; intros b w w' H; [M_inv; by left|].
  unfold mbind, M_bind, M_try in H. destruct (check u w) as [w1 r] eqn:Ec.
  assert (Hn : (∀ why, r ≠ Panic why) ∧ check_uuids check uuids (b || is_ok r) w1 = (w', Ok true))
    by (by destruct r).
  destruct Hn as [Hn Hr]. destruct (Hs u _ _ _ Ec Hn) as [Hk Hp].
  destruct (IH _ _ _ Hr) as [Hb|(u' & w2 & w3 & Hu & Hc & Hk' & Hp')].
  - destruct r as [[]| |]; [|rewrite orb_false_r in Hb; by left..].
    right. exists u, w, w1. repeat split; [set_solver|done..|auto].
  - right. exists u', w2, w3. repeat split; [set_solver|done|congruence|auto].
Qed.

Lemma check_uuid_Ok v1 ko rc certEmail certOidcIssuer sig b64sig u blob enforceSCT w w' :
  check_uuid v1 ko rc certEmail certOidcIssuer sig b64sig u blob enforceSCT w = (w', Ok ()) →
  ∃ e cert certs roots ints v, GetTlogEntry rc u = Ok e ∧ extractCerts e = Ok (cert :: certs)
    ∧ fulcio_pools v1 (bw_Roots w) roots ints
    ∧ cert_trusted (blob_opts roots ints certEmail certOidcIssuer enforceSCT) cert ints v
    ∧ VerifySignature (dsse_verifier v blob) sig blob = Ok ()
    ∧ blob_logged ko (Some e) (dsse_verifier v blob) (Some cert) b64sig blob (bw_Keys w).
Proof.
  unfold check_uuid. intros H. apply M_bind_Ok in H as (w1 & e & [He ->]%lift_Ok & H).
  apply M_bind_Ok in H as (w1 & certs & [Hc ->]%lift_Ok & H).
  apply M_bind_Ok in H as (w1 & roots & [Hg Hk]%in_roots_Ok & H).
  destruct (fulcio_pools_stable _ _ _ _ Hg) as (ints & Hi & Hp & _).
  apply M_bind_Ok in H as (w2 & ints' & [Hg' Hk']%in_roots_Ok & H). rewrite Hi in Hg'.
  injection Hg' as Hr <-.
  apply M_bind_Ok in H as (w3 & cert & [Hcert ->]%lift_Ok & H).
  apply M_bind_Ok in H as (w3 & v & [Hv ->]%lift_Ok & H).
  apply M_bind_Ok in H as (w3 & [] & [Hs ->]%lift_Ok & H).
  destruct certs as [|c certs]; [done|]. simplify_eq. apply reads_Ok in H as [H _].
  exists e, cert, certs, roots, ints, v. do 3 (split; [done|]).
  split; [by apply (ValidateAndUnpackCert_trusted _ _ _ Hv)|]. split; [done|].
  rewrite <- Hk, <- Hk'. by apply verifyRekorEntry_logged.
Qed.

(** C19: a blob is accepted only with a signature, given by --signature or in the bundle
    file, that verifies for the blob (by the DSSE verifier if the blob is an in-toto
    envelope) with the first of these that the flags name: the key, the token's key, the
    certificate of --cert (checked against --cert-chain if that is given, and not at
    all otherwise), or the certificate or raw public key that the bundle file itself
    carries, which is not checked against any root.  Without any of them the mode is
    experimental and the key is that of a certificate of the Fulcio roots, with the
    wanted e-mail, issuer and timestamp, that an entry of the log found for the blob
    carries.  In experimental mode there is also either a bundle in the bundle file that
    a trusted log key signed, within the lifetime of the certificate if there is one, or
    an entry found in the log; such an entry may fail [VerifyTLogEntry], which is no
    error, and only if it verifies it is known to have been made within the lifetime of
    the certificate. *)
Theorem VerifyBlobCmd_sound v1 ko certRef certEmail certOidcIssuer certChain sigRef blobRef
    enforceSCT w w' :
  VerifyBlobCmd v1 ko certRef certEmail certOidcIssuer certChain sigRef blobRef enforceSCT w
    = (w', Ok ()) →
  ∃ sig b64sig blob, signatures_of sigRef (ko_BundlePath ko) (bw_Keys w) = Ok (sig, b64sig)
    ∧ payloadBytes blobRef (bw_Keys w) = Ok blob
    ∧ ((∃ v cert,
          blob_trust ko certRef certEmail certOidcIssuer certChain enforceSCT (bw_Keys w) v cert
          ∧ VerifySignature (dsse_verifier v blob) sig blob = Ok ()
          ∧ blob_logged ko None (dsse_verifier v blob) cert b64sig blob (bw_Keys w))
       ∨ blob_keyless v1 ko certRef certEmail certOidcIssuer enforceSCT sig b64sig blob w).
Proof.
  unfold VerifyBlobCmd. intros H. apply M_bind_Ok in H as (w1 & [] & [_ ->]%lift_Ok & H).
  apply M_bind_Ok in H as (w1 & [sig b64sig] & [Hs ->]%reads_Ok & H).
  apply M_bind_Ok in H as (w1 & blob & [Hb ->]%reads_Ok & H).
  apply M_bind_Ok in H as (w1 & found & [Hf ->]%reads_Ok & H).
  exists sig, b64sig, blob. do 2 (split; [done|]). destruct found as [[v cert]|]; [left|right].
  - apply M_bind_Ok in H as (w1 & [] & [Hv ->]%lift_Ok & [H _]%reads_Ok).
    exists v, cert. split; [by apply blob_verifier_trust|]. split; [done|].
    by apply verifyRekorEntry_logged.
  - apply blob_verifier_none in Hf as (?&?&?&?). do 4 (split; [done|]).
    destruct EnableExperimental eqn:Ee; [|by apply lift_Ok in H as [? _]]. cbn [negb] in H.
    split; [done|].
    apply M_bind_Ok in H as (w1 & rc & [Hrc ->]%lift_Ok & H).
    apply M_bind_Ok in H as (w1 & uuids & [Hu ->]%lift_Ok & H).
    apply M_bind_Ok in H as (w1 & [] & [_ ->]%lift_Ok & H).
    unfold verifySigByUUID in H. apply M_bind_Ok in H as (w1 & b & Hc & [->%ensure_Ok _]%lift_Ok).
    eapply check_uuids_true in Hc as [|(u & w2 & w3 & Hin & Hok & Hk & Hp)]; [done| |].
    + apply check_uuid_Ok in Hok as (e & cert & certs & roots & ints & v & ?&?& Hpools &?&?& Hl).
      exists rc, uuids, u, e, cert, certs, roots, ints, v. rewrite <- Hk. do 5 (split; [done|]).
      split; [by apply Hp|]. done.
    + intros. apply check_uuid_stable.
Qed.

(** C40: the log evidence of a blob may be about another one: a bundle that
    verifies, and an entry that does not verify, make the log check succeed for
    every blob, signature, key and entry. *)
Theorem blob_log_evidence_unrelated ko cert w :
  (ko_BundlePath ko ≠ "" → verifyRekorBundle (ko_BundlePath ko) cert w = Ok () →
   ∀ e v b64sig blob, verifyRekorEntry ko e v cert b64sig blob w = Ok ())
  ∧ (∀ rc e err v b64sig blob, ko_BundlePath ko = "" → rekor_NewClient (ko_RekorURL ko) = Ok rc →
     VerifyTLogEntry rc e = Err err → verifyRekorEntry ko (Some e) v cert b64sig blob w = Ok ()).
Proof.
  split.
  - intros Hp Hb e v b64sig blob. unfold verifyRekorEntry.
    rewrite (proj2 (str_eqb_neq _ _) Hp), Hb. done.
  - intros rc e err v b64sig blob Hp Hrc He. unfold verifyRekorEntry.
    rewrite Hp, Hrc. destruct EnableExperimental; [|done]. cbn. unfold verify_entry. by rewrite He.
Qed.

End spec.

(** ** Signing and verifying with generated keys *)

(** A signature that the signer of a private key makes is one that the verifier
    of its public key accepts. *)
Class BlobLaws `{X : Ext, KX : KeyExt} : Prop :=
  signed_verifies priv sv v m sig : signature_LoadSignerVerifier priv = Ok sv →
    SignMessage sv m = Ok sig → signature_LoadVerifier (priv_Public priv) = Ok v →
    VerifySignature v sig m = Ok ().

(** A clean path of the file system. *)
Definition local_file (p : string) : bool :=
  negb (strings_HasPrefix p "http://") && negb (strings_HasPrefix p "https://")
  && (filepath_Clean p =?s p) && negb (p =?s "-") && negb (p =?s "").

Section roundtrip.
Context `{X : Ext, TR : TrustRoot, C : CtExt, KX : KeyExt, R : Registry, S : !SignExt, B : BlobExt}.
Context `{KL : !KeyLaws, BL : !BlobLaws}.

Lemma local_file_load p w :
  local_file p = true → load_file_or_url p w = read_file p w ∧ filepath_Clean p = p ∧ p ≠ "-" ∧ p ≠ "".
Proof.
  unfold local_file, load_file_or_url. rewrite !andb_true_iff, !negb_true_iff.
  intros ((((-> & ->) & ->%str_eqb_eq) & ?%str_eqb_neq) & ?%str_eqb_neq). done.
Qed.

Lemma write_file_Ok p b (w w' : KeyWorld) :
  write_file p b w = (w', Ok ()) → w' = set_Files (<[p := b]> (kw_Files w)) w.
Proof. unfold write_file. intros H. by M_inv. Qed.

Lemma GenerateKeyPairCmd_files kms pf answer w w' :
  GenerateKeyPairCmd kms "" [] pf answer w = (w', Ok ()) →
  may_write "cosign.key" answer w = Ok true →
  ∃ priv keys, GeneratePrivateKey = Ok priv ∧ marshalKeyPair priv (priv_Public priv) pf = Ok keys
    ∧ w' = set_Files (<["cosign.pub" := PublicBytes keys]>
             (<["cosign.key" := PrivateBytes keys]> (kw_Files w))) w.
Proof.
  unfold GenerateKeyPairCmd, write_keys. cbn. intros H Hm.
  apply M_bind_Ok in H as (w1 & keys & [Hk ->]%lift_Ok & H).
  apply M_bind_Ok in H as (w1 & ok & [Ho ->]%reads_Ok & H). rewrite Hm in Ho. injection Ho as <-.
  cbn [negb] in H. apply M_bind_Ok in H as (w1 & [] & ->%write_file_Ok & ->%write_file_Ok).
  unfold GenerateKeyPair in Hk. go_inv. eauto.
Qed.

(** The settings of a command that uses a key file and nothing else. *)
Definition key_file (key : string) (ko : KeyOpts) : Prop :=
  ko_Sk ko = false ∧ ko_KeyRef ko = key ∧ ko_BundlePath ko = "".

Lemma generated_signer pf ko priv keys w cs :
  GeneratePrivateKey = Ok priv → marshalKeyPair priv (priv_Public priv) pf = Ok keys →
  kw_Files w !! "cosign.key" = Some (PrivateBytes keys) → key_file "cosign.key" ko →
  call_pass (ko_PassFunc ko) false = call_pass pf true → SignerFromKeyOpts "" "" ko w = Ok cs →
  signature_LoadSignerVerifier priv = Ok (cs_Signer cs).
Proof.
  intros Hg Hm Hf (Hsk & Hkey & _) Hpass. unfold SignerFromKeyOpts, signerFromKeyRef.
  rewrite Hsk, Hkey. change ("cosign.key" =?s "") with false. change ("" =?s "") with true. cbn [negb].
  assert (Hk : SignerVerifierFromKeyRef "cosign.key" (ko_PassFunc ko) w
               = signature_LoadSignerVerifier priv).
  { change (loadKey "cosign.key" (ko_PassFunc ko) w = signature_LoadSignerVerifier priv).
    unfold loadKey, read_file. change (filepath_Clean "cosign.key") with "cosign.key".
    rewrite Hf, Hpass. destruct (marshalKeyPair_public _ _ _ _ Hm) as [-> _]. cbn [mbind res_bind].
    destruct (generated_ecdsa _ Hg) as [[d ->] _]. by apply (marshalKeyPair_load _ _ _ _ Hm I). }
  rewrite Hk. intros H. apply bind_Ok in H as (k & ->%wrap_Ok & H).
  change (token_cert "cosign.key" k) with (Ok (@None (Certificate * bytes))) in H. by go_inv.
Qed.

(** Without the experimental mode: the signature file, in base64. *)
Lemma SignBlobCmd_key ko path out outCert w w' r :
  EnableExperimental = false → ko_BundlePath ko = "" →
  local_file path = true → local_file out = true →
  SignBlobCmd ko path true out outCert w = (w', Ok r) →
  ∃ blob cs sig, read_file path w = Ok blob ∧ SignerFromKeyOpts "" "" ko w = Ok cs
    ∧ SignMessage (cs_Signer cs) blob = Ok sig
    ∧ w' = set_Files (<[out := base64_EncodeToString sig]> (kw_Files w)) w.
Proof.
  intros He Hb Hp Ho. destruct (local_file_load _ w Hp) as (_ & Hc & Hd & _).
  destruct (local_file_load _ w Ho) as (_ & _ & _ & Hn). unfold SignBlobCmd.
  rewrite He, Hb, Hc, (proj2 (str_eqb_neq _ _) Hd), (proj2 (str_eqb_neq _ _) Hn). cbn [negb].
  change ("" =?s "") with true. cbn [negb]. intros H.
  apply M_bind_Ok in H as (w1 & blob & [Hr ->]%reads_Ok & H).
  apply M_bind_Ok in H as (w1 & cs & [Hcs ->]%reads_Ok & H).
  apply M_bind_Ok in H as (w1 & sig & [Hs%wrap_Ok ->]%lift_Ok & H).
  apply M_bind_Ok in H as (w1 & [rb bd] & [[= <- <-] ->]%lift_Ok & H).
  change ("" =?s "") with true in H. cbn [negb] in H. rewrite andb_false_r in H.
  M_inv. exists blob, cs, sig. repeat (split; [done|]). by apply write_file_Ok.
Qed.

(** Verification with the files that signing left. *)
Lemma VerifyBlobCmd_key_file v1 ko key path out sig blob v w :
  EnableExperimental = false → key_file key ko → key ≠ "" →
  local_file path = true → local_file out = true →
  read_file out (bw_Keys w) = Ok (base64_EncodeToString sig) → read_file path (bw_Keys w) = Ok blob →
  isIntotoDSSE blob = false → PublicKeyFromKeyRef key (bw_Keys w) = Ok v →
  VerifySignature v sig blob = Ok () →
  VerifyBlobCmd v1 ko "" "" "" "" out path false w = (w, Ok ()).
Proof.
  intros He (Hsk & Hkey & Hbp) Hne%str_eqb_neq Hp Ho Hout Hblob Hdsse Hv Hs.
  destruct (local_file_load _ (bw_Keys w) Ho) as (Hlo & _ & _ & Hon%str_eqb_neq).
  destruct (local_file_load _ (bw_Keys w) Hp) as (Hlp & _ & Hpd%str_eqb_neq & _).
  rewrite <- Hlo in Hout. rewrite <- Hlp in Hblob.
  unfold VerifyBlobCmd. apply M_bind_Ok. exists w, ().
  split; [by rewrite Hsk, Hkey, Hne|].
  apply M_bind_Ok. exists w, (sig, base64_EncodeToString sig). split.
  { apply reads_Ok. split; [|done]. unfold signatures_of. rewrite Hon, Hout.
    cbn [negb catch mbind res_bind]. unfold both_forms. by rewrite base64_decode_encode. }
  apply M_bind_Ok. exists w, blob.
  split; [apply reads_Ok; unfold payloadBytes; by rewrite Hpd, Hblob|].
  apply M_bind_Ok. exists w, (Some (v, None)).
  split; [apply reads_Ok; unfold blob_verifier; by rewrite Hkey, Hne, Hv|].
  unfold dsse_verifier. rewrite Hdsse. apply M_bind_Ok. exists w, ().
  split; [by apply lift_Ok|]. apply reads_Ok. unfold verifyRekorEntry. by rewrite Hbp, He.
Qed.

(** C20: outside experimental mode, what sign-blob signs with a generated key pair,
    verify-blob accepts with its public half, if that can be loaded: the files that generate-key-pair and
    sign-blob wrote are the ones that the verification reads.  The conditions: the key
    files may be written and cosign.pub is not a KMS reference; the password given for
    signing is that of the generation; the signature is written in base64 (the default);
    blob and signature are local files, of clean paths, and the signature is written
    neither over the blob nor over cosign.pub; no bundle file is asked for; and the blob
    is not an in-toto DSSE envelope, for which verify-blob verifies with a DSSE verifier
    although sign-blob signs it as any other blob. *)
Theorem sign_blob_roundtrip v1 kms pf answer ko ko' path out outCert w w1 w2 r rv v :
  EnableExperimental = false → (∃ err, kms_Get "cosign.pub" = Err err) →
  may_write "cosign.key" answer w = Ok true →
  GenerateKeyPairCmd kms "" [] pf answer w = (w1, Ok ()) →
  key_file "cosign.key" ko → call_pass (ko_PassFunc ko) false = call_pass pf true →
  local_file path = true → local_file out = true → out ≠ path → out ≠ "cosign.pub" →
  SignBlobCmd ko path true out outCert w1 = (w2, Ok r) → key_file "cosign.pub" ko' →
  (∀ blob, read_file path w1 = Ok blob → isIntotoDSSE blob = false) →
  PublicKeyFromKeyRef "cosign.pub" w2 = Ok v →
  VerifyBlobCmd v1 ko' "" "" "" "" out path false (mkBlobWorld w2 rv) = (mkBlobWorld w2 rv, Ok ()).
Proof.
  intros He [err Hkms] Hm Hgen Hko Hpass Hp Ho Hop Hopub Hsign Hko' Hdsse Hv.
  destruct (GenerateKeyPairCmd_files _ _ _ _ _ Hgen Hm) as (priv & keys & Hg & Hmk & ->).
  pose proof Hko as (_ & _ & Hb). destruct (SignBlobCmd_key _ _ _ _ _ _ _ He Hb Hp Ho Hsign)
    as (blob & cs & sig & Hr & Hcs & Hs & Hw2).
  eapply (generated_signer pf ko priv keys) in Hcs; try done; [|by simplify_map_eq].
  destruct (marshalKeyPair_public _ _ _ _ Hmk) as [_ Hpub].
  assert (Hver : signature_LoadVerifier (priv_Public priv) = Ok v).
  { revert Hv. change (VerifierForKeyRef "cosign.pub" w2 = Ok v →
      signature_LoadVerifier (priv_Public priv) = Ok v). unfold VerifierForKeyRef.
    rewrite Hkms, (proj1 (local_file_load "cosign.pub" w2 eq_refl)). unfold read_file. subst w2.
    cbn [kw_Files set_Files]. rewrite lookup_insert_ne, lookup_insert_eq by done. cbn. by rewrite Hpub. }
  eapply (VerifyBlobCmd_key_file _ _ "cosign.pub"); try done.
  - subst w2. unfold read_file. cbn. by rewrite lookup_insert_eq.
  - revert Hr. subst w2. unfold read_file. cbn. by rewrite (lookup_insert_ne _ out path).
  - eauto.
  - by apply (signed_verifies _ _ _ _ _ Hcs Hs Hver).
Qed.

End roundtrip.

(** ** Witnesses *)

(** An entry that the log key "rekor" signed. *)
Definition toy_log_bundle : RekorBundle :=
  let id := hex_EncodeToString "rekor" in
  mkRekorBundle ("rekor" +:+ id) (mkRekorPayload (any_string "body") 150 1 id).

Definition toy_Blob : BlobExt := {|
  stdin_ReadAll := Err (error_New "closed");
  stdout_Write _ := Ok ();
  json_Unmarshal_LocalSignedPayload b :=
    Ok (Some (mkLocalSignedPayload (base64_EncodeToString "g:#hello") b (Some toy_log_bundle)));
  json_Marshal_LocalSignedPayload l := Ok (lsp_Cert l);
  dsse_WrapVerifier v := v;
  rekor_NewEntry b := hashedrekord_V001Entry <$> toy_schema b |}.

#[local] Instance toy_BlobLaws : BlobLaws (X := toy) (KX := toy_Keys).
Proof.
  intros priv sv v m sig [= <-] [= <-] [= <-]. cbn. unfold toy_verify. cbn. by rewrite str_eqb_refl.
Qed.

Definition toy_ko (key : string) : KeyOpts := mkKeyOpts false "" key "" "" "" false toy_pass "".

(** A directory with the file "blob". *)
Definition toy_dir : KeyWorld := files {["blob" := "#hello"]}.
Definition toy_roots : RootsVars := mkRootsVars false None None.

#[local] Notation toy_generate :=
  (GenerateKeyPairCmd (X := toy) (K := toy_Keys) (λ _, Err (error_New "kms"))
     "" [] toy_pass "n").
#[local] Notation toy_sign_blob :=
  (SignBlobCmd (X := toy) (TR := toy_TrustRoot) (C := toy_Ct) (KX := toy_Keys) (R := toy_Registry)
     (S := toy_Sign) (B := toy_Blob) (toy_ko "cosign.key") "blob" true "blob.sig" "").
#[local] Notation toy_verify_blob :=
  (VerifyBlobCmd (X := toy) (TR := toy_TrustRoot) (C := toy_Ct) (KX := toy_Keys) (R := toy_Registry)
     (S := toy_Sign) (B := toy_Blob) "v1" (toy_ko "cosign.pub") "" "" "" "" "blob.sig" "blob" false).

Lemma sign_blob_roundtrip_witness :
  ∃ w1 w2 r, toy_generate toy_dir = (w1, Ok ()) ∧ toy_sign_blob w1 = (w2, Ok r)
    ∧ toy_verify_blob (mkBlobWorld w2 toy_roots) = (mkBlobWorld w2 toy_roots, Ok ()).
Proof.
  destruct (ok_run (toy_generate toy_dir)) as (w1 & [] & H1); [vm_compute; reflexivity|].
  assert (Hw : w1 = fst (toy_generate toy_dir)) by (by rewrite H1).
  destruct (ok_run (toy_sign_blob w1)) as (w2 & r & H2); [subst w1; vm_compute; reflexivity|].
  assert (Hw2 : w2 = fst (toy_sign_blob w1)) by (by rewrite H2).
  exists w1, w2, r. split; [exact H1|]. split; [exact H2|].
  apply (sign_blob_roundtrip (X := toy) (TR := toy_TrustRoot) (C := toy_Ct) (KX := toy_Keys)
    (R := toy_Registry) (S := toy_Sign) (B := toy_Blob) "v1" (λ _, Err (error_New "kms"))
    toy_pass "n" (toy_ko "cosign.key") (toy_ko "cosign.pub") "blob"
    "blob.sig" "" toy_dir w1 w2 r toy_roots (toy_verifier (toy_key "g"))); try done.
  - by eexists.
  - subst w1. intros b [= <-]. reflexivity.
  - subst w2 w1. reflexivity.
Defined.

(** The public key and the signature in files. *)
Definition toy_blob_signed : BlobWorld := mkBlobWorld (files
  {["blob" := "#hello"; "cosign.pub" := "g"; "blob.sig" := base64_EncodeToString "g:#hello"]}) toy_roots.

Lemma VerifyBlobCmd_sound_witness :
  ∃ w' v, toy_verify_blob toy_blob_signed = (w', Ok ())
    ∧ PublicKeyFromKeyRef (X := toy) (K := toy_Keys) "cosign.pub" (bw_Keys toy_blob_signed) = Ok v
    ∧ VerifySignature v "g:#hello" "#hello" = Ok ().
Proof.
  destruct (ok_run (toy_verify_blob toy_blob_signed)) as (w' & [] & H); [vm_compute; reflexivity|].
  destruct (VerifyBlobCmd_sound (X := toy) (TR := toy_TrustRoot) (C := toy_Ct)
    (KX := toy_Keys) (R := toy_Registry) (S := toy_Sign) (B := toy_Blob) _ _ _ _ _ _ _ _ _ _ _ H)
    as (sig & b64 & blob & Hs & Hb & [(v & cert & Ht & Hv & _)|(Hk & _)]); [|discriminate Hk].
  vm_compute in Hs, Hb. injection Hs as <- _. injection Hb as <-.
  exists w', v. split; [exact H|]. split; [|exact Hv].
  inversion Ht; [assumption|discriminate..].
Defined.

(** Blob "anything", with the bundle of another blob. *)
Lemma blob_log_evidence_unrelated_witness :
  verifyRekorEntry (X := toy) (TR := toy_TrustRoot) (R := toy_Registry) (S := toy_Sign) (B := toy_Blob)
    (mkKeyOpts false "" "" "" "" "" false toy_pass "bundle") None None None "sig" "anything"
    (files {["bundle" := "{}"]}) = Ok ().
Proof.
  apply (proj1 (blob_log_evidence_unrelated (X := toy) (TR := toy_TrustRoot) (R := toy_Registry) (S := toy_Sign) (B := toy_Blob)
    (mkKeyOpts false "" "" "" "" "" false toy_pass "bundle") None
    (files {["bundle" := "{}"]}))).
  - done.
  - vm_compute. reflexivity.
Defined.
