(* ===== verification/VerifyCmd.v ===== *)
(** * The verify commands

    cmd/cosign/cli/verify/verify.go and verify_attestation.go, the conversion of
    attestations for policies (pkg/policy/attestation.go), pkg/cosign/cue,
    pkg/cosign/rego, the flags of options/annotations.go and
    options/signature_digest.go, and the command that fills [VerifyCommand]
    (cmd/cosign/cli/verify.go).

    A command reads the files and the registry; its state is the package
    variables of the Fulcio roots and what it printed. *)
From stdpp Require Import pretty.
From S2P Require Import Prelude GoStd External Concrete OciSignature OciSignatures OciEntity.
From S2P Require Import OciRemote Tuf Tlog Ctl Verify Keys Sign Attest Blob.

(** A line of output, without its terminator. *)
Inductive Line := stdout (s : string) | stderr (s : string).

Record CmdWorld := mkCmdWorld { cw_Roots : RootsVars; cw_Out : list Line }.

(** An element of the JSON output: a payload with its optional claims, and the
    bundle under "Bundle". *)
Record OutputKey := mkOutputKey {
  ok_Payload : bytes; ok_Optional : gmap string any; ok_Bundle : option RekorBundle }.

(** A result of a Rego query: whether it allows, and its expressions. *)
Record ResultSet := mkResultSet { rs_Allowed : bool; rs_Expressions : list (list string) }.

(** A CUE instance: its error, and the outcome of building it. *)
Record CueInstance := mkCueInstance {
  bi_Err : option error; bi_Build : res (bytes → res unit) }.

Class CommandExt := {
  (* the calls that load verifiers, for another hash algorithm than SHA-256 *)
  hash_calls : Z → Ext * KeyExt;
  crypto_Available : Z → bool;
  Reference_Name : Reference → string;                  (* ref.Name() *)
  unicode_trim : string → string;
  unicode_lower : string → string;
  json_Marshal_output : list OutputKey → res bytes;
  json_Marshal_Statement : Statement → res bytes;
  (* decoding into the Go type and encoding the result *)
  json_remarshal : string → bytes → res (res bytes);
  json_Decode : bytes → res any;
  rego_PrepareForEval : string → list string → res (any → res ResultSet);
  cue_Instances : list string → list CueInstance }.

Section command.
Context `{X : Ext, TR : TrustRoot, C : CtExt, KX : KeyExt, R : Registry, S : !SignExt, B : BlobExt,
  A : AttestExt, V : CommandExt}.

Definition print (l : list Line) : M CmdWorld unit :=
  modify (λ w, mkCmdWorld (cw_Roots w) (cw_Out w ++ l)).
Definition in_roots' {T} (m : M RootsVars T) : M CmdWorld T := λ w,
  let '(r, a) := m (cw_Roots w) in (mkCmdWorld r (cw_Out w), a).

(** ** Certificates (pkg/signature/keys.go) *)

(** A certificate without e-mail addresses has a nil slice. *)
Definition CertSubject (c : Certificate) : string :=
  match cert_EmailAddresses c, cert_URIs c with
  | e :: _, _ => e
  | [], u :: _ => u
  | [], [] => ""
  end.

Definition CertExtensionOIDCIssuer := "1.3.6.1.4.1.57264.1.1".
Fixpoint find_extension (exts : list (string * bytes)) : string :=
  match exts with
  | [] => ""
  | (id, value) :: exts' => if id =?s CertExtensionOIDCIssuer then value else find_extension exts'
  end.
Definition CertIssuerExtension (cert : Certificate) : string := find_extension (cert_Extensions cert).

(** ** Flags *)

(** A nil map as long as there is no annotation. *)
Fixpoint annotations_map (l : list string) (ann : option (gmap string any)) :
    res (option (gmap string any)) :=
  match l with
  | [] => Ok ann
  | a :: l' =>
      match strings_Split a "="%char with
      | [k; v] => annotations_map l' (Some (<[k := any_string v]> (default ∅ ann)))
      | _ => Err (error_New ("unable to parse annotation: " +:+ a))
      end
  end.
Definition AnnotationsMap (annotations : list string) : res (option (gmap string any)) :=
  annotations_map annotations None.

(** crypto.Hash *)
Definition crypto_SHA224 := 4%Z.
Definition crypto_SHA256 := 5%Z.
Definition crypto_SHA384 := 6%Z.
Definition crypto_SHA512 := 7%Z.

Definition supportedSignatureAlgorithms : gmap string Z :=
  {[ "sha224" := crypto_SHA224; "sha256" := crypto_SHA256; "sha384" := crypto_SHA384;
     "sha512" := crypto_SHA512 ]}.

Definition HashAlgorithm (algorithmName : string) : res Z :=
  let normalizedAlgo := strings_ToLower unicode_lower (strings_TrimSpace unicode_trim algorithmName) in
  if normalizedAlgo =?s "" then Ok crypto_SHA256 else
  match supportedSignatureAlgorithms !! normalizedAlgo with
  | None => Err (error_New ("unknown digest algorithm: " +:+ algorithmName))
  | Some algo =>
      if negb (crypto_Available algo)
      then Err (error_New ("hash " +:+ algorithmName +:+ " is not available on this platform"))
      else Ok algo
  end.

(** ** cosign verify *)

Record VerifyCommand := mkVerifyCommand {
  vc_RemoteOpts : list ROption;
  vc_TagPrefix : string;
  vc_CheckClaims : bool;
  vc_KeyRef : string;
  vc_CertRef : string;
  vc_CertEmail : string;
  vc_CertOidcIssuer : string;
  vc_CertChain : string;
  vc_EnforceSCT : bool;
  vc_Sk : bool;
  vc_Slot : string;
  vc_Output : string;
  vc_RekorURL : string;
  vc_Attachment : string;
  vc_Annotations : option (gmap string any);
  vc_SignatureRef : string;
  vc_HashAlgorithm : Z;
  vc_LocalImage : bool }.

Definition PublicKeyFromKeyRefWithHashAlgo (keyRef : string) (hashAlgorithm : Z) (kw : KeyWorld) :
    res Verifier :=
  if decide (hashAlgorithm = crypto_SHA256) then PublicKeyFromKeyRef keyRef kw
  else let '(X', KX') := hash_calls hashAlgorithm in
       PublicKeyFromKeyRef (X := X') (K := KX') keyRef kw.

(** The Rekor client and the roots of experimental mode. *)
Definition experimental_opts (v1 : bytes) (rekorURL : string) :
    M CmdWorld (option Rekor * CertPool) :=
  if EnableExperimental then
    rc ← lift (if negb (rekorURL =?s "")
               then Some <$> wrap "creating Rekor client" (rekor_NewClient rekorURL) else Ok None);
    roots ← in_roots' (fulcioroots_Get v1);
    mret (rc, roots)
  else mret (None, None).

(** The verifier that the flags give; a chain also sets the pools of the
    options. *)
Definition cert_flag (cert : Certificate) (certChain : string) (kw : KeyWorld) :
    M CheckOpts Verifier :=
  if certChain =?s "" then lift (signature_LoadVerifier (cert_PublicKey cert))
  else
    chain ← lift (loadCertChainFromFileOrURL certChain kw);
    ValidateAndUnpackCertWithChain cert chain.

Definition verify_pubKey (c : VerifyCommand) (hashAlgorithm : Z) (kw : KeyWorld) :
    M CheckOpts (option Verifier) :=
  if negb (vc_KeyRef c =?s "") then
    lift (Some <$> wrap "loading public key"
            (PublicKeyFromKeyRefWithHashAlgo (vc_KeyRef c) hashAlgorithm kw))
  else if vc_Sk c then
    sk ← lift (wrap "opening piv token" (piv_Verifier (vc_Slot c)));
    v ← lift (wrap "initializing piv token verifier" sk);
    mret (Some v)
  else if negb (vc_CertRef c =?s "") then
    cert ← lift (loadCertFromFileOrURL (vc_CertRef c) kw);
    v ← cert_flag cert (vc_CertChain c) kw;
    mret (Some v)
  else mret None.

Definition set_SigVerifier (v : option Verifier) (co : CheckOpts) : CheckOpts :=
  mkCheckOpts (RegistryClientOpts co) (co_Annotations co) (ClaimVerifier co) (RekorClient co)
    v (RootCerts co) (IntermediateCerts co) (CertEmail co) (CertOidcIssuer co) (EnforceSCT co)
    (SignatureRef co) (Identities co).

Definition PrintVerificationHeader (imgRef : string) (co : CheckOpts)
    (bundleVerified fulcioVerified : bool) : list Line :=
  [ stderr "";
    stderr ("Verification for " +:+ imgRef +:+ " --");
    stderr "The following checks were performed on each of these signatures:" ]
  ++ (match ClaimVerifier co with
      | Some _ =>
          (match co_Annotations co with
           | Some _ => [stderr "  - The specified annotations were verified."]
           | None => []
           end) ++ [stderr "  - The cosign claims were validated"]
      | None => []
      end)
  ++ (if bundleVerified then
        [stderr "  - Existence of the claims in the transparency log was verified offline"]
      else match RekorClient co with
           | Some _ =>
               [stderr "  - The claims were present in the transparency log";
                stderr "  - The signatures were integrated into the transparency log when the certificate was valid"]
           | None => []
           end)
  ++ (match SigVerifier co with
      | Some _ => [stderr "  - The signatures were verified against the specified public key"]
      | None => []
      end)
  ++ (if fulcioVerified
      then [stderr "  - Any certificates were verified against the Fulcio roots."] else []).

(** The certificate of a signature when it can be read. *)
Definition read_cert (sig : Signature) : res (option Certificate) := catch (Cert sig) (λ _, Ok None) Ok.

Definition cert_lines (cert : option Certificate) : list Line :=
  match cert with
  | None => []
  | Some cert =>
      stderr ("Certificate subject:  " +:+ CertSubject cert)
      :: (if negb (CertIssuerExtension cert =?s "")
          then [stderr ("Certificate issuer URL:  " +:+ CertIssuerExtension cert)] else [])
  end.

Fixpoint print_text (verified : list Signature) : M CmdWorld unit :=
  match verified with
  | [] => mret ()
  | sig :: verified' =>
      cert ← lift (read_cert sig);
      print (cert_lines cert);;
      p ← M_try (lift (Payload sig));
      match p with
      | Ok p => print [stdout p];; print_text verified'
      | Err e => print [stderr ("Error fetching payload: " +:+ Error e)]
      | Panic why => lift (Panic why)
      end
  end.

(** The optional claims with the certificate's identity. *)
Definition with_cert (cert : option Certificate) (optional : gmap string any) : gmap string any :=
  match cert with
  | None => optional
  | Some cert =>
      let optional := <["Subject" := any_string (CertSubject cert)]> optional in
      if negb (CertIssuerExtension cert =?s "")
      then <["Issuer" := any_string (CertIssuerExtension cert)]> optional else optional
  end.

(** The elements of the JSON output, or the line that is printed instead. *)
Fixpoint output_keys (verified : list Signature) (outputKeys : list OutputKey) :
    res (list OutputKey + Line) :=
  match verified with
  | [] => Ok (inl outputKeys)
  | sig :: verified' =>
      catch (Payload sig) (λ e, Ok (inr (stderr ("Error fetching payload: " +:+ Error e)))) (λ p,
      catch (json_Unmarshal_SimpleContainerImage p)
        (λ e, Ok (inr (stdout ("error decoding the payload: " +:+ Error e)))) (λ ss,
      cert ← read_cert sig;
      bundle ← catch (Bundle sig) (λ _, Ok None) Ok;
      output_keys verified' (outputKeys ++ [mkOutputKey p (with_cert cert (sci_Optional ss)) bundle])))
  end.

Definition print_json (verified : list Signature) : M CmdWorld unit :=
  out ← lift (output_keys verified []);
  match out with
  | inr line => print [line]
  | inl outputKeys =>
      b ← M_try (lift (json_Marshal_output outputKeys));
      match b with
      | Ok b => print [stdout ""; stdout b]
      | Err e => print [stdout ("error when generating the output: " +:+ Error e)]
      | Panic why => lift (Panic why)
      end
  end.

Definition PrintVerification (verified : list Signature) (output : string) : M CmdWorld unit :=
  if output =?s "text" then print_text verified else print_json verified.

Context (depth : nat) (reg : Reg).

(** One image; the options are shared by the images. *)
Definition verify_image (c : VerifyCommand) (opts : list Option_) (img : string) :
    M CheckOpts (string * (list Signature * bool)) :=
  if vc_LocalImage c then
    r ← VerifyLocalImageSignatures reg img; mret (img, r)
  else
    ref ← lift (wrap "parsing reference" (name_ParseReference img));
    ref ← lift (wrap ("resolving attachment type " +:+ vc_Attachment c +:+ " for image " +:+ img)
                  (GetAttachedImageRef reg ref (vc_Attachment c) opts));
    r ← VerifyImageSignatures depth reg ref;
    mret (Reference_Name ref, r).

Fixpoint verify_images (verify : string → M CheckOpts (string * (list Signature * bool)))
    (output : string) (images : list string) (co : CheckOpts) : M CmdWorld unit :=
  match images with
  | [] => mret ()
  | img :: images' =>
      let '(co, r) := verify img co in
      '(name, (verified, bundleVerified)) ← lift r;
      let fulcioVerified := match SigVerifier co with None => true | Some _ => false end in
      print (PrintVerificationHeader name co bundleVerified fulcioVerified);;
      PrintVerification verified output;;
      verify_images verify output images' co
  end.

(** ** Policies *)

Definition AttestationToPayloadJSON (predicateType : string) (verifiedAttestation : Signature) :
    res bytes :=
  match PredicateTypeMap !! predicateType with
  | None => Err (error_New ("invalid predicate type: " +:+ predicateType))
  | Some predicateURI =>
      p ← wrap "getting payload" (Payload verifiedAttestation);
      payloadData ← wrap "unmarshaling payload data" (json_Unmarshal_map p);
      decodedPayload ←
        match payloadData !! "payload" with
        | Some val => v ← as_string val; wrap "decoding payload" (base64_DecodeString v)
        | None => Err (error_New "could not find payload in payload data")
        end;
      statement ← map_err (λ e, error_Wrapped ("unmarshal in-toto statement: " +:+ Error e) e)
                    (json_Unmarshal_Statement decodedPayload);
      if negb (st_PredicateType statement =?s predicateURI) then Ok "" else
      let remarshal goType :=
        payload ← wrap ("unmarshaling " +:+ goType) (json_remarshal goType decodedPayload);
        wrap ("marshaling " +:+ goType) payload in
      if predicateType =?s PredicateCustom then
        wrap "generating CosignStatement" (json_Marshal_Statement statement)
      else if predicateType =?s PredicateLink then remarshal "LinkStatement"
      else if predicateType =?s PredicateSLSA then remarshal "ProvenanceStatement"
      else if predicateType =?s PredicateSPDX then remarshal "SPDXStatement"
      else if predicateType =?s PredicateVuln then remarshal "CosignVulnStatement"
      else Err (error_New ("unsupported predicate type: " +:+ predicateType))
  end.

Definition rego_QUERY := "data.signature.allow".

(** The errors of a policy, none when it allows. *)
Definition rego_ValidateJSON (jsonBody : bytes) (entrypoints : list string) : res (list error) :=
  catch (rego_PrepareForEval rego_QUERY entrypoints) (λ e, Ok [e]) (λ query,
  catch (json_Decode jsonBody) (λ e, Ok [e]) (λ input,
  catch (query input) (λ e, Ok [e]) (λ rs,
  if rs_Allowed rs then Ok [] else
  let errs := (λ e, error_New ("expression value, " +:+ e +:+ ", is not true"))
                <$> concat (rs_Expressions rs) in
  match errs with
  | [] => Ok [error_New ("result is undefined for query '" +:+ rego_QUERY +:+ "'")]
  | _ => Ok errs
  end))).

Fixpoint cue_loop (jsonBody : bytes) (bis : list CueInstance) : res unit :=
  match bis with
  | [] => Ok ()
  | bi :: bis' =>
      match bi_Err bi with
      | Some e => Err e
      | None => validate ← bi_Build bi; validate jsonBody;; cue_loop jsonBody bis'
      end
  end.
Definition cue_ValidateJSON (jsonBody : bytes) (entrypoints : list string) : res unit :=
  cue_loop jsonBody (cue_Instances entrypoints).

(** ** cosign verify-attestation *)

Record VerifyAttestationCommand := mkVerifyAttestationCommand {
  va_RemoteOpts : list ROption;
  va_TagPrefix : string;
  va_CheckClaims : bool;
  va_KeyRef : string;
  va_CertRef : string;
  va_CertEmail : string;
  va_CertOidcIssuer : string;
  va_CertChain : string;
  va_EnforceSCT : bool;
  va_Sk : bool;
  va_Slot : string;
  va_RekorURL : string;
  va_PredicateType : string;
  va_Policies : list string;
  va_LocalImage : bool }.

Definition attestation_pubKey (c : VerifyAttestationCommand) (kw : KeyWorld) :
    M CheckOpts (option Verifier) :=
  if negb (va_KeyRef c =?s "") then
    lift (Some <$> wrap "loading public key" (PublicKeyFromKeyRef (va_KeyRef c) kw))
  else if va_Sk c then
    sk ← lift (wrap "opening piv token" (piv_Verifier (va_Slot c)));
    v ← lift (wrap "initializing piv token verifier" sk);
    mret (Some v)
  else if negb (va_CertRef c =?s "") then
    cert ← lift (wrap "loading certificate from reference" (loadCertFromFileOrURL (va_CertRef c) kw));
    v ← (if va_CertChain c =?s "" then
           lift (wrap "creating certificate verifier" (signature_LoadVerifier (cert_PublicKey cert)))
         else
           chain ← lift (loadCertChainFromFileOrURL (va_CertChain c) kw);
           M_wrap "creating certificate verifier" (ValidateAndUnpackCertWithChain cert chain));
    mret (Some v)
  else mret None.

Definition verify_image_attestations (c : VerifyAttestationCommand) (imageRef : string) :
    M CheckOpts (list Signature * bool) :=
  if va_LocalImage c then VerifyLocalImageAttestations reg imageRef
  else ref ← lift (name_ParseReference imageRef); VerifyImageAttestations depth reg ref.

(** The policies by their format: CUE, Rego. *)
Fixpoint sort_policies (policies cuePolicies regoPolicies : list string) :
    res (list string * list string) :=
  match policies with
  | [] => Ok (cuePolicies, regoPolicies)
  | policy :: policies' =>
      if filepath_Ext policy =?s ".rego"
      then sort_policies policies' cuePolicies (regoPolicies ++ [policy])
      else if filepath_Ext policy =?s ".cue"
      then sort_policies policies' (cuePolicies ++ [policy]) regoPolicies
      else Err (error_New "invalid policy format, expected .cue or .rego")
  end.

(** The errors of the policies on one payload; the lines that announce the
    policies are left out. *)
Definition payload_errors (cuePolicies regoPolicies : list string) (payload : bytes) :
    res (list error) :=
  cueErrs ← match cuePolicies with
            | [] => Ok []
            | _ => catch (cue_ValidateJSON payload cuePolicies) (λ e, Ok [e]) (λ _, Ok [])
            end;
  regoErrs ← match regoPolicies with
             | [] => Ok []
             | _ => rego_ValidateJSON payload regoPolicies
             end;
  Ok (cueErrs ++ regoErrs).

Fixpoint validate_attestations (predicateType : string) (cuePolicies regoPolicies : list string)
    (verified : list Signature) (validationErrors : list error) : res (list error) :=
  match verified with
  | [] => Ok validationErrors
  | vp :: verified' =>
      payload ← wrap "converting to consumable policy validation"
                  (AttestationToPayloadJSON predicateType vp);
      errs ← (if payload =?s "" then Ok [] else payload_errors cuePolicies regoPolicies payload);
      validate_attestations predicateType cuePolicies regoPolicies verified' (validationErrors ++ errs)
  end.

Definition check_policies (c : VerifyAttestationCommand) (verified : list Signature) :
    M CmdWorld unit :=
  '(cuePolicies, regoPolicies) ← lift (sort_policies (va_Policies c) [] []);
  validationErrors ← lift (validate_attestations (va_PredicateType c) cuePolicies regoPolicies verified []);
  match validationErrors with
  | [] => mret ()
  | _ =>
      let n := pretty (length validationErrors) in
      print (stderr ("There are " +:+ n +:+ " number of errors occurred during the validation:")
             :: ((λ e, stderr ("- " +:+ Error e)) <$> validationErrors));;
      lift (Err (error_New (n +:+ " validation errors occurred")))
  end.

Fixpoint verify_attestations (c : VerifyAttestationCommand) (images : list string) (co : CheckOpts) :
    M CmdWorld unit :=
  match images with
  | [] => mret ()
  | imageRef :: images' =>
      let '(co, r) := verify_image_attestations c imageRef co in
      '(verified, bundleVerified) ← lift r;
      check_policies c verified;;
      let fulcioVerified := match SigVerifier co with None => true | Some _ => false end in
      print (PrintVerificationHeader imageRef co bundleVerified fulcioVerified);;
      PrintVerification verified "text";;
      verify_attestations c images' co
  end.

(** The certificate embedded in the binary, as in [initRoots]. *)
Context (fulcioIntermediateV1 : bytes).

(** SHA-256 if the algorithm has not been set. *)
Definition default_hash (c : VerifyCommand) : Z :=
  if decide (vc_HashAlgorithm c = 0)%Z then crypto_SHA256 else vc_HashAlgorithm c.

Definition Exec (c : VerifyCommand) (kw : KeyWorld) (images : list string) : M CmdWorld unit :=
  match images with
  | [] => lift (Err flag_ErrHelp)
  | _ =>
      lift (ensure ((vc_Attachment c =?s "sbom") || (vc_Attachment c =?s "")) flag_ErrHelp);;
      lift (ensure (OneOf [negb (vc_KeyRef c =?s ""); negb (vc_CertRef c =?s ""); vc_Sk c]
                    || EnableExperimental)
              (error_Kind kind_PubKeyParse "one of: key, security key or certificate must be provided"));;
      opts ← lift (wrap "constructing client options"
                     (registry_ClientOpts (vc_RemoteOpts c) (vc_TagPrefix c)));
      '(rc, roots) ← experimental_opts fulcioIntermediateV1 (vc_RekorURL c);
      let co := mkCheckOpts opts (vc_Annotations c)
                  (if vc_CheckClaims c then Some SimpleClaimVerifier else None) rc None roots None
                  (vc_CertEmail c) (vc_CertOidcIssuer c) (vc_EnforceSCT c) (vc_SignatureRef c) [] in
      let '(co, pubKey) := verify_pubKey c (default_hash c) kw co in
      pubKey ← lift pubKey;
      verify_images (verify_image c opts) (vc_Output c) images (set_SigVerifier pubKey co)
  end.

Definition attestation_Exec (c : VerifyAttestationCommand) (kw : KeyWorld) (images : list string) :
    M CmdWorld unit :=
  match images with
  | [] => lift (Err flag_ErrHelp)
  | _ =>
      lift (ensure (OneOf [negb (va_KeyRef c =?s ""); va_Sk c; negb (va_CertRef c =?s "")]
                    || EnableExperimental)
              (error_Kind kind_PubKeyParse "one of: key, security key or certificate must be provided"));;
      opts ← lift (wrap "constructing client options"
                     (registry_ClientOpts (va_RemoteOpts c) (va_TagPrefix c)));
      '(rc, roots) ← experimental_opts fulcioIntermediateV1 (va_RekorURL c);
      let co := mkCheckOpts opts None
                  (if va_CheckClaims c then Some IntotoSubjectClaimVerifier else None) rc None roots None
                  (va_CertEmail c) (va_CertOidcIssuer c) (va_EnforceSCT c) "" [] in
      let '(co, pubKey) := attestation_pubKey c kw co in
      pubKey ← lift pubKey;
      verify_attestations c images (set_SigVerifier pubKey co)
  end.

End command.

(** ** What the commands promise *)

Section spec.
Context `{X : Ext, TR : TrustRoot, C : CtExt, KX : KeyExt, R : Registry, S : !SignExt, B : BlobExt,
  A : AttestExt, V : CommandExt}.

Lemma cert_trusted_pool q co cert ints v :
  cert_trusted (set_IntermediateCerts q co) cert ints v → cert_trusted co cert ints v.
Proof. intros []. by split. Qed.

Lemma authenticated_pool q co sig v :
  authenticated (set_IntermediateCerts q co) sig v → authenticated co sig v.
Proof.
  intros [H|(H & cert & chain & Hc & Hch & Ht)]; [by left|right].
  split; [done|]. exists cert, chain. eauto using cert_trusted_pool.
Qed.

Lemma set_pool_twice p q co :
  set_IntermediateCerts p (set_IntermediateCerts q co) = set_IntermediateCerts p co.
Proof. by destruct co. Qed.

(** Signatures of the image [ref] that each meet the options. *)
Definition image_verified (depth : nat) (reg : Reg) (ref : Reference) (co : CheckOpts)
    (l : list Signature) : Prop :=
  l ≠ [] ∧ ∃ se h set stored,
    remote_SignedEntity depth reg ref (RegistryClientOpts co) = Ok se
    ∧ Entity_Digest se = Ok h ∧ Entity_Signatures se = Ok set ∧ Get set = Ok stored
    ∧ ∀ sig, sig ∈ l → sig ∈ stored ∧ claims_image sig h (co_Annotations co)
        ∧ (∃ v, authenticated co sig v ∧ signed_by v sig) ∧ ∃ bv, logged co sig bv.

Lemma VerifyImageSignatures_image depth reg ref q co co' l b :
  ClaimVerifier co = Some SimpleClaimVerifier → SignatureRef co = "" →
  VerifyImageSignatures depth reg ref (set_IntermediateCerts q co) = (co', Ok (l, b)) →
  image_verified depth reg ref co l ∧ ∃ q', co' = set_IntermediateCerts q' co.
Proof.
  intros Hc Hr H. split.
  - apply VerifyImageSignatures_spec in H as (Hne & se & h & set & stored & ?&?&?&?& H); [|done..].
    split; [done|]. exists se, h, set, stored. do 4 (split; [done|]). intros sig Hin.
    destruct (H sig Hin) as (?&?& (v & Ha & ?) & bv & ?). split; [done|]. split; [done|].
    split; [eauto using authenticated_pool|by exists bv].
  - unfold VerifyImageSignatures in H. apply M_bind_Ok in H as (? & [] & [_ ->]%reads_Ok & H).
    apply M_bind_Ok in H as (? & ? & [-> ->]%gets_Ok & H).
    apply M_bind_Ok in H as (? & [se h] & [_ ->]%lift_Ok & H).
    apply M_bind_Ok in H as (? & sigs & [_ ->]%lift_Ok & H).
    apply verify_set_pool in H as [q' ->]; [|intros; apply VerifyImageSignature_independent].
    rewrite set_pool_twice. eauto.
Qed.

(** Where the verifier of the flags comes from: the key of --key, read as [key]; the
    token of --sk if there is no key; else the certificate of --cert, which is checked
    against --cert-chain if that is given. *)
Definition flags_verifier (key : res Verifier) (keyRef : string) (sk : bool)
    (slot certRef certChain : string) (kw : KeyWorld) (co : CheckOpts) (v : Verifier) : Prop :=
  keyRef ≠ "" ∧ key = Ok v
  ∨ keyRef = "" ∧ sk = true ∧ piv_Verifier slot = Ok (Ok v)
  ∨ keyRef = "" ∧ sk = false ∧ certRef ≠ "" ∧ ∃ cert, loadCertFromFileOrURL certRef kw = Ok cert
      ∧ (certChain = "" ∧ signature_LoadVerifier (cert_PublicKey cert) = Ok v
         ∨ ∃ chain root, loadCertChainFromFileOrURL certChain kw = Ok chain
             ∧ last chain = Some root
             ∧ cert_trusted (set_pools (Some [root]) (Some (slice_init chain)) co) cert
                 (Some (slice_init chain)) v).

Lemma cert_flag_Ok cert path kw co co' v :
  cert_flag cert path kw co = (co', Ok v) →
  (∃ roots ints, co' = set_pools roots ints co)
  ∧ (path = "" ∧ signature_LoadVerifier (cert_PublicKey cert) = Ok v
     ∨ ∃ chain root, loadCertChainFromFileOrURL path kw = Ok chain ∧ last chain = Some root
         ∧ cert_trusted (set_pools (Some [root]) (Some (slice_init chain)) co) cert
             (Some (slice_init chain)) v).
Proof.
  unfold cert_flag. destruct (path =?s "") eqn:E.
  - apply str_eqb_eq in E. intros [H ->]%lift_Ok. split; [|by left].
    exists (RootCerts co), (IntermediateCerts co). by destruct co.
  - intros H. apply M_bind_Ok in H as (? & chain & [Hc ->]%lift_Ok & H).
    unfold ValidateAndUnpackCertWithChain in H. destruct (last chain) as [root|] eqn:El; [|done].
    injection H as <- H. apply ValidateAndUnpackCert_trusted in H. split; [eauto|right; eauto 10].
Qed.

#[local] Notation verify_verifier c hash kw := (flags_verifier
  (PublicKeyFromKeyRefWithHashAlgo (vc_KeyRef c) hash kw)
  (vc_KeyRef c) (vc_Sk c) (vc_Slot c) (vc_CertRef c) (vc_CertChain c) kw).
#[local] Notation attestation_verifier c kw := (flags_verifier
  (PublicKeyFromKeyRef (va_KeyRef c) kw)
  (va_KeyRef c) (va_Sk c) (va_Slot c) (va_CertRef c) (va_CertChain c) kw).

Lemma verify_pubKey_Ok c hash kw co co' pk :
  verify_pubKey c hash kw co = (co', Ok pk) →
  (∃ roots ints, co' = set_pools roots ints co)
  ∧ match pk with
    | Some v => verify_verifier c hash kw co v
    | None => vc_KeyRef c = "" ∧ vc_Sk c = false ∧ vc_CertRef c = "" ∧ co' = co
    end.
Proof.
  assert (Hid : ∃ roots ints, co = set_pools roots ints co)
    by (exists (RootCerts co), (IntermediateCerts co); by destruct co).
  unfold verify_pubKey, flags_verifier. intros H. destruct (vc_KeyRef c =?s "") eqn:Ek; cbn [negb] in H.
  - destruct (vc_Sk c) eqn:Es.
    + M_inv. apply str_eqb_eq in Ek. split; [done|]. eauto.
    + apply str_eqb_eq in Ek. destruct (vc_CertRef c =?s "") eqn:Er; cbn [negb] in H.
      * M_inv. apply str_eqb_eq in Er. done.
      * apply M_bind_Ok in H as (? & cert & [Hc ->]%lift_Ok & H).
        apply M_bind_Ok in H as (? & v & Hf & [-> ->]%M_ret_Ok). apply cert_flag_Ok in Hf as [Hp Hf].
        split; [done|]. apply str_eqb_neq in Er. eauto 10.
  - M_inv. apply str_eqb_neq in Ek. split; [done|]. eauto.
Qed.

(** The Rekor client of the flags: none without experimental mode or a URL. *)
Definition flags_rekor (url : string) (rc : option Rekor) : Prop :=
  if EnableExperimental && negb (url =?s "")
  then ∃ r, rekor_NewClient url = Ok r ∧ rc = Some r else rc = None.

(** The trust of the flags: the verifier, or the Fulcio roots in experimental mode when
    none of --key, --sk and --cert is given. *)
Definition flags_trust (verifier : CheckOpts → Verifier → Prop) (none : Prop) (v1 : bytes)
    (rv : RootsVars) (co : CheckOpts) : Prop :=
  match SigVerifier co with
  | Some v => verifier co v
  | None => none ∧ EnableExperimental = true ∧ ∃ ints, fulcio_pools v1 rv (RootCerts co) ints
  end.

(** The options that the flags of a command stand for. *)
Definition command_opts (v1 : bytes) (c : VerifyCommand) (kw : KeyWorld) (rv : RootsVars)
    (co : CheckOpts) : Prop :=
  registry_ClientOpts (vc_RemoteOpts c) (vc_TagPrefix c) = Ok (RegistryClientOpts co)
  ∧ co_Annotations co = vc_Annotations c ∧ Identities co = []
  ∧ CertEmail co = vc_CertEmail c ∧ CertOidcIssuer co = vc_CertOidcIssuer c
  ∧ EnforceSCT co = vc_EnforceSCT c
  ∧ flags_rekor (vc_RekorURL c) (RekorClient co)
  ∧ flags_trust (verify_verifier c (default_hash c) kw)
      (vc_KeyRef c = "" ∧ vc_Sk c = false ∧ vc_CertRef c = "") v1 rv co.

Definition attestation_opts (v1 : bytes) (c : VerifyAttestationCommand) (kw : KeyWorld)
    (rv : RootsVars) (co : CheckOpts) : Prop :=
  registry_ClientOpts (va_RemoteOpts c) (va_TagPrefix c) = Ok (RegistryClientOpts co)
  ∧ Identities co = []
  ∧ CertEmail co = va_CertEmail c ∧ CertOidcIssuer co = va_CertOidcIssuer c
  ∧ EnforceSCT co = va_EnforceSCT c
  ∧ flags_rekor (va_RekorURL c) (RekorClient co)
  ∧ flags_trust (attestation_verifier c kw)
      (va_KeyRef c = "" ∧ va_Sk c = false ∧ va_CertRef c = "") v1 rv co.

Lemma verify_images_Ok (verify : string → M CheckOpts (string * (list Signature * bool)))
    (P : string → list Signature → Prop) output co :
  (∀ img q co' name l b,
     verify img (set_IntermediateCerts q co) = (co', Ok (name, (l, b))) →
     P img l ∧ ∃ q', co' = set_IntermediateCerts q' co) →
  ∀ images q w w', verify_images verify output images (set_IntermediateCerts q co) w = (w', Ok ()) →
  ∀ img, img ∈ images → ∃ l, P img l.
Proof.
  intros Hv. induction images as [|i images IH]; intros q w w' H img Hin; [by apply elem_of_nil in Hin|].
  cbn in H. destruct (verify i (set_IntermediateCerts q co)) as [co1 r] eqn:E.
  apply M_bind_Ok in H as (? & [name [l b]] & [-> ->]%lift_Ok & H).
  destruct (Hv _ _ _ _ _ _ E) as [HP [q' ->]].
  apply M_bind_Ok in H as (? & [] & _ & H). apply M_bind_Ok in H as (? & [] & _ & H).
  apply elem_of_cons in Hin as [-> |Hin]; [by exists l|]. by eapply IH.
Qed.

Lemma roots_pools v1 w w' roots :
  in_roots' (fulcioroots_Get v1) w = (w', Ok roots) → ∃ ints, fulcio_pools v1 (cw_Roots w) roots ints.
Proof.
  unfold in_roots'. destruct (fulcioroots_Get v1 (cw_Roots w)) as [rv' r] eqn:E.
  intros [= _ ->]. destruct (fulcio_pools_stable _ _ _ _ E) as (ints & _ & Hp & _). eauto.
Qed.

Lemma experimental_opts_Ok v1 url w w' rc roots :
  experimental_opts v1 url w = (w', Ok (rc, roots)) →
  flags_rekor url rc
  ∧ (EnableExperimental = true → ∃ ints, fulcio_pools v1 (cw_Roots w) roots ints).
Proof.
  unfold experimental_opts, flags_rekor. destruct EnableExperimental; intros H; [|by M_inv; simplify_eq].
  apply M_bind_Ok in H as (? & rc' & [Hrc ->]%lift_Ok & H).
  apply M_bind_Ok in H as (w1 & roots' & Hr & [[= -> ->] ->]%M_ret_Ok). split.
  - cbn [andb]. destruct (url =?s ""); cbn [negb] in *; go_inv; eauto.
  - intros _. by apply roots_pools in Hr.
Qed.

Lemma flags_verifier_opts key kr sk slot cr cc kw roots ints co pk v :
  flags_verifier key kr sk slot cr cc kw co v →
  flags_verifier key kr sk slot cr cc kw (set_SigVerifier pk (set_pools roots ints co)) v.
Proof.
  intros [H|[H|(Hk & Hs & Hr & cert & Hl & [H|(chain & root & Hc & Hlast & [])])]];
    [by left|right; by left|..];
    right; right; do 3 (split; [done|]); exists cert; (split; [done|]); [by left|right].
  exists chain, root. split; [done|]. split; [done|]. by split.
Qed.

(** The trust that a command starts from is that of its flags. *)
Lemma flags_trust_opts key kr sk slot cr cc kw v1 rv roots ints co pk (b : bool) :
  b || EnableExperimental = true → (kr = "" → sk = false → cr = "" → b = false) →
  (EnableExperimental = true → ∃ ints', fulcio_pools v1 rv (RootCerts co) ints') →
  match pk with
  | Some v => flags_verifier key kr sk slot cr cc kw co v
  | None => kr = "" ∧ sk = false ∧ cr = "" ∧ set_pools roots ints co = co
  end →
  flags_trust (flags_verifier key kr sk slot cr cc kw) (kr = "" ∧ sk = false ∧ cr = "") v1 rv
    (set_SigVerifier pk (set_pools roots ints co)).
Proof.
  intros Hone Hno Hx Hpk. unfold flags_trust. cbn [SigVerifier set_SigVerifier].
  destruct pk as [v|]; [by apply flags_verifier_opts|]. destruct Hpk as (Hk & Hs & Hc & Hco).
  rewrite Hno in Hone by done. split; [done|]. split; [done|]. rewrite Hco. cbn. by apply Hx.
Qed.

(** What is verified: the image itself, or with --attachment sbom its SBOM. *)
Definition attachment_of (reg : Reg) (ref : Reference) (attachment : string) (opts : list Option_)
    (ref' : Reference) : Prop :=
  attachment = "" ∧ ref' = ref ∨ attachment = "sbom" ∧ SBOMTag reg ref opts = Ok ref'.

Lemma GetAttachedImageRef_Ok reg ref a opts ref' :
  GetAttachedImageRef reg ref a opts = Ok ref' → attachment_of reg ref a opts ref'.
Proof.
  unfold GetAttachedImageRef, attachment_of. destruct (a =?s "") eqn:E1.
  - apply str_eqb_eq in E1. intros [= <-]. by left.
  - destruct (a =?s "sbom") eqn:E2; [|done]. apply str_eqb_eq in E2. by right.
Qed.

Lemma Exec_spec depth reg v1 c kw images w w' :
  vc_CheckClaims c = true → vc_SignatureRef c = "" → vc_LocalImage c = false →
  Exec depth reg v1 c kw images w = (w', Ok ()) →
  images ≠ [] ∧ ∃ co, command_opts v1 c kw (cw_Roots w) co
    ∧ ∀ img, img ∈ images → ∃ l ref ref', name_ParseReference img = Ok ref
        ∧ attachment_of reg ref (vc_Attachment c) (RegistryClientOpts co) ref'
        ∧ image_verified depth reg ref' co l.
Proof.
  intros Hcl Hsr Hli H. unfold Exec in H. rewrite Hcl, Hsr in H.
  destruct images as [|i0 images]; [done|]. split; [done|]. set (imgs := i0 :: images) in *.
  apply M_bind_Ok in H as (? & [] & [_ ->]%lift_Ok & H).
  apply M_bind_Ok in H as (? & [] & [Hone%ensure_Ok ->]%lift_Ok & H).
  apply M_bind_Ok in H as (? & opts & [Ho%wrap_Ok ->]%lift_Ok & H).
  apply M_bind_Ok in H as (w1 & [rc roots] & Hx%experimental_opts_Ok & H).
  set (co0 := mkCheckOpts _ _ _ _ _ _ _ _ _ _ _ _) in H.
  destruct (verify_pubKey c _ kw co0) as [co1 r] eqn:Ep.
  apply M_bind_Ok in H as (? & pk & [-> ->]%lift_Ok & H).
  destruct (verify_pubKey_Ok _ _ _ _ _ _ Ep) as [(r' & i' & ->) Hpk].
  set (co := set_SigVerifier pk (set_pools r' i' co0)) in H. exists co. split.
  - unfold command_opts. do 6 (split; [done|]). destruct Hx as [Hrk Hx]. split; [done|].
    eapply flags_trust_opts; [exact Hone| |done|done]. by intros -> -> ->.
  - intros img Hin. assert (Hq : co = set_IntermediateCerts (IntermediateCerts co) co) by by destruct pk.
    rewrite Hq in H. eapply (verify_images_Ok _ (λ img l, ∃ ref ref', name_ParseReference img = Ok ref
        ∧ attachment_of reg ref (vc_Attachment c) (RegistryClientOpts co) ref'
        ∧ image_verified depth reg ref' co l)) in H as [l Hl]; [by exists l| |done].
    intros img' q co' name l b Hv. unfold verify_image in Hv. rewrite Hli in Hv.
    apply M_bind_Ok in Hv as (? & ref & [Hr%wrap_Ok ->]%lift_Ok & Hv).
    apply M_bind_Ok in Hv as (? & ref' & [Ha%wrap_Ok ->]%lift_Ok & Hv).
    apply M_bind_Ok in Hv as (? & [l' b'] & Hv & [[= -> -> ->] ->]%M_ret_Ok).
    apply VerifyImageSignatures_image in Hv as [Hv ?]; [|done..]. split; [|done].
    apply GetAttachedImageRef_Ok in Ha. by exists ref, ref'.
Qed.

(** `cosign verify` ends without an error only if it verified every image it
    was given: each has a signature that names its digest and carries the wanted
    annotations, made with the key, token key or certificate of the flags or, in
    experimental mode without any, under a certificate of the Fulcio roots that
    has the wanted e-mail and issuer, and logged as the mode asks. *)
Theorem Exec_sound depth reg v1 c kw images w w' :
  vc_CheckClaims c = true → vc_SignatureRef c = "" → vc_LocalImage c = false →
  Exec depth reg v1 c kw images w = (w', Ok ()) →
  images ≠ [] ∧ ∃ co, command_opts v1 c kw (cw_Roots w) co
    ∧ ∀ img, img ∈ images → ∃ l ref ref', name_ParseReference img = Ok ref
        ∧ attachment_of reg ref (vc_Attachment c) (RegistryClientOpts co) ref'
        ∧ image_verified depth reg ref' co l.
Proof. apply Exec_spec. Qed.

(** ** Policies *)

(** A Rego policy passes only when it was loaded, the attestation was decoded,
    and the query evaluated to an allowing result: an undefined result, a failed
    evaluation or a policy that does not compile are failures. *)
Theorem rego_fails_closed body entrypoints :
  rego_ValidateJSON body entrypoints = Ok [] ↔
  ∃ query input rs, rego_PrepareForEval rego_QUERY entrypoints = Ok query
    ∧ json_Decode body = Ok input ∧ query input = Ok rs ∧ rs_Allowed rs = true.
Proof.
  unfold rego_ValidateJSON. split.
  - destruct (rego_PrepareForEval _ _) as [query|e|]; [|done..]. cbn [catch].
    destruct (json_Decode body) as [input|e|]; [|done..]. cbn [catch].
    destruct (query input) as [rs|e|] eqn:Eq; [|done..]. cbn [catch].
    destruct (rs_Allowed rs) eqn:Ea; [by exists query, input, rs|]. by destruct (_ <$> _).
  - intros (query & input & rs & -> & Hd & Hq & Ha). cbn [catch]. rewrite Hd. cbn [catch].
    rewrite Hq. cbn [catch]. by rewrite Ha.
Qed.

(** The payload passes the policies of each format that has some. *)
Definition passes (cuePolicies regoPolicies : list string) (payload : bytes) : Prop :=
  (cuePolicies = [] ∨ cue_ValidateJSON payload cuePolicies = Ok ())
  ∧ (regoPolicies = [] ∨ rego_ValidateJSON payload regoPolicies = Ok []).

Lemma payload_errors_nil cue rego payload :
  payload_errors cue rego payload = Ok [] ↔ passes cue rego payload.
Proof.
  unfold payload_errors, passes. rewrite bind_Ok. setoid_rewrite bind_Ok. split.
  - intros (ce & Hc & re & Hr & H). injection H as [-> ->]%app_eq_nil. split.
    + destruct cue; [by left|right]. by destruct (cue_ValidateJSON _ _) as [[]| |].
    + destruct rego; [by left|by right].
  - intros [Hc Hr]. exists []. split.
    + destruct cue; [done|]. destruct Hc as [|Hc]; [done|]. by rewrite Hc.
    + exists []. split; [|done]. destruct rego; [done|]. by destruct Hr.
Qed.

Lemma validate_attestations_Ok t cue rego verified : ∀ acc errs,
  validate_attestations t cue rego verified acc = Ok errs →
  (errs = [] ↔ acc = [] ∧ ∀ att, att ∈ verified → ∃ p, AttestationToPayloadJSON t att = Ok p
     ∧ (p = "" ∨ passes cue rego p)).
Proof.
  induction verified as [|att verified IH]; cbn; intros acc errs H; [go_inv; set_solver|].
  apply bind_Ok in H as (p & Hp%wrap_Ok & H). apply bind_Ok in H as (es & He & H).
  rewrite (IH _ _ H), app_nil.
  assert (Hes : es = [] ↔ p = "" ∨ passes cue rego p).
  { destruct (p =?s "") eqn:E; [apply str_eqb_eq in E; go_inv; naive_solver|apply str_eqb_neq in E].
    rewrite <- payload_errors_nil, He. split; [intros ->; by right|by intros [?|[= ->]]]. }
  rewrite Hes. clear -Hp. split.
  - intros [[-> Hpp] Hall]. split; [done|]. intros a [-> |Ha]%elem_of_cons; eauto.
  - intros [-> Hall]. destruct (Hall att (list_elem_of_here _ _)) as (p' & Hp' & Hok).
    rewrite Hp in Hp'. injection Hp' as <-. split; [done|]. intros. apply Hall. by right.
Qed.

Lemma check_policies_Ok c verified w w' :
  check_policies c verified w = (w', Ok ()) →
  ∃ cue rego, sort_policies (va_Policies c) [] [] = Ok (cue, rego)
    ∧ ∀ att, att ∈ verified → ∃ p, AttestationToPayloadJSON (va_PredicateType c) att = Ok p
        ∧ (p = "" ∨ passes cue rego p).
Proof.
  unfold check_policies. intros H. apply M_bind_Ok in H as (? & [cue rego] & [Hs ->]%lift_Ok & H).
  apply M_bind_Ok in H as (? & errs & [Hv ->]%lift_Ok & H). exists cue, rego. split; [done|].
  apply (validate_attestations_Ok _ _ _ _ _ _ Hv). destruct errs; [done|].
  apply M_bind_Ok in H as (? & [] & _ & H). by apply lift_Ok in H as [? _].
Qed.

(** Attestations of the image [ref] that each meet the options. *)
Definition attestations_verified (depth : nat) (reg : Reg) (ref : Reference) (co : CheckOpts)
    (l : list Signature) : Prop :=
  l ≠ [] ∧ ∃ se h set stored,
    remote_SignedEntity depth reg ref (RegistryClientOpts co) = Ok se
    ∧ Entity_Digest se = Ok h ∧ Entity_Attestations se = Ok set ∧ Get set = Ok stored
    ∧ ∀ att, att ∈ l → att ∈ stored ∧ about_image att h
        ∧ (∃ v, authenticated co att v ∧ attested_by v att) ∧ ∃ bv, logged co att bv.

Lemma VerifyImageAttestations_image depth reg ref q co co' l b :
  ClaimVerifier co = Some IntotoSubjectClaimVerifier →
  VerifyImageAttestations depth reg ref (set_IntermediateCerts q co) = (co', Ok (l, b)) →
  attestations_verified depth reg ref co l ∧ ∃ q', co' = set_IntermediateCerts q' co.
Proof.
  intros Hc H. split.
  - apply VerifyImageAttestations_spec in H as (Hne & se & h & set & stored & ?&?&?&?& H); [|done..].
    split; [done|]. exists se, h, set, stored. do 4 (split; [done|]). intros att Hin.
    destruct (H att Hin) as (?&?& (v & Ha & ?) & bv & ?). split; [done|]. split; [done|].
    split; [eauto using authenticated_pool|by exists bv].
  - unfold VerifyImageAttestations in H. apply M_bind_Ok in H as (? & [] & [_ ->]%reads_Ok & H).
    apply M_bind_Ok in H as (? & ? & [-> ->]%gets_Ok & H).
    apply M_bind_Ok in H as (? & [se h] & [_ ->]%lift_Ok & H).
    apply M_bind_Ok in H as (? & atts & [_ ->]%lift_Ok & H).
    apply verify_set_pool in H as [q' ->]; [|intros; apply verify_attestation_independent].
    rewrite set_pool_twice. eauto.
Qed.

Lemma attestation_pubKey_Ok c kw co co' pk :
  attestation_pubKey c kw co = (co', Ok pk) →
  (∃ roots ints, co' = set_pools roots ints co)
  ∧ match pk with
    | Some v => attestation_verifier c kw co v
    | None => va_KeyRef c = "" ∧ va_Sk c = false ∧ va_CertRef c = "" ∧ co' = co
    end.
Proof.
  assert (Hid : ∃ roots ints, co = set_pools roots ints co)
    by (exists (RootCerts co), (IntermediateCerts co); by destruct co).
  unfold attestation_pubKey, flags_verifier. intros H.
  destruct (va_KeyRef c =?s "") eqn:Ek; cbn [negb] in H.
  - apply str_eqb_eq in Ek. destruct (va_Sk c) eqn:Es; [M_inv; split; [done|]; eauto|].
    destruct (va_CertRef c =?s "") eqn:Er; cbn [negb] in H.
    + M_inv. apply str_eqb_eq in Er. done.
    + apply M_bind_Ok in H as (? & cert & [Hc%wrap_Ok ->]%lift_Ok & H).
      apply M_bind_Ok in H as (co1 & v & Hf & [-> ->]%M_ret_Ok). apply str_eqb_neq in Er.
      assert (Hf' : cert_flag cert (va_CertChain c) kw co = (co1, Ok v)).
      { unfold cert_flag. destruct (va_CertChain c =?s ""); [by M_inv; apply lift_Ok|].
        apply M_bind_Ok in Hf as (? & chain & Hl & Hf%M_wrap_Ok). apply M_bind_Ok. eauto. }
      apply cert_flag_Ok in Hf' as [Hp Hf']. split; [done|]. eauto 10.
  - M_inv. apply str_eqb_neq in Ek. split; [done|]. eauto.
Qed.

Lemma verify_attestations_Ok depth reg c co :
  ClaimVerifier co = Some IntotoSubjectClaimVerifier → va_LocalImage c = false → ∀ imgs q w w',
  verify_attestations depth reg c imgs (set_IntermediateCerts q co) w = (w', Ok ()) →
  ∀ img, img ∈ imgs → ∃ ref l, name_ParseReference img = Ok ref
    ∧ attestations_verified depth reg ref co l
    ∧ ∃ cue rego, sort_policies (va_Policies c) [] [] = Ok (cue, rego)
        ∧ ∀ att, att ∈ l → ∃ p, AttestationToPayloadJSON (va_PredicateType c) att = Ok p
            ∧ (p = "" ∨ passes cue rego p).
Proof.
  intros Hcv Hli. induction imgs as [|i imgs IH]; intros q w w' H img Hin; [by apply elem_of_nil in Hin|].
  cbn in H. destruct (verify_image_attestations _ _ c i _) as [co1 r] eqn:E.
  apply M_bind_Ok in H as (? & [l b] & [-> ->]%lift_Ok & H).
  unfold verify_image_attestations in E. rewrite Hli in E.
  apply M_bind_Ok in E as (? & ref & [Hr ->]%lift_Ok & E).
  apply VerifyImageAttestations_image in E as [Hl [q' ->]]; [|done].
  apply M_bind_Ok in H as (? & [] & Hp%check_policies_Ok & H). apply M_bind_Ok in H as (? & [] & _ & H).
  apply M_bind_Ok in H as (? & [] & _ & H).
  apply elem_of_cons in Hin as [-> |Hin]; [by exists ref, l|]. by eapply IH.
Qed.

(** C18: `cosign verify-attestation`, with claims checked (--check-claims, the default)
    and images of a registry (not --local-image), ends without an error only if there was
    at least one image and each of them has attestations stored for it, each with a
    subject of the image's digest, that verify under the options of the flags: with the
    key of --key, else the token of --sk, else the certificate of --cert, checked against
    --cert-chain if given; without any of them, which needs experimental mode, under a
    certificate of the Fulcio roots with the e-mail and issuer of --cert-email and
    --cert-oidc-issuer and the timestamp rule of --enforce-sct; the log is the one of
    --rekor-url in experimental mode and is not asked otherwise.  Of the attestations that
    verified, all those of the requested predicate type pass every CUE and Rego policy
    that was given (there may be none of that type: then the policies say nothing). *)
Theorem attestation_Exec_sound depth reg v1 c kw images w w' :
  va_CheckClaims c = true → va_LocalImage c = false →
  attestation_Exec depth reg v1 c kw images w = (w', Ok ()) →
  images ≠ [] ∧ ∃ co cue rego, attestation_opts v1 c kw (cw_Roots w) co
    ∧ sort_policies (va_Policies c) [] [] = Ok (cue, rego)
    ∧ ∀ img, img ∈ images → ∃ ref l, name_ParseReference img = Ok ref
        ∧ attestations_verified depth reg ref co l
        ∧ ∀ att, att ∈ l → ∃ p, AttestationToPayloadJSON (va_PredicateType c) att = Ok p
            ∧ (p = "" ∨ passes cue rego p).
Proof.
  intros Hcl Hli H. unfold attestation_Exec in H. rewrite Hcl in H.
  destruct images as [|i0 images]; [done|]. split; [done|]. set (imgs := i0 :: images) in *.
  apply M_bind_Ok in H as (? & [] & [Hone%ensure_Ok ->]%lift_Ok & H).
  apply M_bind_Ok in H as (? & opts & [Ho%wrap_Ok ->]%lift_Ok & H).
  apply M_bind_Ok in H as (w1 & [rc roots] & [Hrk Hx]%experimental_opts_Ok & H).
  destruct (attestation_pubKey c kw _) as [co1 r] eqn:Ep.
  apply M_bind_Ok in H as (? & pk & [-> ->]%lift_Ok & H).
  destruct (attestation_pubKey_Ok _ _ _ _ _ Ep) as [(r' & i' & ->) Hpk].
  match type of H with verify_attestations _ _ _ _ ?o _ = _ => set (co := o) in H end.
  assert (Hq : co = set_IntermediateCerts (IntermediateCerts co) co) by done.
  rewrite Hq in H. pose proof (verify_attestations_Ok _ _ _ co eq_refl Hli _ _ _ _ H) as Hall.
  destruct (Hall i0 ltac:(subst imgs; set_solver)) as (_ & _ & _ & _ & cue & rego & Hs & _).
  exists co, cue, rego. split; [|split; [done|]].
  - unfold attestation_opts. do 6 (split; [done|]).
    eapply flags_trust_opts; [exact Hone| |done|done]. by intros -> -> ->.
  - intros img Hin. destruct (Hall img Hin) as (ref & l & Hr & Hl & cue' & rego' & Hs' & Hp).
    rewrite Hs in Hs'. injection Hs' as <- <-. by exists ref, l.
Qed.

(** Policies say nothing when no attestation is of the requested type: the
    verification then succeeds whatever the policies are. *)
Theorem policies_vacuous c verified cue rego w :
  sort_policies (va_Policies c) [] [] = Ok (cue, rego) →
  (∀ att, att ∈ verified → AttestationToPayloadJSON (va_PredicateType c) att = Ok "") →
  check_policies c verified w = (w, Ok ()).
Proof.
  intros Hs Hv. unfold check_policies. apply M_bind_Ok. exists w, (cue, rego).
  split; [by apply lift_Ok|]. apply M_bind_Ok. exists w, []. split; [apply lift_Ok; split; [|done]|done].
  generalize (@nil error). induction verified as [|att verified IH]; intros acc; cbn; [done|].
  rewrite Hv by set_solver. cbn [wrap map_err mbind res_bind]. rewrite str_eqb_refl. cbn [mbind res_bind].
  rewrite app_nil_r. apply IH. intros. apply Hv. set_solver.
Qed.

End spec.

(** ** Witnesses *)

(** The Rego policy "deny.rego" denies, the others allow. *)
Definition toy_Command : CommandExt := {|
  hash_calls _ := (toy, toy_Keys);
  crypto_Available _ := true;
  Reference_Name := Reference_String;
  unicode_trim s := s;
  unicode_lower s := s;
  json_Marshal_output _ := Ok "[]";
  json_Marshal_Statement _ := Ok "statement";
  json_remarshal _ b := Ok (Ok b);
  json_Decode b := Ok (any_string b);
  rego_PrepareForEval _ eps :=
    Ok (λ _, Ok (mkResultSet (bool_decide ("deny.rego" ∉ eps)) []));
  cue_Instances _ := [] |}.

Definition toy_pub : KeyWorld := files {["cosign.pub" := "k"]}.
Definition toy_vc : VerifyCommand (R := toy_Registry) :=
  mkVerifyCommand (R := toy_Registry) [] "" true "cosign.pub" "" "" "" "" false false "" "text" "" "" None "" 0 false.
Definition toy_va (t : string) (policies : list string) : VerifyAttestationCommand (R := toy_Registry) :=
  mkVerifyAttestationCommand (R := toy_Registry) [] "" true "cosign.pub" "" "" "" "" false false "" "" t
    policies false.
Definition toy_cmd_world : CmdWorld := mkCmdWorld toy_roots [].

#[local] Notation toy_exec := (Exec (X := toy) (TR := toy_TrustRoot) (C := toy_Ct) (KX := toy_Keys)
  (R := toy_Registry) (S := toy_Sign) (V := toy_Command) 1 toy_reg "v1" toy_vc toy_pub ["repo"]).
#[local] Notation toy_att_exec := (attestation_Exec (X := toy) (TR := toy_TrustRoot) (C := toy_Ct)
  (KX := toy_Keys) (R := toy_Registry) (S := toy_Sign) (A := toy_Attest)
  (V := toy_Command) 1 toy_reg "v1").

Lemma Exec_sound_witness :
  ∃ w' co l ref, toy_exec toy_cmd_world = (w', Ok ())
    ∧ image_verified (X := toy) (TR := toy_TrustRoot) (C := toy_Ct) (R := toy_Registry) 1 toy_reg ref co l.
Proof.
  destruct (ok_run (toy_exec toy_cmd_world)) as (w' & [] & H); [vm_compute; reflexivity|].
  destruct (Exec_sound (X := toy) (TR := toy_TrustRoot) (C := toy_Ct) (KX := toy_Keys)
    (R := toy_Registry) (S := toy_Sign) (V := toy_Command) 1 toy_reg "v1" toy_vc
    toy_pub ["repo"] toy_cmd_world w' eq_refl eq_refl eq_refl H) as (_ & co & _ & Hall).
  destruct (Hall "repo" (list_elem_of_here _ _)) as (l & ref & ref' & _ & _ & Hv).
  exists w', co, l, ref'. split; [exact H|exact Hv].
Defined.

Lemma attestation_Exec_sound_witness :
  ∃ w' co ref l, toy_att_exec (toy_va "custom" ["allow.rego"]) toy_pub ["repo"] toy_cmd_world = (w', Ok ())
    ∧ attestation_opts (X := toy) (TR := toy_TrustRoot) (C := toy_Ct) (KX := toy_Keys) (R := toy_Registry)
        (S := toy_Sign) "v1" (toy_va "custom" ["allow.rego"]) toy_pub toy_roots co
    ∧ attestations_verified (X := toy) (TR := toy_TrustRoot) (C := toy_Ct) (R := toy_Registry) 1 toy_reg ref co l.
Proof.
  destruct (ok_run (toy_att_exec (toy_va "custom" ["allow.rego"]) toy_pub ["repo"] toy_cmd_world))
    as (w' & [] & H); [vm_compute; reflexivity|].
  destruct (attestation_Exec_sound (X := toy) (TR := toy_TrustRoot) (C := toy_Ct) (KX := toy_Keys)
    (R := toy_Registry) (S := toy_Sign) (A := toy_Attest) (V := toy_Command) 1 toy_reg "v1"
    (toy_va "custom" ["allow.rego"]) toy_pub ["repo"] toy_cmd_world w' eq_refl eq_refl H)
    as (_ & co & cue & rego & Ho & _ & Hall).
  destruct (Hall "repo" (list_elem_of_here _ _)) as (ref & l & _ & Hv & _).
  exists w', co, ref, l. split; [exact H|]. split; [exact Ho|exact Hv].
Defined.

(** The policy denies everything, and the only attestation is a custom one. *)
Lemma policies_vacuous_witness :
  check_policies (X := toy) (R := toy_Registry) (A := toy_Attest) (V := toy_Command)
    (toy_va "slsaprovenance" ["deny.rego"])
    [staticLayer (base64_EncodeToString "d") "" (static.applied [])] toy_cmd_world
  = (toy_cmd_world, Ok ()).
Proof.
  apply (policies_vacuous (X := toy) (R := toy_Registry) (A := toy_Attest) (V := toy_Command)
    (toy_va "slsaprovenance" ["deny.rego"]) _ [] ["deny.rego"]).
  - reflexivity.
  - intros att ->%list_elem_of_singleton. vm_compute. reflexivity.
Defined.
