(* ===== verification/RegistryCmds.v ===== *)
(** * Commands on registries

    cmd/cosign/cli: copy, clean, triangulate, download, attach, upload,
    save and load, with pkg/cosign/remote/index.go, pkg/oci/static/file.go and
    options/files.go.

    The state is the registry (and the layouts on disk); what a command prints
    is its result; lines printed before an error, and the progress messages of
    the uploads and of `download sbom`, are left out. *)
From S2P Require Import Prelude GoStd External Concrete OciSignature OciSignatures OciEntity.
From S2P Require Import OciRemote Tuf Tlog Ctl Verify Keys Sign Attest Blob VerifyCmd.

(** ggcr's v1.Platform, as far as it is set. *)
Record Platform := mkPlatform { pl_OS : string; pl_Architecture : string }.

Class RegistryCmdExt `{R : Registry} := {
  remoteHead : Reg → list ROption → Reference → res Hash;
  remoteDelete : list ROption → Reference → Reg → Reg * res unit;
  (* mutate.ConfigMediaType(mutate.MediaType(empty.Image, _), configMediaType) *)
  empty_Base : string → Image;
  (* mutate.AppendManifests on the empty index *)
  platform_index : list (Image * Platform) → V1Index;
  http_DetectContentType : bytes → string;
  confirm_Read : res string;                              (* a line, with its newline *)
  os_Stat_Err : string → option error;
  json_Marshal_SignedPayload : SignedPayload → res bytes;
  json_Marshal_AttestationPayload : Envelope → res bytes }.

Section commands.
Context `{X : Ext, TR : TrustRoot, C : CtExt, KX : KeyExt, R : Registry, S : !SignExt, B : BlobExt,
  A : AttestExt, V : CommandExt, E : !RegistryCmdExt}.

(** Reference.Identifier *)
Definition ref_Identifier (r : Reference) : string :=
  match r with name_Tag _ t => t | name_Digest _ d => d end.

(** RegistryOptions: the remote options and the tag prefix *)
Record RegistryOptions := mkRegistryOptions { ro_Client : list ROption; ro_TagPrefix : string }.
Definition ro_ClientOpts (o : RegistryOptions) : res (list Option_) :=
  registry_ClientOpts (ro_Client o) (ro_TagPrefix o).

(** ** copy *)

Definition copyImage (src dest : Reference) (overwrite : bool) (opts : list ROption) : M Reg unit :=
  got ← M_try (reads (λ reg, remoteGet reg opts src));
  match got with
  | Err e => if is_transport_404 e then mret () else lift (Err e)
  | Panic why => lift (Panic why)
  | Ok (mt, digest, (img, idx)) =>
      dst ← (if overwrite then mret None
             else r ← M_try (reads (λ reg, remoteHead reg opts dest));
                  mret (match r with Ok h => Some h | _ => None end));
      match dst with
      | Some h =>
          lift (ensure (bool_decide (digest = h))
                  (error_New ("image " +:+ Reference_Name dest
                              +:+ " already exists. Use `-f` to overwrite")))
      | None =>
          if is_index_type mt then imgIdx ← lift idx; remoteWriteIndex opts dest imgIdx
          else i ← lift img; remoteWrite opts dest i
      end
  end.

Definition tagMap : Type := Reg → Reference → list Option_ → res Reference.

Definition copyTagImage (tm : tagMap) (srcDigest : Reference) (dstRepo : Repository)
    (overwrite : bool) (opts : list ROption) : M Reg unit :=
  src ← reads (λ reg, tm reg srcDigest [WithRemoteOptions opts]);
  copyImage src (name_Tag dstRepo (ref_Identifier src)) overwrite opts.

Definition copy_entity (srcRepo dstRepo : Repository) (sigOnly force : bool) (opts : list ROption)
    (se : Entity) : M Reg unit :=
  h ← lift (Entity_Digest se);
  let srcDigest := name_Digest srcRepo (Hash_String h) in
  copyTagImage SignatureTag srcDigest dstRepo force opts;;
  if sigOnly then mret () else
  copyTagImage AttestationTag srcDigest dstRepo force opts;;
  copyTagImage SBOMTag srcDigest dstRepo force opts;;
  copyImage srcDigest (name_Tag dstRepo (ref_Identifier srcDigest)) force opts.

(** A walk whose callback is a call on the registry; a panic stops it and goes
    through. *)
Definition act_callback (act : Entity → M Reg unit) (_ : pass) (se : Entity)
    (st : Reg * option string) : (Reg * option string) * option error :=
  match act se (fst st) with
  | (reg, Ok _) => ((reg, snd st), None)
  | (reg, Err e) => ((reg, snd st), Some e)
  | (reg, Panic why) => ((reg, Some why), Some (error_New why))
  end.

(** ggcr's rebuilt indices, as in [Map], and the depth of the entities. *)
Context (mutate_AppendManifests : Entity → list (Entity * Descriptor) → v1Index).
Context (depth : nat).

Definition walk_act (act : Entity → M Reg unit) (se : Entity) : M Reg unit := λ reg,
  match walk_SignedEntity mutate_AppendManifests (act_callback act)
          (Datatypes.S (Datatypes.S depth)) NoPass se (reg, None) with
  | None => (reg, Panic "out of fuel")
  | Some ((reg, Some why), _) => (reg, Panic why)
  | Some ((reg, None), Ok None) => (reg, Ok ())
  | Some ((reg, None), Ok (Some e)) | Some ((reg, None), Err e) => (reg, Err e)
  | Some ((reg, None), Panic why) => (reg, Panic why)
  end.

Definition CopyCmd (regOpts : RegistryOptions) (srcImg dstImg : string) (sigOnly force : bool) :
    M Reg unit :=
  srcRef ← lift (name_ParseReference srcImg);
  dstRef ← lift (name_ParseReference dstImg);
  let remoteOpts := ro_Client regOpts in
  root ← reads (λ reg, remote_SignedEntity depth reg srcRef [WithRemoteOptions remoteOpts]);
  walk_act (copy_entity (ref_Context srcRef) (ref_Context dstRef) sigOnly force remoteOpts) root;;
  if sigOnly then mret () else
  h ← lift (Entity_Digest root);
  copyImage (name_Digest (ref_Context srcRef) (Hash_String h)) dstRef force remoteOpts.

(** ** clean *)

(** cosign.ConfirmPrompt: strings.Trim(r, "\n") of a line read up to its
    newline. *)
Definition newline : ascii := ascii_of_nat 10.
Fixpoint trim_newlines_left (s : string) : string :=
  match s with
  | String c s' => if Ascii.eqb c newline then trim_newlines_left s' else s
  | "" => ""
  end.
Fixpoint trim_newlines_right (s : string) : string :=
  match s with
  | String c s' =>
      match trim_newlines_right s' with
      | "" => if Ascii.eqb c newline then "" else String c ""
      | t => String c t
      end
  | "" => ""
  end.
Definition ConfirmPrompt : res bool :=
  r ← confirm_Read; Ok (trim_newlines_right (trim_newlines_left r) =?s "Y").

Definition prompt (cleanType : string) : string :=
  if cleanType =?s "signature" then "WARNING: this will remove all signatures from the image"
  else if cleanType =?s "sbom" then "WARNING: this will remove all SBOMs from the image"
  else if cleanType =?s "attestation" then "WARNING: this will remove all attestations from the image"
  else if cleanType =?s "all"
  then "WARNING: this will remove all signatures, SBOMs and attestations from the image"
  else "".

Definition clean_tags (cleanType : string) (sigRef attRef sbomRef : Reference) : list Reference :=
  if cleanType =?s "signature" then [sigRef]
  else if cleanType =?s "sbom" then [sbomRef]
  else if cleanType =?s "attestation" then [attRef]
  else if cleanType =?s "all" then [sigRef; attRef; sbomRef]
  else [].

(** The lines of the loop; a tag that cannot be deleted is only reported. *)
Fixpoint delete_tags (opts : list ROption) (imageRef : string) (cleanTags : list Reference) :
    M Reg (list Line) :=
  match cleanTags with
  | [] => mret []
  | t :: cleanTags' =>
      r ← M_try (remoteDelete opts t);
      line ← match r with
             | Ok _ => mret [stderr ("Removed " +:+ Reference_String t +:+ " from " +:+ imageRef)]
             | Err e =>
                 mret (if is_transport_404 e then []
                       else [stderr ("could not delete " +:+ Reference_String t +:+ " from " +:+ imageRef);
                             stderr (": " +:+ Error e)])
             | Panic why => lift (Panic why)
             end;
      lines ← delete_tags opts imageRef cleanTags';
      mret (line ++ lines)
  end.

Definition CleanCmd (regOpts : RegistryOptions) (cleanType imageRef : string) (force : bool) :
    M Reg (list Line) :=
  ok ← lift (if force then Ok true else ConfirmPrompt);
  if negb ok then mret [] else
  ref ← lift (name_ParseReference imageRef);
  let opts := [WithRemoteOptions (ro_Client regOpts)] in
  sigRef ← reads (λ reg, SignatureTag reg ref opts);
  attRef ← reads (λ reg, AttestationTag reg ref opts);
  sbomRef ← reads (λ reg, SBOMTag reg ref opts);
  delete_tags (ro_Client regOpts) imageRef (clean_tags cleanType sigRef attRef sbomRef).

(** ** triangulate *)

Definition MungeCmd (regOpts : RegistryOptions) (imageRef attachmentType : string) (reg : Reg) :
    res string :=
  ref ← name_ParseReference imageRef;
  opts ← wrap "constructing client options" (ro_ClientOpts regOpts);
  dstRef ← (if attachmentType =?s "signature" then SignatureTag reg ref opts
            else if attachmentType =?s "sbom" then SBOMTag reg ref opts
            else if attachmentType =?s "attestation" then AttestationTag reg ref opts
            else Err (error_New ("unknown attachment type " +:+ attachmentType)));
  Ok (Reference_Name dstRef).

(** ** download *)

Definition download_SBOMCmd (regOpts : RegistryOptions) (imageRef : string) (reg : Reg) :
    res (list string) :=
  ref ← name_ParseReference imageRef;
  opts ← ro_ClientOpts regOpts;
  se ← remote_SignedEntity depth reg ref opts;
  file ← Entity_Attachment se "sbom";
  _ ← FileMediaType file;
  sbom ← File_Payload file;
  Ok [sbom].

Fixpoint marshal_all {T} (marshal : T → res bytes) (l : list T) : res (list Line) :=
  match l with
  | [] => Ok []
  | x :: l' => b ← marshal x; rest ← marshal_all marshal l'; Ok (stdout b :: rest)
  end.

Definition download_SignatureCmd (regOpts : RegistryOptions) (imageRef : string) (reg : Reg) :
    res (list Line) :=
  ref ← name_ParseReference imageRef;
  opts ← ro_ClientOpts regOpts;
  signatures ← FetchSignaturesForReference depth reg ref opts;
  marshal_all json_Marshal_SignedPayload signatures.

Definition download_AttestationCmd (regOpts : RegistryOptions) (imageRef : string) (reg : Reg) :
    res (list Line) :=
  ref ← name_ParseReference imageRef;
  opts ← ro_ClientOpts regOpts;
  attestations ← FetchAttestationsForReference depth reg ref opts;
  marshal_all json_Marshal_AttestationPayload attestations.

(** ** attach *)

Inductive SignatureArgType := StdinSignature | RawSignature | FileSignature.

Definition signatureFileNotExists (sigRef : string) : bool :=
  match os_Stat_Err sigRef with Some e => os_IsNotExist e | None => false end.

Definition signatureType (sigRef : string) : SignatureArgType :=
  if sigRef =?s "-" then StdinSignature
  else if signatureFileNotExists sigRef then RawSignature
  else FileSignature.

(** [signatureBytes] and [sbomBytes] *)
Definition signatureBytes (sigRef : string) : res bytes :=
  match signatureType sigRef with
  | StdinSignature => stdin_ReadAll
  | RawSignature => Ok sigRef
  | FileSignature => os_ReadFile (filepath_Clean sigRef)
  end.
Definition sbomBytes (sbomRef : string) : res bytes :=
  match signatureType sbomRef with
  | StdinSignature => stdin_ReadAll
  | RawSignature => Ok sbomRef
  | FileSignature => os_ReadFile (filepath_Clean sbomRef)
  end.

Definition attach_SignatureCmd (regOpts : RegistryOptions) (sigRef payloadRef imageRef : string) :
    M Reg unit :=
  b64SigBytes ← lift (signatureBytes sigRef);
  lift (ensure (negb (b64SigBytes =?s "")) (error_New "empty signature"));;
  ref ← lift (name_ParseReference imageRef);
  opts ← lift (ro_ClientOpts regOpts);
  digest ← reads (λ reg, ResolveDigest reg ref opts);
  payload ← lift (if payloadRef =?s "" then payload_Cosign_MarshalJSON (Reference_String digest) ∅
                  else os_ReadFile (filepath_Clean payloadRef));
  sig ← lift (NewSignature payload b64SigBytes []);
  se ← reads (λ reg, remote_SignedEntity depth reg digest opts);
  newSE ← lift (AttachSignatureToEntity (Datatypes.S (eid se)) se sig []);
  WriteSignatures (ref_Context digest) newSE opts.

Definition attach_AttestationCmd (regOpts : RegistryOptions) (signedPayload imageRef : string) :
    M Reg unit :=
  opts ← lift (wrap "constructing client options" (ro_ClientOpts regOpts));
  payload ← lift (os_ReadFile signedPayload);
  lift (ensure (negb (payload =?s "")) (error_New (signedPayload +:+ " payload is empty")));;
  env ← lift (json_Unmarshal_Envelope payload);
  lift (ensure (env_PayloadType env =?s IntotoPayloadType)
          (error_New ("invalid payloadType " +:+ env_PayloadType env +:+ " on envelope. Expected "
                      +:+ IntotoPayloadType)));;
  lift (ensure (negb (bool_decide (env_Signatures env = [])))
          (error_New "could not attach attestation without having signatures"));;
  ref ← lift (name_ParseReference imageRef);
  digest ← reads (λ reg, ResolveDigest reg ref opts);
  att ← lift (NewAttestation payload [static.WithLayerMediaType DssePayloadType]);
  se ← reads (λ reg, remote_SignedEntity depth reg digest opts);
  newSE ← lift (AttachAttestationToEntity (Datatypes.S (eid se)) se att []);
  WriteAttestations (ref_Context digest) newSE opts.

(** static.NewFile: the image with one layer. *)
Definition NewFile (payload : bytes) (opts : list static.Option) : res Image :=
  o ← static.makeOptions opts;
  mutate_Append (empty_Base (static.ConfigMediaType o)) [mkAddendum (staticLayer payload "" o) ∅].

Definition attach_SBOMCmd (regOpts : RegistryOptions) (sbomRef sbomType imageRef : string) :
    M Reg unit :=
  ref ← lift (name_ParseReference imageRef);
  b ← lift (sbomBytes sbomRef);
  opts ← lift (ro_ClientOpts regOpts);
  dstRef ← reads (λ reg, SBOMTag reg ref opts);
  img ← lift (NewFile b [static.WithLayerMediaType sbomType]);
  remoteWrite (ro_Client regOpts) dstRef img.

(** ** upload (pkg/cosign/remote/index.go) *)

Record UploadFile := mkUploadFile { file_path : string; file_platform : option Platform }.

Definition FileFromFlag (s : string) : UploadFile :=
  match strings_Split s ":"%char with
  | path :: p :: _ =>
      mkUploadFile path
        (Some (match strings_Split p "/"%char with
               | os :: arch :: _ => mkPlatform os arch
               | [os] => mkPlatform os ""
               | [] => mkPlatform "" ""
               end))
  | [path] => mkUploadFile path None
  | [] => mkUploadFile "" None
  end.
Definition FilesFromFlagList (sl : list string) : list UploadFile := FileFromFlag <$> sl.

Definition file_String (f : UploadFile) : string :=
  match file_platform f with
  | None => file_path f
  | Some p =>
      let r := file_path f +:+ ":" +:+ pl_OS p in
      if pl_Architecture p =?s "" then r else r +:+ "/" +:+ pl_Architecture p
  end.

Definition DefaultMediaTypeGetter (b : bytes) : string :=
  match strings_Split (http_DetectContentType b) ";"%char with mt :: _ => mt | [] => "" end.

(** FilesOptions.Parse: with several files, each must have a platform. *)
Fixpoint check_platforms (fs : list UploadFile) : res unit :=
  match fs with
  | [] => Ok ()
  | f :: fs' =>
      match file_platform f with
      | None => Err (error_New ("each file must include a unique platform, " +:+ file_path f
                                +:+ " had no platform"))
      | Some _ => check_platforms fs'
      end
  end.
Definition FilesOptions_Parse (files : list string) : res (list UploadFile) :=
  let fs := FilesFromFlagList files in
  (if (1 <? length fs)%nat then check_platforms fs else Ok ());; Ok fs.

(** The loop over the files, which [read] reads: every image is written under the
    same reference; the images with a platform make up the index. *)
Fixpoint upload_loop (read : string → res bytes) (opts : list ROption) (ref : Reference) (getMt : bytes → string)
    (files : list UploadFile) (idx : list (Image * Platform)) (lastHash : Hash) :
    M Reg (list (Image * Platform) * Hash) :=
  match files with
  | [] => mret (idx, lastHash)
  | f :: files' =>
      b ← lift (read (file_path f));
      img ← lift (NewFile b [static.WithLayerMediaType (getMt b)]);
      lastHash ← lift (Image_Digest img);
      remoteWrite opts ref img;;
      ls ← lift (Image_Layers img);
      _ ← lift (match ls with l :: _ => layer_Digest l | [] => Panic "index out of range" end);
      upload_loop read opts ref getMt files'
        (match file_platform f with Some p => idx ++ [(img, p)] | None => idx end) lastHash
  end.

Definition UploadFiles (read : string → res bytes) (ref : Reference) (files : list UploadFile) (getMt : bytes → string)
    (opts : list ROption) : M Reg Reference :=
  '(idx, lastHash) ← upload_loop read opts ref getMt files [] (mkHash "" "");
  lastHash ← (if (1 <? length files)%nat then
                remoteWriteIndex opts ref (platform_index idx);;
                lift (Index_Digest (platform_index idx))
              else mret lastHash);
  mret (name_Digest (ref_Context ref) (Hash_String lastHash)).

Definition BlobCmd (read : string → res bytes) (regOpts : RegistryOptions) (files : list UploadFile)
    (contentType imageRef : string) : M Reg (list Line) :=
  ref ← lift (name_ParseReference imageRef);
  let mt := if negb (contentType =?s "") then λ _, contentType else DefaultMediaTypeGetter in
  dgstAddr ← UploadFiles read ref files mt (ro_Client regOpts);
  lift (ensure (negb (bool_decide (length files = 0))) (error_New "no files uploaded?"));;
  if (1 <? length files)%nat
  then mret [stderr ("Uploading multi-platform index to " +:+ Reference_String dgstAddr)]
  else mret [stderr "Uploaded image to:"; stdout (Reference_String dgstAddr)].

Definition WasmLayerMediaType := "application/vnd.wasm.content.layer.v1+wasm".
Definition WasmConfigMediaType := "application/vnd.wasm.config.v1+json".

Definition WasmCmd (regOpts : RegistryOptions) (wasmPath imageRef : string) : M Reg unit :=
  b ← lift (os_ReadFile wasmPath);
  ref ← lift (name_ParseReference imageRef);
  img ← lift (NewFile b [static.WithLayerMediaType WasmLayerMediaType;
                         static.WithConfigMediaType WasmConfigMediaType]);
  remoteWrite (ro_Client regOpts) ref img.

(** ** save, load *)

Definition SaveCmd (directory imageRef : string) : M Reg unit :=
  ref ← lift (wrap ("parsing image name " +:+ imageRef) (name_ParseReference imageRef));
  se ← reads (λ reg, wrap "signed entity" (remote_SignedEntity depth reg ref []));
  let o := makeOptions (ref_Context ref) [] in
  if negb (is_index se) then
    si ← reads (λ reg, wrap "getting signed image" (remote_SignedImage reg ref []));
    img ← reads (λ reg, wrap "getting signed image" (not_found "image" (remoteImage reg (ROpt o) ref)));
    WriteSignedImage directory img (Entity_Signatures si) (Entity_Attestations si)
  else
    sii ← reads (λ reg, wrap "getting signed image index" (remote_SignedImageIndex depth reg ref []));
    ii ← reads (λ reg, wrap "getting signed image index" (not_found "index" (remoteIndex reg (ROpt o) ref)));
    WriteSignedImageIndex directory ii (Entity_Signatures sii) (Entity_Attestations sii).

Definition LoadCmd (directory imageRef : string) : M Reg unit :=
  ref ← lift (wrap ("parsing image name " +:+ imageRef) (name_ParseReference imageRef));
  sii ← reads (λ reg, wrap "signed image index" (layout_FromPath reg directory));
  WriteSignedImageIndexImages ref sii [].

End commands.

(** ** What the commands are relied on for *)

Section theorems.
Context `{X : Ext, TR : TrustRoot, C : CtExt, KX : KeyExt, R : Registry, S : !SignExt, B : BlobExt,
  A : AttestExt, V : CommandExt, E : !RegistryCmdExt}.

(** The digest under which a registry serves a reference. *)
Definition get_digest (reg : Reg) (opts : list ROption) (r : Reference) : res Hash :=
  (λ d, snd (fst d)) <$> remoteGet reg opts r.

(** Documented behaviour of a registry: HEAD agrees with GET, a descriptor yields
    the image or the index it describes, what was written is served with its
    digest, a reference that was deleted is gone, and neither changes other tags
    or other repositories. *)
Class CopyLaws : Prop := {
  head_get reg opts r h : remoteHead reg opts r = Ok h → get_digest reg opts r = Ok h;
  descriptor_image reg opts r mt h img idx :
    remoteGet reg opts r = Ok (mt, h, (Ok img, idx)) → is_index_type mt = false →
    Image_Digest img = Ok h;
  descriptor_index reg opts r mt h img ii :
    remoteGet reg opts r = Ok (mt, h, (img, Ok ii)) → is_index_type mt = true →
    Index_Digest ii = Ok h;
  write_digest opts t img h reg reg' : remoteWrite opts t img reg = (reg', Ok ()) →
    Image_Digest img = Ok h → get_digest reg' opts t = Ok h;
  write_index_digest opts t ii h reg reg' : remoteWriteIndex opts t ii reg = (reg', Ok ()) →
    Index_Digest ii = Ok h → get_digest reg' opts t = Ok h;
  write_get_other opts opts' t t' img reg reg' : remoteWrite opts t img reg = (reg', Ok ()) →
    apart t t' → remoteGet reg' opts' t' = remoteGet reg opts' t';
  write_index_other opts opts' t t' ii reg reg' : remoteWriteIndex opts t ii reg = (reg', Ok ()) →
    apart t t' → remoteGet reg' opts' t' = remoteGet reg opts' t';
  delete_gone opts t reg reg' :
    remoteDelete opts t reg = (reg', Ok ()) → is_ok (get_digest reg' opts t) = false;
  delete_404 opts t reg reg' e : remoteDelete opts t reg = (reg', Err e) → is_transport_404 e = true →
    is_ok (get_digest reg' opts t) = false;
  delete_other opts opts' t t' reg reg' r : remoteDelete opts t reg = (reg', r) → apart t t' →
    remoteImage reg' opts' t' = remoteImage reg opts' t' ∧ remoteGet reg' opts' t' = remoteGet reg opts' t' }.
Context `{CL : !CopyLaws}.

(** *** copy *)

Lemma copyImage_Ok src dest force opts reg reg' :
  copyImage src dest force opts reg = (reg', Ok ()) →
  (∀ r, apart dest r → remoteGet reg' opts r = remoteGet reg opts r)
  ∧ ∀ g, get_digest reg opts src = Ok g → get_digest reg' opts dest = Ok g.
Proof.
  unfold copyImage, get_digest at 1. intros H.
  apply M_bind_Ok in H as (reg1 & got & Hg & H). unfold M_try, reads in Hg.
  destruct (remoteGet reg opts src) as [[[mt h] [img idx]]|e|] eqn:Eg; simplify_eq/=.
  2: { destruct (is_transport_404 e); M_inv. split; [done|]. intros g. cbn. done. }
  apply M_bind_Ok in H as (reg2 & dst & Hd & H).
  assert (reg2 = reg1 ∧ (∀ h', dst = Some h' → get_digest reg1 opts dest = Ok h')) as [-> Hdst].
  { destruct force; [M_inv; by split|]. unfold M_try, reads, mbind, M_bind in Hd.
    destruct (remoteHead reg1 opts dest) as [h'| |] eqn:Eh; cbn in Hd;
      simplify_eq; M_inv; [|by split].
    split; [done|]. intros ? [= <-]. by apply head_get. }
  destruct dst as [h'|].
  - M_inv. apply bool_decide_eq_true in H as <-. split; [done|]. intros g [= <-]. by apply Hdst.
  - destruct (is_index_type mt) eqn:Emt; apply M_bind_Ok in H as (? & i & [-> ->]%lift_Ok & Hw).
    + split; [intros; by eapply write_index_other|]. intros g [= <-].
      eapply write_index_digest; [done|]. by eapply descriptor_index.
    + split; [intros; by eapply write_get_other|]. intros g [= <-].
      eapply write_digest; [done|]. by eapply descriptor_image.
Qed.

(** How far a copy has come: the source is as it was, and the tags of [done] that
    the source has are in the destination. *)
Definition copied (srcRepo dstRepo : Repository) (opts : list ROption) (reg0 : Reg)
    (tags : list string) (reg : Reg) : Prop :=
  (∀ r, ref_Context r = srcRepo → remoteGet reg opts r = remoteGet reg0 opts r)
  ∧ ∀ t, t ∈ tags → ∀ g, get_digest reg0 opts (name_Tag srcRepo t) = Ok g →
      get_digest reg opts (name_Tag dstRepo t) = Ok g.

Lemma copied_tag srcRepo dstRepo opts reg0 tags t force reg reg' :
  srcRepo ≠ dstRepo → Forall legal tags → copied srcRepo dstRepo opts reg0 tags reg →
  copyImage (name_Tag srcRepo t) (name_Tag dstRepo t) force opts reg = (reg', Ok ()) →
  copied srcRepo dstRepo opts reg0 (t :: tags) reg'.
Proof.
  intros Hne Hl [Hsrc Htags] [Ho Hd]%copyImage_Ok. split.
  - intros r Hr. rewrite Ho; [by apply Hsrc|]. left. cbn. congruence.
  - intros t' Hin g Hg. destruct (decide (t' = t)) as [->|Hn].
    + apply Hd. unfold get_digest. by rewrite Hsrc.
    + apply elem_of_cons in Hin as [?|Hin]; [done|]. unfold get_digest.
      rewrite Forall_forall in Hl. rewrite Ho; [by apply Htags|].
      right. split; [congruence|by apply Hl].
Qed.

(** A copy to a reference that is none of the tags. *)
Lemma copied_other srcRepo dstRepo opts reg0 tags src dest force reg reg' :
  srcRepo ≠ dstRepo → ref_Context dest = dstRepo → Forall legal tags →
  (∀ t, t ∈ tags → name_Tag dstRepo t ≠ dest) →
  copied srcRepo dstRepo opts reg0 tags reg → copyImage src dest force opts reg = (reg', Ok ()) →
  copied srcRepo dstRepo opts reg0 tags reg'.
Proof.
  intros Hne Hc Hl Hn [Hsrc Htags] [Ho _]%copyImage_Ok. rewrite Forall_forall in Hl. split.
  - intros r Hr. rewrite Ho; [by apply Hsrc|]. left. congruence.
  - intros t Hin g Hg. unfold get_digest. rewrite Ho; [by apply Htags|]. right. auto.
Qed.

(** The tags of an entity that are copied. *)
Definition entity_tags (sigOnly : bool) (se : Entity) : list string :=
  match Entity_Digest se with
  | Ok h =>
      match v1_NewHash (Hash_String h) with
      | Ok h' => (λ s, normalize h' CustomTagPrefix s)
                   <$> (if sigOnly then [SignatureTagSuffix]
                        else [SignatureTagSuffix; AttestationTagSuffix; SBOMTagSuffix])
      | _ => []
      end
  | _ => []
  end.

Lemma copyTagImage_copied tm srcRepo dstRepo s h h' force opts reg0 tags reg reg' :
  (∀ reg ref, let o := [WithRemoteOptions opts] in
     tm reg ref o = suffixTag reg ref s (makeOptions (ref_Context ref) o)) → v1_NewHash (Hash_String h) = Ok h' →
  srcRepo ≠ dstRepo → Forall legal tags → copied srcRepo dstRepo opts reg0 tags reg →
  copyTagImage tm (name_Digest srcRepo (Hash_String h)) dstRepo force opts reg = (reg', Ok ()) →
  copied srcRepo dstRepo opts reg0 (normalize h' CustomTagPrefix s :: tags) reg'.
Proof.
  intros Htm Hh Hne Hl Hc H. unfold copyTagImage in H.
  apply M_bind_Ok in H as (? & t & [Ht ->]%reads_Ok & H). rewrite Htm in Ht.
  unfold suffixTag in Ht. apply bind_Ok in Ht as (g & Hg & [= <-]). cbn in Hg.
  rewrite Hh in Hg. injection Hg as <-. by eapply copied_tag.
Qed.

Lemma copy_entity_copied srcRepo dstRepo sigOnly force opts reg0 tags se reg reg' :
  srcRepo ≠ dstRepo → Forall legal (entity_tags sigOnly se ++ tags) →
  copied srcRepo dstRepo opts reg0 tags reg →
  copy_entity srcRepo dstRepo sigOnly force opts se reg = (reg', Ok ()) →
  copied srcRepo dstRepo opts reg0 (entity_tags sigOnly se ++ tags) reg'.
Proof.
  intros Hne Hl Hc H. unfold copy_entity in H.
  apply M_bind_Ok in H as (? & h & [Hh ->]%lift_Ok & H).
  apply M_bind_Ok in H as (reg1 & [] & H1 & H).
  assert (∃ h', v1_NewHash (Hash_String h) = Ok h') as [h' Hh'].
  { clear H. unfold copyTagImage in H1. apply M_bind_Ok in H1 as (? & t & [Ht _]%reads_Ok & _).
    apply bind_Ok in Ht as (h' & Hh' & _). by exists h'. }
  unfold entity_tags in *. rewrite Hh, Hh' in *. apply Forall_app in Hl as [Hle Hl].
  eapply (copyTagImage_copied _ _ _ SignatureTagSuffix) in H1; [|done..].
  destruct sigOnly; cbn in Hle; decompose_Forall_hyps; [by M_inv|].
  apply M_bind_Ok in H as (reg2 & [] & Ha & H).
  eapply (copyTagImage_copied _ _ _ AttestationTagSuffix) in Ha; [|done|done|done| |done]; [|by auto].
  apply M_bind_Ok in H as (reg3 & [] & Hb & H).
  eapply (copyTagImage_copied _ _ _ SBOMTagSuffix) in Hb; [|done|done|done| |done]; [|by auto].
  eapply copied_other in H; [|done|done| | |done]; [|by auto|].
  - destruct H as [Hsrc Ht]. split; [done|]. intros t Hin. apply Ht. set_solver.
  - intros t Hin [= Ht]. assert (Hlt : legal t).
    { rewrite Forall_forall in Hl.
      by repeat (apply elem_of_cons in Hin as [->|Hin]; [done|]); apply Hl. }
    unfold legal in Hlt. rewrite Ht in Hlt. unfold Hash_String in Hlt.
    rewrite !Count_append in Hlt. by destruct (strings_Count (Algorithm h) _).
Qed.

(** Acting on a list of entities until a call fails. *)
Fixpoint act_each (act : Entity → M Reg unit) (l : list Entity) : M Reg unit :=
  match l with
  | [] => mret ()
  | e :: l' => act e;; act_each act l'
  end.

Lemma run_calls_act act l reg :
  match run_calls (act_callback act) l (reg, None) with
  | ((reg', None), None) => act_each act (snd <$> l) reg = (reg', Ok ())
  | ((reg', None), Some e) => act_each act (snd <$> l) reg = (reg', Err e)
  | ((reg', Some why), Some _) => act_each act (snd <$> l) reg = (reg', Panic why)
  | ((_, Some _), None) => False
  end.
Proof.
  induction l as [|[p e] l IH] in reg |- *; cbn; [done|].
  unfold act_callback at 1. cbn [fst snd].
  unfold mbind, M_bind. destruct (act e reg) as [reg1 [[]|err|why]]; [apply IH|done..].
Qed.

(** No call on an entity of the tree fails with the sentinel that makes a walk
    skip an index. *)
Definition act_no_skip (act : Entity → M Reg unit) (se : Entity) : Prop :=
  ∀ p e reg reg' err, (p, e) ∈ preorder NoPass se → act e reg = (reg', Err err) →
    errors_Is_SkipChildren err = false.

Lemma walk_act_correct am depth act reg ref opts se reg1 :
  remote_SignedEntity depth reg ref opts = Ok se → act_no_skip act se → resolved se = true →
  walk_act am depth act se reg1 = act_each act (snd <$> preorder NoPass se) reg1.
Proof.
  intros Hse Hns Hres. unfold walk_act, walk_SignedEntity.
  rewrite (Map_preorder am (act_callback act) _ NoPass se); [| |done|by eapply depth_remote_entity].
  - pose proof (run_calls_act act (preorder NoPass se) reg1) as H.
    destruct (run_calls _ _ _) as [[reg' [why|]] [e|]]; cbn; by rewrite ?H.
  - intros p e [r q] st' err Hin. unfold act_callback. cbn [fst snd].
    destruct (act e r) as [r1 [[]|err'|why]] eqn:E'; intros [= _ <-]; [|done]. by eapply Hns.
Qed.

Definition tree_tags (sigOnly : bool) (l : list Entity) : list string :=
  l ≫= entity_tags sigOnly.

Lemma copy_each_copied srcRepo dstRepo sigOnly force opts reg0 l tags reg reg' :
  srcRepo ≠ dstRepo → Forall legal (tree_tags sigOnly l ++ tags) →
  copied srcRepo dstRepo opts reg0 tags reg →
  act_each (copy_entity srcRepo dstRepo sigOnly force opts) l reg = (reg', Ok ()) →
  copied srcRepo dstRepo opts reg0 (tree_tags sigOnly l ++ tags) reg'.
Proof.
  intros Hne. induction l as [|e l IH] in tags, reg |- *; intros Hl Hc H; cbn in *; [by M_inv|].
  apply M_bind_Ok in H as (reg1 & [] & H1 & H). rewrite <-app_assoc in Hl.
  apply Forall_app in Hl as [Hle Hl]. pose proof Hl as [_ Ht]%Forall_app.
  eapply copy_entity_copied in H1; [|done| |done]; [|by apply Forall_app].
  eapply IH in H; [| |exact H1].
  - destruct H as [Hs Hd]. split; [done|]. intros t Hin. apply Hd. set_solver.
  - apply Forall_app in Hl as [??]. by rewrite !Forall_app.
Qed.

(** The flag --attachment-tag-prefix, which `cosign copy` accepts, has no effect on it:
    the tags it copies have no prefix. *)
Lemma copy_ignores_prefix am depth client prefix prefix' srcImg dstImg sigOnly force :
  CopyCmd am depth (mkRegistryOptions client prefix) srcImg dstImg sigOnly force
  = CopyCmd am depth (mkRegistryOptions client prefix') srcImg dstImg sigOnly force.
Proof. reflexivity. Qed.

(** C24: a copy is complete.  When `cosign copy` succeeds between two different
    repositories, every signature, attestation and SBOM tag without a prefix (with
    --sig-only, every signature tag) that the source repository has for the image or for
    an image or index nested in it is in the destination with the same digest, and the
    source repository serves what it served before.  Without --sig-only the destination
    reference also serves what the source serves under the digest of the root; with it
    nothing is said of the root, which is not copied.  Tags with the prefix of
    --attachment-tag-prefix are not copied ([copy_ignores_prefix]).  The conditions: the
    descriptors of the source's indices resolve to what their media types announce, no
    call fails with the sentinel error that makes a walk skip an index, the tags are
    legal, and none of them is the destination reference itself. *)
Theorem copy_complete am depth ro srcImg dstImg sigOnly force srcRef dstRef root reg reg' :
  CopyCmd am depth ro srcImg dstImg sigOnly force reg = (reg', Ok ()) →
  name_ParseReference srcImg = Ok srcRef → name_ParseReference dstImg = Ok dstRef →
  ref_Context srcRef ≠ ref_Context dstRef →
  remote_SignedEntity depth reg srcRef [WithRemoteOptions (ro_Client ro)] = Ok root →
  resolved root = true →
  act_no_skip (copy_entity (ref_Context srcRef) (ref_Context dstRef) sigOnly force (ro_Client ro)) root →
  let tags := tree_tags sigOnly (snd <$> preorder NoPass root) in
  Forall legal tags → (∀ t, t ∈ tags → name_Tag (ref_Context dstRef) t ≠ dstRef) →
  copied (ref_Context srcRef) (ref_Context dstRef) (ro_Client ro) reg tags reg'
  ∧ (sigOnly = false → ∃ h, Entity_Digest root = Ok h ∧
       ∀ g, get_digest reg (ro_Client ro) (name_Digest (ref_Context srcRef) (Hash_String h)) = Ok g →
         get_digest reg' (ro_Client ro) dstRef = Ok g).
Proof.
  intros H Hs Hd Hne Hroot Hres Hns tags Hl Hdst. unfold CopyCmd in H.
  apply M_bind_Ok in H as (? & ? & [Hs' ->]%lift_Ok & H). rewrite Hs in Hs'. injection Hs' as <-.
  apply M_bind_Ok in H as (? & ? & [Hd' ->]%lift_Ok & H). rewrite Hd in Hd'. injection Hd' as <-.
  apply M_bind_Ok in H as (? & ? & [Hr' ->]%reads_Ok & H). rewrite Hroot in Hr'. injection Hr' as <-.
  apply M_bind_Ok in H as (reg1 & [] & Hw & H).
  rewrite (walk_act_correct _ _ _ _ _ _ _ _ Hroot Hns Hres) in Hw.
  eapply (copy_each_copied _ _ _ _ _ reg _ []) in Hw; rewrite ?app_nil_r in *; [|done..|].
  2: { split; [done|]. intros ? []%not_elem_of_nil. }
  destruct sigOnly; [M_inv; by split|].
  apply M_bind_Ok in H as (? & h & [Hh ->]%lift_Ok & H).
  pose proof H as [_ Hdg]%copyImage_Ok. split; [by eapply copied_other|].
  intros _. exists h. split; [done|]. intros g Hg. apply Hdg. unfold get_digest.
  destruct Hw as [Hw _]. by rewrite Hw.
Qed.

(** *** clean *)

Definition could_not_delete (imageRef : string) (t : Reference) : Line :=
  stderr ("could not delete " +:+ Reference_String t +:+ " from " +:+ imageRef).

Definition served (reg reg' : Reg) (t : Reference) : Prop :=
  ∀ opts, remoteImage reg' opts t = remoteImage reg opts t ∧ remoteGet reg' opts t = remoteGet reg opts t.

Lemma delete_tags_spec opts imageRef l reg reg' lines :
  delete_tags opts imageRef l reg = (reg', Ok lines) →
  (∀ a b, a ∈ l → b ∈ l → a ≠ b → apart a b) →
  (∀ t, (∀ c, c ∈ l → apart c t) → served reg reg' t)
  ∧ ∀ t, t ∈ l → is_ok (get_digest reg' opts t) = false ∨ could_not_delete imageRef t ∈ lines.
Proof.
  induction l as [|a l IH] in reg, lines |- *; intros H Hap; cbn in H.
  { M_inv. split; [by intros|]. by intros t []%not_elem_of_nil. }
  apply M_bind_Ok in H as (reg1 & r & Hd & H). apply M_bind_Ok in H as (reg2 & ls & Hl & H).
  apply M_bind_Ok in H as (reg3 & rest & Hrest & [-> ->]%M_ret_Ok).
  assert (∃ r, remoteDelete opts a reg = (reg1, r)) as [rd Hdel].
  { unfold M_try in Hd. destruct (remoteDelete opts a reg) as [? []]; simplify_eq; eauto. }
  assert (reg2 = reg1 ∧ (is_ok (get_digest reg1 opts a) = false ∨ could_not_delete imageRef a ∈ ls))
    as [-> Ha].
  { unfold M_try in Hd. rewrite Hdel in Hd. destruct rd as [[]|e|]; simplify_eq/=; M_inv.
    - split; [done|]. left. by eapply delete_gone.
    - destruct (is_transport_404 e) eqn:E4; M_inv; (split; [done|]).
      + left. by eapply delete_404.
      + right. left. }
  destruct (IH _ _ Hrest) as [Hother Hgone]; [set_solver|]. split.
  - intros t Ht o. destruct (Hother t ltac:(set_solver) o) as [-> ->].
    eapply delete_other; [done|]. set_solver.
  - intros t Ht. destruct (decide (t ∈ l)) as [Hin|Hin].
    { destruct (Hgone t Hin); [by left|right; set_solver]. }
    apply elem_of_cons in Ht as [->|?]; [|done]. destruct Ha as [Ha|Ha]; [left|right; set_solver].
    destruct (Hother a) with (opts := opts) as [_ Hg]; [|unfold get_digest in *; by rewrite Hg].
    intros c Hc. apply Hap; set_solver.
Qed.

Lemma apart_suffix repo h p s s' :
  legal (normalize h p s') → s ≠ "" → s' ≠ "" → s ≠ s' →
  apart (name_Tag repo (normalize h p s)) (name_Tag repo (normalize h p s')).
Proof.
  intros Hl Hs Hs' Hne. right. split; [|done]. intros [= Ht]. apply Hne. unfold normalize in Ht.
  rewrite (proj2 (str_eqb_neq _ _) Hs), (proj2 (str_eqb_neq _ _) Hs') in Ht.
  by repeat apply append_inj_l in Ht.
Qed.

(** The digest that a reference stands for. *)
Definition resolve (reg : Reg) (ref : Reference) (opts : list ROption) : res Hash :=
  match ref with name_Digest _ d => v1_NewHash d | name_Tag _ _ => get_digest reg opts ref end.

Lemma suffixTag_resolve reg ref s o h :
  resolve reg ref (ROpt o) = Ok h →
  suffixTag reg ref s o = Ok (name_Tag (TargetRepository o) (normalize h (TagPrefix o) s)).
Proof.
  unfold resolve, suffixTag, get_digest. destruct ref; [|by intros ->].
  destruct (remoteGet _ _ _); intros [= <-]. done.
Qed.

(** `cosign clean` deletes what it names.  After it succeeds, every tag of
    the requested type is gone or its deletion was reported as failed, and
    nothing else changed: no other tag of the repository, and no other
    repository, so that the tags which the other commands keep in a repository
    of their own (COSIGN_REPOSITORY) are not cleaned. *)
Theorem clean_selected ro cleanType imageRef ref h reg reg' lines :
  CleanCmd ro cleanType imageRef true reg = (reg', Ok lines) →
  name_ParseReference imageRef = Ok ref →
  resolve reg ref (ro_Client ro) = Ok h →
  let tag s := name_Tag (ref_Context ref) (normalize h CustomTagPrefix s) in
  (∀ s, s ∈ [SignatureTagSuffix; AttestationTagSuffix; SBOMTagSuffix] →
     legal (normalize h CustomTagPrefix s)) →
  let tags := clean_tags cleanType (tag SignatureTagSuffix) (tag AttestationTagSuffix) (tag SBOMTagSuffix) in
  (∀ t, t ∈ tags → is_ok (get_digest reg' (ro_Client ro) t) = false ∨ could_not_delete imageRef t ∈ lines)
  ∧ ∀ t, (∀ c, c ∈ tags → apart c t) → served reg reg' t.
Proof.
  intros H Hp Hr tag Hl tags. unfold CleanCmd in H.
  apply M_bind_Ok in H as (? & ? & [[= <-] ->]%lift_Ok & H). cbn [negb] in H.
  apply M_bind_Ok in H as (? & ? & [Hp' ->]%lift_Ok & H). rewrite Hp in Hp'. injection Hp' as <-.
  apply M_bind_Ok in H as (? & ? & [Hs ->]%reads_Ok & H).
  apply M_bind_Ok in H as (? & ? & [Ha ->]%reads_Ok & H).
  apply M_bind_Ok in H as (? & ? & [Hb ->]%reads_Ok & H).
  unfold SignatureTag, AttestationTag, SBOMTag in Hs, Ha, Hb.
  rewrite (suffixTag_resolve _ _ _ _ h) in Hs by done. rewrite (suffixTag_resolve _ _ _ _ h) in Ha by done.
  rewrite (suffixTag_resolve _ _ _ _ h) in Hb by done. cbn in Hs, Ha, Hb. simplify_eq.
  apply delete_tags_spec in H as [Ho Hg]; [by split|].
  assert (Hall : ∀ c, c ∈ tags → ∃ s, s ∈ [SignatureTagSuffix; AttestationTagSuffix; SBOMTagSuffix]
                                      ∧ c = tag s).
  { intros c. subst tags. unfold clean_tags. repeat case_match; set_solver. }
  intros a b (s & Hs & ->)%Hall (s' & Hs' & ->)%Hall Hne. apply apart_suffix; [by apply Hl|..|congruence];
    set_unfold; naive_solver.
Qed.

(** *** attach sbom, download sbom *)

Context `{RL : !RegistryLaws}.

(** Documented behaviour of ggcr: appending to an image without layers gives an
    image of the appended layers, and the layers of an image survive a push. *)
Class FileLaws : Prop := {
  append_layers ct l img : mutate_Append (empty_Base ct) [mkAddendum l ∅] = Ok img →
    ∃ layer, Image_Layers img = Ok [layer]
      ∧ layer_Compressed layer = Compressed l ∧ layer_MediaType layer = MediaType l;
  write_layers ro t img reg reg' ls : remoteWrite ro t img reg = (reg', Ok ()) → Image_Layers img = Ok ls →
    ∃ img' ls', remoteImage reg' ro t = Ok img' ∧ Image_Layers img' = Ok ls'
      ∧ Forall2 (λ l l', layer_Compressed l' = layer_Compressed l
                         ∧ layer_MediaType l' = layer_MediaType l) ls ls' }.
Context `{FL : !FileLaws}.

Lemma remote_entity_attachment depth reg ref opts se n :
  remote_SignedEntity depth reg ref opts = Ok se →
  Entity_Attachment se n = attachment reg (Entity_Digest se) n (makeOptions (ref_Context ref) opts) opts.
Proof.
  unfold remote_SignedEntity. intros H. apply bind_Ok in H as ([[mt d] [img idx]] & _ & H).
  destruct (is_index_type mt), (is_image_type mt); go_inv; by destruct depth.
Qed.

Lemma ro_ClientOpts_ROpt ro opts repo :
  ro_ClientOpts ro = Ok opts →
  ROpt (makeOptions repo opts) = ro_Client ro ∧ SBOMSuffix (makeOptions repo opts) = SBOMTagSuffix.
Proof.
  unfold ro_ClientOpts, registry_ClientOpts. intros H. go_inv. unfold makeOptions. cbn.
  by destruct (_ =?s _), (_ =?s _).
Qed.

Lemma static_layer_content b o : Compressed (staticLayer b "" o) = Ok b
  ∧ MediaType (staticLayer b "" o) = Ok (static.LayerMediaType o).
Proof. done. Qed.

(** The reference still names the same entity after a push to the tag [t]. *)
Definition stays (ref t : Reference) : Prop :=
  match ref with name_Digest _ _ => True | name_Tag _ _ => apart t ref end.

(** What `cosign attach sbom` attaches, `cosign download sbom` prints.  For
    an image or an index that the registry serves, whatever the tag prefix and
    the repository override, the bytes that were attached come back
    unchanged. *)
Theorem sbom_roundtrip depth ro sbomRef sbomType imageRef ref b opts se h reg reg' :
  attach_SBOMCmd ro sbomRef sbomType imageRef reg = (reg', Ok ()) →
  name_ParseReference imageRef = Ok ref → sbomBytes sbomRef = Ok b → ro_ClientOpts ro = Ok opts →
  remote_SignedEntity depth reg ref opts = Ok se → Entity_Digest se = Ok h →
  resolve reg ref (ro_Client ro) = Ok h →
  (∀ t, SBOMTag reg ref opts = Ok t → stays ref t) →
  download_SBOMCmd depth ro imageRef reg' = Ok [b].
Proof.
  intros H Hp Hb Ho Hse Hh Hr Hst. unfold attach_SBOMCmd in H.
  destruct (ro_ClientOpts_ROpt ro opts (ref_Context ref) Ho) as [HR HS].
  apply M_bind_Ok in H as (? & ? & [Hp' ->]%lift_Ok & H). rewrite Hp in Hp'. injection Hp' as <-.
  apply M_bind_Ok in H as (? & ? & [Hb' ->]%lift_Ok & H). rewrite Hb in Hb'. injection Hb' as <-.
  apply M_bind_Ok in H as (? & ? & [Ho' ->]%lift_Ok & H). rewrite Ho in Ho'. injection Ho' as <-.
  apply M_bind_Ok in H as (? & t & [Ht ->]%reads_Ok & H).
  apply M_bind_Ok in H as (? & img & [Hi ->]%lift_Ok & Hw). specialize (Hst t Ht).
  unfold SBOMTag in Ht. rewrite (suffixTag_resolve _ _ _ _ h), HS in Ht by by rewrite HR.
  injection Ht as <-.
  assert (Hget : remoteGet reg' (ROpt (makeOptions (ref_Context ref) opts)) ref
    = remoteGet reg (ROpt (makeOptions (ref_Context ref) opts)) ref).
  { rewrite HR. destruct ref as [repo t|repo d].
    - by eapply write_other.
    - unfold remote_SignedEntity in Hse. apply bind_Ok in Hse as (x & Hx%not_found_Ok & _).
      rewrite HR in Hx. rewrite Hx. by eapply write_keeps. }
  destruct (remote_entity_again _ _ _ _ _ _ Hget Hse) as (se' & Hse' & Hd').
  unfold NewFile in Hi. apply bind_Ok in Hi as (o & _ & Hi).
  apply append_layers in Hi as (l & Hl & Hc & Hm).
  destruct (write_layers _ _ _ _ _ _ Hw Hl) as (img' & ls' & Hi' & Hl' & HF).
  apply Forall2_cons_inv_l in HF as (l' & ls'' & [Hc' Hm'] & ->%Forall2_nil_inv_l & ->).
  destruct (static_layer_content b o) as [Hsc Hsm].
  unfold download_SBOMCmd. rewrite Hp. cbn [mbind res_bind]. rewrite Ho. cbn [mbind res_bind].
  rewrite Hse'. cbn [mbind res_bind]. rewrite (remote_entity_attachment _ _ _ _ _ _ Hse'), Hd', Hh.
  unfold attachment. cbn [mbind res_bind].
  rewrite (proj1 (ro_ClientOpts_ROpt ro opts _ Ho)). change "sbom" with SBOMTagSuffix.
  rewrite Hi'. cbn. rewrite Hl'. cbn. by rewrite Hm', Hm, Hsm, Hc', Hc, Hsc.
Qed.

End theorems.

(** ** Witnesses *)

(** A registry as a map from references to images, of which the repository
    "index" is a read-only multi-arch image; indices cannot be written. *)
Definition cmd_Registry : Registry (G := toy_Ggcr) := {|
  ROption := unit;
  defaultOptions := [];
  Reg := Reference → option (Image (Ggcr := toy_Ggcr));
  V1Index := unit;
  Image_Digest _ := Ok (mkHash "sha256" "d");
  Image_Layers img := Ok (fst <$> img);
  Index_Digest _ := Ok (mkHash "sha256" "i");
  Index_Manifest _ := Ok [mkDescriptor OCIManifestSchema1 (mkHash "sha256" "d")
    {[kindAnnotation := imageAnnotation]} None];
  Index_Image _ _ := Ok (empty_Image (Ggcr := toy_Ggcr));
  Index_ImageIndex _ _ := Err (error_New "no index");
  remoteGet reg o ref := remoteGet (Registry := toy_Registry) reg o ref;
  remoteImage reg o ref := remoteImage (Registry := toy_Registry) reg o ref;
  remoteIndex reg o ref := remoteIndex (Registry := toy_Registry) reg o ref;
  remoteWrite o ref img reg :=
    if ref_Context ref =?s "index" then (reg, Err (error_New "read-only"))
    else remoteWrite (Registry := toy_Registry) o ref img reg;
  remoteWriteIndex _ _ _ reg := (reg, Err (error_New "read-only"));
  layout_Write _ reg := (reg, Ok ());
  layout_AppendImage _ _ _ reg := (reg, Ok ());
  layout_AppendIndex _ _ _ reg := (reg, Ok ());
  layout_FromPath _ _ := Ok ();
  v1_NewHash := v1_NewHash (Registry := toy_Registry);
  name_NewRepository := name_NewRepository (Registry := toy_Registry);
  name_ParseReference := name_ParseReference (Registry := toy_Registry) |}.

Definition cmd_Ext : RegistryCmdExt (R := cmd_Registry) := {|
  remoteHead reg o ref := get_digest (R := cmd_Registry) reg o ref;
  remoteDelete _ ref reg :=
    if ref_Context ref =?s "index" then (reg, Err (error_New "read-only"))
    else match reg ref with
         | Some _ => (λ r, if decide (r = ref) then None else reg r, Ok ())
         | None => (reg, Err (error_Kind (kind_transport 404) "not found"))
         end;
  empty_Base _ := empty_Image (Ggcr := toy_Ggcr);
  platform_index _ := ();
  http_DetectContentType _ := "text/plain; charset=utf-8";
  confirm_Read := Err (error_New "EOF");
  os_Stat_Err _ := Some (error_Kind kind_NotExist "no such file");
  json_Marshal_SignedPayload _ := Ok "{}";
  json_Marshal_AttestationPayload _ := Ok "{}" |}.

Lemma apart_ne t t' : apart t t' → t' ≠ t.
Proof. intros [H|[H _]]; congruence. Qed.

#[local] Instance cmd_CopyLaws : CopyLaws (R := cmd_Registry) (E := cmd_Ext).
Proof.
  split.
  - done.
  - intros reg opts r mt h img idx. cbn. destruct (_ =?s _); [by intros [= <- ? ? ?]|].
    destruct (reg r); by intros [= <- <- ? ?].
  - intros reg opts r mt h img ii. cbn. destruct (_ =?s _); [by intros [= <- <- ? ?]|].
    destruct (reg r); by intros [= <- <- ? ?].
  - intros opts t img h reg reg'. unfold get_digest. cbn. destruct (_ =?s _); [done|].
    intros [= <-] [= <-]. by rewrite decide_True.
  - done.
  - intros opts opts' t t' img reg reg' H Hap%apart_ne. cbn in H. destruct (_ =?s _); [done|].
    injection H as <-. cbn. by rewrite decide_False.
  - done.
  - intros opts t reg reg'. unfold get_digest. cbn. destruct (ref_Context t =?s "index") eqn:Ei; [done|].
    destruct (reg t); [|done]. intros [= <-]. by rewrite decide_True.
  - intros opts t reg reg' e. unfold get_digest. cbn. destruct (ref_Context t =?s "index") eqn:Ei.
    { by intros [= <- <-]. }
    destruct (reg t) eqn:Et; [done|]. intros [= <- <-] _. by rewrite Et.
  - intros opts opts' t t' reg reg' r H Hap%apart_ne. cbn in H. destruct (_ =?s _); [by injection H as <- <-|].
    destruct (reg t); injection H as <- <-; [|done]. cbn. by rewrite decide_False.
Qed.

#[local] Instance cmd_RegistryLaws : RegistryLaws (R := cmd_Registry).
Proof.
  split.
  - intros ro t img reg reg' H. cbn in H. destruct (_ =?s _); [done|]. injection H as <-.
    exists img. cbn. by rewrite decide_True.
  - intros ro t t' img reg reg' H Hap%apart_ne. cbn in H. destruct (_ =?s _); [done|].
    injection H as <-. cbn. by rewrite decide_False.
  - intros ro repo t repo' d img reg reg' x H. cbn in H. destruct (_ =?s _); [done|]. by injection H as <-.
Qed.

#[local] Instance cmd_FileLaws : FileLaws (R := cmd_Registry) (E := cmd_Ext).
Proof.
  split.
  - intros ct l img [= <-]. by eexists.
  - intros ro t img reg reg' ls H [= <-]. cbn in H. destruct (_ =?s _); [done|]. injection H as <-.
    exists img, (fst <$> img). cbn. rewrite decide_True by done. do 2 (split; [done|]).
    by induction (fst <$> img); constructor.
Qed.

Definition cmd_ro : RegistryOptions (R := cmd_Registry) := mkRegistryOptions (R := cmd_Registry) [] "".
(** The image "src@sha256:d" with a signature. *)
Definition cmd_reg : Reg (Registry := cmd_Registry) := λ r,
  if bool_decide (r = name_Digest "src" "sha256:d" ∨ r = name_Tag "src" "sha256-d.sig")
  then Some [] else None.

Lemma cmd_copyImage_no_skip src dest reg reg' e :
  copyImage (R := cmd_Registry) (V := toy_Command) (E := cmd_Ext) src dest false [] reg = (reg', Err e) →
  errors_Is_SkipChildren e = false.
Proof.
  unfold copyImage, mbind, M_bind, M_try, reads, lift, get_digest. cbn.
  destruct (ref_Context src =?s "index"), (ref_Context dest =?s "index"), (reg src), (reg dest); cbn;
    intros H; simplify_eq/=; done.
Qed.

Lemma cmd_copyTagImage_no_skip tm s reg reg' e :
  (∀ reg, tm reg (name_Digest "src" "sha256:d") [WithRemoteOptions (R := cmd_Registry) []]
     = Ok (name_Tag "src" s)) →
  copyTagImage (R := cmd_Registry) (V := toy_Command) (E := cmd_Ext) tm (name_Digest "src" "sha256:d") "dst"
    false [] reg = (reg', Err e) → errors_Is_SkipChildren e = false.
Proof.
  intros Htm [H|(reg1 & t & [_ ->]%reads_Ok & H)]%M_bind_Err.
  - unfold reads in H. by rewrite Htm in H.
  - by eapply cmd_copyImage_no_skip.
Qed.

Lemma cmd_copy_entity_no_skip se reg reg' e :
  Entity_Digest se = Ok (mkHash "sha256" "d") →
  copy_entity (R := cmd_Registry) (V := toy_Command) (E := cmd_Ext) "src" "dst" false false [] se reg
    = (reg', Err e) → errors_Is_SkipChildren e = false.
Proof.
  intros Hd. unfold copy_entity, lift. rewrite Hd.
  intros [H|(? & h & [= -> <-] & H)]%M_bind_Err; [done|].
  apply M_bind_Err in H as [H|(? & [] & _ & H)]; [by eapply cmd_copyTagImage_no_skip, H|].
  apply M_bind_Err in H as [H|(? & [] & _ & H)]; [by eapply cmd_copyTagImage_no_skip, H|].
  apply M_bind_Err in H as [H|(? & [] & _ & H)]; [by eapply cmd_copyTagImage_no_skip, H|].
  by eapply cmd_copyImage_no_skip.
Qed.

Lemma copy_complete_witness :
  ∃ reg', get_digest (R := cmd_Registry) reg' [] (name_Tag "dst" "sha256-d.sig") = Ok (mkHash "sha256" "d")
    ∧ get_digest (R := cmd_Registry) reg' [] (name_Tag "dst" "latest") = Ok (mkHash "sha256" "d").
Proof.
  destruct (ok_run (CopyCmd (R := cmd_Registry) (V := toy_Command) (E := cmd_Ext) toy_AppendManifests
    1 cmd_ro "src@sha256:d" "dst" false false cmd_reg)) as (reg' & [] & H);
    [vm_compute; reflexivity|].
  destruct (copy_complete (R := cmd_Registry) (V := toy_Command) (E := cmd_Ext) _ 1 cmd_ro "src@sha256:d"
    "dst" false false (name_Digest "src" "sha256:d") (name_Tag "dst" "latest")
    (remote_image (R := cmd_Registry) cmd_reg 0 [] (makeOptions (R := cmd_Registry) "src"
       [WithRemoteOptions (R := cmd_Registry) []]) [WithRemoteOptions (R := cmd_Registry) []])
    cmd_reg reg' H eq_refl eq_refl) as [[_ Ht] Hd].
  - done.
  - reflexivity.
  - reflexivity.
  - intros p e reg reg1 err Hin. apply cmd_copy_entity_no_skip.
    by apply list_elem_of_singleton in Hin as [= _ ->].
  - repeat constructor.
  - intros t Hin. cbn in Hin. set_unfold. naive_solver.
  - destruct (Hd eq_refl) as (h & [= <-] & Hd'). exists reg'. split.
    + apply Ht; [left|reflexivity].
    + apply Hd'. reflexivity.
Defined.

Lemma clean_selected_witness :
  ∃ reg' lines,
    CleanCmd (R := cmd_Registry) (E := cmd_Ext) cmd_ro "all" "src@sha256:d" true cmd_reg
      = (reg', Ok lines)
    ∧ (is_ok (get_digest (R := cmd_Registry) reg' [] (name_Tag "src" "sha256-d.sig")) = false
       ∨ could_not_delete "src@sha256:d" (name_Tag "src" "sha256-d.sig") ∈ lines)
    ∧ served (R := cmd_Registry) cmd_reg reg' (name_Tag "override" "sha256-d.sig").
Proof.
  destruct (ok_run (CleanCmd (R := cmd_Registry) (E := cmd_Ext) cmd_ro "all" "src@sha256:d" true
    cmd_reg)) as (reg' & lines & H); [vm_compute; reflexivity|].
  destruct (clean_selected (R := cmd_Registry) (E := cmd_Ext) cmd_ro "all" "src@sha256:d"
    (name_Digest "src" "sha256:d") (mkHash "sha256" "d") cmd_reg reg' lines H eq_refl eq_refl)
    as [Hg Ho].
  - intros s Hs. set_unfold. naive_solver.
  - exists reg', lines. split; [exact H|]. split.
    + apply Hg. left.
    + apply Ho. intros c Hc. left. cbn in *. set_unfold. naive_solver.
Defined.

Lemma sbom_roundtrip_witness :
  ∃ reg', attach_SBOMCmd (X := toy) (R := cmd_Registry) (B := toy_Blob) (E := cmd_Ext) cmd_ro "SPDX" "text/spdx" "src@sha256:d"
      cmd_reg = (reg', Ok ())
    ∧ download_SBOMCmd (X := toy) (R := cmd_Registry) 1 cmd_ro "src@sha256:d" reg' = Ok ["SPDX"].
Proof.
  destruct (ok_run (attach_SBOMCmd (X := toy) (R := cmd_Registry) (B := toy_Blob)
    (E := cmd_Ext) cmd_ro "SPDX" "text/spdx" "src@sha256:d" cmd_reg)) as (reg' & [] & H);
    [vm_compute; reflexivity|].
  exists reg'. split; [exact H|].
  apply (sbom_roundtrip (X := toy) (R := cmd_Registry) (B := toy_Blob) (E := cmd_Ext) 1
    cmd_ro "SPDX" "text/spdx" "src@sha256:d" (name_Digest "src" "sha256:d") "SPDX"
    [WithRemoteOptions (R := cmd_Registry) []]
    (remote_image (R := cmd_Registry) cmd_reg 0 [] (makeOptions (R := cmd_Registry) "src"
       [WithRemoteOptions (R := cmd_Registry) []]) [WithRemoteOptions (R := cmd_Registry) []])
    (mkHash "sha256" "d") cmd_reg reg' H eq_refl eq_refl eq_refl eq_refl eq_refl eq_refl). done.
Defined.
