(* ===== verification/Tree.v ===== *)
(** * The tree command

    cmd/cosign/cli/tree.go: the listing of what the registry holds for an image.

    The state is what was printed.  A Go map has no order, so the order in which the
    three groups come is a parameter, a function that permutes the entries. *)
From S2P Require Import Prelude GoStd External Concrete OciSignature OciSignatures OciEntity.
From S2P Require Import OciRemote Tuf Tlog Ctl Verify Keys Sign Attest Blob VerifyCmd RegistryCmds.

Section tree.
Context `{X : Ext, TR : TrustRoot, C : CtExt, KX : KeyExt, R : Registry, S : !SignExt, B : BlobExt}.
Context (reg : Reg) (depth : nat).

Definition entry : Type := Reference * list Layer.
Definition Out : Type := list string.
Definition printf (s : string) : M Out unit := modify (λ out, out ++ [s]).

Definition SignatureTagSuffix_ : string := ".sig".
Definition SBOMTagSuffix_ : string := ".sbom".
Definition AttestationTagSuffix_ : string := ".att".

(** [scsaMap[k] = v] *)
Fixpoint set_entry (k : Reference) (v : list Layer) (m : list entry) : list entry :=
  match m with
  | [] => [(k, v)]
  | (k', v') :: m => if bool_decide (k = k') then (k, v) :: m else (k', v') :: set_entry k v m
  end.

(** The layers of a set that could be read; an error of the read counts as none. *)
Definition set_layers (s : res Signatures) : res (list Layer) :=
  match s with
  | Ok s => img ← as_image s; Image_Layers img
  | Err _ => Ok []
  | Panic w => Panic w
  end.
(** Those of the SBOM: of the attached image, which has one layer. *)
Definition attached_image (digest : res Hash) (attName : string) (o : options) (opts : list Option_) :
    res Image :=
  h ← digest;
  let ref := name_Tag (TargetRepository o) (normalize h (TagPrefix o) attName) in
  img ← not_found "image" (remoteImage reg (ROpt (makeOptions (ref_Context ref) opts)) ref);
  ls ← Image_Layers img;
  match ls with
  | [_] => Ok img
  | _ => Err (error_New "expected exactly one layer in attachment")
  end.
Definition attached_layers (a : res Image) : res (list Layer) :=
  match a with
  | Ok img => Image_Layers img
  | Err _ => Ok []
  | Panic w => Panic w
  end.

Fixpoint printLayers (layers : list Layer) : M Out unit :=
  match layers with
  | [] => mret ()
  | l :: rest =>
      let sym := match rest with [] => "   └──" | _ => "   ├──" end in
      digest ← lift (layer_Digest l);
      _ ← printf (sym +:+ " 🍒 " +:+ Hash_String digest +:+ nl);
      printLayers rest
  end.

Definition TagStr (t : Reference) : string := ref_Identifier t.
Definition heading (t : Reference) : list string :=
  if strings_HasSuffix (TagStr t) SignatureTagSuffix_ then
    ["└── 🔐 Signatures for an image tag: " +:+ Reference_String t +:+ nl]
  else if strings_HasSuffix (TagStr t) SBOMTagSuffix_ then
    ["└── 📦 SBOMs for an image tag: " +:+ Reference_String t +:+ nl]
  else if strings_HasSuffix (TagStr t) AttestationTagSuffix_ then
    ["└── 💾 Attestations for an image tag: " +:+ Reference_String t +:+ nl]
  else [].

Fixpoint print_entries (m : list entry) : M Out unit :=
  match m with
  | [] => mret ()
  | (t, k) :: m => _ ← modify (λ out, out ++ heading t); _ ← printLayers k; print_entries m
  end.

Definition no_artifacts (ref : Reference) : string :=
  "No Supply Chain Security Related Artifacts artifacts found for image " +:+ Reference_String ref +:+ nl
  +:+ ", start creating one with simply running$ COSIGN_EXPERIMENTAL=1 cosign sign <img>".

(** An order of iteration over the map. *)
Record Iteration := mkIteration {
  iterate :> list entry → list entry;
  iterate_perm m : iterate m ≡ₚ m }.

Definition TreeCmd (order : Iteration) (regOpts : RegistryOptions) (imageRef : string) :
    M Out unit :=
  ref ← lift (name_ParseReference imageRef);
  remoteOpts ← lift (ro_ClientOpts regOpts);
  _ ← printf ("📦 Supply Chain Security Related artifacts for an image: " +:+ Reference_String ref +:+ nl);
  simg ← lift (remote_SignedEntity depth reg ref remoteOpts);
  let registryClientOpts := [WithRemoteOptions (ro_Client regOpts)] in
  attRef ← lift (AttestationTag reg ref registryClientOpts);
  attLayers ← lift (set_layers (Entity_Attestations simg));
  sigRef ← lift (SignatureTag reg ref registryClientOpts);
  sigLayers ← lift (set_layers (Entity_Signatures simg));
  sbomRef ← lift (SBOMTag reg ref registryClientOpts);
  sbomLayers ← lift (attached_layers
    (attached_image (Entity_Digest simg) "sbom" (makeOptions (ref_Context ref) remoteOpts) remoteOpts));
  let scsaMap := set_entry sbomRef sbomLayers (set_entry sigRef sigLayers (set_entry attRef attLayers [])) in
  match scsaMap with
  | [] => printf (no_artifacts ref)
  | _ => print_entries (order scsaMap)
  end.

(** ** What is listed *)

(** The lines for layers with the given digests, and a group of them. *)
Fixpoint layer_lines (ds : list Hash) : list string :=
  match ds with
  | [] => []
  | d :: ds => (match ds with [] => "   └──" | _ => "   ├──" end +:+ " 🍒 " +:+ Hash_String d +:+ nl) :: layer_lines ds
  end.
Definition digests (ls : list Layer) (ds : list Hash) : Prop := Forall2 (λ l d, layer_Digest l = Ok d) ls ds.

Lemma printLayers_Ok ls out out' :
  printLayers ls out = (out', Ok ()) → ∃ ds, digests ls ds ∧ out' = out ++ layer_lines ds.
Proof.
  revert out. induction ls as [|l ls IH]; intros out; cbn.
  { intros [= <-]. exists []. split; [constructor|]. by rewrite app_nil_r. }
  intros H. apply M_bind_Ok in H as (o1 & d & Hd & H). apply lift_Ok in Hd as [Hd ->].
  apply M_bind_Ok in H as (o2 & [] & Hp & H). apply modify_Ok in Hp as ->.
  destruct (IH _ H) as (ds & Hds & ->). exists (d :: ds). split; [by constructor|].
  rewrite <- app_assoc. do 2 f_equal. cbn. f_equal. by destruct Hds.
Qed.

Lemma print_entries_Ok m out out' :
  print_entries m out = (out', Ok ()) →
  ∃ dss, Forall2 (λ e ds, digests (snd e) ds) m dss ∧
    out' = out ++ concat (zip_with (λ e ds, heading (fst e) ++ layer_lines ds) m dss).
Proof.
  revert out. induction m as [|[t ls] m IH]; intros out; cbn.
  { intros [= <-]. exists []. split; [constructor|]. by rewrite app_nil_r. }
  intros H. apply M_bind_Ok in H as (o1 & [] & Hp & H). apply modify_Ok in Hp as ->.
  apply M_bind_Ok in H as (o2 & [] & Hl & H). apply printLayers_Ok in Hl as (ds & Hds & ->).
  destruct (IH _ H) as (dss & Hdss & ->). exists (ds :: dss). split; [by constructor|].
  cbn. by rewrite <- !app_assoc.
Qed.

(** The tag of an artifact of the image, in a repository and with a prefix. *)
Definition artifact_tag (repo : Repository) (prefix : string) (h : Hash) (suffix : string) : Reference :=
  name_Tag repo (normalize h prefix suffix).

Lemma normalize_suffix h prefix suffix :
  suffix ≠ "" → strings_HasSuffix (normalize h prefix suffix) ("." +:+ suffix) = true.
Proof.
  intros Hs. apply HasSuffix_spec. exists (prefix +:+ Algorithm h +:+ "-" +:+ Hex h).
  unfold normalize. rewrite (proj2 (str_eqb_neq _ _) Hs). by rewrite !append_assoc.
Qed.

(** Two suffixes of one text have the same last byte. *)
Lemma append_last q q' c c' : q +:+ String c "" = q' +:+ String c' "" → c = c'.
Proof.
  revert q'. induction q as [|x q IH]; intros [|y q']; cbn; intros H; simplify_eq; [done|..].
  - by destruct q'.
  - by destruct q.
  - by eapply IH.
Qed.
Lemma suffix_last s p p' c c' :
  strings_HasSuffix s (p +:+ String c "") = true → strings_HasSuffix s (p' +:+ String c' "") = true → c = c'.
Proof.
  intros [q Hq]%HasSuffix_spec [q' Hq']%HasSuffix_spec. rewrite Hq, <- !append_assoc in Hq'.
  by eapply append_last.
Qed.

(** The headings of the three tags, which differ. *)
Definition title (suffix : string) : string :=
  if suffix =?s "sig" then "└── 🔐 Signatures for an image tag: "
  else if suffix =?s "sbom" then "└── 📦 SBOMs for an image tag: "
  else "└── 💾 Attestations for an image tag: ".

Lemma heading_title repo h suffix :
  suffix ∈ ["att"; "sig"; "sbom"] →
  heading (artifact_tag repo "" h suffix) =
    [title suffix +:+ Reference_String (artifact_tag repo "" h suffix) +:+ nl].
Proof.
  intros Hin. unfold heading, artifact_tag, TagStr. cbn [ref_Identifier].
  assert (Hs : suffix ≠ "") by (intros ->; set_solver).
  pose proof (normalize_suffix h "" suffix Hs) as Hn.
  set (n := normalize h "" suffix) in *. unfold SignatureTagSuffix_, SBOMTagSuffix_, AttestationTagSuffix_.
  rewrite !elem_of_cons, elem_of_nil in Hin.
  destruct Hin as [->|[->|[->|[]]]]; cbn in Hn.
  - destruct (strings_HasSuffix n ".sig") eqn:H1; [by pose proof (suffix_last n ".si" ".at" _ _ H1 Hn)|].
    destruct (strings_HasSuffix n ".sbom") eqn:H2; [by pose proof (suffix_last n ".sbo" ".at" _ _ H2 Hn)|].
    by rewrite Hn.
  - by rewrite Hn.
  - destruct (strings_HasSuffix n ".sig") eqn:H1; [by pose proof (suffix_last n ".si" ".sbo" _ _ H1 Hn)|].
    by rewrite Hn.
Qed.

Lemma artifact_tag_ne repo prefix h p p' c c' :
  c ≠ c' → artifact_tag repo prefix h (p +:+ String c "") ≠ artifact_tag repo prefix h (p' +:+ String c' "").
Proof.
  intros Hc [= H]. apply Hc.
  apply (suffix_last (normalize h prefix (p +:+ String c "")) ("." +:+ p) ("." +:+ p')).
  - rewrite append_assoc. apply normalize_suffix. by destruct p.
  - rewrite H, append_assoc. apply normalize_suffix. by destruct p'.
Qed.

(** The digest of an image: the one in its name, or the one that the registry serves for
    its tag. *)
Definition image_digest (opts : list ROption) (ref : Reference) (h : Hash) : Prop :=
  match ref with
  | name_Digest _ d => v1_NewHash d = Ok h
  | name_Tag _ _ => ∃ desc, remoteGet reg opts ref = Ok desc ∧ snd (fst desc) = h
  end.

(** The lines of a group: its title with the tag, and its layers. *)
Definition group_lines (repo : Repository) (h : Hash) (kind : string) (ds : list Hash) : list string :=
  (title kind +:+ Reference_String (artifact_tag repo "" h kind) +:+ nl) :: layer_lines ds.

Lemma group_headings repo h (groups : list (string * list Layer)) dss :
  Forall (λ e, fst e ∈ ["att"; "sig"; "sbom"]) groups →
  zip_with (λ e ds, heading (fst e) ++ layer_lines ds) (prod_map (artifact_tag repo "" h) id <$> groups) dss
  = zip_with (λ e ds, group_lines repo h (fst e) ds) groups dss.
Proof.
  intros Hg. revert dss. induction Hg as [|[k ls] groups Hk Hg IH]; intros [|ds dss]; [done..|].
  cbn. rewrite IH. f_equal. by rewrite heading_title.
Qed.

Lemma groups_ordered repo h l (groups : list (string * list Layer)) :
  l ≡ₚ prod_map (artifact_tag repo "" h) id <$> groups →
  ∃ groups', groups' ≡ₚ groups ∧ l = prod_map (artifact_tag repo "" h) id <$> groups'.
Proof. intros (groups' & -> & Hp)%Permutation_map_inv. by exists groups'. Qed.

(** C25: what is listed.  When the command succeeds it has printed, after its first line,
    three groups in some order of the map: the attestations, the signatures and the
    SBOMs, each under the title of its kind with the tag of its kind for the image's
    digest, and a line for each layer of the artifact, with its digest, in the order of
    the layers.  The layers are those of the signatures, attestations and SBOM that the
    options find, in the repository of COSIGN_REPOSITORY and with the tag prefix; but the
    tags in the headings are those of the image's own repository without a prefix. *)
Theorem tree_lists order regOpts imageRef out out' :
  TreeCmd order regOpts imageRef out = (out', Ok ()) →
  ∃ ref opts simg h atts sigs sboms groups dss,
    name_ParseReference imageRef = Ok ref ∧ ro_ClientOpts regOpts = Ok opts ∧
    remote_SignedEntity depth reg ref opts = Ok simg ∧
    image_digest (ro_Client regOpts) ref h ∧
    set_layers (Entity_Attestations simg) = Ok atts ∧ set_layers (Entity_Signatures simg) = Ok sigs ∧
    attached_layers (attached_image (Entity_Digest simg) "sbom"
      (makeOptions (ref_Context ref) opts) opts) = Ok sboms ∧
    groups ≡ₚ [("att", atts); ("sig", sigs); ("sbom", sboms)] ∧
    Forall2 (λ e ds, digests (snd e) ds) groups dss ∧
    out' = out ++ ["📦 Supply Chain Security Related artifacts for an image: " +:+ Reference_String ref +:+ nl]
      ++ concat (zip_with (λ e ds, group_lines (ref_Context ref) h (fst e) ds) groups dss).
Proof.
  unfold TreeCmd. intros H.
  apply M_bind_Ok in H as (o1 & ref & Href & H). apply lift_Ok in Href as [Href ->].
  apply M_bind_Ok in H as (o2 & opts & Hopts & H). apply lift_Ok in Hopts as [Hopts ->].
  apply M_bind_Ok in H as (o3 & [] & Hp & H). apply modify_Ok in Hp as ->.
  apply M_bind_Ok in H as (o4 & simg & Hs & H). apply lift_Ok in Hs as [Hs ->].
  apply M_bind_Ok in H as (o5 & attRef & Ha & H). apply lift_Ok in Ha as [Ha ->].
  apply M_bind_Ok in H as (o6 & atts & Hal & H). apply lift_Ok in Hal as [Hal ->].
  apply M_bind_Ok in H as (o7 & sigRef & Hsg & H). apply lift_Ok in Hsg as [Hsg ->].
  apply M_bind_Ok in H as (o8 & sigs & Hsl & H). apply lift_Ok in Hsl as [Hsl ->].
  apply M_bind_Ok in H as (o9 & sbomRef & Hsb & H). apply lift_Ok in Hsb as [Hsb ->].
  apply M_bind_Ok in H as (o10 & sboms & Hbl & H). apply lift_Ok in Hbl as [Hbl ->].
  unfold AttestationTag, SignatureTag, SBOMTag, suffixTag in Ha, Hsg, Hsb. cbn in Ha, Hsg, Hsb.
  apply bind_Ok in Ha as (h & Hh & Ha). rewrite Hh in Hsg, Hsb. cbn in Hsg, Hsb.
  injection Ha as <-. injection Hsg as <-. injection Hsb as <-.
  set (tag := artifact_tag (ref_Context ref) "" h).
  change (name_Tag (ref_Context ref) (normalize h CustomTagPrefix AttestationTagSuffix)) with (tag "att") in H.
  change (name_Tag (ref_Context ref) (normalize h CustomTagPrefix SignatureTagSuffix)) with (tag "sig") in H.
  change (name_Tag (ref_Context ref) (normalize h CustomTagPrefix SBOMTagSuffix)) with (tag "sbom") in H.
  assert (Hm : set_entry (tag "sbom") sboms (set_entry (tag "sig") sigs (set_entry (tag "att") atts []))
    = [(tag "att", atts); (tag "sig", sigs); (tag "sbom", sboms)]).
  { pose proof (artifact_tag_ne (ref_Context ref) "" h "si" "at" "g" "t" ltac:(done)).
    pose proof (artifact_tag_ne (ref_Context ref) "" h "sbo" "at" "m" "t" ltac:(done)).
    pose proof (artifact_tag_ne (ref_Context ref) "" h "sbo" "si" "m" "g" ltac:(done)).
    cbn [set_entry]. rewrite bool_decide_false by done. cbn [set_entry].
    by rewrite !bool_decide_false by done. }
  rewrite Hm in H. apply print_entries_Ok in H as (dss & Hd & ->).
  destruct (groups_ordered (ref_Context ref) h (order [(tag "att", atts); (tag "sig", sigs); (tag "sbom", sboms)])
    [("att", atts); ("sig", sigs); ("sbom", sboms)]) as (groups & Hp & Ho); [apply iterate_perm|].
  rewrite Ho in Hd |- *.
  rewrite group_headings by (rewrite Hp; repeat constructor; set_solver).
  exists ref, opts, simg, h, atts, sigs, sboms, groups, dss. split_and!; try done.
  - unfold image_digest. destruct ref; [|done]. go_inv. eauto.
  - apply (Forall2_fmap_l (B := entry)) in Hd. eapply Forall2_impl; [exact Hd|]. by intros [] ?.
  - by rewrite <- app_assoc.
Qed.

End tree.

(** ** A listing *)

Definition tree_reg : Reg (Registry := cmd_Registry) := λ r,
  match r with
  | name_Digest _ _ => Some []
  | name_Tag _ t =>
      if t =?s "sha256-d.sig"
      then Some [(mkLayer (Ok (mkHash "sha256" "s")) (Ok "payload") (Ok "payload") (Ok 7%Z) (Ok "simple"), ∅)]
      else None
  end.

Program Definition tree_order : Iteration := mkIteration reverse _.
Next Obligation. intros m. apply reverse_Permutation. Qed.

#[local] Notation tree_run := (TreeCmd (X := toy) (R := cmd_Registry) tree_reg 1 tree_order
  (mkRegistryOptions (R := cmd_Registry) [] "") "repo@sha256:d").

(** An image with one signature, whose SBOM and attestations are missing; each group
    has its heading all the same. *)
Lemma tree_lists_witness :
  ∃ out groups dss, tree_run [] = (out, Ok ()) ∧ length groups = 3 ∧ length out = 5
    ∧ out = ("📦 Supply Chain Security Related artifacts for an image: repo@sha256:d" +:+ nl)
        :: concat (zip_with (λ (e : string * list Layer) ds, group_lines "repo" (mkHash "sha256" "d") e.1 ds)
             groups dss).
Proof.
  destruct (ok_run (tree_run [])) as (out & [] & Hrun); [vm_compute; reflexivity|].
  destruct (tree_lists (X := toy) (R := cmd_Registry) tree_reg 1 tree_order
    (mkRegistryOptions (R := cmd_Registry) [] "") "repo@sha256:d" [] out Hrun)
    as (ref & opts & simg & h & atts & sigs & sboms & groups & dss & [= <-] & _ & _ & Hh & _ & _ & _ & Hp & _ & Ho).
  vm_compute in Hh. injection Hh as <-.
  exists out, groups, dss. split; [exact Hrun|]. split; [by rewrite Hp|]. split; [|exact Ho].
  vm_compute in Hrun. injection Hrun as <-. reflexivity.
Defined.
