(* ===== verification/Scan.v ===== *)
(** * Images of manifests and Dockerfiles

    cmd/cosign/cli/manifest/verify.go and cmd/cosign/cli/dockerfile/verify.go: the
    commands that read the names of images out of a Kubernetes manifest or a
    Dockerfile and verify them like `cosign verify`.

    The YAML decoder is a parameter: the documents it reads from a manifest up to
    its end or to the first document it cannot read. *)
From S2P Require Import Prelude GoStd External Concrete OciSignature OciSignatures OciEntity.
From S2P Require Import OciRemote Tuf Tlog Ctl Verify Keys Sign Attest Blob VerifyCmd.

(** ** Data *)

Record imageContainers := mkImageContainers { ic_Containers : list string; ic_InitContainers : list string }.

(** The pod specifications of a document: its own, that of its template, and
    that of the template of its job template. *)
Record unionImagesKind := mkUnionImagesKind {
  uik_Spec : imageContainers;
  uik_Template : imageContainers;
  uik_JobTemplate : imageContainers }.

Class ScanExt := {
  (* the documents, and whether the end of the stream was reached *)
  yaml_Decode : bytes → list unionImagesKind * bool;
  (* the contents of an opened file, up to an error of reading it *)
  os_Open : string → res (bytes * option error);
  unicode_fields : string → list string }.

Section scan.
Context `{X : Ext, TR : TrustRoot, C : CtExt, KX : KeyExt, R : Registry, S : !SignExt, B : BlobExt,
  A : AttestExt, V : CommandExt, N : ScanExt}.

(** ** Manifests *)

Definition addImage (images : list string) (ic : imageContainers) : list string :=
  images ++ filter (λ i, i ≠ "") (ic_InitContainers ic) ++ filter (λ i, i ≠ "") (ic_Containers ic).

Definition uik_images (uik : unionImagesKind) : list string :=
  addImage (addImage (addImage [] (uik_Spec uik)) (uik_Template uik)) (uik_JobTemplate uik).

Fixpoint decode_loop (docs : list unionImagesKind) (eof : bool) (images : list string) :
    res (list string) :=
  match docs with
  | [] => if eof then Ok images else Err (error_New "unable to decode the manifest")
  | ic :: docs' => decode_loop docs' eof (images ++ uik_images ic)
  end.
Definition getImagesFromYamlManifest (manifest : bytes) : res (list string) :=
  let '(docs, eof) := yaml_Decode manifest in decode_loop docs eof [].

Definition allowedExtensionsForManifest : list string := [".yaml"; ".yml"].
Definition isExtensionAllowed (ext : string) : res unit :=
  ensure (existsb (strings_EqualFold (filepath_Ext (strings_TrimSpace unicode_trim ext)))
            allowedExtensionsForManifest)
    (error_New "only [.yaml .yml] manifests are supported at this time").

Context (depth : nat) (reg : Reg) (fulcioIntermediateV1 : string).

Definition VerifyManifest_Exec (c : VerifyCommand) (kw : KeyWorld) (args : list string) : M CmdWorld unit :=
  match args with
  | [manifestPath] =>
      lift (wrap "check if extension is valid" (isExtensionAllowed manifestPath));;
      manifest ← lift (wrap "could not read manifest" (os_ReadFile manifestPath));
      images ← lift (map_err (λ e, error_Wrapped
                          ("unable to extract the container image references in the manifest " +:+ Error e) e)
                       (getImagesFromYamlManifest manifest));
      lift (ensure (negb (bool_decide (images = []))) (error_New "no images found in manifest"));;
      print [stderr ("Extracted image(s): " +:+ strings_Join images ", ")];;
      Exec depth reg fulcioIntermediateV1 c kw images
  | _ => lift (Err flag_ErrHelp)
  end.

(** ** Dockerfiles *)

(** bufio.Scanner: the lines without their terminators and a carriage return
    before it; a line that fills the buffer of 64 KiB stops the scanner. *)
Definition MaxScanTokenSize : Z := 65536.
Definition dropCR (s : string) : string :=
  match String.get (String.length s - 1) s with
  | Some "013"%char => String.substring 0 (String.length s - 1) s
  | _ => s
  end.
Definition scan_lines (b : bytes) : list string :=
  let ls := strings_Split b "010"%char in
  match last ls with Some "" => slice_init ls | _ => ls end.

(** The prefix "FROM" in any case; no other rune has one of its letters as its
    upper case. *)
Definition upper_ascii (c : ascii) : ascii :=
  let n := nat_of_ascii c in
  if (97 <=? n)%nat && (n <=? 122)%nat then ascii_of_nat (n - 32) else c.
Definition is_FROM (line : string) : bool := strings_HasPrefix (string_map upper_ascii line) "FROM".

(** The loop from the last field down to the second. *)
Fixpoint as_loop (i : nat) (fields : list string) : list string :=
  match i with
  | 0 => fields
  | Datatypes.S i' =>
      if strings_EqualFold (nth i fields "") "AS" then take i fields else as_loop i' fields
  end.

Definition getImageFromLine (line : string) : res string :=
  let line := strings_TrimPrefix line "FROM" in
  let line := os_Expand os_Getenv line in
  let fields := strings_Fields unicode_fields line in
  let fields := as_loop (length fields - 1) fields in
  match last fields with
  | Some image => Ok image
  | None => Panic "index out of range [-1]"
  end.

Fixpoint scan_loop (lines : list string) (end_err : option error) (images : list string) :
    M CmdWorld (list string) :=
  match lines with
  | [] => lift (match end_err with Some e => Err e | None => Ok images end)
  | text :: lines' =>
      if (MaxScanTokenSize <=? Z.of_nat (String.length text))%Z
      then lift (Err (error_New "bufio.Scanner: token too long")) else
      let line := strings_TrimSpace unicode_trim (dropCR text) in
      if is_FROM line then
        image ← lift (getImageFromLine line);
        if image =?s "scratch" then
          print [stderr "- scratch image ignored"];; scan_loop lines' end_err images
        else scan_loop lines' end_err (images ++ [image])
      else scan_loop lines' end_err images
  end.
Definition getImagesFromDockerfile (b : bytes) (end_err : option error) : M CmdWorld (list string) :=
  scan_loop (scan_lines b) end_err [].

Definition VerifyDockerfile_Exec (c : VerifyCommand) (baseOnly : bool) (kw : KeyWorld)
    (args : list string) : M CmdWorld unit :=
  match args with
  | [path] =>
      '(b, end_err) ← lift (wrap "could not open Dockerfile" (os_Open path));
      images ← M_wrap "failed extracting images from Dockerfile" (getImagesFromDockerfile b end_err);
      lift (ensure (negb (bool_decide (images = []))) (error_New "no images found in Dockerfile"));;
      let images := if baseOnly then drop (length images - 1) images else images in
      print [stderr ("Extracted image(s): " +:+ strings_Join images ", ")];;
      Exec depth reg fulcioIntermediateV1 c kw images
  | _ => lift (Err flag_ErrHelp)
  end.

(** ** What is verified *)

(** The images that a pod specification names. *)
Definition names_image (ic : imageContainers) (img : string) : Prop :=
  img ≠ "" ∧ (img ∈ ic_Containers ic ∨ img ∈ ic_InitContainers ic).

Lemma addImage_elem images ic img : img ∈ addImage images ic ↔ img ∈ images ∨ names_image ic img.
Proof. unfold addImage, names_image. rewrite !elem_of_app, !list_elem_of_filter. naive_solver. Qed.

Lemma decode_loop_Ok docs eof acc images :
  decode_loop docs eof acc = Ok images ↔ eof = true ∧ images = acc ++ (docs ≫= uik_images).
Proof.
  induction docs as [|d docs IH] in acc |- *; cbn [decode_loop mbind list_bind].
  - rewrite app_nil_r. destruct eof; naive_solver.
  - by rewrite IH, <-app_assoc.
Qed.

(** The conclusion of a verification of the images. *)
Definition verified (c : VerifyCommand) (kw : KeyWorld) (w : CmdWorld) (images : string → Prop) : Prop :=
  ∃ co, command_opts fulcioIntermediateV1 c kw (cw_Roots w) co
    ∧ ∀ img, images img → ∃ l ref ref', name_ParseReference img = Ok ref
        ∧ attachment_of reg ref (vc_Attachment c) (RegistryClientOpts co) ref'
        ∧ image_verified depth reg ref' co l.

(** `cosign manifest verify` ends without an error only if the manifest could
    be read to its end, and every image that a container or an init container
    of one of its documents names, in a pod, in a template or in the template of
    a job template, was verified as `cosign verify` would. *)
Theorem VerifyManifest_sound c kw path w w' :
  vc_CheckClaims c = true → vc_SignatureRef c = "" → vc_LocalImage c = false →
  VerifyManifest_Exec c kw [path] w = (w', Ok ()) →
  ∃ manifest docs, os_ReadFile path = Ok manifest ∧ yaml_Decode manifest = (docs, true)
    ∧ verified c kw w (λ img, ∃ doc, doc ∈ docs
        ∧ (names_image (uik_Spec doc) img ∨ names_image (uik_Template doc) img
           ∨ names_image (uik_JobTemplate doc) img)).
Proof.
  intros Hc Hr Hl H. unfold VerifyManifest_Exec in H.
  apply M_bind_Ok in H as (? & [] & [_ ->]%lift_Ok & H).
  apply M_bind_Ok in H as (? & manifest & [Hm%wrap_Ok ->]%lift_Ok & H).
  apply M_bind_Ok in H as (? & images & [Hi%map_err_Ok ->]%lift_Ok & H).
  apply M_bind_Ok in H as (? & [] & [_ ->]%lift_Ok & H).
  apply M_bind_Ok in H as (? & [] & ->%modify_Ok & H).
  unfold getImagesFromYamlManifest in Hi. destruct (yaml_Decode manifest) as [docs eof] eqn:Ed.
  apply decode_loop_Ok in Hi as [-> ->]. cbn in H.
  exists manifest, docs. do 2 (split; [done|]).
  apply Exec_spec in H as (_ & co & Hco & Hall); [|done..]. exists co. split; [exact Hco|].
  intros img (doc & Hd & Hn). apply Hall, list_elem_of_bind. exists doc. split; [|done].
  unfold uik_images. rewrite !addImage_elem. tauto.
Qed.

(** The image that a line of the file names, and all of them in order. *)
Definition line_image (text : string) : option (res string) :=
  let line := strings_TrimSpace unicode_trim (dropCR text) in
  if is_FROM line then Some (getImageFromLine line) else None.
Definition from_images (lines : list string) : list string :=
  omap (λ text, match line_image text with
                | Some (Ok img) => if img =?s "scratch" then None else Some img
                | _ => None
                end) lines.

Lemma scan_loop_Ok lines end_err acc w w' images :
  scan_loop lines end_err acc w = (w', Ok images) →
  cw_Roots w' = cw_Roots w ∧ end_err = None ∧ images = acc ++ from_images lines
  ∧ ∀ text r, text ∈ lines → line_image text = Some r → is_ok r = true.
Proof.
  induction lines as [|text lines IH] in acc, w |- *; intros H; cbn [scan_loop] in H.
  { destruct end_err; apply lift_Ok in H as [[= <-] ->]. cbn. rewrite app_nil_r.
    do 3 (split; [done|]). by intros ?? []%not_elem_of_nil. }
  destruct (_ <=? _)%Z; [done|]. unfold from_images. cbn [omap list_omap]. fold (from_images lines).
  assert (Hcons : ∀ P, (∀ t r, t ∈ lines → line_image t = Some r → is_ok r = true) →
    line_image text = P → (∀ r, P = Some r → is_ok r = true) →
    ∀ t r, t ∈ text :: lines → line_image t = Some r → is_ok r = true).
  { intros P Hl <- HP t r [->|Ht]%elem_of_cons; [apply HP|by apply Hl]. }
  unfold line_image in Hcons |- * at 1. set (line := strings_TrimSpace _ _) in *.
  destruct (is_FROM line) eqn:Ef.
  - apply M_bind_Ok in H as (? & img & [Hi ->]%lift_Ok & H). rewrite Hi in *.
    destruct (img =?s "scratch") eqn:Es.
    + apply M_bind_Ok in H as (? & [] & ->%modify_Ok & H).
      apply IH in H as (Hr & He & -> & Hl). do 3 (split; [done|]).
      apply (Hcons _ Hl eq_refl). by intros ? [= <-].
    + apply IH in H as (Hr & He & -> & Hl). rewrite <-app_assoc. do 3 (split; [done|]).
      apply (Hcons _ Hl eq_refl). by intros ? [= <-].
  - apply IH in H as (Hr & He & -> & Hl). do 3 (split; [done|]). by apply (Hcons _ Hl eq_refl).
Qed.

(** `cosign dockerfile verify` ends without an error only if it read the
    whole file, every FROM line of it names an image, and each of these images
    but "scratch" was verified as `cosign verify` would; with --base-image-only,
    the last of them was. *)
Theorem VerifyDockerfile_sound c baseOnly kw path w w' :
  vc_CheckClaims c = true → vc_SignatureRef c = "" → vc_LocalImage c = false →
  VerifyDockerfile_Exec c baseOnly kw [path] w = (w', Ok ()) →
  ∃ b, os_Open path = Ok (b, None)
    ∧ (∀ text r, text ∈ scan_lines b → line_image text = Some r → is_ok r = true)
    ∧ verified c kw w (λ img, if baseOnly then last (from_images (scan_lines b)) = Some img
                              else img ∈ from_images (scan_lines b)).
Proof.
  intros Hc Hr Hl H. unfold VerifyDockerfile_Exec in H.
  apply M_bind_Ok in H as (? & [b end_err] & [Hb%wrap_Ok ->]%lift_Ok & H).
  apply M_bind_Ok in H as (w1 & images & Hi%M_wrap_Ok & H).
  apply scan_loop_Ok in Hi as (Hw & -> & -> & Hf). cbn [app] in H.
  apply M_bind_Ok in H as (? & [] & [_ ->]%lift_Ok & H).
  apply M_bind_Ok in H as (? & [] & ->%modify_Ok & H). exists b. do 2 (split; [done|]).
  apply Exec_spec in H as (_ & co & Hco & Hall); [|done..]. cbn [cw_Roots] in Hco. rewrite Hw in Hco.
  exists co. split; [done|]. intros img Himg. apply Hall. destruct baseOnly; [|done].
  apply last_Some in Himg as [l ->]. rewrite length_app, drop_app_length' by (cbn; lia). set_solver.
Qed.

(** A word of a line: no spaces, no variables, ASCII. *)
Definition plain_word (w : string) : Prop := word w ∧ is_ASCII w = true ∧ strings_Count w "$" = 0.

Lemma plain_Join ws :
  Forall plain_word ws → is_ASCII (strings_Join ws " ") = true ∧ strings_Count (strings_Join ws " ") "$" = 0.
Proof.
  induction 1 as [|w ws (_ & Ha & Hd) Hws [IHa IHd]]; [done|]. destruct ws as [|w' ws]; [done|].
  change (strings_Join (w :: w' :: ws) " ") with (w +:+ " " +:+ strings_Join (w' :: ws) " ").
  by rewrite !is_ASCII_append, !Count_append, Ha, Hd, IHa, IHd.
Qed.

Lemma as_loop_none i fields :
  (∀ j, 1 ≤ j ≤ i → strings_EqualFold (nth j fields "") "AS" = false) → as_loop i fields = fields.
Proof.
  induction i as [|i IH]; intros H; [done|]. cbn [as_loop]. rewrite H by lia. apply IH. intros. apply H. lia.
Qed.

Lemma fields_FROM ws :
  Forall plain_word ws →
  strings_Fields unicode_fields
    (os_Expand os_Getenv (strings_TrimPrefix ("FROM " +:+ strings_Join ws " ") "FROM")) = ws.
Proof.
  intros Hw. destruct (plain_Join ws Hw) as [Ha Hd].
  change ("FROM " +:+ strings_Join ws " ") with ("FROM" +:+ String " " (strings_Join ws " ")).
  rewrite TrimPrefix_append, expand_plain by (cbn; by rewrite Hd).
  unfold strings_Fields. cbn [is_ASCII]. rewrite Ha. cbn. apply fields_loop_Join.
  eapply Forall_impl; [done|]. by intros ? [? _].
Qed.

(** What `cosign dockerfile verify` reads from a FROM line.  A line of the form
    FROM [flags] <image> [AS <name>] of plain words yields the image. *)
Theorem from_line_image ws image as_name :
  Forall plain_word (ws ++ [image]) →
  (∀ w, w ∈ tail (ws ++ [image]) → strings_EqualFold w "AS" = false) →
  match as_name with
  | None => True
  | Some (as_, name) => plain_word as_ ∧ strings_EqualFold as_ "AS" = true ∧ plain_word name
                        ∧ strings_EqualFold name "AS" = false
  end →
  getImageFromLine ("FROM " +:+ strings_Join
    (ws ++ [image] ++ match as_name with Some (as_, name) => [as_; name] | None => [] end) " ") = Ok image.
Proof.
  intros Hws Has Hn.
  assert (Hno : ∀ j, 1 ≤ j → strings_EqualFold (nth j (ws ++ [image]) "") "AS" = false).
  { intros [|j] Hj; [lia|]. destruct (ws ++ [image]) as [|w l] eqn:E; [by destruct ws|].
    cbn [nth]. destruct (nth_in_or_default j l "") as [Hin| ->]; [|done].
    apply Has, list_elem_of_In, Hin. }
  unfold getImageFromLine. destruct as_name as [[as_ name]|].
  - destruct Hn as (H1 & H2 & H3 & H4). rewrite app_assoc, fields_FROM by (apply Forall_app; auto).
    set (l := ws ++ [image]) in *. assert (length l = Datatypes.S (length ws)) by (subst l; rewrite length_app; cbn; lia).
    rewrite length_app. replace (length l + _ - 1) with (Datatypes.S (length l)) by (cbn; lia).
    cbn [as_loop]. rewrite app_nth2 by lia. replace (_ - length l) with 1 by lia. cbn [nth]. rewrite H4.
    replace (length l) with (Datatypes.S (length ws)) at 1. cbn [as_loop].
    rewrite app_nth2 by lia. replace (_ - length l) with 0 by lia. cbn [nth]. rewrite H2.
    rewrite take_app_length' by lia. subst l. by rewrite last_snoc.
  - rewrite app_nil_r, fields_FROM, as_loop_none by (done || (intros; apply Hno; lia)). by rewrite last_snoc.
Qed.

Lemma to_brace_append name : strings_Count name "}" = 0 → to_brace (name +:+ "}") = Some name.
Proof.
  induction name as [|c name IH]; cbn; [done|]. case_decide as Hc; [done|]. intros Hn.
  destruct (Ascii.eqb_spec c "}"%char); [done|]. by rewrite IH.
Qed.

Lemma getShellName_braces name :
  name ≠ "" → strings_Count name "}" = 0 →
  getShellName ("{" +:+ name +:+ "}") = (name, String.length name + 2).
Proof.
  intros Hne Hc. pose proof (to_brace_append name Hc) as Hb.
  destruct name as [|c name]; [done|]. unfold getShellName. cbn [String.append] in *. rewrite Hb.
  destruct name as [|d name]; cbn [String.append].
  - by destruct (isShellSpecialVar c).
  - destruct d as [[] [] [] [] [] [] [] []]; try done. exfalso. cbn in Hc. by destruct (decide (c = _)).
Qed.

Lemma expand_skip mapping s : expand_loop mapping (String.length s) s = "".
Proof. by induction s. Qed.

(** A FROM line whose image is an unset variable crashes the command.  Only
    the environment is consulted, not the defaults that ARG lines of the file
    give, and a line without words is indexed at -1. *)
Theorem unset_variable_panics name :
  name ≠ "" → strings_Count name "}" = 0 → os_Getenv name = "" →
  let line := "FROM ${" +:+ name +:+ "}" in
  is_FROM line = true ∧ getImageFromLine line = Panic "index out of range [-1]".
Proof.
  intros Hne Hc Henv line. split; [done|]. unfold getImageFromLine.
  assert (Hx : os_Expand os_Getenv (strings_TrimPrefix line "FROM") = " ").
  { subst line. change ("FROM ${" +:+ name +:+ "}") with ("FROM" +:+ " $" +:+ "{" +:+ name +:+ "}").
    rewrite TrimPrefix_append. pose proof (getShellName_braces name Hne Hc) as Hg.
    unfold os_Expand. change (" $" +:+ "{" +:+ name +:+ "}")
      with (String " " (String "$" ("{" +:+ name +:+ "}"))).
    set (rest := "{" +:+ name +:+ "}") in *. assert (Hl : String.length rest = String.length name + 2).
    { subst rest. cbn. rewrite length_append. cbn. lia. }
    cbn -[getShellName rest]. replace (rest =?s "") with false by done. cbn -[getShellName rest].
    rewrite Hg, (proj2 (str_eqb_neq _ _) Hne), Henv, <-Hl, expand_skip. done. }
  by rewrite Hx.
Qed.

End scan.

(** ** Witnesses *)

(** Every manifest is a pod with one container, the Dockerfile has two stages. *)
Definition toy_Scan : ScanExt := {|
  yaml_Decode _ := ([mkUnionImagesKind (mkImageContainers ["repo"; ""] []) (mkImageContainers [] [])
                      (mkImageContainers [] [])], true);
  os_Open p :=
    if p =?s "Dockerfile"
    then Ok ("FROM scratch" +:+ String "010" "from repo as build" +:+ String "010" "RUN make", None)
    else Err (error_Kind kind_NotExist "no such file");
  unicode_fields s := [s] |}.

#[local] Notation toy_manifest := (VerifyManifest_Exec (X := toy) (TR := toy_TrustRoot) (C := toy_Ct)
  (KX := toy_Keys) (R := toy_Registry) (S := toy_Sign) (V := toy_Command) (N := toy_Scan)
  1 toy_reg "v1" toy_vc toy_pub ["pod.yaml"]).
#[local] Notation toy_dockerfile b := (VerifyDockerfile_Exec (X := toy) (TR := toy_TrustRoot) (C := toy_Ct)
  (KX := toy_Keys) (R := toy_Registry) (S := toy_Sign) (V := toy_Command) (N := toy_Scan)
  1 toy_reg "v1" toy_vc b toy_pub ["Dockerfile"]).
#[local] Notation toy_verified l ref co := (image_verified (X := toy) (TR := toy_TrustRoot) (C := toy_Ct)
  (R := toy_Registry) 1 toy_reg ref co l).

Lemma VerifyManifest_sound_witness :
  ∃ w' co l ref, toy_manifest toy_cmd_world = (w', Ok ()) ∧ toy_verified l ref co.
Proof.
  destruct (ok_run (toy_manifest toy_cmd_world)) as (w' & [] & H); [vm_compute; reflexivity|].
  destruct (VerifyManifest_sound (X := toy) (TR := toy_TrustRoot) (C := toy_Ct) (KX := toy_Keys)
    (R := toy_Registry) (S := toy_Sign) (V := toy_Command) (N := toy_Scan) 1 toy_reg "v1"
    toy_vc toy_pub "pod.yaml" toy_cmd_world w' eq_refl eq_refl eq_refl H)
    as (m & docs & _ & [= <-] & co & _ & Hall).
  destruct (Hall "repo") as (l & ref & ref' & _ & _ & Hv).
  { eexists. split; [left|]. left. split; [done|]. left. left. }
  exists w', co, l, ref'. split; [exact H|exact Hv].
Defined.

Lemma VerifyDockerfile_sound_witness :
  ∃ w' co l ref, toy_dockerfile true toy_cmd_world = (w', Ok ()) ∧ toy_verified l ref co.
Proof.
  destruct (ok_run (toy_dockerfile true toy_cmd_world)) as (w' & [] & H); [vm_compute; reflexivity|].
  destruct (VerifyDockerfile_sound (X := toy) (TR := toy_TrustRoot) (C := toy_Ct) (KX := toy_Keys)
    (R := toy_Registry) (S := toy_Sign) (V := toy_Command) (N := toy_Scan) 1 toy_reg "v1"
    toy_vc true toy_pub "Dockerfile" toy_cmd_world w' eq_refl eq_refl eq_refl H)
    as (b & [= <-] & _ & co & _ & Hall).
  destruct (Hall "repo") as (l & ref & ref' & _ & _ & Hv); [reflexivity|].
  exists w', co, l, ref'. split; [exact H|exact Hv].
Defined.

Lemma from_line_image_witness :
  getImageFromLine (X := toy) (N := toy_Scan) "FROM --platform=linux golang as build" = Ok "golang".
Proof.
  apply (from_line_image (X := toy) (N := toy_Scan) ["--platform=linux"] "golang" (Some ("as", "build"))).
  - repeat constructor; done.
  - intros w ->%list_elem_of_singleton. reflexivity.
  - repeat split; done.
Defined.

Lemma unset_variable_panics_witness :
  getImageFromLine (X := toy) (N := toy_Scan) "FROM ${BASE}" = Panic "index out of range [-1]".
Proof.
  apply (unset_variable_panics (X := toy) (N := toy_Scan) "BASE"); done.
Defined.
