(* ===== verification/PolicyCmd.v ===== *)
(** * sget and the policy commands

    pkg/sget/sget.go, which downloads a blob after it verified its signatures, and
    cmd/cosign/cli/policy_init.go: `cosign policy init` and `cosign policy sign`,
    over the root policies of pkg/cosign/tuf ([Tuf]).

    [SecureGet_Do] changes the package variables of the Fulcio roots and what is
    printed, and returns what it writes to its output.  The policy commands also
    change the registry and the files. *)
From S2P Require Import Prelude GoStd External Concrete OciSignature OciSignatures OciEntity.
From S2P Require Import OciRemote Tuf Tlog Ctl Verify Keys Sign Attest Blob VerifyCmd RegistryCmds.

Record PolicyWorld `{R : Registry} := mkPolicyWorld { pw_Sign : SignWorld; pw_Cmd : CmdWorld }.
Arguments mkPolicyWorld {_ _} _ _.

Class PolicyCmdExt := {
  mail_ParseAddress : string → res string;
  (* the instant some days from now, rounded to seconds *)
  time_AddDays : Z → Z;
  NewRoot_Expires : Z;
  (* a new empty file *)
  os_CreateTemp : res string;
  Signed_JSONMarshal : Signed → res bytes;
  json_Unmarshal_Signed : bytes → res Signed;
  range_Keys : Root → list (string * Key);              (* the order of [range root.Keys] *)
  utf8_Valid : bytes → bool }.

Section policy_cmd.
Context `{X : Ext, TR : TrustRoot, C : CtExt, KX : KeyExt, R : Registry, S : !SignExt, B : BlobExt,
  A : AttestExt, V : CommandExt, E : !RegistryCmdExt, P : PolicyExt, Q : PolicyCmdExt}.
Context (depth : nat) (fulcioIntermediateV1 : string) (remoteOpts : list ROption).

(** ** sget *)

(** The options of the verification; nothing else is set. *)
Definition sget_co (verifier : option Verifier) (roots : CertPool) : CheckOpts :=
  mkCheckOpts [WithRemoteOptions remoteOpts] None (Some SimpleClaimVerifier) None verifier roots None
    "" "" false "" [].

(** The one layer of the image. *)
Definition one_layer (reg : Reg) (ref : Reference) : res Layer :=
  img ← remoteImage reg remoteOpts ref;
  layers ← Image_Layers img;
  match layers with
  | [l] => Ok l
  | _ => Err (error_New "invalid artifact")
  end.
Definition fetch_layer (reg : Reg) (ref : Reference) : res bytes :=
  l ← one_layer reg ref; layer_Compressed l.

(** The digest, once it is verified. *)
Definition SecureGet_verified (reg : Reg) (kw : KeyWorld) (imageRef keyRef : string) :
    M CmdWorld Reference :=
  ref ← lift (name_ParseReference imageRef);
  lift (match ref with
        | name_Tag _ _ =>
            ensure (negb (keyRef =?s "") || EnableExperimental)
              (error_New "public key must be specified when fetching by tag, you must fetch by digest or supply a public key")
        | name_Digest _ _ => Ok ()
        end);;
  ref ← lift (ResolveDigest reg ref [WithRemoteOptions remoteOpts]);
  verifier ← lift (if negb (keyRef =?s "") then Some <$> LoadPublicKey keyRef kw else Ok None);
  (match verifier, EnableExperimental with
   | None, false => mret ()
   | _, _ =>
       roots ← in_roots' (fulcioroots_Get fulcioIntermediateV1);
       let '(co, r) := VerifyImageSignatures depth reg ref (sget_co verifier roots) in
       '(sp, bundleVerified) ← lift r;
       print (PrintVerificationHeader imageRef co bundleVerified (bool_decide (verifier = None)));;
       PrintVerification sp "text"
   end);;
  mret ref.

Definition SecureGet_Do (reg : Reg) (kw : KeyWorld) (imageRef keyRef : string) : M CmdWorld bytes :=
  ref ← SecureGet_verified reg kw imageRef keyRef; lift (fetch_layer reg ref).

(** ** policy init *)

Definition validEmail (email : string) : bool := is_ok (mail_ParseAddress email).
Definition rootPath (imageRef : string) : string := filepath_Join [imageRef; "root"].

Record PolicyInitOptions := mkPolicyInitOptions {
  pi_ImageRef : string;
  pi_Maintainers : list string;
  pi_Issuer : string;
  pi_Threshold : Z;
  pi_Expires : Z;
  pi_OutFile : string;
  pi_Registry : RegistryOptions }.

Fixpoint maintainer_keys (issuer : string) (maintainers : list string) : res (list Key) :=
  match maintainers with
  | [] => Ok []
  | email :: rest =>
      if negb (validEmail email) then Panic ("Invalid email format: " +:+ email) else
      keys ← maintainer_keys issuer rest;
      Ok (FulcioVerificationKey (strings_TrimSpace unicode_trim email) issuer :: keys)
  end.

Definition initial_root (o : PolicyInitOptions) (publicKeys : list Key) : Root :=
  let root := foldl (λ r key, fst (AddKey r key)) (NewRoot NewRoot_Expires) publicKeys in
  let role := default (mkRole [] 1) (root_Roles root !! "root") in
  let role := fst (AddKeysWithThreshold role publicKeys (pi_Threshold o)) in
  mkRoot (root_Type root) (root_SpecVersion root) (root_Version root)
    (if (0 <? pi_Expires o)%Z then time_AddDays (pi_Expires o) else root_Expires root)
    (root_Keys root) (<["root" := role]> (root_Roles root)) (pi_ImageRef o)
    (root_ConsistentSnapshot root).

(** The end of both commands: the policy is written to the output file, or a new
    empty file is made that is removed at the end, and the file is uploaded. *)
Definition read_of (w : SignWorld) (path : string) : res bytes :=
  match sw_Files w !! path with Some b => Ok b | None => os_ReadFile path end.
Definition upload_policy (o : RegistryOptions) (outfile imageRef : string) : M SignWorld (list Line) := λ w,
  in_reg (BlobCmd (read_of w) o [FileFromFlag outfile] "" (rootPath imageRef)) w.
Definition upload_temp (o : RegistryOptions) (tempFile imageRef : string) : M SignWorld (list Line) := λ w,
  let '(w, r) := upload_policy o tempFile imageRef w in
  (mkSignWorld (sw_Reg w) (delete tempFile (sw_Files w)), r).
Definition publish_policy (o : RegistryOptions) (outFile imageRef : string) (policyFile : bytes) :
    M SignWorld (list Line) :=
  if negb (outFile =?s "") then
    M_wrap ("error writing to " +:+ outFile) (os_WriteFile outFile policyFile);;
    upload_policy o outFile imageRef
  else
    tempFile ← lift os_CreateTemp;
    modify (λ w, mkSignWorld (sw_Reg w) (<[tempFile := ""]> (sw_Files w)));;
    upload_temp o tempFile imageRef.

Definition initPolicy (o : PolicyInitOptions) : M SignWorld (list Line) :=
  publicKeys ← lift (maintainer_keys (pi_Issuer o) (pi_Maintainers o));
  policy ← lift (Root_Marshal (initial_root o publicKeys));
  policyFile ← lift (Signed_JSONMarshal policy);
  publish_policy (pi_Registry o) (pi_OutFile o) (pi_ImageRef o) policyFile.

(** ** policy sign *)

Definition OIDC_ClientSecret (clientSecretFile : string) : res string :=
  if negb (clientSecretFile =?s "") then
    b ← wrap "reading OIDC client secret" (os_ReadFile clientSecretFile);
    _ ← ensure (utf8_Valid b)
          (error_New ("OIDC client secret in file " +:+ clientSecretFile +:+ " not valid utf8"));
    Ok (strings_TrimSpace unicode_trim b)
  else Ok "".

Record PolicySignOptions := mkPolicySignOptions {
  sp_ImageRef : string;
  sp_OutFile : string;
  sp_Registry : RegistryOptions;
  sp_FulcioURL : string;
  sp_IDToken : string;
  sp_InsecureSkipFulcioVerify : bool;
  sp_RekorURL : string;
  sp_ClientSecretFile : string }.

Definition in_sign {T} (m : M SignWorld T) : M PolicyWorld T := λ w,
  let '(s, a) := m (pw_Sign w) in (mkPolicyWorld s (pw_Cmd w), a).
Definition in_cmd {T} (m : M CmdWorld T) : M PolicyWorld T := λ w,
  let '(c, a) := m (pw_Cmd w) in (mkPolicyWorld (pw_Sign w) c, a).

(** The Fulcio signer, with the identity of its certificate. *)
Definition policy_signer (o : PolicySignOptions) (kw : KeyWorld) :
    res (CertSigner * (string * string)) :=
  _ ← OIDC_ClientSecret (sp_ClientSecretFile o);
  sv ← SignerFromKeyOpts "" ""
         (mkKeyOpts false "" "" (sp_FulcioURL o) (sp_RekorURL o) (sp_IDToken o)
            (sp_InsecureSkipFulcioVerify o) None "") kw;
  certs ← cryptoutils_LoadCertificatesFromPEM (default "" (cs_Cert sv));
  match certs with
  | cert :: _ =>
      _ ← ensure (negb (bool_decide (cert_EmailAddresses cert = []))) (error_New "error decoding certificate");
      Ok (sv, (CertSubject cert, CertIssuerExtension cert))
  | [] => Err (error_New "error decoding certificate")
  end.

(** The policy in the registry. *)
Definition fetch_policy (kw : KeyWorld) (imgName : string) : M PolicyWorld bytes := λ w,
  let reg := sw_Reg (pw_Sign w) in
  (ref ← lift (name_ParseReference imgName);
   img ← lift (remoteImage reg remoteOpts ref);
   dgst ← lift (Image_Digest img);
   in_cmd (M_wrap "error getting result"
             (SecureGet_Do reg kw (imgName +:+ "@" +:+ Hash_String dgst) ""))) w.

Definition sign_signed (o : PolicySignOptions) (sv : CertSigner) (identity : string * string) (b : bytes) :
    res Signed :=
  signed ← wrap "unmarshalling signed root policy" (json_Unmarshal_Signed b);
  let key := FulcioVerificationKey (fst identity) (snd identity) in
  sig ← wrap "error occurred while during artifact signing" (SignMessage (cs_Signer sv) (signed_Signed signed));
  let signature := mkPolicySignature "" (base64_EncodeToString sig)
                     (base64_EncodeToString (default "" (cs_Cert sv))) in
  signed' ← AddOrUpdateSignature range_Keys signed key signature;
  _ ← (if EnableExperimental then
         rekorClient ← rekor_NewClient (sp_RekorURL o);
         entry ← TLogUpload rekorClient sig (signed_Signed signed) (default "" (cs_Cert sv));
         _ ← deref (le_LogIndex entry);
         Ok ()
       else Ok ());
  Ok signed'.

Definition signPolicy (o : PolicySignOptions) (kw : KeyWorld) : M PolicyWorld (list Line) :=
  '(sv, identity) ← lift (policy_signer o kw);
  b ← fetch_policy kw (rootPath (sp_ImageRef o));
  signed ← lift (sign_signed o sv identity b);
  policyFile ← lift (Signed_JSONMarshal signed);
  in_sign (publish_policy (sp_Registry o) (sp_OutFile o) (sp_ImageRef o) policyFile).

(** ** What they promise *)

Lemma SecureGet_verified_spec reg kw imageRef keyRef w w' d :
  SecureGet_verified reg kw imageRef keyRef w = (w', Ok d) →
  ∃ ref, name_ParseReference imageRef = Ok ref
    ∧ ResolveDigest reg ref [WithRemoteOptions remoteOpts] = Ok d
    ∧ if (keyRef =?s "") && negb EnableExperimental then d = ref
      else ∃ verifier roots ints l,
        (if keyRef =?s "" then verifier = None
         else ∃ v, verifier = Some v ∧ LoadPublicKey keyRef kw = Ok v)
        ∧ fulcio_pools fulcioIntermediateV1 (cw_Roots w) roots ints
        ∧ image_verified depth reg d (sget_co verifier roots) l.
Proof.
  intros H. unfold SecureGet_verified in H.
  apply M_bind_Ok in H as (? & ref & [Hp ->]%lift_Ok & H).
  apply M_bind_Ok in H as (? & [] & [Ht ->]%lift_Ok & H).
  apply M_bind_Ok in H as (? & d' & [Hd ->]%lift_Ok & H).
  apply M_bind_Ok in H as (? & verifier & [Hv ->]%lift_Ok & H).
  apply M_bind_Ok in H as (w1 & [] & Hver & [<- ->]%M_ret_Ok).
  exists ref. do 2 (split; [done|]).
  assert (Hcheck : (verifier = None ∧ EnableExperimental = false) ∨
    ∃ roots ints l, fulcio_pools fulcioIntermediateV1 (cw_Roots w) roots ints
      ∧ image_verified depth reg d (sget_co verifier roots) l).
  { destruct verifier as [v|]; [right|destruct EnableExperimental; [right|by left]];
      apply M_bind_Ok in Hver as (w2 & roots & [ints Hr]%roots_pools & Hver); exists roots, ints;
      destruct (VerifyImageSignatures _ _ _ _) as [co' r] eqn:Ev;
      apply M_bind_Ok in Hver as (? & [sp bv] & [-> ->]%lift_Ok & _); exists sp;
      (split; [done|]); by apply VerifyImageSignatures_spec in Ev. }
  destruct (keyRef =?s "") eqn:Ek; cbn [andb negb] in *.
  - injection Hv as <-. destruct EnableExperimental; cbn [negb].
    + destruct Hcheck as [[_ ?]|(roots & ints & l & ?)]; [done|]. by exists None, roots, ints, l.
    + destruct ref; cbn in Ht; [done|]. by injection Hd as <-.
  - apply fmap_Ok in Hv as (v & Hv & ->). destruct Hcheck as [[? _]|(roots & ints & l & ?)]; [done|].
    exists (Some v), roots, ints, l. split; [by exists v|done].
Qed.

Lemma SecureGet_spec reg kw imageRef keyRef w w' b :
  SecureGet_Do reg kw imageRef keyRef w = (w', Ok b) →
  ∃ ref d, name_ParseReference imageRef = Ok ref
    ∧ ResolveDigest reg ref [WithRemoteOptions remoteOpts] = Ok d
    ∧ fetch_layer reg d = Ok b
    ∧ if (keyRef =?s "") && negb EnableExperimental then d = ref
      else ∃ verifier roots ints l,
        (if keyRef =?s "" then verifier = None
         else ∃ v, verifier = Some v ∧ LoadPublicKey keyRef kw = Ok v)
        ∧ fulcio_pools fulcioIntermediateV1 (cw_Roots w) roots ints
        ∧ image_verified depth reg d (sget_co verifier roots) l.
Proof.
  intros (w1 & d & (ref & Hp & Hd & H)%SecureGet_verified_spec & [Hf ->]%lift_Ok)%M_bind_Ok.
  by exists ref, d.
Qed.

(** The options under which sget verifies: the key if there is one, the Fulcio roots, and
    no wish about annotations, identities, e-mail, issuer, timestamp or log. *)
Definition sget_opts (keyRef : string) (kw : KeyWorld) (rv : RootsVars) (co : CheckOpts) : Prop :=
  RegistryClientOpts co = [WithRemoteOptions remoteOpts]
  ∧ (if keyRef =?s "" then SigVerifier co = None
     else ∃ v, SigVerifier co = Some v ∧ LoadPublicKey keyRef kw = Ok v)
  ∧ (∃ ints, fulcio_pools fulcioIntermediateV1 rv (RootCerts co) ints)
  ∧ co_Annotations co = None ∧ Identities co = [] ∧ CertEmail co = "" ∧ CertOidcIssuer co = ""
  ∧ EnforceSCT co = false ∧ RekorClient co = None.

(** C26: what sget gives out.  The bytes are the one layer of the digest that the
    reference resolved to.  Without a key and without the experimental mode the
    reference itself was a digest, and nothing else is checked; otherwise that very
    digest has a signature stored for it that names the digest and verifies with the key
    or, without one, under a certificate of the Fulcio roots of the process, of any
    e-mail and issuer.  The options have no Rekor client: the transparency log is not
    consulted in either case. *)
Theorem SecureGet_sound reg kw imageRef keyRef w w' b :
  SecureGet_Do reg kw imageRef keyRef w = (w', Ok b) →
  ∃ ref d, name_ParseReference imageRef = Ok ref
    ∧ ResolveDigest reg ref [WithRemoteOptions remoteOpts] = Ok d
    ∧ fetch_layer reg d = Ok b
    ∧ if (keyRef =?s "") && negb EnableExperimental then d = ref
      else ∃ co l, sget_opts keyRef kw (cw_Roots w) co ∧ image_verified depth reg d co l.
Proof.
  intros (ref & d & ? & ? & ? & H)%SecureGet_spec. exists ref, d. do 3 (split; [done|]).
  destruct (_ && _); [done|]. destruct H as (v & roots & ints & l & Hv & Hp & Hl).
  exists (sget_co v roots), l. split; [|done]. unfold sget_opts. split_and!; try done. by exists ints.
Qed.

(** In experimental mode, where `cosign policy sign` logs its signatures, it
    succeeds only for a policy whose image already carries a signature under a
    certificate of the Fulcio roots: a policy as `cosign policy init` uploads
    it cannot be signed. *)
Theorem policy_sign_needs_signature o kw w w' lines :
  EnableExperimental = true → signPolicy o kw w = (w', Ok lines) →
  ∃ ref img h d roots l, name_ParseReference (rootPath (sp_ImageRef o)) = Ok ref
    ∧ remoteImage (sw_Reg (pw_Sign w)) remoteOpts ref = Ok img ∧ Image_Digest img = Ok h
    ∧ name_ParseReference (rootPath (sp_ImageRef o) +:+ "@" +:+ Hash_String h) = Ok d
    ∧ ∃ d', ResolveDigest (sw_Reg (pw_Sign w)) d [WithRemoteOptions remoteOpts] = Ok d'
        ∧ image_verified depth (sw_Reg (pw_Sign w)) d' (sget_co None roots) l.
Proof.
  intros Hx H. unfold signPolicy in H.
  apply M_bind_Ok in H as (? & [sv id] & [_ ->]%lift_Ok & H).
  apply M_bind_Ok in H as (w1 & b & Hf & _). unfold fetch_policy in Hf.
  apply M_bind_Ok in Hf as (? & ref & [Hp ->]%lift_Ok & Hf).
  apply M_bind_Ok in Hf as (? & img & [Hi ->]%lift_Ok & Hf).
  apply M_bind_Ok in Hf as (? & h & [Hh ->]%lift_Ok & Hf).
  unfold in_cmd in Hf. destruct (M_wrap _ _ _) as [cw r] eqn:Es. injection Hf as _ ->.
  apply M_wrap_Ok, SecureGet_spec in Es as (d & d' & Hd & Hd' & _ & Hv).
  rewrite Hx in Hv. cbn in Hv. destruct Hv as (verifier & roots & ints & l & -> & _ & Hv).
  exists ref, img, h, d, roots, l. do 4 (split; [done|]). by exists d'.
Qed.

Lemma BlobCmd_one read o f imageRef reg reg' lines :
  BlobCmd read o [f] "" imageRef reg = (reg', Ok lines) →
  ∃ ref b img mt, name_ParseReference imageRef = Ok ref ∧ read (file_path f) = Ok b
    ∧ NewFile b [static.WithLayerMediaType mt] = Ok img
    ∧ remoteWrite (ro_Client o) ref img reg = (reg', Ok ()).
Proof.
  unfold BlobCmd, UploadFiles. cbn [upload_loop length Nat.ltb Nat.leb]. intros H. M_inv.
  do 4 eexists. eauto.
Qed.

Lemma FileFromFlag_plain p : strings_Count p ":" = 0 → file_path (FileFromFlag p) = p.
Proof. intros Hp. unfold FileFromFlag. by rewrite (Split_no_sep p ":"%char Hp). Qed.

(** What the policy commands upload.  The image under <namespace>/root gets a
    layer with the policy when an output file is named; without one, the
    temporary file that is uploaded is empty: the policy is lost. *)
Theorem policy_upload o outFile imageRef policyFile tmp w w' lines :
  publish_policy o outFile imageRef policyFile w = (w', Ok lines) →
  os_CreateTemp = Ok tmp → strings_Count outFile ":" = 0 → strings_Count tmp ":" = 0 →
  ∃ ref img mt, name_ParseReference (rootPath imageRef) = Ok ref
    ∧ NewFile (if outFile =?s "" then "" else policyFile) [static.WithLayerMediaType mt] = Ok img
    ∧ remoteWrite (ro_Client o) ref img (sw_Reg w) = (sw_Reg w', Ok ()).
Proof.
  unfold publish_policy. intros H Htmp Ho Ht. destruct (outFile =?s "") eqn:Eo; cbn [negb] in H.
  - apply M_bind_Ok in H as (? & t & [Ht' ->]%lift_Ok & H). rewrite Htmp in Ht'. injection Ht' as <-.
    apply M_bind_Ok in H as (? & [] & ->%modify_Ok & H). unfold upload_temp, upload_policy, in_reg in H.
    destruct (BlobCmd _ _ _ _ _ _) as [reg1 r] eqn:Eb. injection H as <- ->.
    apply BlobCmd_one in Eb as (ref & b & img & mt & Hp & Hb & Hi & Hw).
    rewrite FileFromFlag_plain in Hb by done. unfold read_of in Hb. cbn [sw_Files] in Hb.
    rewrite lookup_insert_eq in Hb. injection Hb as <-. by exists ref, img, mt.
  - apply M_bind_Ok in H as (w1 & [] & Hw1%M_wrap_Ok & H). unfold os_WriteFile in Hw1.
    apply M_bind_Ok in Hw1 as (? & [] & [_ ->]%lift_Ok & ->%modify_Ok). unfold upload_policy, in_reg in H.
    destruct (BlobCmd _ _ _ _ _ _) as [reg1 r] eqn:Eb. injection H as <- ->.
    apply BlobCmd_one in Eb as (ref & b & img & mt & Hp & Hb & Hi & Hw).
    rewrite FileFromFlag_plain in Hb by done. unfold read_of in Hb. cbn [sw_Files] in Hb.
    rewrite lookup_insert_eq in Hb. injection Hb as <-. by exists ref, img, mt.
Qed.

(** *** Every maintainer may sign *)

(** Encoding a key value loses nothing, a digest in hexadecimal is not empty, and
    [range] visits every key. *)
Class PolicyLaws : Prop := {
  key_value_roundtrip kv : json_Unmarshal_FulcioKeyVal (json_Marshal_FulcioKeyVal kv) = Ok kv;
  key_id_nonempty k : Key_ID k ≠ "";
  range_all r : range_Keys r ≡ₚ map_to_list (root_Keys r) }.
Context `{PL : !PolicyLaws}.

Lemma maintainer_keys_elem issuer l keys k :
  maintainer_keys issuer l = Ok keys →
  k ∈ keys ↔ ∃ email, email ∈ l ∧ k = FulcioVerificationKey (strings_TrimSpace unicode_trim email) issuer.
Proof.
  induction l as [|e l IH] in keys |- *; cbn; intros H; [go_inv; set_solver|].
  destruct (validEmail e); [|done]. cbn in H. go_inv. rewrite elem_of_cons, IH by done. set_solver.
Qed.

Lemma AddKeys_sound r keys id k :
  root_Keys (foldl (λ r key, fst (AddKey r key)) r keys) !! id = Some k →
  root_Keys r !! id = Some k ∨ k ∈ keys ∧ Key_ID k = id.
Proof.
  induction keys as [|key keys IH] in r |- *; cbn [foldl]; [by left|].
  intros [Hr|[? ?]]%IH; [|right; set_solver]. unfold AddKey in Hr.
  destruct (root_Keys r !! Key_ID key) as [k'|]; cbn [fst set_Keys root_Keys] in Hr; [by left|].
  apply lookup_insert_Some in Hr as [[<- <-]|[_ ?]]; [right; set_solver|by left].
Qed.

Lemma AddKeys_complete r keys id :
  is_Some (root_Keys r !! id) ∨ id ∈ Key_ID <$> keys →
  is_Some (root_Keys (foldl (λ r key, fst (AddKey r key)) r keys) !! id).
Proof.
  induction keys as [|key keys IH] in r |- *; cbn [foldl]; [set_solver|]. intros H. apply IH.
  unfold AddKey. destruct (root_Keys r !! Key_ID key) as [k'|] eqn:El; cbn [fst set_Keys root_Keys].
  - destruct H as [?|[->|?]%elem_of_cons]; [by left|left; by rewrite El|by right].
  - destruct (decide (id = Key_ID key)) as [->|Hne]; [left; rewrite lookup_insert_eq; eauto|].
    rewrite lookup_insert_ne by done. destruct H as [?|[->|?]%elem_of_cons]; [by left|done|by right].
Qed.

Lemma AddKeys_Roles r keys :
  root_Roles (foldl (λ r key, fst (AddKey r key)) r keys) = root_Roles r.
Proof.
  induction keys as [|key keys IH] in r |- *; cbn [foldl]; [done|]. rewrite IH. unfold AddKey.
  by destruct (root_Keys r !! Key_ID key).
Qed.

Lemma add_keys_fresh keys ids changed :
  fst (add_keys ∅ keys ids changed) = ids ++ (Key_ID <$> keys).
Proof.
  induction keys as [|k keys IH] in ids, changed |- *; cbn; [by rewrite app_nil_r|].
  rewrite decide_False by set_solver. by rewrite IH, <-app_assoc.
Qed.

(** The hash does not confuse two of the keys. *)
Definition distinct_ids (keys : list Key) : Prop :=
  ∀ k k', k ∈ keys → k' ∈ keys → Key_ID k = Key_ID k' → k = k'.

Lemma initial_root_role o keys :
  root_Roles (initial_root o keys) !! "root" = Some (mkRole (Key_ID <$> keys) (pi_Threshold o)).
Proof.
  unfold initial_root. cbn [root_Roles]. rewrite lookup_insert_eq, AddKeys_Roles.
  cbn -[AddKeysWithThreshold]. unfold AddKeysWithThreshold. cbn [role_KeyIDs list_to_set].
  pose proof (add_keys_fresh keys [] false) as Ha.
  destruct (add_keys _ _ _ _) as [ids ch]. cbn in Ha |- *. by subst.
Qed.

Lemma initial_root_keys o keys id k :
  distinct_ids keys →
  root_Keys (initial_root o keys) !! id = Some k ↔ k ∈ keys ∧ Key_ID k = id.
Proof.
  intros Hd. unfold initial_root. cbn [root_Keys]. split.
  - intros [Hr|?]%AddKeys_sound; [|done]. by cbn in Hr; rewrite lookup_empty in Hr.
  - intros [Hk <-]. destruct (AddKeys_complete (NewRoot NewRoot_Expires) keys (Key_ID k)) as [k' Hk'];
      [right; set_solver|].
    rewrite Hk'. f_equal. apply AddKeys_sound in Hk' as [Hr|[? ?]];
      [by cbn in Hr; rewrite lookup_empty in Hr|].
    by apply Hd.
Qed.

(** Whether a signer with an identity and an issuer matches a key of the root. *)
Definition matches (kv : FulcioKeyVal) (e issuer : string) : bool :=
  (fkv_Identity kv =?s e) && ((issuer =?s "") || (issuer =?s fkv_Issuer kv)).

Lemma FulcioVerificationKey_inj e e' issuer :
  FulcioVerificationKey e issuer = FulcioVerificationKey e' issuer → e = e'.
Proof.
  intros H%(f_equal (λ k, json_Unmarshal_FulcioKeyVal (key_Value k))). cbn in H.
  rewrite !key_value_roundtrip in H. by injection H.
Qed.

Lemma valid_key_loop_fulcio kv issuer order :
  (∀ kid k, (kid, k) ∈ order → kid ≠ "" ∧ ∃ e, k = FulcioVerificationKey e issuer) →
  ∃ r, valid_key_loop kv order = Ok r
    ∧ if r =?s "" then ∀ kid e, (kid, FulcioVerificationKey e issuer) ∈ order → matches kv e issuer = false
      else ∃ e, (r, FulcioVerificationKey e issuer) ∈ order ∧ matches kv e issuer = true.
Proof.
  induction order as [|[kid k] order IH]; intros H; cbn [valid_key_loop].
  { exists "". split; [done|]. cbn. intros ?? []%not_elem_of_nil. }
  destruct (H kid k) as [Hne [e ->]]; [by left|]. unfold GetFulcioKeyVal. cbn [key_Value FulcioVerificationKey].
  rewrite key_value_roundtrip. cbn [wrap mbind res_bind fkv_Identity fkv_Issuer].
  change ((fkv_Identity kv =?s e) && ((issuer =?s "") || (issuer =?s fkv_Issuer kv))) with (matches kv e issuer).
  destruct (matches kv e issuer) eqn:Em.
  - exists kid. split; [done|]. rewrite (proj2 (str_eqb_neq _ _) Hne). exists e. split; [by left|done].
  - destruct IH as (r & Hr & Hs); [intros; apply H; by right|]. exists r. split; [done|].
    destruct (r =?s ""); [|destruct Hs as (e' & ? & ?); exists e'; split; [by right|done]].
    intros kid' e' [He|Hin]%elem_of_cons; [|by eapply Hs].
    assert (e' = e) as ->; [|done]. apply (FulcioVerificationKey_inj _ _ issuer). by apply (f_equal snd) in He.
Qed.

(** Who may sign a policy.  For the root that `cosign policy init` makes, a
    certificate is accepted by `cosign policy sign` exactly if its identity
    is the e-mail address of a maintainer, without surrounding spaces, and its
    issuer is the one the policy names, if it names one: every maintainer may
    sign, and no one else. *)
Theorem policy_maintainers o keys identity iss :
  maintainer_keys (pi_Issuer o) (pi_Maintainers o) = Ok keys → distinct_ids keys →
  let root := initial_root o keys in
  is_ok (ValidKey root (range_Keys root) (FulcioVerificationKey identity iss) "root") = true
  ↔ (∃ email, email ∈ pi_Maintainers o ∧ identity = strings_TrimSpace unicode_trim email)
    ∧ (pi_Issuer o = "" ∨ pi_Issuer o = iss).
Proof.
  intros Hk Hd root. set (issuer := pi_Issuer o) in *.
  assert (Hin : ∀ kid k, (kid, k) ∈ range_Keys root ↔ k ∈ keys ∧ Key_ID k = kid).
  { intros kid k. rewrite range_all, elem_of_map_to_list. by apply initial_root_keys. }
  destruct (valid_key_loop_fulcio (mkFulcioKeyVal identity iss) issuer (range_Keys root)) as (r & Hr & Hs).
  { intros kid k [Hkk <-]%Hin. split; [apply key_id_nonempty|].
    apply (maintainer_keys_elem _ _ _ _ Hk) in Hkk as (email & _ & ->). by eexists. }
  unfold ValidKey, GetFulcioKeyVal. cbn [key_Value FulcioVerificationKey]. rewrite key_value_roundtrip.
  cbn [wrap mbind res_bind]. rewrite Hr. cbn [mbind res_bind].
  destruct (r =?s "").
  - split; [done|]. intros [(email & He & ->) Hi]. exfalso.
    assert (Hm : matches (mkFulcioKeyVal (strings_TrimSpace unicode_trim email) iss)
      (strings_TrimSpace unicode_trim email) issuer = false).
    { eapply Hs, Hin. split; [|done]. eapply maintainer_keys_elem; [done|]. by exists email. }
    unfold matches in Hm. cbn in Hm. rewrite str_eqb_refl in Hm. cbn in Hm.
    destruct Hi as [Hi|Hi]; rewrite Hi in Hm; rewrite str_eqb_refl, ?orb_true_r in Hm; done.
  - destruct Hs as (e & [He <-]%Hin & Hm). subst root. rewrite initial_root_role. cbn [role_KeyIDs].
    rewrite bool_decide_true by by apply list_elem_of_fmap_2. split; [intros _|done].
    apply (maintainer_keys_elem _ _ _ _ Hk) in He as (email & ? & ->%FulcioVerificationKey_inj).
    unfold matches in Hm. cbn in Hm. apply andb_true_iff in Hm as [Hi%str_eqb_eq Hm].
    apply orb_true_iff in Hm. rewrite !str_eqb_eq in Hm. split; [by exists email|done].
Qed.

End policy_cmd.

(** ** Witnesses *)

(** A key value as JSON stand-in: the identity with every byte marked, then the
    issuer. *)
Fixpoint toy_mark (s rest : string) : string :=
  match s with "" => String "i" rest | String c s => String "c" (String c (toy_mark s rest)) end.
Fixpoint toy_unmark (s : string) : res FulcioKeyVal :=
  match s with
  | String "c" (String c s) =>
      kv ← toy_unmark s; Ok (mkFulcioKeyVal (String c (fkv_Identity kv)) (fkv_Issuer kv))
  | String "i" s => Ok (mkFulcioKeyVal "" s)
  | _ => Err (error_New "invalid character")
  end.
Definition marked_Policy : PolicyExt := {|
  cjson_EncodeCanonical_Key k := "key" +:+ key_Value k;
  cjson_EncodeCanonical_Root r := Ok (root_Namespace r);
  json_Marshal_FulcioKeyVal v := toy_mark (fkv_Identity v) (fkv_Issuer v);
  json_Unmarshal_FulcioKeyVal := toy_unmark;
  json_Unmarshal_Root _ := Ok toy_root |}.

Definition toy_PolicyCmd : PolicyCmdExt := {|
  mail_ParseAddress s := if strings_Contains s "@" then Ok s else Err (error_New "no angle-addr");
  time_AddDays d := d;
  NewRoot_Expires := 90;
  os_CreateTemp := Ok "/tmp/root1";
  Signed_JSONMarshal s := Ok (signed_Signed s);
  json_Unmarshal_Signed b := Ok (mkSigned b []);
  range_Keys r := map_to_list (root_Keys r);
  utf8_Valid _ := true |}.

#[local] Instance toy_PolicyLaws : PolicyLaws (X := toy) (P := marked_Policy) (Q := toy_PolicyCmd).
Proof.
  split.
  - intros [id iss]. cbn. induction id as [|c id IH]; cbn; [done|]. by rewrite IH.
  - done.
  - done.
Qed.

Definition toy_pi : PolicyInitOptions (R := cmd_Registry) :=
  mkPolicyInitOptions (R := cmd_Registry) "ns" ["a@b "] "" 1 0 "" cmd_ro.

Lemma policy_maintainers_witness :
  ∃ keys, maintainer_keys (V := toy_Command) (P := marked_Policy) (Q := toy_PolicyCmd) "" ["a@b "] = Ok keys
    ∧ is_ok (ValidKey (P := marked_Policy)
        (initial_root (X := toy) (P := marked_Policy) (Q := toy_PolicyCmd) toy_pi keys)
        (range_Keys (PolicyCmdExt := toy_PolicyCmd)
           (initial_root (X := toy) (P := marked_Policy) (Q := toy_PolicyCmd) toy_pi keys))
        (FulcioVerificationKey (P := marked_Policy) "a@b" "https://issuer") "root") = true.
Proof.
  eexists. split; [reflexivity|].
  apply (policy_maintainers (X := toy) (R := cmd_Registry) (V := toy_Command) (P := marked_Policy) (Q := toy_PolicyCmd) toy_pi).
  - reflexivity.
  - intros k k' ->%list_elem_of_singleton ->%list_elem_of_singleton. done.
  - split; [exists "a@b "; split; [left|reflexivity]|by left].
Defined.

Lemma policy_upload_witness :
  ∃ w' lines ref img mt,
    publish_policy (X := toy) (KX := toy_Keys) (R := cmd_Registry) (E := cmd_Ext)
      (Q := toy_PolicyCmd) cmd_ro "" "ns" "policy" (mkSignWorld (R := cmd_Registry) cmd_reg ∅) = (w', Ok lines)
    ∧ NewFile (X := toy) (R := cmd_Registry) (E := cmd_Ext) "" [static.WithLayerMediaType mt] = Ok img
    ∧ remoteWrite (Registry := cmd_Registry) [] ref img cmd_reg = (sw_Reg w', Ok ()).
Proof.
  destruct (ok_run (publish_policy (X := toy) (KX := toy_Keys) (R := cmd_Registry)
    (E := cmd_Ext) (Q := toy_PolicyCmd) cmd_ro "" "ns" "policy" (mkSignWorld (R := cmd_Registry) cmd_reg ∅)))
    as (w' & lines & H); [vm_compute; reflexivity|].
  destruct (policy_upload (X := toy) (KX := toy_Keys) (R := cmd_Registry) (E := cmd_Ext)
    (Q := toy_PolicyCmd) cmd_ro "" "ns" "policy" "/tmp/root1" _ _ _ H eq_refl eq_refl eq_refl)
    as (ref & img & mt & _ & Hi & Hw).
  exists w', lines, ref, img, mt. split; [exact H|]. split; [exact Hi|exact Hw].
Defined.

(** A signed blob. *)
Definition sget_reg : Reg (Registry := cmd_Registry) := λ r,
  if decide (r = name_Tag "repo" "sha256-d.sig") then toy_reg r
  else if decide (r = name_Tag "repo" "latest" ∨ r = name_Digest "repo" "sha256:d")
  then Some [(layer_of (staticLayer "blob" "" (static.applied [])), ∅)] else None.

#[local] Notation toy_sget := (SecureGet_Do (X := toy) (TR := toy_TrustRoot) (C := toy_Ct) (KX := toy_Keys)
  (R := cmd_Registry) (V := toy_Command) 1 "v1" [] sget_reg toy_pub "repo" "cosign.pub").

Lemma SecureGet_sound_witness :
  ∃ w' co l, toy_sget toy_cmd_world = (w', Ok "blob")
    ∧ sget_opts (X := toy) (TR := toy_TrustRoot) (C := toy_Ct) (KX := toy_Keys) (R := cmd_Registry) "v1" []
        "cosign.pub" toy_pub toy_roots co
    ∧ image_verified (X := toy) (TR := toy_TrustRoot) (C := toy_Ct) (R := cmd_Registry) 1 sget_reg
        (name_Digest "repo" "sha256:d") co l.
Proof.
  destruct (ok_run (toy_sget toy_cmd_world)) as (w' & b & H); [vm_compute; reflexivity|].
  assert (b = "blob") as ->.
  { apply (f_equal snd) in H. vm_compute in H. by injection H. }
  destruct (SecureGet_sound (X := toy) (TR := toy_TrustRoot) (C := toy_Ct) (KX := toy_Keys)
    (R := cmd_Registry) (V := toy_Command) 1 "v1" [] sget_reg toy_pub "repo" "cosign.pub" _ _ _ H)
    as (ref & d & [= <-] & [= <-] & _ & co & l & Ho & Hv).
  exists w', co, l. split; [exact H|]. split; [exact Ho|exact Hv].
Defined.
