(* ===== verification/Options.v ===== *)
(** * The command line: arguments and flags

    main of cmd/cosign/main.go (and of cmd/sget/main.go, which is the same loop), the
    option structures of cmd/cosign/cli/options and their AddFlags methods, and the tree
    of commands that New of cmd/cosign/cli/commands.go builds.

    AddFlags runs in the state of a flag set: each ...VarP call registers a flag, which
    panics if the library refuses it, and gives the variable that it binds as a function
    of what is parsed later.  The flag library (spf13/pflag) is a parameter. *)
From S2P Require Import Prelude GoStd.

(** ** main: flags to POSIX form *)

(** fmt.Sprintf("%c", b) of a byte: the UTF-8 encoding of that rune. *)
Definition fmt_c (b : ascii) : string :=
  let n := nat_of_ascii b in
  if (n <? 128)%nat then String b ""
  else String (ascii_of_nat (192 + n / 64)) (String (ascii_of_nat (128 + n mod 64)) "").

Definition fix_arg (arg : string) : string :=
  if (strings_HasPrefix arg "-" && (String.length arg =? 2)%nat)
     || (strings_HasPrefix arg "--" && (4 <=? String.length arg)%nat) then arg
  else if strings_HasPrefix arg "--" && (String.length arg =? 3)%nat
  then match String.get 2 arg with Some b => "-" +:+ fmt_c b | None => arg end
  else if strings_HasPrefix arg "-" then "-" +:+ arg
  else arg.

Definition fix_args (args : list string) : list string := fix_arg <$> args.

(** ** Flags *)

Inductive FlagValue :=
  | VString (s : string) | VBool (b : bool) | VStrings (l : list string)
  | VInt (z : Z) | VUint (z : Z) | VDuration (z : Z).
Record Flag := mkFlag { f_Name : string; f_Shorthand : string; f_Default : FlagValue }.
Definition FlagSet := list Flag.

(** The flags that were given, by name. *)
Definition Values := gmap string FlagValue.
(** A variable that a flag is bound to, read after the flags are parsed. *)
Definition Var (A : Type) : Type := Values → A.

Class Pflag := {
  (* (f *FlagSet) AddFlag *)
  pflag_AddFlag : FlagSet → Flag → res unit;
  (* (f *FlagSet) Parse and Args *)
  pflag_Parse : FlagSet → list string → res (Values * list string) }.

(** What is relied on of it: a flag with a new name and a new shorthand, or none, is
    accepted, and the arguments that are left are some of those given. *)
Class PflagLaws `{PF : Pflag} := {
  AddFlag_new fs f :
    f_Name f ∉ f_Name <$> fs →
    (f_Shorthand f = "" ∨ String.length (f_Shorthand f) = 1 ∧ f_Shorthand f ∉ f_Shorthand <$> fs) →
    pflag_AddFlag fs f = Ok ();
  Parse_args fs argv vals args a :
    pflag_Parse fs argv = Ok (vals, args) → a ∈ args → a ∈ argv }.

Section flags.
Context `{PF : Pflag}.

Definition VarP {A} (get : FlagValue → option A) (mk : A → FlagValue) (name shorthand : string)
    (value : A) : M FlagSet (Var A) :=
  fs ← gets id;
  lift (pflag_AddFlag fs (mkFlag name shorthand (mk value)));;
  modify (λ fs, fs ++ [mkFlag name shorthand (mk value)]);;
  mret (λ vals, match vals !! name with Some v => default value (get v) | None => value end).

Definition StringVarP := VarP (λ v, match v with VString s => Some s | _ => None end) VString.
Definition StringVar name value := StringVarP name "" value.
Definition BoolVarP := VarP (λ v, match v with VBool b => Some b | _ => None end) VBool.
Definition BoolVar name value := BoolVarP name "" value.
Definition StringSliceVarP := VarP (λ v, match v with VStrings l => Some l | _ => None end) VStrings.
Definition StringSliceVar name value := StringSliceVarP name "" value.
Definition IntVar name value :=
  VarP (λ v, match v with VInt z => Some z | _ => None end) VInt name "" value.
Definition UintVar name value :=
  VarP (λ v, match v with VUint z => Some z | _ => None end) VUint name "" value.
Definition DurationVarP := VarP (λ v, match v with VDuration z => Some z | _ => None end) VDuration.

End flags.

(** ** The option structures *)

Module options.
Section options.
Context `{PF : Pflag}.

(** time.Duration counts nanoseconds. *)
Definition DefaultTimeout : Z := 3 * 60 * 1000000000.

Record RootOptions := mkRootOptions { OutputFile : string; Verbose : bool; Timeout : Z }.
Definition RootOptions_AddFlags : M FlagSet (Var RootOptions) :=
  outputFile ← StringVar "output-file" "";
  verbose ← BoolVarP "verbose" "d" false;
  timeout ← DurationVarP "timeout" "t" DefaultTimeout;
  mret (λ v, mkRootOptions (outputFile v) (verbose v) (timeout v)).

Record ReferenceOptions := mkReferenceOptions { TagPrefix : string }.
Definition ReferenceOptions_AddFlags : M FlagSet (Var ReferenceOptions) :=
  tagPrefix ← StringVar "attachment-tag-prefix" ""; mret (λ v, mkReferenceOptions (tagPrefix v)).

(** Keychain is not set by a flag. *)
Record RegistryOptions := mkRegistryOptions {
  AllowInsecure : bool; KubernetesKeychain : bool; RefOpts : ReferenceOptions }.
Definition RegistryOptions_AddFlags : M FlagSet (Var RegistryOptions) :=
  allowInsecure ← BoolVar "allow-insecure-registry" false;
  kubernetesKeychain ← BoolVar "k8s-keychain" false;
  refOpts ← ReferenceOptions_AddFlags;
  mret (λ v, mkRegistryOptions (allowInsecure v) (kubernetesKeychain v) (refOpts v)).

Record SecurityKeyOptions := mkSecurityKeyOptions { Use : bool; Slot : string }.
Definition SecurityKeyOptions_AddFlags : M FlagSet (Var SecurityKeyOptions) :=
  use ← BoolVar "sk" false;
  slot ← StringVar "slot" "";
  mret (λ v, mkSecurityKeyOptions (use v) (slot v)).

Definition DefaultRekorURL := "https://rekor.sigstore.dev".
Record RekorOptions := mkRekorOptions { Rekor_URL : string }.
Definition RekorOptions_AddFlags : M FlagSet (Var RekorOptions) :=
  url ← StringVar "rekor-url" DefaultRekorURL; mret (λ v, mkRekorOptions (url v)).

Definition DefaultFulcioURL := "https://fulcio.sigstore.dev".
Record FulcioOptions := mkFulcioOptions {
  Fulcio_URL : string; IdentityToken : string; InsecureSkipFulcioVerify : bool }.
Definition FulcioOptions_AddFlags : M FlagSet (Var FulcioOptions) :=
  url ← StringVar "fulcio-url" DefaultFulcioURL;
  token ← StringVar "identity-token" "";
  skip ← BoolVar "insecure-skip-verify" false;
  mret (λ v, mkFulcioOptions (url v) (token v) (skip v)).

Definition DefaultOIDCIssuerURL := "https://oauth2.sigstore.dev/auth".
Record OIDCOptions := mkOIDCOptions {
  OIDC_Issuer : string; ClientID : string; clientSecretFile : string; RedirectURL : string }.
Definition OIDCOptions_AddFlags : M FlagSet (Var OIDCOptions) :=
  issuer ← StringVar "oidc-issuer" DefaultOIDCIssuerURL;
  clientID ← StringVar "oidc-client-id" "sigstore";
  secretFile ← StringVar "oidc-client-secret-file" "";
  redirect ← StringVar "oidc-redirect-url" "";
  mret (λ v, mkOIDCOptions (issuer v) (clientID v) (secretFile v) (redirect v)).

Record CertVerifyOptions := mkCertVerifyOptions {
  Cert : string; CertEmail : string; CertOidcIssuer : string; CertChain : string; EnforceSCT : bool }.
Definition CertVerifyOptions_AddFlags : M FlagSet (Var CertVerifyOptions) :=
  cert ← StringVar "cert" "";
  email ← StringVar "cert-email" "";
  issuer ← StringVar "cert-oidc-issuer" "";
  chain ← StringVar "cert-chain" "";
  sct ← BoolVar "enforce-sct" false;
  mret (λ v, mkCertVerifyOptions (cert v) (email v) (issuer v) (chain v) (sct v)).

Record AnnotationOptions := mkAnnotationOptions { Annotations : list string }.
Definition AnnotationOptions_AddFlags : M FlagSet (Var AnnotationOptions) :=
  annotations ← StringSliceVarP "annotations" "a" []; mret (λ v, mkAnnotationOptions (annotations v)).

Record SignatureDigestOptions := mkSignatureDigestOptions { AlgorithmName : string }.
Definition SignatureDigestOptions_AddFlags : M FlagSet (Var SignatureDigestOptions) :=
  name ← StringVar "signature-digest-algorithm" "sha256"; mret (λ v, mkSignatureDigestOptions (name v)).

Record FilesOptions := mkFilesOptions { Files : list string }.
Definition FilesOptions_AddFlags : M FlagSet (Var FilesOptions) :=
  files ← StringSliceVarP "files" "f" []; mret (λ v, mkFilesOptions (files v)).

Record PredicateOptions := mkPredicateOptions { Type_ : string }.
Definition PredicateOptions_AddFlags : M FlagSet (Var PredicateOptions) :=
  type ← StringVar "type" "custom"; mret (λ v, mkPredicateOptions (type v)).

Record PredicateLocalOptions := mkPredicateLocalOptions {
  PredicateLocal_Options : PredicateOptions; Path : string }.
Definition PredicateLocalOptions_AddFlags : M FlagSet (Var PredicateLocalOptions) :=
  o ← PredicateOptions_AddFlags;
  path ← StringVar "predicate" "";
  mret (λ v, mkPredicateLocalOptions (o v) (path v)).

Record PredicateRemoteOptions := mkPredicateRemoteOptions {
  PredicateRemote_Options : PredicateOptions }.
Definition PredicateRemoteOptions_AddFlags : M FlagSet (Var PredicateRemoteOptions) :=
  o ← PredicateOptions_AddFlags; mret (λ v, mkPredicateRemoteOptions (o v)).

(** *** Verifying *)

Record VerifyOptions := mkVerifyOptions {
  Verify_Key : string; Verify_CheckClaims : bool; Verify_Attachment : string; Verify_Output : string;
  SignatureRef : string; Verify_LocalImage : bool; Verify_SecurityKey : SecurityKeyOptions;
  Verify_CertVerify : CertVerifyOptions; Verify_Rekor : RekorOptions;
  Verify_Registry : RegistryOptions; SignatureDigest : SignatureDigestOptions;
  Verify_Annotations : AnnotationOptions }.
Definition VerifyOptions_AddFlags : M FlagSet (Var VerifyOptions) :=
  securityKey ← SecurityKeyOptions_AddFlags;
  rekor ← RekorOptions_AddFlags;
  certVerify ← CertVerifyOptions_AddFlags;
  registry ← RegistryOptions_AddFlags;
  signatureDigest ← SignatureDigestOptions_AddFlags;
  annotations ← AnnotationOptions_AddFlags;
  key ← StringVar "key" "";
  checkClaims ← BoolVar "check-claims" true;
  attachment ← StringVar "attachment" "";
  output ← StringVarP "output" "o" "json";
  signatureRef ← StringVar "signature" "";
  localImage ← BoolVar "local-image" false;
  mret (λ v, mkVerifyOptions (key v) (checkClaims v) (attachment v) (output v) (signatureRef v)
    (localImage v) (securityKey v) (certVerify v) (rekor v) (registry v) (signatureDigest v)
    (annotations v)).

Record VerifyAttestationOptions := mkVerifyAttestationOptions {
  VA_Key : string; VA_CheckClaims : bool; VA_Output : string; VA_SecurityKey : SecurityKeyOptions;
  VA_Rekor : RekorOptions; VA_CertVerify : CertVerifyOptions; VA_Registry : RegistryOptions;
  VA_Predicate : PredicateRemoteOptions; Policies : list string; VA_LocalImage : bool }.
Definition VerifyAttestationOptions_AddFlags : M FlagSet (Var VerifyAttestationOptions) :=
  securityKey ← SecurityKeyOptions_AddFlags;
  rekor ← RekorOptions_AddFlags;
  certVerify ← CertVerifyOptions_AddFlags;
  registry ← RegistryOptions_AddFlags;
  predicate ← PredicateRemoteOptions_AddFlags;
  key ← StringVar "key" "";
  checkClaims ← BoolVar "check-claims" true;
  policies ← StringSliceVar "policy" [];
  output ← StringVarP "output" "o" "json";
  localImage ← BoolVar "local-image" false;
  mret (λ v, mkVerifyAttestationOptions (key v) (checkClaims v) (output v) (securityKey v) (rekor v)
    (certVerify v) (registry v) (predicate v) (policies v) (localImage v)).

Record VerifyBlobOptions := mkVerifyBlobOptions {
  VB_Key : string; VB_Signature : string; VB_BundlePath : string;
  VB_SecurityKey : SecurityKeyOptions; VB_CertVerify : CertVerifyOptions;
  VB_Rekor : RekorOptions; VB_Registry : RegistryOptions }.
Definition VerifyBlobOptions_AddFlags : M FlagSet (Var VerifyBlobOptions) :=
  securityKey ← SecurityKeyOptions_AddFlags;
  rekor ← RekorOptions_AddFlags;
  certVerify ← CertVerifyOptions_AddFlags;
  registry ← RegistryOptions_AddFlags;
  key ← StringVar "key" "";
  signature ← StringVar "signature" "";
  bundle ← StringVar "bundle" "";
  mret (λ v, mkVerifyBlobOptions (key v) (signature v) (bundle v) (securityKey v) (certVerify v)
    (rekor v) (registry v)).

Record VerifyDockerfileOptions := mkVerifyDockerfileOptions {
  VD_VerifyOptions : VerifyOptions; BaseImageOnly : bool }.
Definition VerifyDockerfileOptions_AddFlags : M FlagSet (Var VerifyDockerfileOptions) :=
  o ← VerifyOptions_AddFlags;
  baseImageOnly ← BoolVar "base-image-only" false;
  mret (λ v, mkVerifyDockerfileOptions (o v) (baseImageOnly v)).

(** *** Signing *)

(** Output is not bound to a flag. *)
Record SignOptions := mkSignOptions {
  Sign_Key : string; Sign_Cert : string; Sign_CertChain : string; Upload : bool;
  Sign_OutputSignature : string; Sign_OutputCertificate : string; PayloadPath : string;
  Sign_Force : bool; Sign_Recursive : bool; Sign_Attachment : string; Sign_Rekor : RekorOptions;
  Sign_Fulcio : FulcioOptions; Sign_OIDC : OIDCOptions; Sign_SecurityKey : SecurityKeyOptions;
  Sign_Annotations : AnnotationOptions; Sign_Registry : RegistryOptions }.
Definition SignOptions_AddFlags : M FlagSet (Var SignOptions) :=
  rekor ← RekorOptions_AddFlags;
  fulcio ← FulcioOptions_AddFlags;
  oidc ← OIDCOptions_AddFlags;
  securityKey ← SecurityKeyOptions_AddFlags;
  annotations ← AnnotationOptions_AddFlags;
  registry ← RegistryOptions_AddFlags;
  key ← StringVar "key" "";
  cert ← StringVar "cert" "";
  certChain ← StringVar "cert-chain" "";
  upload ← BoolVar "upload" true;
  outputSignature ← StringVar "output-signature" "";
  outputCertificate ← StringVar "output-certificate" "";
  payloadPath ← StringVar "payload" "";
  force ← BoolVarP "force" "f" false;
  recursive ← BoolVarP "recursive" "r" false;
  attachment ← StringVar "attachment" "";
  mret (λ v, mkSignOptions (key v) (cert v) (certChain v) (upload v) (outputSignature v)
    (outputCertificate v) (payloadPath v) (force v) (recursive v) (attachment v) (rekor v) (fulcio v)
    (oidc v) (securityKey v) (annotations v) (registry v)).

Record SignBlobOptions := mkSignBlobOptions {
  SB_Key : string; Base64Output : bool; SB_Output : string; SB_OutputSignature : string;
  SB_OutputCertificate : string; SB_SecurityKey : SecurityKeyOptions; SB_Fulcio : FulcioOptions;
  SB_Rekor : RekorOptions; SB_OIDC : OIDCOptions; SB_Registry : RegistryOptions;
  SB_BundlePath : string }.
Definition SignBlobOptions_AddFlags : M FlagSet (Var SignBlobOptions) :=
  securityKey ← SecurityKeyOptions_AddFlags;
  fulcio ← FulcioOptions_AddFlags;
  rekor ← RekorOptions_AddFlags;
  oidc ← OIDCOptions_AddFlags;
  registry ← RegistryOptions_AddFlags;
  key ← StringVar "key" "";
  b64 ← BoolVar "b64" true;
  outputSignature ← StringVar "output-signature" "";
  output ← StringVar "output" "";
  outputCertificate ← StringVar "output-certificate" "";
  bundle ← StringVar "bundle" "";
  mret (λ v, mkSignBlobOptions (key v) (b64 v) (output v) (outputSignature v) (outputCertificate v)
    (securityKey v) (fulcio v) (rekor v) (oidc v) (registry v) (bundle v)).

Record AttestOptions := mkAttestOptions {
  Attest_Key : string; Attest_Cert : string; Attest_CertChain : string; NoUpload : bool;
  Attest_Force : bool; Attest_Recursive : bool; Replace : bool; Attest_Rekor : RekorOptions;
  Attest_Fulcio : FulcioOptions; Attest_OIDC : OIDCOptions; Attest_SecurityKey : SecurityKeyOptions;
  Attest_Predicate : PredicateLocalOptions; Attest_Registry : RegistryOptions }.
Definition AttestOptions_AddFlags : M FlagSet (Var AttestOptions) :=
  securityKey ← SecurityKeyOptions_AddFlags;
  predicate ← PredicateLocalOptions_AddFlags;
  fulcio ← FulcioOptions_AddFlags;
  oidc ← OIDCOptions_AddFlags;
  rekor ← RekorOptions_AddFlags;
  registry ← RegistryOptions_AddFlags;
  key ← StringVar "key" "";
  cert ← StringVar "cert" "";
  certChain ← StringVar "cert-chain" "";
  noUpload ← BoolVar "no-upload" false;
  force ← BoolVarP "force" "f" false;
  recursive ← BoolVarP "recursive" "r" false;
  replace ← BoolVarP "replace" "" false;
  mret (λ v, mkAttestOptions (key v) (cert v) (certChain v) (noUpload v) (force v) (recursive v)
    (replace v) (rekor v) (fulcio v) (oidc v) (securityKey v) (predicate v) (registry v)).

(** *** Artifacts of images *)

Record AttachSignatureOptions := mkAttachSignatureOptions {
  AS_Signature : string; Payload : string; AS_Registry : RegistryOptions }.
Definition AttachSignatureOptions_AddFlags : M FlagSet (Var AttachSignatureOptions) :=
  registry ← RegistryOptions_AddFlags;
  signature ← StringVar "signature" "";
  payload ← StringVar "payload" "";
  mret (λ v, mkAttachSignatureOptions (signature v) (payload v) (registry v)).

Record AttachSBOMOptions := mkAttachSBOMOptions {
  SBOM : string; SBOMType : string; SBOMInputFormat : string; SBOM_Registry : RegistryOptions }.
Definition AttachSBOMOptions_AddFlags : M FlagSet (Var AttachSBOMOptions) :=
  registry ← RegistryOptions_AddFlags;
  sbom ← StringVar "sbom" "";
  type ← StringVar "type" "spdx";
  format ← StringVar "input-format" "";
  mret (λ v, mkAttachSBOMOptions (sbom v) (type v) (format v) (registry v)).

Record AttachAttestationOptions := mkAttachAttestationOptions {
  AA_Attestation : string; AA_Registry : RegistryOptions }.
Definition AttachAttestationOptions_AddFlags : M FlagSet (Var AttachAttestationOptions) :=
  registry ← RegistryOptions_AddFlags;
  attestation ← StringVar "attestation" "";
  mret (λ v, mkAttachAttestationOptions (attestation v) (registry v)).

Record CleanOptions := mkCleanOptions {
  Clean_Registry : RegistryOptions; CleanType : string; Clean_Force : bool }.
Definition CleanOptions_AddFlags : M FlagSet (Var CleanOptions) :=
  registry ← RegistryOptions_AddFlags;
  cleanType ← StringVarP "type" "" "all";
  force ← BoolVarP "force" "f" false;
  mret (λ v, mkCleanOptions (registry v) (cleanType v) (force v)).

Record TreeOptions := mkTreeOptions { Tree_Registry : RegistryOptions }.
Definition TreeOptions_AddFlags : M FlagSet (Var TreeOptions) :=
  registry ← RegistryOptions_AddFlags; mret (λ v, mkTreeOptions (registry v)).

Record CopyOptions := mkCopyOptions {
  SignatureOnly : bool; Copy_Force : bool; Copy_Registry : RegistryOptions }.
Definition CopyOptions_AddFlags : M FlagSet (Var CopyOptions) :=
  registry ← RegistryOptions_AddFlags;
  sigOnly ← BoolVar "sig-only" false;
  force ← BoolVarP "force" "f" false;
  mret (λ v, mkCopyOptions (sigOnly v) (force v) (registry v)).

Record LoadOptions := mkLoadOptions { Load_Directory : string }.
Definition LoadOptions_AddFlags : M FlagSet (Var LoadOptions) :=
  dir ← StringVar "dir" ""; mret (λ v, mkLoadOptions (dir v)).
Record SaveOptions := mkSaveOptions { Save_Directory : string }.
Definition SaveOptions_AddFlags : M FlagSet (Var SaveOptions) :=
  dir ← StringVar "dir" ""; mret (λ v, mkSaveOptions (dir v)).

Record TriangulateOptions := mkTriangulateOptions {
  Triangulate_Type : string; Triangulate_Registry : RegistryOptions }.
Definition TriangulateOptions_AddFlags : M FlagSet (Var TriangulateOptions) :=
  registry ← RegistryOptions_AddFlags;
  type ← StringVar "type" "signature";
  mret (λ v, mkTriangulateOptions (type v) (registry v)).

Record UploadBlobOptions := mkUploadBlobOptions {
  ContentType : string; UB_Files : FilesOptions; UB_Registry : RegistryOptions }.
Definition UploadBlobOptions_AddFlags : M FlagSet (Var UploadBlobOptions) :=
  registry ← RegistryOptions_AddFlags;
  files ← FilesOptions_AddFlags;
  ct ← StringVar "ct" "";
  mret (λ v, mkUploadBlobOptions (ct v) (files v) (registry v)).
Record UploadWASMOptions := mkUploadWASMOptions { File : string; UW_Registry : RegistryOptions }.
Definition UploadWASMOptions_AddFlags : M FlagSet (Var UploadWASMOptions) :=
  registry ← RegistryOptions_AddFlags;
  file ← StringVarP "file" "f" "";
  mret (λ v, mkUploadWASMOptions (file v) (registry v)).

Record GenerateOptions := mkGenerateOptions {
  Generate_Annotations : AnnotationOptions; Generate_Registry : RegistryOptions }.
Definition GenerateOptions_AddFlags : M FlagSet (Var GenerateOptions) :=
  annotations ← AnnotationOptions_AddFlags;
  registry ← RegistryOptions_AddFlags;
  mret (λ v, mkGenerateOptions (annotations v) (registry v)).

(** *** Keys and roots *)

Record GenerateKeyPairOptions := mkGenerateKeyPairOptions { KMS : string }.
Definition GenerateKeyPairOptions_AddFlags : M FlagSet (Var GenerateKeyPairOptions) :=
  kms ← StringVar "kms" ""; mret (λ v, mkGenerateKeyPairOptions (kms v)).
Record ImportKeyPairOptions := mkImportKeyPairOptions { Import_Key : string }.
Definition ImportKeyPairOptions_AddFlags : M FlagSet (Var ImportKeyPairOptions) :=
  key ← StringVar "key" ""; mret (λ v, mkImportKeyPairOptions (key v)).
Record PublicKeyOptions := mkPublicKeyOptions {
  PK_Key : string; PK_SecurityKey : SecurityKeyOptions; PK_OutFile : string }.
Definition PublicKeyOptions_AddFlags : M FlagSet (Var PublicKeyOptions) :=
  securityKey ← SecurityKeyOptions_AddFlags;
  key ← StringVar "key" "";
  outFile ← StringVar "outfile" "";
  mret (λ v, mkPublicKeyOptions (key v) (securityKey v) (outFile v)).
Record InitializeOptions := mkInitializeOptions { Mirror : string; Root : string }.
Definition InitializeOptions_AddFlags : M FlagSet (Var InitializeOptions) :=
  mirror ← StringVar "mirror" "sigstore-tuf-root";
  root ← StringVar "root" "";
  mret (λ v, mkInitializeOptions (mirror v) (root v)).

Record PolicyInitOptions := mkPolicyInitOptions {
  PI_ImageRef : string; Maintainers : list string; PI_Issuer : string; Threshold : Z; Expires : Z;
  PI_OutFile : string; PI_Registry : RegistryOptions }.
Definition PolicyInitOptions_AddFlags : M FlagSet (Var PolicyInitOptions) :=
  imageRef ← StringVar "namespace" "ns";
  outFile ← StringVar "out" "o";
  issuer ← StringVar "issuer" "";
  threshold ← IntVar "threshold" 1%Z;
  maintainers ← StringSliceVarP "maintainers" "m" [];
  expires ← IntVar "expires" 0%Z;
  registry ← RegistryOptions_AddFlags;
  mret (λ v, mkPolicyInitOptions (imageRef v) (maintainers v) (issuer v) (threshold v) (expires v)
    (outFile v) (registry v)).
Record PolicySignOptions := mkPolicySignOptions {
  PS_ImageRef : string; PS_OutFile : string; PS_Registry : RegistryOptions;
  PS_Fulcio : FulcioOptions; PS_Rekor : RekorOptions; PS_OIDC : OIDCOptions }.
Definition PolicySignOptions_AddFlags : M FlagSet (Var PolicySignOptions) :=
  imageRef ← StringVar "namespace" "ns";
  outFile ← StringVar "out" "o";
  registry ← RegistryOptions_AddFlags;
  fulcio ← FulcioOptions_AddFlags;
  rekor ← RekorOptions_AddFlags;
  oidc ← OIDCOptions_AddFlags;
  mret (λ v, mkPolicySignOptions (imageRef v) (outFile v) (registry v) (fulcio v) (rekor v) (oidc v)).

(** *** Tokens *)

Record PKCS11ToolListTokensOptions := mkListTokensOptions { LT_ModulePath : string }.
Definition PKCS11ToolListTokensOptions_AddFlags : M FlagSet (Var PKCS11ToolListTokensOptions) :=
  modulePath ← StringVar "module-path" ""; mret (λ v, mkListTokensOptions (modulePath v)).
Record PKCS11ToolListKeysUrisOptions := mkListKeysUrisOptions {
  LK_ModulePath : string; SlotID : Z; Pin : string }.
Definition PKCS11ToolListKeysUrisOptions_AddFlags : M FlagSet (Var PKCS11ToolListKeysUrisOptions) :=
  modulePath ← StringVar "module-path" "";
  slotID ← UintVar "slot-id" 0%Z;
  pin ← StringVar "pin" "";
  mret (λ v, mkListKeysUrisOptions (modulePath v) (slotID v) (pin v)).

Record PIVToolSetManagementKeyOptions := mkSetManagementKeyOptions {
  OldKey : string; NewKey : string; SMK_RandomKey : bool }.
Definition PIVToolSetManagementKeyOptions_AddFlags : M FlagSet (Var PIVToolSetManagementKeyOptions) :=
  oldKey ← StringVar "old-key" "";
  newKey ← StringVar "new-key" "";
  randomKey ← BoolVar "random-management-key" false;
  mret (λ v, mkSetManagementKeyOptions (oldKey v) (newKey v) (randomKey v)).
Record PIVToolSetPINOptions := mkSetPINOptions { OldPIN : string; SetPIN_NewPIN : string }.
Definition PIVToolSetPINOptions_AddFlags : M FlagSet (Var PIVToolSetPINOptions) :=
  oldPIN ← StringVar "old-pin" ""; newPIN ← StringVar "new-pin" "";
  mret (λ v, mkSetPINOptions (oldPIN v) (newPIN v)).
Record PIVToolSetPUKOptions := mkSetPUKOptions { OldPUK : string; NewPUK : string }.
Definition PIVToolSetPUKOptions_AddFlags : M FlagSet (Var PIVToolSetPUKOptions) :=
  oldPUK ← StringVar "old-puk" ""; newPUK ← StringVar "new-puk" "";
  mret (λ v, mkSetPUKOptions (oldPUK v) (newPUK v)).
Record PIVToolUnblockOptions := mkUnblockOptions { PUK : string; Unblock_NewPIN : string }.
Definition PIVToolUnblockOptions_AddFlags : M FlagSet (Var PIVToolUnblockOptions) :=
  puk ← StringVar "puk" ""; newPIN ← StringVar "new-PIN" "";
  mret (λ v, mkUnblockOptions (puk v) (newPIN v)).
Record PIVToolAttestationOptions := mkPIVAttestationOptions { PA_Output : string; PA_Slot : string }.
Definition PIVToolAttestationOptions_AddFlags : M FlagSet (Var PIVToolAttestationOptions) :=
  output ← StringVarP "output" "o" "text"; slot ← StringVar "slot" "";
  mret (λ v, mkPIVAttestationOptions (output v) (slot v)).
Record PIVToolGenerateKeyOptions := mkPIVGenerateKeyOptions {
  ManagementKey : string; GK_RandomKey : bool; GK_Slot : string; PINPolicy : string;
  TouchPolicy : string }.
Definition PIVToolGenerateKeyOptions_AddFlags : M FlagSet (Var PIVToolGenerateKeyOptions) :=
  managementKey ← StringVar "management-key" "";
  randomKey ← BoolVar "random-management-key" false;
  slot ← StringVar "slot" "";
  pinPolicy ← StringVar "pin-policy" "";
  touchPolicy ← StringVar "touch-policy" "";
  mret (λ v, mkPIVGenerateKeyOptions (managementKey v) (randomKey v) (slot v) (pinPolicy v)
    (touchPolicy v)).

End options.
End options.

(** ** The tree of commands *)

Inductive Command := mkCommand (use : string) (persistent flags : M FlagSet unit) (subs : list Command).

Definition Use_ (c : Command) := let '(mkCommand u _ _ _) := c in u.
Definition PersistentFlags (c : Command) := let '(mkCommand _ p _ _) := c in p.
Definition Flags (c : Command) := let '(mkCommand _ _ f _) := c in f.
Definition Commands (c : Command) := let '(mkCommand _ _ _ l) := c in l.

(** The name is the first word of Use. *)
Definition Command_Name (c : Command) : string := match strings_Split (Use_ c) " "%char with n :: _ => n | [] => "" end.

Module cli.
Section tree.
Context `{PF : Pflag}.

Definition no_flags : M FlagSet unit := mret ().
(** o.AddFlags(cmd), for the flags. *)
Definition bound {A} (m : M FlagSet (Var A)) : M FlagSet unit := m;; mret ().

Definition attachSignature : Command := mkCommand "signature" no_flags (bound options.AttachSignatureOptions_AddFlags) [].
Definition attachSBOM : Command := mkCommand "sbom" no_flags (bound options.AttachSBOMOptions_AddFlags) [].
Definition attachAttestation : Command := mkCommand "attestation" no_flags (bound options.AttachAttestationOptions_AddFlags) [].
Definition Attach : Command :=
  mkCommand "attach" no_flags no_flags
    [attachSignature; attachSBOM; attachAttestation].
Definition Attest : Command := mkCommand "attest" no_flags (bound options.AttestOptions_AddFlags) [].
Definition Clean : Command := mkCommand "clean" no_flags (bound options.CleanOptions_AddFlags) [].
Definition Tree : Command := mkCommand "tree" no_flags (bound options.TreeOptions_AddFlags) [].
Definition Completion : Command := mkCommand "completion [bash|zsh|fish|powershell]" no_flags no_flags [].
Definition Copy : Command := mkCommand "copy" no_flags (bound options.CopyOptions_AddFlags) [].
Definition dockerfileVerify : Command := mkCommand "verify" no_flags (bound options.VerifyDockerfileOptions_AddFlags) [].
Definition Dockerfile : Command :=
  mkCommand "dockerfile" no_flags no_flags
    [dockerfileVerify].
Definition downloadSignature : Command := mkCommand "signature" no_flags (bound options.RegistryOptions_AddFlags) [].
Definition downloadSBOM : Command := mkCommand "sbom" no_flags (bound options.RegistryOptions_AddFlags) [].
Definition downloadAttestation : Command := mkCommand "attestation" no_flags (bound options.RegistryOptions_AddFlags) [].
Definition Download : Command :=
  mkCommand "download" no_flags no_flags
    [downloadSignature; downloadSBOM; downloadAttestation].
Definition Generate : Command := mkCommand "generate" no_flags (bound options.GenerateOptions_AddFlags) [].
Definition GenerateKeyPair : Command := mkCommand "generate-key-pair" no_flags (bound options.GenerateKeyPairOptions_AddFlags) [].
Definition ImportKeyPair : Command := mkCommand "import-key-pair" no_flags (bound options.ImportKeyPairOptions_AddFlags) [].
Definition Initialize : Command := mkCommand "initialize" no_flags (bound options.InitializeOptions_AddFlags) [].
Definition Load : Command := mkCommand "load" no_flags (bound options.LoadOptions_AddFlags) [].
Definition manifestVerify : Command := mkCommand "verify" no_flags (bound options.VerifyOptions_AddFlags) [].
Definition Manifest : Command :=
  mkCommand "manifest" no_flags no_flags
    [manifestVerify].
Definition pivToolSetManagementKey : Command := mkCommand "set-management-key" no_flags (bound options.PIVToolSetManagementKeyOptions_AddFlags) [].
Definition pivToolSetPIN : Command := mkCommand "set-pin" no_flags (bound options.PIVToolSetPINOptions_AddFlags) [].
Definition pivToolSetPUK : Command := mkCommand "set-puk" no_flags (bound options.PIVToolSetPUKOptions_AddFlags) [].
Definition pivToolUnblock : Command := mkCommand "unblock" no_flags (bound options.PIVToolUnblockOptions_AddFlags) [].
Definition pivToolAttestation : Command := mkCommand "attestation" no_flags (bound options.PIVToolAttestationOptions_AddFlags) [].
Definition pivToolGenerateKey : Command := mkCommand "generate-key" no_flags (bound options.PIVToolGenerateKeyOptions_AddFlags) [].
Definition pivToolResetKey : Command := mkCommand "reset" no_flags no_flags [].
Definition PIVTool : Command :=
  mkCommand "piv-tool" (bound (BoolVarP "no-input" "f" false)) no_flags
    [pivToolSetManagementKey; pivToolSetPIN; pivToolSetPUK; pivToolUnblock; pivToolAttestation; pivToolGenerateKey; pivToolResetKey].
Definition pkcs11ToolListTokens : Command := mkCommand "list-tokens" no_flags (bound options.PKCS11ToolListTokensOptions_AddFlags) [].
Definition pkcs11ToolListKeysUris : Command := mkCommand "list-keys-uris" no_flags (bound options.PKCS11ToolListKeysUrisOptions_AddFlags) [].
Definition PKCS11Tool : Command :=
  mkCommand "pkcs11-tool" (bound (BoolVarP "no-input" "f" false)) no_flags
    [pkcs11ToolListTokens; pkcs11ToolListKeysUris].
Definition initPolicy : Command := mkCommand "init" no_flags (bound options.PolicyInitOptions_AddFlags) [].
Definition signPolicy : Command := mkCommand "sign" no_flags (bound options.PolicySignOptions_AddFlags) [].
Definition Policy : Command :=
  mkCommand "policy" no_flags no_flags
    [initPolicy; signPolicy].
Definition PublicKey : Command := mkCommand "public-key" no_flags (bound options.PublicKeyOptions_AddFlags) [].
Definition Save : Command := mkCommand "save" no_flags (bound options.SaveOptions_AddFlags) [].
Definition Sign : Command := mkCommand "sign" no_flags (bound options.SignOptions_AddFlags) [].
Definition SignBlob : Command := mkCommand "sign-blob" no_flags (bound options.SignBlobOptions_AddFlags) [].
Definition uploadBlob : Command := mkCommand "blob" no_flags (bound options.UploadBlobOptions_AddFlags) [].
Definition uploadWASM : Command := mkCommand "wasm" no_flags (bound options.UploadWASMOptions_AddFlags) [].
Definition Upload : Command :=
  mkCommand "upload" no_flags no_flags
    [uploadBlob; uploadWASM].
Definition Verify : Command := mkCommand "verify" no_flags (bound options.VerifyOptions_AddFlags) [].
Definition VerifyAttestation : Command := mkCommand "verify-attestation" no_flags (bound options.VerifyAttestationOptions_AddFlags) [].
Definition VerifyBlob : Command := mkCommand "verify-blob" no_flags (bound options.VerifyBlobOptions_AddFlags) [].
Definition Triangulate : Command := mkCommand "triangulate" no_flags (bound options.TriangulateOptions_AddFlags) [].

(** The root; its last two subcommands, version and login, are those of libraries. *)
Definition own_commands : list Command :=
  [Attach; Attest; Clean; Tree; Completion; Copy; Dockerfile; Download;
   Generate; GenerateKeyPair; ImportKeyPair; Initialize; Load; Manifest; PIVTool; PKCS11Tool;
   Policy; PublicKey; Save; Sign; SignBlob; Upload; Verify; VerifyAttestation; VerifyBlob; Triangulate].
Definition New (library : list Command) : Command :=
  mkCommand "cosign" (bound options.RootOptions_AddFlags) no_flags (own_commands ++ library).

End tree.
End cli.

(** ** What registration needs *)

(** No two flags share a name or a shorthand, and a shorthand is one character. *)
Definition distinct (fs : FlagSet) : Prop :=
  NoDup (f_Name <$> fs) ∧ NoDup (filter (λ s, s ≠ "") (f_Shorthand <$> fs))
  ∧ Forall (λ f, String.length (f_Shorthand f) ≤ 1) fs.
#[export] Instance distinct_dec fs : Decision (distinct fs).
Proof. unfold distinct. apply _. Defined.

Section registration.
Context `{PF : Pflag, PL : !PflagLaws}.

(** [m] registers exactly the flags [fs]. *)
Definition adds {A} (m : M FlagSet A) (fs : FlagSet) : Prop :=
  ∀ fs0, distinct (fs0 ++ fs) → ∃ a, m fs0 = (fs0 ++ fs, Ok a).

Lemma distinct_app_l fs fs' : distinct (fs ++ fs') → distinct fs.
Proof.
  unfold distinct. rewrite !fmap_app, filter_app. intros (Hn & Hs & Hl).
  apply NoDup_app in Hn as (? & _). apply NoDup_app in Hs as (? & _). by apply Forall_app in Hl as [? _].
Qed.

Lemma distinct_new fs f :
  distinct (fs ++ [f]) → pflag_AddFlag fs f = Ok ().
Proof.
  unfold distinct. rewrite !fmap_app, filter_app. intros (Hn & Hs & Hl). apply AddFlag_new.
  - apply NoDup_app in Hn as (_ & Hn & _). intros Hin. by apply (Hn _ Hin), list_elem_of_here.
  - apply Forall_app in Hl as [_ [Hl _]%Forall_cons].
    destruct (decide (f_Shorthand f = "")) as [|Hne]; [by left|right]. split.
    + clear Hs Hn. revert Hl Hne. destruct (f_Shorthand f) as [|c [|d s']]; [done|done|]. cbn. lia.
    + apply NoDup_app in Hs as (_ & Hs & _). intros Hin. eapply (Hs (f_Shorthand f)).
      * by apply list_elem_of_filter.
      * cbn. rewrite decide_True by done. apply list_elem_of_here.
Qed.

Lemma adds_ret {A} (a : A) : adds (mret a) [].
Proof. intros fs0 _. exists a. by rewrite app_nil_r. Qed.
Lemma adds_bind {A B} (m : M FlagSet A) (k : A → M FlagSet B) fs1 fs2 :
  adds m fs1 → (∀ a, adds (k a) fs2) → adds (m ≫= k) (fs1 ++ fs2).
Proof.
  intros Hm Hk fs0. rewrite app_assoc. intros Hd.
  destruct (Hm fs0) as (a & Ha); [by eapply distinct_app_l|].
  destruct (Hk a _ Hd) as (b & Hb). exists b. unfold mbind, M_bind. by rewrite Ha.
Qed.
Lemma adds_VarP {A} get (mk : A → FlagValue) name shorthand value :
  adds (VarP get mk name shorthand value) [mkFlag name shorthand (mk value)].
Proof.
  intros fs0 Hd. unfold VarP, gets, lift, modify, mbind, M_bind, id. rewrite (distinct_new _ _ Hd).
  cbn. by eexists.
Qed.

Lemma adds_run {A} (m : M FlagSet A) fs : adds m fs → distinct fs → ∃ a, m [] = (fs, Ok a).
Proof. intros Hm Hd. by apply (Hm []). Qed.

End registration.

(** Find the flags that a method registers. *)
Ltac head_of t := match t with ?f _ => head_of f | _ => t end.
Ltac find_flags :=
  repeat first
    [ apply adds_ret | apply adds_VarP | eapply adds_bind; [|intros ?]
    | match goal with |- adds ?m _ => let f := head_of m in unfold f end ].

(** Every command below [c], with the commands above it. *)
Fixpoint all_commands (above : list Command) (c : Command) : list (list Command * Command) :=
  let '(mkCommand _ _ _ subs) := c in
  (above, c) :: concat ((fix go l := match l with
                                     | [] => []
                                     | s :: l' => all_commands (c :: above) s :: go l'
                                     end) subs).

(** The flag that cobra adds to every command. *)
Definition help_flag : Flag := mkFlag "help" "h" (VBool false).

Section commands.
Context `{PF : Pflag, PL : !PflagLaws}.

(** The command can be built and run: registering its flags and the persistent ones
    does not panic, the flags that it is run with are distinct, and so are the names of
    its subcommands. *)
Definition builds (pc : list Command * Command) : Prop :=
  let '(above, c) := pc in
  ∃ fs pss, Flags c [] = (fs, Ok ())
    ∧ Forall2 (λ p ps, PersistentFlags p [] = (ps, Ok ())) (c :: above) pss
    ∧ distinct (fs ++ concat pss ++ [help_flag])
    ∧ NoDup (Command_Name <$> Commands c).

Lemma builds_intro above c fs pss :
  adds (Flags c) fs → Forall2 (λ p ps, adds (PersistentFlags p) ps) (c :: above) pss →
  bool_decide (distinct (fs ++ concat pss ++ [help_flag]) ∧ Forall distinct pss
               ∧ NoDup (Command_Name <$> Commands c)) = true →
  builds (above, c).
Proof.
  intros Hf Hp (Hd & Hds & Hn)%bool_decide_eq_true. exists fs, pss. split_and!; try done.
  - destruct (adds_run _ _ Hf) as ([] & ?); [by eapply distinct_app_l|done].
  - clear Hd Hn Hf. induction Hp as [|p ps l lps Hps _ IH]; constructor; apply Forall_cons in Hds as [??].
    + by destruct (adds_run _ _ Hps) as ([] & ?).
    + by apply IH.
Qed.

Ltac builds :=
  eapply builds_intro;
  [ cbn [Flags]; find_flags
  | repeat (constructor; [cbn [PersistentFlags]; find_flags|]); constructor
  | vm_compute; reflexivity ].

Lemma own_commands_build library :
  Forall builds (concat (all_commands [cli.New library] <$> cli.own_commands)).
Proof.
  cbn [cli.own_commands fmap list_fmap all_commands concat app].
  repeat (apply Forall_cons; split); [builds..|constructor].
Qed.

(** C36: The program can build its commands and run each of them.  Registering the flags
    of any of the 47 commands of the tree never panics for a flag that is defined
    twice; the flags that a command is run with, its own, those that it inherits from the
    commands above it and cobra's --help, have distinct names and distinct one-letter
    shorthands; and no two subcommands of a command have the same name, nor of the root
    with the two that it takes from libraries, which doc/cosign.md calls version and
    login. *)
Theorem commands_build library :
  (∃ ps, PersistentFlags (cli.New library) [] = (ps, Ok ()) ∧ distinct (ps ++ [help_flag]))
  ∧ NoDup (Command_Name <$> cli.own_commands)
  ∧ (Command_Name <$> library = ["version"; "login"] →
     NoDup (Command_Name <$> Commands (cli.New library)))
  ∧ ∀ above c, (above, c) ∈ concat (all_commands [cli.New library] <$> cli.own_commands) →
      builds (above, c).
Proof.
  split_and!.
  - assert (∃ ps, adds (PersistentFlags (cli.New library)) ps ∧ distinct (ps ++ [help_flag]))
      as (ps & Hps & Hd).
    { eexists. split; [cbn [PersistentFlags cli.New]; find_flags|refine (bool_decide_unpack _ _); vm_compute; exact I]. }
    exists ps. split; [|done]. by destruct (adds_run _ _ Hps) as ([] & ?); [eapply distinct_app_l|].
  - refine (bool_decide_unpack _ _). vm_compute. exact I.
  - intros Hl. cbn [Commands cli.New]. rewrite fmap_app, Hl.
    refine (bool_decide_unpack _ _). vm_compute. exact I.
  - intros above c Hin. pose proof (own_commands_build library) as H.
    by eapply Forall_forall in Hin.
Qed.

End commands.

(** ** What main does to the arguments *)

Definition ascii_only (s : string) : Prop := Forall (λ c, nat_of_ascii c < 128) (String.list_ascii_of_string s).

(** A POSIX argument: no flag, a dash and one more character, or a long flag. *)
Definition posix_arg (arg : string) : Prop :=
  strings_HasPrefix arg "-" = false ∨ String.length arg = 2
  ∨ strings_HasPrefix arg "--" = true ∧ 4 ≤ String.length arg.

(** The cases of the loop. *)
Lemma fix_arg_other arg : strings_HasPrefix arg "-" = false → fix_arg arg = arg.
Proof.
  intros H. assert (strings_HasPrefix arg "--" = false) as H'.
  { destruct (strings_HasPrefix arg "--") eqn:E2; [|done].
    apply HasPrefix_spec in E2 as (r & ->). by rewrite (proj2 (HasPrefix_spec _ "-")) in H by by exists ("-" +:+ r). }
  unfold fix_arg. by rewrite H, H'.
Qed.
Lemma fix_arg_short c : fix_arg (String "-" (String c "")) = String "-" (String c "").
Proof. done. Qed.
Lemma fix_arg_long s : 2 ≤ String.length s → fix_arg ("--" +:+ s) = "--" +:+ s.
Proof.
  intros H. unfold fix_arg. destruct s as [|a [|b s]]; cbn in H; [lia..|]. done.
Qed.
Lemma fix_arg_one c : fix_arg (String "-" (String "-" (String c ""))) = "-" +:+ fmt_c c.
Proof. done. Qed.
Lemma two_dashes c s : c ≠ "-"%char → strings_HasPrefix (String "-" (String c s)) "--" = false.
Proof.
  intros Hc. destruct (strings_HasPrefix _ _) eqn:H; [|done].
  apply HasPrefix_spec in H as (r & [= ->]). done.
Qed.
Lemma fix_arg_single c s :
  c ≠ "-"%char → 1 ≤ String.length s → fix_arg (String "-" (String c s)) = String "-" (String "-" (String c s)).
Proof.
  intros Hc H. destruct s as [|a s]; cbn in H; [lia|]. unfold fix_arg. by rewrite two_dashes.
Qed.

(** Every argument is of one of these forms. *)
Lemma arg_cases arg :
  strings_HasPrefix arg "-" = false ∨ arg = "-" ∨ (∃ c, arg = String "-" (String c ""))
  ∨ (∃ c, arg = String "-" (String "-" (String c "")))
  ∨ (∃ s, 2 ≤ String.length s ∧ arg = "--" +:+ s)
  ∨ (∃ c s, c ≠ "-"%char ∧ 1 ≤ String.length s ∧ arg = String "-" (String c s)).
Proof.
  destruct (strings_HasPrefix arg "-") eqn:E1; [right|by left].
  apply HasPrefix_spec in E1 as ([|c [|d s]] & ->); [by left|by right; left; exists c|right; right].
  destruct (decide (c = "-"%char)) as [->|Hc].
  - destruct s as [|e s]; [left; by exists d|right; left]. exists (String d (String e s)). cbn. split; [lia|done].
  - right; right. exists c, (String d s). cbn. split_and!; [done|lia|done].
Qed.

Lemma fix_arg_fixed arg : posix_arg arg → fix_arg arg = arg.
Proof.
  intros Hp. destruct (arg_cases arg) as [H|[->|[(c & ->)|[(c & ->)|[(s & H & ->)|(c & s & Hc & H & ->)]]]]].
  - by apply fix_arg_other.
  - unfold posix_arg in Hp. cbn in Hp. naive_solver lia.
  - apply fix_arg_short.
  - unfold posix_arg in Hp. cbn in Hp. naive_solver lia.
  - by apply fix_arg_long.
  - unfold posix_arg in Hp. rewrite two_dashes in Hp by done. cbn in Hp. naive_solver lia.
Qed.

Lemma fix_arg_posix arg : ascii_only arg → posix_arg (fix_arg arg).
Proof.
  intros Ha. destruct (arg_cases arg) as [H|[->|[(c & ->)|[(c & ->)|[(s & H & ->)|(c & s & Hc & H & ->)]]]]].
  - rewrite fix_arg_other by done. by left.
  - right; left. done.
  - rewrite fix_arg_short. right; left. done.
  - rewrite fix_arg_one. right; left. unfold ascii_only in Ha. cbn in Ha.
    rewrite !Forall_cons in Ha. destruct Ha as (_ & _ & Ha & _). unfold fmt_c.
    apply Nat.ltb_lt in Ha. by rewrite Ha.
  - rewrite fix_arg_long by done. right; right. split; [apply HasPrefix_spec; by exists s|]. cbn. lia.
  - rewrite fix_arg_single by done. right; right.
    split; [apply HasPrefix_spec; by exists (String c s)|]. destruct s; cbn in *; lia.
Qed.

Lemma fix_arg_not_dash arg : fix_arg arg ≠ "-".
Proof.
  destruct (arg_cases arg) as [H|[->|[(c & ->)|[(c & ->)|[(s & H & ->)|(c & s & Hc & H & ->)]]]]].
  - rewrite fix_arg_other by done. intros ->. done.
  - done.
  - by rewrite fix_arg_short.
  - rewrite fix_arg_one. unfold fmt_c. by destruct (_ <? _).
  - by rewrite fix_arg_long.
  - by rewrite fix_arg_single.
Qed.

(** Main brings every argument to POSIX form, once and for all: of ASCII arguments
    each result is no flag, a dash with one character, or a flag with two dashes; it
    changes nothing that already is in that form, so doing it twice is doing it once. *)
Theorem fix_args_posix argv :
  Forall ascii_only argv →
  Forall posix_arg (fix_args argv) ∧ fix_args (fix_args argv) = fix_args argv
  ∧ ∀ argv', Forall posix_arg argv' → fix_args argv' = argv'.
Proof.
  intros Ha. assert (∀ argv', Forall posix_arg argv' → fix_args argv' = argv') as Hfix.
  { intros argv' H. unfold fix_args. induction H; cbn; [done|]. by rewrite fix_arg_fixed, IHForall by done. }
  assert (Forall posix_arg (fix_args argv)) as Hp.
  { apply Forall_fmap. eapply Forall_impl; [exact Ha|]. apply fix_arg_posix. }
  split_and!; [done| |done]. by apply Hfix.
Qed.

(** C37: Standard input cannot be named by an argument of the command line.  A single dash, which
    sign-blob and verify-blob document as standard input, becomes the two dashes that
    end the flags, so whatever the command line is, no command gets a dash as an
    argument. *)
Theorem stdin_argument_lost `{PF : Pflag, PL : !PflagLaws} fs argv vals args :
  pflag_Parse fs (fix_args argv) = Ok (vals, args) → "-" ∉ args ∧ fix_arg "-" = "--".
Proof.
  intros H. split; [|done]. intros Hin. eapply Parse_args in Hin; [|exact H].
  apply list_elem_of_fmap_1 in Hin as (arg & Harg & _). by destruct (fix_arg_not_dash arg).
Qed.

(** ** A flag library *)

(** The flag that an argument names. *)
Definition named (fs : FlagSet) (arg : string) : option Flag :=
  head (filter (λ f, "--" +:+ f_Name f = arg) fs).

(** Long flags, with the value in the next argument unless they are boolean; after two
    dashes there are only arguments. *)
Fixpoint toy_parse (fs : FlagSet) (argv : list string) (vals : Values) (args : list string) :
    res (Values * list string) :=
  match argv with
  | [] => Ok (vals, args)
  | a :: argv =>
      if a =?s "--" then Ok (vals, args ++ argv)
      else if strings_HasPrefix a "-" then
        match named fs a, argv with
        | None, _ => Err (error_New ("unknown flag: " +:+ a))
        | Some (mkFlag n _ (VBool _)), _ => toy_parse fs argv (<[n := VBool true]> vals) args
        | Some (mkFlag n _ (VStrings _)), v :: argv' =>
            toy_parse fs argv' (<[n := VStrings [v]]> vals) args
        | Some (mkFlag n _ _), v :: argv' => toy_parse fs argv' (<[n := VString v]> vals) args
        | Some _, [] => Err (error_New ("flag needs an argument: " +:+ a))
        end
      else toy_parse fs argv vals (args ++ [a])
  end.

Definition toy_Pflag : Pflag := {|
  pflag_AddFlag fs f :=
    if bool_decide (f_Name f ∈ f_Name <$> fs) then Panic ("flag redefined: " +:+ f_Name f)
    else if negb (f_Shorthand f =?s "") && bool_decide (f_Shorthand f ∈ f_Shorthand <$> fs)
    then Panic ("unable to redefine shorthand " +:+ f_Shorthand f) else Ok ();
  pflag_Parse fs argv := toy_parse fs argv ∅ [] |}.

Lemma toy_parse_args fs (argv0 : list string) a : ∀ argv vals (args : list string) vals' args',
  (∀ b, b ∈ argv → b ∈ argv0) → (∀ b, b ∈ args → b ∈ argv0) →
  toy_parse fs argv vals args = Ok (vals', args') → a ∈ args' → a ∈ argv0.
Proof.
  fix IH 1. intros [|b argv] vals args vals' args' Hv Ha; cbn [toy_parse]; [naive_solver|].
  destruct (b =?s "--").
  { intros [= <- <-] [?|?]%elem_of_app; [by apply Ha|]. apply Hv. by right. }
  destruct (strings_HasPrefix b "-").
  - destruct (named fs b) as [[n sh [| | | | |]]|]; [..|done];
      try (by apply IH; [set_solver|done]); destruct argv as [|v argv]; try done;
      by apply IH; [set_solver|done].
  - apply IH; [set_solver|]. intros b' [?|Hb%list_elem_of_singleton]%elem_of_app; [by apply Ha|].
    subst. apply Hv. by left.
Qed.

#[export] Instance toy_PflagLaws : PflagLaws (PF := toy_Pflag).
Proof.
  split.
  - intros fs f Hn Hs. cbn. rewrite bool_decide_eq_false_2 by done.
    destruct Hs as [->|[_ Hs]]; [done|]. rewrite (bool_decide_eq_false_2 _ Hs). by rewrite andb_false_r.
  - intros fs argv vals args a H. cbn in H.
    eapply toy_parse_args; [..|exact H]; [done|set_solver].
Qed.

Lemma commands_build_witness :
  ∃ ps, PersistentFlags (cli.New (PF := toy_Pflag) []) [] = (ps, Ok ()) ∧ distinct (ps ++ [help_flag]).
Proof. exact (proj1 (commands_build (PF := toy_Pflag) [])). Defined.

Lemma fix_args_posix_witness :
  Forall posix_arg (fix_args ["cosign"; "sign"; "-key"; "k"; "--f"; "img"]).
Proof.
  refine (proj1 (fix_args_posix ["cosign"; "sign"; "-key"; "k"; "--f"; "img"] _)).
  refine (bool_decide_unpack _ _). vm_compute. exact I.
Defined.

(** The command line of the documentation, with standard input. *)
Lemma stdin_argument_lost_witness :
  pflag_Parse (Pflag := toy_Pflag) (fst (Flags (cli.VerifyBlob (PF := toy_Pflag)) []))
    (fix_args ["--key"; "cosign.pub"; "-"]) = Ok ({["key" := VString "cosign.pub"]}, [])
  ∧ "-" ∉ ([] : list string).
Proof.
  split; [reflexivity|].
  exact (proj1 (stdin_argument_lost (PF := toy_Pflag) (fst (Flags (cli.VerifyBlob (PF := toy_Pflag)) []))
    ["--key"; "cosign.pub"; "-"] {["key" := VString "cosign.pub"]} [] eq_refl)).
Defined.
