(* ===== verification/CommandLine.v ===== *)
(** * The command line: what each command runs

    The RunE and PreRunE functions of the commands of cmd/cosign/cli, from the parsed
    options of Options.v to the commands of the other files, with RegistryOptions'
    GetRegistryClientOpts, AttachSBOMOptions.MediaType and GenerateCmd.

    cobra, which finds the command, parses its flags and checks the number of its
    arguments, is not modelled: a RunE is a function of the options and the arguments. *)
From S2P Require Import Prelude GoStd External Concrete OciSignature OciSignatures OciEntity.
From S2P Require Import OciRemote Tuf Tlog Ctl Verify Keys Sign Credentials Attest Blob VerifyCmd.
From S2P Require Import RegistryCmds Tree Scan PolicyCmd Options.
Import options.

(** The options of go-containerregistry's remote package, and the keychains. *)
Class CliExt `{R : Registry} := {
  AuthKeychain : Type;
  authn_DefaultKeychain : AuthKeychain;
  google_Keychain : AuthKeychain;
  github_Keychain : AuthKeychain;
  ecr_Keychain : AuthKeychain;       (* authn.NewKeychainFromHelper(ecr.NewECRHelper(...)) *)
  acr_Keychain : AuthKeychain;       (* authn.NewKeychainFromHelper(credhelper...) *)
  authn_NewMultiKeychain : list AuthKeychain → AuthKeychain;
  opt_WithContext : ROption;
  opt_WithUserAgent : string → ROption;
  opt_WithAuthFromKeychain : AuthKeychain → ROption;
  opt_WithInsecureTransport : ROption;   (* InsecureSkipVerify *)
  UserAgent : string;
  (* what reading a layer's Compressed() delivers: bytes, then the end or an error *)
  layer_Read : Layer → res (bytes * option error);
  os_Create : string → res unit }.

(** The world of sget: the standard output, with a buffer, and files. *)
Record SgetWorld := mkSgetWorld {
  sg_Cmd : CmdWorld; sg_Buffer : bytes; sg_Stdout : bytes; sg_Files : gmap string bytes }.

(** ** The root command's hooks *)

(** os.Stdout as the file it is, nil after a nil is assigned; [out] and [stdout] are the
    variables of New. *)
Record StdWorld := mkStdWorld { os_Stdout : option string; out : option string; stdout_saved : option string }.

Definition PersistentPreRunE (create : string → res unit) (ro : RootOptions) : M StdWorld unit :=
  if negb (OutputFile ro =?s "") then
    lift (wrap ("Error creating output file " +:+ OutputFile ro) (create (OutputFile ro)));;
    modify (λ w, mkStdWorld (Some (OutputFile ro)) (Some (OutputFile ro)) (os_Stdout w))
  else mret ().
(** The error of Close is dropped. *)
Definition PersistentPostRun : M StdWorld unit :=
  modify (λ w, mkStdWorld (stdout_saved w) (out w) (stdout_saved w)).

(** The standard output is given back after a command that wrote to a file, and taken
    away after one that did not. *)
Lemma stdout_after_command create ro std w' :
  (PersistentPreRunE create ro;; PersistentPostRun) (mkStdWorld (Some std) None None) = (w', Ok ()) →
  os_Stdout w' = if OutputFile ro =?s "" then None else Some std.
Proof. unfold PersistentPreRunE, PersistentPostRun. intros H. destruct (_ =?s _); cbn in H; M_inv; done. Qed.

Section run.
Context `{X : Ext, TR : TrustRoot, C : CtExt, KX : KeyExt, R : Registry, S : !SignExt, B : BlobExt,
  A : AttestExt, V : CommandExt, E : !RegistryCmdExt, P : PolicyExt, Q : PolicyCmdExt,
  N : ScanExt, D : CredentialExt, CX : !CliExt}.

(** ** options/registry.go *)

Definition GetRegistryClientOpts (keychain : option AuthKeychain) (o : options.RegistryOptions) :
    list ROption :=
  [opt_WithContext; opt_WithUserAgent UserAgent]
  ++ [opt_WithAuthFromKeychain
        match keychain with
        | Some kc => kc
        | None =>
            if KubernetesKeychain o
            then authn_NewMultiKeychain
                   [authn_DefaultKeychain; google_Keychain; ecr_Keychain; acr_Keychain; github_Keychain]
            else authn_DefaultKeychain
        end]
  ++ (if AllowInsecure o then [opt_WithInsecureTransport] else []).

(** The flags do not set a keychain. *)
Definition client_opts (o : options.RegistryOptions) : list ROption := GetRegistryClientOpts None o.
Definition tag_prefix (o : options.RegistryOptions) : string := TagPrefix (RefOpts o).
Definition registry (o : options.RegistryOptions) : RegistryCmds.RegistryOptions :=
  RegistryCmds.mkRegistryOptions (client_opts o) (tag_prefix o).

(** ** Verifying *)

Context (depth : nat) (reg : Reg) (fulcioIntermediateV1 : string).

Definition Verify_RunE (o : VerifyOptions) (kw : KeyWorld) (args : list string) : M CmdWorld unit :=
  annotations ← lift (AnnotationsMap (Annotations (Verify_Annotations o)));
  hashAlgorithm ← lift (HashAlgorithm (AlgorithmName (SignatureDigest o)));
  Exec depth reg fulcioIntermediateV1
    {| vc_RemoteOpts := client_opts (Verify_Registry o);
       vc_TagPrefix := tag_prefix (Verify_Registry o);
       vc_CheckClaims := Verify_CheckClaims o;
       vc_KeyRef := Verify_Key o;
       vc_CertRef := Cert (Verify_CertVerify o);
       vc_CertEmail := CertEmail (Verify_CertVerify o);
       vc_CertOidcIssuer := CertOidcIssuer (Verify_CertVerify o);
       vc_CertChain := CertChain (Verify_CertVerify o);
       vc_EnforceSCT := EnforceSCT (Verify_CertVerify o);
       vc_Sk := Use (Verify_SecurityKey o);
       vc_Slot := Slot (Verify_SecurityKey o);
       vc_Output := Verify_Output o;
       vc_RekorURL := Rekor_URL (Verify_Rekor o);
       vc_Attachment := Verify_Attachment o;
       vc_Annotations := annotations;
       vc_SignatureRef := SignatureRef o;
       vc_HashAlgorithm := hashAlgorithm;
       vc_LocalImage := Verify_LocalImage o |} kw args.

(** The command of manifest verify and dockerfile verify; the fields that it does not
    set keep their zero values. *)
Definition scan_command (o : VerifyOptions) (annotations : option (gmap string any)) : VerifyCommand :=
  {| vc_RemoteOpts := client_opts (Verify_Registry o);
     vc_TagPrefix := tag_prefix (Verify_Registry o);
     vc_CheckClaims := Verify_CheckClaims o;
     vc_KeyRef := Verify_Key o;
     vc_CertRef := Cert (Verify_CertVerify o);
     vc_CertEmail := CertEmail (Verify_CertVerify o);
     vc_CertOidcIssuer := CertOidcIssuer (Verify_CertVerify o);
     vc_CertChain := CertChain (Verify_CertVerify o);
     vc_EnforceSCT := EnforceSCT (Verify_CertVerify o);
     vc_Sk := Use (Verify_SecurityKey o);
     vc_Slot := Slot (Verify_SecurityKey o);
     vc_Output := Verify_Output o;
     vc_RekorURL := Rekor_URL (Verify_Rekor o);
     vc_Attachment := Verify_Attachment o;
     vc_Annotations := annotations;
     vc_SignatureRef := "";
     vc_HashAlgorithm := 0%Z;
     vc_LocalImage := false |}.

Definition manifestVerify_RunE (o : VerifyOptions) (kw : KeyWorld) (args : list string) :
    M CmdWorld unit :=
  annotations ← lift (AnnotationsMap (Annotations (Verify_Annotations o)));
  VerifyManifest_Exec depth reg fulcioIntermediateV1 (scan_command o annotations) kw args.

Definition dockerfileVerify_RunE (o : VerifyDockerfileOptions) (kw : KeyWorld) (args : list string) :
    M CmdWorld unit :=
  annotations ← lift (AnnotationsMap (Annotations (Verify_Annotations (VD_VerifyOptions o))));
  VerifyDockerfile_Exec depth reg fulcioIntermediateV1 (scan_command (VD_VerifyOptions o) annotations)
    (BaseImageOnly o) kw args.

Definition VerifyAttestation_RunE (o : VerifyAttestationOptions) (kw : KeyWorld) (args : list string) :
    M CmdWorld unit :=
  attestation_Exec depth reg fulcioIntermediateV1
    {| va_RemoteOpts := client_opts (VA_Registry o);
       va_TagPrefix := tag_prefix (VA_Registry o);
       va_CheckClaims := VA_CheckClaims o;
       va_KeyRef := VA_Key o;
       va_CertRef := Cert (VA_CertVerify o);
       va_CertEmail := CertEmail (VA_CertVerify o);
       va_CertOidcIssuer := CertOidcIssuer (VA_CertVerify o);
       va_CertChain := CertChain (VA_CertVerify o);
       va_EnforceSCT := EnforceSCT (VA_CertVerify o);
       va_Sk := Use (VA_SecurityKey o);
       va_Slot := Slot (VA_SecurityKey o);
       va_RekorURL := Rekor_URL (VA_Rekor o);
       va_PredicateType := Type_ (PredicateRemote_Options (VA_Predicate o));
       va_Policies := Policies o;
       va_LocalImage := VA_LocalImage o |} kw args.

(** fmt's %s and %v of a slice of strings *)
Definition fmt_slice (l : list string) : string := "[" +:+ strings_Join l " " +:+ "]".

Definition VerifyBlob_RunE (o : VerifyBlobOptions) (args : list string) : M BlobWorld unit :=
  match args with
  | blob :: _ =>
      let ko := mkKeyOpts (Use (VB_SecurityKey o)) (Slot (VB_SecurityKey o)) (VB_Key o) ""
                  (Rekor_URL (VB_Rekor o)) "" false None (VB_BundlePath o) in
      M_wrap ("verifying blob " +:+ fmt_slice args)
        (VerifyBlobCmd fulcioIntermediateV1 ko (Cert (VB_CertVerify o)) (CertEmail (VB_CertVerify o))
           (CertOidcIssuer (VB_CertVerify o)) (CertChain (VB_CertVerify o)) (VB_Signature o) blob
           (EnforceSCT (VB_CertVerify o)))
  | [] => lift (Panic "index out of range [0] with length 0")
  end.

(** ** Signing *)

(** The key options of the signing commands; the OIDC settings are behind the provider. *)
Definition key_opts (key : string) (passFunc : PassFunc) (sk : SecurityKeyOptions) (f : FulcioOptions)
    (r : RekorOptions) (bundlePath : string) : KeyOpts :=
  mkKeyOpts (Use sk) (Slot sk) key (Fulcio_URL f) (Rekor_URL r) (IdentityToken f)
    (InsecureSkipFulcioVerify f) passFunc bundlePath.

Context (mutate_AppendManifests : Entity → list (Entity * Descriptor) → v1Index).
Context (tty : list (res bytes)).

Definition Sign_RunE (o : SignOptions) (kw : KeyWorld) (args : list string) : M SignWorld unit :=
  if negb ((Sign_Attachment o =?s "sbom") || (Sign_Attachment o =?s "")) then lift (Err flag_ErrHelp) else
  _ ← lift (OIDC_ClientSecret (clientSecretFile (Sign_OIDC o)));
  let ko := key_opts (Sign_Key o) (pass_of tty) (Sign_SecurityKey o) (Sign_Fulcio o) (Sign_Rekor o) "" in
  annotationsMap ← lift (AnnotationsMap (Annotations (Sign_Annotations o)));
  M_wrap (if Sign_Attachment o =?s "" then "signing " +:+ fmt_slice args
          else "signing attachment " +:+ Sign_Attachment o +:+ " for image " +:+ fmt_slice args)
    (SignCmd mutate_AppendManifests depth
       {| so_Key := ko;
          so_RemoteOpts := client_opts (Sign_Registry o);
          so_TagPrefix := tag_prefix (Sign_Registry o);
          so_Annotations := default ∅ annotationsMap;
          so_Upload := Upload o;
          so_OutputSignature := Sign_OutputSignature o;
          so_OutputCertificate := Sign_OutputCertificate o;
          so_Force := Sign_Force o;
          so_Recursive := Sign_Recursive o;
          so_Attachment := Sign_Attachment o |}
       (Sign_Cert o) (Sign_CertChain o) (PayloadPath o) kw args).

(** A key is required outside experimental mode. *)
Definition SignBlob_PreRunE (o : SignBlobOptions) : res unit :=
  if negb EnableExperimental && negb (OneOf [negb (SB_Key o =?s ""); Use (SB_SecurityKey o)])
  then Err (error_Kind kind_KeyParse
    "exactly one of: key reference (--key), or hardware token (--sk) must be provided")
  else Ok ().

(** The deprecated flag replaces the other for the first blob, and stays. *)
Fixpoint sign_blobs (o : SignBlobOptions) (ko : KeyOpts) (outputSignature : string) (args : list string) :
    M KeyWorld unit :=
  match args with
  | [] => mret ()
  | blob :: args' =>
      let outputSignature := if negb (SB_Output o =?s "") then SB_Output o else outputSignature in
      M_wrap ("signing " +:+ blob)
        (SignBlobCmd ko blob (Base64Output o) outputSignature (SB_OutputCertificate o));;
      sign_blobs o ko outputSignature args'
  end.

Definition SignBlob_RunE (o : SignBlobOptions) (args : list string) : M KeyWorld unit :=
  _ ← lift (OIDC_ClientSecret (clientSecretFile (SB_OIDC o)));
  let ko := key_opts (SB_Key o) (pass_of tty) (SB_SecurityKey o) (SB_Fulcio o) (SB_Rekor o)
              (SB_BundlePath o) in
  sign_blobs o ko (SB_OutputSignature o) args.

Context (json_Marshal_AnyStatement : AnyStatement → res bytes).

Fixpoint attest_images (o : AttestOpts) (kw : KeyWorld) (args : list string) : M Reg (list bytes) :=
  match args with
  | [] => mret []
  | img :: args' =>
      out ← M_wrap ("signing " +:+ img) (AttestCmd json_Marshal_AnyStatement depth o kw img);
      rest ← attest_images o kw args';
      mret (match out with Some b => b :: rest | None => rest end)
  end.

Definition attest_opts (o : AttestOptions) : AttestOpts :=
  {| ao_Key := key_opts (Attest_Key o) (pass_of tty) (Attest_SecurityKey o) (Attest_Fulcio o)
                 (Attest_Rekor o) "";
     ao_RemoteOpts := client_opts (Attest_Registry o);
     ao_TagPrefix := tag_prefix (Attest_Registry o);
     ao_CertPath := Attest_Cert o;
     ao_CertChainPath := Attest_CertChain o;
     ao_NoUpload := NoUpload o;
     ao_PredicatePath := Path (Attest_Predicate o);
     ao_Force := Attest_Force o;
     ao_PredicateType := Type_ (PredicateLocal_Options (Attest_Predicate o));
     ao_Replace := Replace o |}.

Definition Attest_RunE (o : AttestOptions) (kw : KeyWorld) (args : list string) : M Reg (list bytes) :=
  _ ← lift (OIDC_ClientSecret (clientSecretFile (Attest_OIDC o)));
  attest_images (attest_opts o) kw args.

(** ** Artifacts of images *)

Definition JSONInputFormat := "json".
Definition XMLInputFormat := "xml".
Definition TextInputFormat := "text".
Definition CycloneDXXMLMediaType := "application/vnd.cyclonedx+xml".
Definition CycloneDXJSONMediaType := "application/vnd.cyclonedx+json".
Definition SyftMediaType := "application/vnd.syft+json".
Definition SPDXMediaType := "text/spdx".
Definition SPDXJSONMediaType := "spdx+json".

Definition AttachSBOMOptions_MediaType (o : AttachSBOMOptions) : res string :=
  let bad expected := Err (error_New ("invalid SBOM input format: " +:+ quoted (SBOMInputFormat o)
                                      +:+ ", expected " +:+ expected)) in
  let fmt f := SBOMInputFormat o =?s f in
  if SBOMType o =?s "cyclonedx" then
    if negb (fmt "") && negb (fmt XMLInputFormat) && negb (fmt JSONInputFormat) then bad "(json|xml)"
    else if fmt JSONInputFormat then Ok CycloneDXJSONMediaType else Ok CycloneDXXMLMediaType
  else if SBOMType o =?s "spdx" then
    if negb (fmt "") && negb (fmt TextInputFormat) && negb (fmt JSONInputFormat) then bad "(json|text)"
    else if fmt JSONInputFormat then Ok SPDXJSONMediaType else Ok SPDXMediaType
  else if SBOMType o =?s "syft" then
    if negb (fmt "") && negb (fmt JSONInputFormat) then bad "(json)" else Ok SyftMediaType
  else Err (error_New ("unknown SBOM type: " +:+ quoted (SBOMType o)
                       +:+ ", expected (spdx|cyclonedx|syft)")).

(** args[0] *)
Definition arg0 {W} (args : list string) : M W string :=
  match args with a :: _ => mret a | [] => lift (Panic "index out of range [0] with length 0") end.

Definition attachSignature_RunE (o : AttachSignatureOptions) (args : list string) : M Reg unit :=
  img ← arg0 args; attach_SignatureCmd depth (registry (AS_Registry o)) (AS_Signature o) (options.Payload o) img.
Definition attachSBOM_RunE (o : AttachSBOMOptions) (args : list string) : M Reg unit :=
  mediaType ← lift (AttachSBOMOptions_MediaType o);
  img ← arg0 args;
  attach_SBOMCmd (registry (SBOM_Registry o)) (SBOM o) mediaType img.
Definition attachAttestation_RunE (o : AttachAttestationOptions) (args : list string) : M Reg unit :=
  img ← arg0 args; attach_AttestationCmd depth (registry (AA_Registry o)) (AA_Attestation o) img.

Definition downloadSignature_RunE (o : options.RegistryOptions) (args : list string) : M Reg (list Line) :=
  img ← arg0 args; reads (download_SignatureCmd depth (registry o) img).
Definition downloadSBOM_RunE (o : options.RegistryOptions) (args : list string) : M Reg (list string) :=
  img ← arg0 args; reads (download_SBOMCmd depth (registry o) img).
Definition downloadAttestation_RunE (o : options.RegistryOptions) (args : list string) :
    M Reg (list Line) :=
  img ← arg0 args; reads (download_AttestationCmd depth (registry o) img).

Definition Clean_RunE (o : CleanOptions) (args : list string) : M Reg (list Line) :=
  img ← arg0 args; CleanCmd (registry (Clean_Registry o)) (CleanType o) img (Clean_Force o).
Definition Copy_RunE (o : CopyOptions) (args : list string) : M Reg unit :=
  match args with
  | src :: dst :: _ =>
      CopyCmd mutate_AppendManifests depth (registry (Copy_Registry o)) src dst (SignatureOnly o)
        (Copy_Force o)
  | _ => lift (Panic "index out of range")
  end.
Definition Save_RunE (o : SaveOptions) (args : list string) : M Reg unit :=
  img ← arg0 args; SaveCmd depth (Save_Directory o) img.
Definition Load_RunE (o : LoadOptions) (args : list string) : M Reg unit :=
  img ← arg0 args; LoadCmd (Load_Directory o) img.
Definition Triangulate_RunE (o : TriangulateOptions) (args : list string) : M Reg string :=
  match args with
  | [img] => reads (MungeCmd (registry (Triangulate_Registry o)) img (Triangulate_Type o))
  | _ => lift (Err flag_ErrHelp)
  end.

Definition Tree_RunE (order : Iteration) (o : TreeOptions) (args : list string) : M Out unit :=
  img ← arg0 args; TreeCmd reg depth order (registry (Tree_Registry o)) img.

(** The generators of cobra are a parameter; what goes wrong in them is dropped. *)
Definition Completion_Run (genBash genZsh genFish genPowerShell : M Out unit) (args : list string) : M Out unit :=
  shell ← arg0 args;
  let ignoring (m : M Out unit) := _ ← M_try m; mret () in
  if shell =?s "bash" then ignoring genBash
  else if shell =?s "zsh" then ignoring genZsh
  else if shell =?s "fish" then ignoring genFish
  else if shell =?s "powershell" then ignoring genPowerShell
  else mret ().

Definition uploadBlob_PreRunE (o : UploadBlobOptions) : res unit :=
  if (length (Files (UB_Files o)) <? 1)%nat then Err flag_ErrHelp else Ok ().
Definition uploadBlob_RunE (o : UploadBlobOptions) (args : list string) : M Reg (list Line) :=
  files ← lift (FilesOptions_Parse (Files (UB_Files o)));
  img ← arg0 args;
  BlobCmd os_ReadFile (registry (UB_Registry o)) files (ContentType o) img.
Definition uploadWASM_RunE (o : UploadWASMOptions) (args : list string) : M Reg unit :=
  img ← arg0 args; WasmCmd (registry (UW_Registry o)) (File o) img.

(** generate/generate.go: what is printed *)
Definition GenerateCmd (regOpts : RegistryCmds.RegistryOptions) (imageRef : string)
    (annotations : gmap string any) (reg : Reg) : res bytes :=
  ref ← name_ParseReference imageRef;
  ociremoteOpts ← ro_ClientOpts regOpts;
  digest ← ResolveDigest reg ref ociremoteOpts;
  payload_Cosign_MarshalJSON (Reference_String digest) annotations.
Definition Generate_RunE (o : GenerateOptions) (args : list string) : M Reg bytes :=
  annotationMap ← lift (AnnotationsMap (Annotations (Generate_Annotations o)));
  img ← arg0 args;
  reads (GenerateCmd (registry (Generate_Registry o)) img (default ∅ annotationMap)).

(** ** Keys *)

Definition GenerateKeyPair_RunE (kms_CreateKey : string → res PublicKey) (answer : string)
    (o : GenerateKeyPairOptions) (args : list string) : M KeyWorld unit :=
  GenerateKeyPairCmd kms_CreateKey (KMS o) args (pass_of tty) answer.
Definition ImportKeyPair_RunE (answer : string) (o : ImportKeyPairOptions) (args : list string) :
    M KeyWorld unit :=
  ImportKeyPairCmd (Import_Key o) (pass_of tty) answer.

Definition PublicKey_PreRunE (o : PublicKeyOptions) : res unit :=
  ensure (OneOf [negb (PK_Key o =?s ""); Use (PK_SecurityKey o)])
    (error_Kind kind_KeyParse
       "exactly one of: key reference (--key), or hardware token (--sk) must be provided").

(** os.OpenFile with O_WRONLY and O_CREATE only: the file stays as it is, or is new. *)
Definition open_file (path : string) : M KeyWorld unit :=
  lift (WriteFile path);;
  modify (λ w, match read_file path w with
               | Ok b => set_Files (<[path := b]> (kw_Files w)) w
               | _ => set_Files (<[path := ""]> (kw_Files w)) w
               end).
(** Bytes written at the start of a file. *)
Definition overwrite (b old : bytes) : bytes :=
  b +:+ String.substring (String.length b) (String.length old - String.length b) old.
Definition write_open (path : string) (b : bytes) : M KeyWorld unit :=
  modify (λ w, set_Files (<[path := overwrite b (default "" (kw_Files w !! path))]> (kw_Files w)) w).

Definition PublicKey_RunE (o : PublicKeyOptions) (args : list string) : M KeyWorld (option bytes) :=
  (if negb (PK_OutFile o =?s "") then open_file (PK_OutFile o) else mret ());;
  pemBytes ← reads (GetPublicKey (mkPkopts (PK_Key o) (Use (PK_SecurityKey o)) (Slot (PK_SecurityKey o)))
                      (pass_of tty));
  if negb (PK_OutFile o =?s "") then write_open (PK_OutFile o) pemBytes;; mret None
  else mret (Some pemBytes).

Definition Initialize_RunE `{T : TufExt} (o : InitializeOptions) (args : list string) : M Tuf.World string :=
  DoInitialize (Root o) (Mirror o).

(** The options with which policy sign and sget read the registry. *)
Definition default_opts : list ROption :=
  [opt_WithAuthFromKeychain authn_DefaultKeychain; opt_WithContext].

Definition initPolicy_RunE (o : PolicyInitOptions) (args : list string) : M SignWorld (list Line) :=
  initPolicy (PolicyCmd.mkPolicyInitOptions (PI_ImageRef o) (Maintainers o) (PI_Issuer o) (Threshold o)
    (Expires o) (PI_OutFile o) (registry (PI_Registry o))).
Definition signPolicy_RunE (o : PolicySignOptions) (kw : KeyWorld) (args : list string) :
    M PolicyWorld (list Line) :=
  signPolicy depth fulcioIntermediateV1 default_opts
    (PolicyCmd.mkPolicySignOptions (PS_ImageRef o) (PS_OutFile o) (registry (PS_Registry o))
       (Fulcio_URL (PS_Fulcio o)) (IdentityToken (PS_Fulcio o)) (InsecureSkipFulcioVerify (PS_Fulcio o))
       (Rekor_URL (PS_Rekor o)) (clientSecretFile (PS_OIDC o))) kw.

(** ** cmd/sget *)

Definition sget_in_cmd {T} (m : M CmdWorld T) : M SgetWorld T := λ w,
  let '(c, r) := m (sg_Cmd w) in (mkSgetWorld c (sg_Buffer w) (sg_Stdout w) (sg_Files w), r).

(** SecureGet.Do with a writer: io.Copy writes what the layer delivers. *)
Definition sget_Do (write : bytes → SgetWorld → SgetWorld) (kw : KeyWorld) (imageRef keyRef : string) :
    M SgetWorld unit :=
  ref ← sget_in_cmd (SecureGet_verified depth fulcioIntermediateV1 default_opts reg kw imageRef keyRef);
  l ← lift (one_layer default_opts reg ref);
  '(b, err) ← lift (layer_Read l);
  modify (write b);;
  lift (match err with Some e => Err e | None => Ok () end).

Definition write_buffer (b : bytes) (w : SgetWorld) : SgetWorld :=
  mkSgetWorld (sg_Cmd w) (sg_Buffer w +:+ b) (sg_Stdout w) (sg_Files w).
Definition write_sink (path : string) (b : bytes) (w : SgetWorld) : SgetWorld :=
  mkSgetWorld (sg_Cmd w) (sg_Buffer w) (sg_Stdout w)
    (<[path := default "" (sg_Files w !! path) +:+ b]> (sg_Files w)).
(** buffered.Close *)
Definition flush (w : SgetWorld) : SgetWorld :=
  mkSgetWorld (sg_Cmd w) (sg_Buffer w) (sg_Stdout w +:+ sg_Buffer w) (sg_Files w).

(** createSink and the deferred Close, which runs however Do ends. *)
Definition sget_RunE (outputFile publicKey imageRef : string) (kw : KeyWorld) : M SgetWorld unit :=
  if outputFile =?s "" then λ w,
    let '(w', r) := sget_Do write_buffer kw imageRef publicKey
                      (mkSgetWorld (sg_Cmd w) "" (sg_Stdout w) (sg_Files w)) in
    (flush w', r)
  else
    lift (os_Create outputFile);;
    modify (λ w, mkSgetWorld (sg_Cmd w) (sg_Buffer w) (sg_Stdout w) (<[outputFile := ""]> (sg_Files w)));;
    sget_Do (write_sink outputFile) kw imageRef publicKey.

(** The options, of which the image reference is set by the check of the arguments. *)
Record SgetRootOptions := mkSgetRootOptions { sget_OutputFile : string; sget_PublicKey : string }.
Definition sget_AddFlags `{PF : Pflag} : M FlagSet (Var SgetRootOptions) :=
  outputFile ← StringVarP "output" "o" "";
  publicKey ← StringVar "key" "";
  mret (λ v, mkSgetRootOptions (outputFile v) (publicKey v)).
Definition sget_Args (args : list string) : res string :=
  match args with
  | [imageRef] => Ok imageRef
  | _ => Err (error_New "a single image reference is required")
  end.
(** A run of the command: the arguments after the name of the program, as its main
    brings them to POSIX form. *)
Definition sget_main `{PF : Pflag} (os_Args : list string) (kw : KeyWorld) : M SgetWorld unit :=
  let '(fs, ro) := sget_AddFlags [] in
  ro ← lift ro;
  '(v, args) ← lift (pflag_Parse fs (fix_args os_Args));
  imageRef ← lift (sget_Args args);
  sget_RunE (sget_OutputFile (ro v)) (sget_PublicKey (ro v)) imageRef kw.

(** ** What they promise *)

(** What a flag gives: its value on the command line, or the default. *)
Definition flag_value {T} (get : FlagValue → option T) (name : string) (value : T) (vals : Values) : T :=
  match vals !! name with Some x => default value (get x) | None => value end.
Definition string_flag := flag_value (λ v, match v with VString s => Some s | _ => None end).
Definition bool_flag := flag_value (λ v, match v with VBool b => Some b | _ => None end).
Definition strings_flag := flag_value (λ v, match v with VStrings l => Some l | _ => None end).

Lemma VarP_flag `{PF : Pflag} {T} get (mk : T → FlagValue) name shorthand value fs fs' (v : Var T) :
  VarP get mk name shorthand value fs = (fs', Ok v) → v = flag_value get name value.
Proof. unfold VarP. intros H. by M_inv. Qed.

(** The command that `cosign verify` runs, in terms of its flags. *)
Definition flags_command (vals : Values) (c : VerifyCommand) : Prop :=
  vc_CheckClaims c = bool_flag "check-claims" true vals
  ∧ vc_SignatureRef c = string_flag "signature" "" vals
  ∧ vc_LocalImage c = bool_flag "local-image" false vals
  ∧ vc_KeyRef c = string_flag "key" "" vals
  ∧ vc_Sk c = bool_flag "sk" false vals
  ∧ vc_Slot c = string_flag "slot" "" vals
  ∧ vc_CertRef c = string_flag "cert" "" vals
  ∧ vc_CertEmail c = string_flag "cert-email" "" vals
  ∧ vc_CertOidcIssuer c = string_flag "cert-oidc-issuer" "" vals
  ∧ vc_CertChain c = string_flag "cert-chain" "" vals
  ∧ vc_EnforceSCT c = bool_flag "enforce-sct" false vals
  ∧ vc_RekorURL c = string_flag "rekor-url" DefaultRekorURL vals
  ∧ vc_Attachment c = string_flag "attachment" "" vals
  ∧ vc_TagPrefix c = string_flag "attachment-tag-prefix" "" vals
  ∧ AnnotationsMap (strings_flag "annotations" [] vals) = Ok (vc_Annotations c)
  ∧ HashAlgorithm (string_flag "signature-digest-algorithm" "sha256" vals) = Ok (vc_HashAlgorithm c).

Lemma Verify_RunE_flags `{PF : Pflag} fs fs' o vals kw args w w' :
  VerifyOptions_AddFlags fs = (fs', Ok o) → Verify_RunE (o vals) kw args w = (w', Ok ()) →
  ∃ c, flags_command vals c ∧ Exec depth reg fulcioIntermediateV1 c kw args w = (w', Ok ()).
Proof.
  intros Ho H. unfold Verify_RunE in H. M_inv. eexists. split; [|eassumption].
  unfold VerifyOptions_AddFlags, SecurityKeyOptions_AddFlags, RekorOptions_AddFlags,
    CertVerifyOptions_AddFlags, RegistryOptions_AddFlags, ReferenceOptions_AddFlags,
    SignatureDigestOptions_AddFlags, AnnotationOptions_AddFlags in Ho.
  M_inv.
  repeat match goal with
  | H : StringVar _ _ _ = _ |- _ => apply VarP_flag in H
  | H : StringVarP _ _ _ _ = _ |- _ => apply VarP_flag in H
  | H : BoolVar _ _ _ = _ |- _ => apply VarP_flag in H
  | H : StringSliceVarP _ _ _ _ = _ |- _ => apply VarP_flag in H
  end.
  subst. unfold flags_command. cbn [vc_CheckClaims vc_SignatureRef vc_LocalImage vc_KeyRef vc_Sk vc_Slot
    vc_CertRef vc_CertEmail vc_CertOidcIssuer vc_CertChain vc_EnforceSCT vc_RekorURL vc_Attachment
    vc_TagPrefix vc_Annotations vc_HashAlgorithm]. by split_and!.
Qed.

(** C17: From the command line to the verification: run with the flags [vals], of which
    none turns a check off (--check-claims, --signature and --local-image are not
    given), `cosign verify` ends without an error only if there was at least one image
    and each of them, or with --attachment sbom the SBOM attached to it in its place, has
    a signature stored for it that names its digest and carries the annotations of
    --annotations.  The signature verifies with the key of --key, loaded with the hash of
    --signature-digest-algorithm; without --key, with the token of --sk; without that,
    with the certificate of --cert, checked against --cert-chain if that is given (the
    hash of the flag reaches neither of the two: token and certificate are loaded with
    SHA-256); and without any of the three, which needs experimental mode, under a
    certificate of the Fulcio roots with the e-mail and issuer of --cert-email and
    --cert-oidc-issuer and the timestamp rule of --enforce-sct.  The log is the one of
    --rekor-url in experimental mode and is not asked otherwise. *)
Theorem verify_command_line `{PF : Pflag} fs fs' o vals kw args w w' :
  VerifyOptions_AddFlags fs = (fs', Ok o) →
  vals !! "check-claims" = None → vals !! "signature" = None → vals !! "local-image" = None →
  Verify_RunE (o vals) kw args w = (w', Ok ()) →
  args ≠ [] ∧ ∃ c co, flags_command vals c
    ∧ command_opts fulcioIntermediateV1 c kw (cw_Roots w) co
    ∧ ∀ img, img ∈ args → ∃ l ref ref', name_ParseReference img = Ok ref
        ∧ attachment_of reg ref (vc_Attachment c) (RegistryClientOpts co) ref'
        ∧ (vals !! "attachment" = None → ref' = ref)
        ∧ image_verified depth reg ref' co l.
Proof.
  intros Ho Hc Hs Hl (c & Hf & H)%(Verify_RunE_flags _ _ _ _ _ _ _ _ Ho).
  pose proof Hf as (Hc' & Hs' & Hl' & _). unfold bool_flag, string_flag, flag_value in Hc', Hs', Hl'.
  rewrite Hc in Hc'. rewrite Hs in Hs'. rewrite Hl in Hl'.
  apply Exec_spec in H as (Hne & co & Hco & Himgs); [|done..]. split; [done|]. exists c, co.
  split; [done|]. split; [done|]. intros img (l & ref & ref' & Hr & Ha & Hv)%Himgs.
  exists l, ref, ref'. split_and!; [done..| |done]. intros Hn.
  destruct Hf as (_&_&_&_&_&_&_&_&_&_&_&_& Hat & _). unfold string_flag, flag_value in Hat.
  rewrite Hn in Hat. destruct Ha as [[_ ?]|[Hsb _]]; [done|by rewrite Hsb in Hat].
Qed.

(** The flags --signature-digest-algorithm, --signature and --local-image, which
    `manifest verify` and `dockerfile verify` accept, have no effect on them. *)
Lemma manifest_verify_ignores o o' kw args w :
  Verify_Key o = Verify_Key o' → Verify_CheckClaims o = Verify_CheckClaims o' →
  Verify_Attachment o = Verify_Attachment o' → Verify_Output o = Verify_Output o' →
  Verify_SecurityKey o = Verify_SecurityKey o' → Verify_CertVerify o = Verify_CertVerify o' →
  Verify_Rekor o = Verify_Rekor o' → Verify_Registry o = Verify_Registry o' →
  Verify_Annotations o = Verify_Annotations o' →
  manifestVerify_RunE o kw args w = manifestVerify_RunE o' kw args w.
Proof.
  intros H1 H2 H3 H4 H5 H6 H7 H8 H9. unfold manifestVerify_RunE, scan_command.
  by rewrite H1, H2, H3, H4, H5, H6, H7, H8, H9.
Qed.

(** `cosign generate` prints the payload that `cosign sign` signs: for the digest
    that the image resolves to, the payload that sign makes for that digest, with the
    same annotations and without --payload, is what generate printed. *)
Theorem generate_is_signed go so m args w w' p :
  AnnotationsMap (Annotations (Generate_Annotations go)) = Ok m → so_Annotations so = default ∅ m →
  Generate_RunE go args w = (w', Ok p) →
  w' = w ∧ ∃ img ref opts digest, head args = Some img ∧ name_ParseReference img = Ok ref
    ∧ ro_ClientOpts (registry (Generate_Registry go)) = Ok opts
    ∧ ResolveDigest w ref opts = Ok digest
    ∧ sign_payload so digest "" = Ok p.
Proof.
  intros Hm Hs H. unfold Generate_RunE, arg0 in H. rewrite Hm in H. M_inv.
  destruct args as [|img args]; M_inv. split; [done|]. unfold GenerateCmd in *. go_inv.
  do 4 eexists. split_and!; [done..|]. unfold sign_payload. rewrite Hs. cbn. by apply wrap_Ok.
Qed.

Lemma length_substring n s : String.length (String.substring n (String.length s - n) s) = String.length s - n.
Proof.
  revert n. induction s as [|c s IH]; intros [|n]; cbn; try done.
  f_equal. rewrite <-(Nat.sub_0_r (String.length s)) at 1. by rewrite IH, Nat.sub_0_r.
Qed.

Lemma length_overwrite b old :
  String.length (overwrite b old) = Nat.max (String.length b) (String.length old).
Proof. unfold overwrite. rewrite length_append, length_substring. lia. Qed.

Lemma overwrite_all b old : String.length old ≤ String.length b → overwrite b old = b.
Proof.
  intros Hl. unfold overwrite.
  assert (String.substring (String.length b) (String.length old - String.length b) old = "") as ->.
  { pose proof (length_substring (String.length b) old) as H. destruct (String.substring _ _ _); [done|].
    cbn in H. lia. }
  apply append_nil_r.
Qed.

(** `cosign public-key --outfile` does not replace the file.  It is opened without
    being truncated: when the command ends without an error the file holds the public
    key followed by whatever the old file held beyond the length of the key. *)
Theorem public_key_outfile o args w w' out :
  PK_OutFile o ≠ "" → PublicKey_RunE o args w = (w', Ok out) →
  let old := match read_file (PK_OutFile o) w with Ok b => b | _ => "" end in
  ∃ pem, out = None ∧ kw_Files w' !! PK_OutFile o = Some (overwrite pem old)
    ∧ (String.length old ≤ String.length pem → overwrite pem old = pem)
    ∧ (String.length pem < String.length old → overwrite pem old ≠ pem).
Proof.
  intros Hne H old. unfold PublicKey_RunE in H.
  destruct (PK_OutFile o =?s "") eqn:Hp; [by apply str_eqb_eq in Hp|]. cbn [negb] in H.
  apply M_bind_Ok in H as (w1 & [] & Hopen & H). apply M_bind_Ok in H as (w2 & pem & [_ ->]%reads_Ok & H).
  unfold open_file, write_open in *. M_inv. exists pem. split; [done|].
  assert (∀ w1, w1 = match read_file (PK_OutFile o) w with
                     | Ok b => set_Files (<[PK_OutFile o := b]> (kw_Files w)) w
                     | _ => set_Files (<[PK_OutFile o := ""]> (kw_Files w)) w end →
          kw_Files w1 !! PK_OutFile o = Some old) as Hold.
  { intros w1 ->. subst old. by destruct (read_file _ w); apply lookup_insert_eq. }
  split; [cbn; rewrite lookup_insert_eq; by rewrite (Hold _ eq_refl)|].
  split; [apply overwrite_all|]. intros Hlen Heq%(f_equal String.length). rewrite length_overwrite in Heq. lia.
Qed.

Lemma sget_Do_run write kw imageRef keyRef w c d l b err :
  SecureGet_verified depth fulcioIntermediateV1 default_opts reg kw imageRef keyRef (sg_Cmd w) = (c, Ok d) →
  one_layer default_opts reg d = Ok l → layer_Read l = Ok (b, err) →
  sget_Do write kw imageRef keyRef w
  = (write b (mkSgetWorld c (sg_Buffer w) (sg_Stdout w) (sg_Files w)),
     match err with Some e => Err e | None => Ok () end).
Proof.
  intros Hv Hl Hr. unfold sget_Do, sget_in_cmd, lift, modify, mbind, M_bind. rewrite Hv, Hl, Hr. done.
Qed.

(** Sget gives out what it has not checked.  The buffer before the standard output is
    there so that the digest is checked first, but it is written out however the fetch
    ends: when the bytes of the layer turn out not to have the digest of the manifest,
    the command fails with that error after printing all of them. *)
Theorem sget_prints_unchecked publicKey imageRef kw w c d l b e :
  SecureGet_verified depth fulcioIntermediateV1 default_opts reg kw imageRef publicKey (sg_Cmd w) = (c, Ok d) →
  one_layer default_opts reg d = Ok l → layer_Read l = Ok (b, Some e) →
  ∃ w', sget_RunE "" publicKey imageRef kw w = (w', Err e) ∧ sg_Stdout w' = sg_Stdout w +:+ b.
Proof.
  intros Hv Hl Hr. unfold sget_RunE. rewrite str_eqb_refl.
  rewrite (sget_Do_run write_buffer kw imageRef publicKey _ c d l b (Some e)) by done.
  by eexists.
Qed.

End run.

(** ** Runs *)

(** A layer whose bytes do not have the digest of the manifest. *)
Definition toy_Cli `(R : Registry) (opt : ROption) : CliExt (R := R) := {|
  AuthKeychain := unit;
  authn_DefaultKeychain := ();
  google_Keychain := ();
  github_Keychain := ();
  ecr_Keychain := ();
  acr_Keychain := ();
  authn_NewMultiKeychain _ := ();
  opt_WithContext := opt;
  opt_WithUserAgent _ := opt;
  opt_WithAuthFromKeychain _ := opt;
  opt_WithInsecureTransport := opt;
  UserAgent := "cosign";
  layer_Read _ := Ok ("evil", Some (error_New "error verifying sha256 checksum"));
  os_Create _ := Ok () |}.

(** The options that a command line gives. *)
Definition toy_options {T} (AddFlags : M FlagSet (Var T)) (argv : list string) : option (T * list string) :=
  match AddFlags [] with
  | (fs, Ok o) => match pflag_Parse (Pflag := toy_Pflag) fs (fix_args argv) with
                  | Ok (vals, args) => Some (o vals, args)
                  | _ => None
                  end
  | _ => None
  end.

Lemma verify_command_line_witness :
  ∃ w' c co l,
    (∃ o, toy_options (VerifyOptions_AddFlags (PF := toy_Pflag)) ["-key"; "cosign.pub"; "repo"] = Some (o, ["repo"])
      ∧ Verify_RunE (X := toy) (TR := toy_TrustRoot) (C := toy_Ct) (KX := toy_Keys) (R := toy_Registry)
          (S := toy_Sign) (V := toy_Command) (CX := toy_Cli toy_Registry ()) 1 toy_reg "v1" o toy_pub
          ["repo"] toy_cmd_world = (w', Ok ()))
    ∧ command_opts (X := toy) (TR := toy_TrustRoot) (C := toy_Ct) (KX := toy_Keys) (R := toy_Registry)
        (S := toy_Sign) (V := toy_Command) "v1" c toy_pub toy_roots co
    ∧ image_verified (X := toy) (TR := toy_TrustRoot) (C := toy_Ct) (R := toy_Registry) 1 toy_reg
        (name_Tag "repo" "latest") co l.
Proof.
  destruct (ok_run (VerifyOptions_AddFlags (PF := toy_Pflag) [])) as (fs & o & Ho); [vm_compute; reflexivity|].
  pose (vals := {["key" := VString "cosign.pub"]} : Values).
  assert (o vals = match VerifyOptions_AddFlags (PF := toy_Pflag) [] with
                   | (_, Ok o) => o vals | _ => o vals end) as Hov by by rewrite Ho.
  destruct (ok_run (Verify_RunE (X := toy) (TR := toy_TrustRoot) (C := toy_Ct) (KX := toy_Keys)
    (R := toy_Registry) (S := toy_Sign) (V := toy_Command) (CX := toy_Cli toy_Registry ()) 1 toy_reg "v1"
    (o vals) toy_pub ["repo"] toy_cmd_world)) as (w' & [] & H); [rewrite Hov; vm_compute; reflexivity|].
  destruct (verify_command_line (X := toy) (TR := toy_TrustRoot) (C := toy_Ct) (KX := toy_Keys)
    (R := toy_Registry) (S := toy_Sign) (V := toy_Command) (CX := toy_Cli toy_Registry ()) 1 toy_reg "v1"
    (PF := toy_Pflag) [] fs o vals toy_pub ["repo"] toy_cmd_world w' Ho eq_refl eq_refl eq_refl H)
    as (_ & c & co & _ & Hco & Hall).
  destruct (Hall "repo" (list_elem_of_here _ _)) as (l & ref & ref' & Hr & _ & Hsame & Hv).
  exists w', c, co, l. split_and!; [|exact Hco|].
  2: { rewrite (Hsame eq_refl) in Hv. by injection Hr as <-. }
  exists (o vals). split; [|exact H].
  rewrite Hov. reflexivity.
Defined.

(** A key longer than the one that replaces it stays behind it. *)
Lemma public_key_outfile_witness :
  ∃ w', PublicKey_RunE (X := toy) (KX := toy_Keys) (D := toy_Credentials) [Ok "p"]
      (mkPublicKeyOptions "" (mkSecurityKeyOptions true "signature") "cosign.pub") []
      (files {["cosign.pub" := "a longer public key"]}) = (w', Ok None)
    ∧ ∃ pem, kw_Files w' !! "cosign.pub" = Some (overwrite pem "a longer public key").
Proof.
  destruct (ok_run (PublicKey_RunE (X := toy) (KX := toy_Keys) (D := toy_Credentials) [Ok "p"]
      (mkPublicKeyOptions "" (mkSecurityKeyOptions true "signature") "cosign.pub") []
      (files {["cosign.pub" := "a longer public key"]}))) as (w' & out & H); [vm_compute; reflexivity|].
  destruct (public_key_outfile (X := toy) (KX := toy_Keys) (D := toy_Credentials) [Ok "p"]
    (mkPublicKeyOptions "" (mkSecurityKeyOptions true "signature") "cosign.pub") []
    (files {["cosign.pub" := "a longer public key"]}) w' out ltac:(done) H) as (pem & -> & Hf & _).
  exists w'. split; [exact H|]. exists pem. exact Hf.
Defined.

Lemma generate_is_signed_witness :
  sign_payload (X := toy) (R := toy_Registry)
    (mkSignOpts (R := toy_Registry) (key_opts "" None (mkSecurityKeyOptions false "")
       (mkFulcioOptions "" "" false) (mkRekorOptions "") "") [] "" {["a" := any_string "b"]} true "" "" false
       false "") (name_Digest "repo" "sha256:d") "" = Ok "repo@sha256:d".
Proof.
  destruct (generate_is_signed (X := toy) (R := toy_Registry) (CX := toy_Cli toy_Registry ())
    (mkGenerateOptions (mkAnnotationOptions ["a=b"])
       (options.mkRegistryOptions false false (mkReferenceOptions "")))
    (mkSignOpts (R := toy_Registry) (key_opts "" None (mkSecurityKeyOptions false "")
       (mkFulcioOptions "" "" false) (mkRekorOptions "") "") [] "" {["a" := any_string "b"]} true "" "" false
       false "") (Some {["a" := any_string "b"]}) ["repo"] toy_reg toy_reg "repo@sha256:d")
    as (_ & img & ref & opts & digest & [= <-] & [= <-] & [= <-] & [= <-] & Hp);
    [reflexivity..|exact Hp].
Defined.

Lemma sget_prints_unchecked_witness :
  ∃ w', sget_RunE (X := toy) (TR := toy_TrustRoot) (C := toy_Ct) (KX := toy_Keys) (R := cmd_Registry)
      (V := toy_Command) (CX := toy_Cli cmd_Registry ()) 1 sget_reg "v1" "" "cosign.pub" "repo" toy_pub
      (mkSgetWorld toy_cmd_world "" "" ∅) = (w', Err (error_New "error verifying sha256 checksum"))
    ∧ sg_Stdout w' = "evil".
Proof.
  destruct (ok_run (SecureGet_verified (X := toy) (TR := toy_TrustRoot) (C := toy_Ct) (KX := toy_Keys)
    (R := cmd_Registry) (V := toy_Command) 1 "v1"
    (default_opts (R := cmd_Registry) (CX := toy_Cli cmd_Registry ())) sget_reg toy_pub "repo"
    "cosign.pub" toy_cmd_world)) as (c & d & H); [vm_compute; reflexivity|].
  assert (d = name_Digest "repo" "sha256:d") as ->.
  { apply (f_equal snd) in H. vm_compute in H. by injection H. }
  exact (sget_prints_unchecked (X := toy) (TR := toy_TrustRoot) (C := toy_Ct) (KX := toy_Keys)
    (R := cmd_Registry) (V := toy_Command) (CX := toy_Cli cmd_Registry ()) 1 sget_reg "v1" "cosign.pub" "repo"
    toy_pub (mkSgetWorld toy_cmd_world "" "" ∅) c (name_Digest "repo" "sha256:d")
    (layer_of (staticLayer "blob" "" (static.applied []))) "evil"
    (error_New "error verifying sha256 checksum") H eq_refl eq_refl).
Defined.
