(* ===== verification/Policy.v ===== *)
(** * Image policies

    pkg/apis/cosigned/v1alpha1 (the API types and their validation),
    pkg/apis/utils/key_validations.go, pkg/apis/config (glob.go,
    image_policies.go, store.go) and the internal representation of
    pkg/cosign/kubernetes/webhook/clusterimagepolicy. *)
From stdpp Require Import pretty.
From S2P Require Import Prelude GoStd External Concrete OciSignature OciSignatures OciEntity.
From S2P Require Import OciRemote Tuf Tlog Ctl Verify.

(** ** knative's apis.FieldError

    A nil error is the empty list; each item has a message, the path of the
    field and details.  [Also] appends, [ViaField] and [ViaFieldIndex] prefix
    the path. *)
Record FieldErrorItem := mkFieldErrorItem {
  fe_Message : string; fe_Path : list string; fe_Details : string }.
Abbreviation FieldError := (list FieldErrorItem).

Definition ViaField (field : string) (e : FieldError) : FieldError :=
  (λ i, mkFieldErrorItem (fe_Message i) (field :: fe_Path i) (fe_Details i)) <$> e.
Definition ViaFieldIndex (field : string) (i : nat) (e : FieldError) : FieldError :=
  ViaField (field +:+ "[" +:+ pretty i +:+ "]") e.

Definition ErrMissingField (f : string) : FieldError := [mkFieldErrorItem "missing field(s)" [f] ""].
Definition ErrMissingOneOf (fs : list string) : FieldError :=
  [mkFieldErrorItem ("expected exactly one, got neither: " +:+ strings_Join fs ", ") fs ""].
Definition ErrMultipleOneOf (fs : list string) : FieldError :=
  [mkFieldErrorItem ("expected exactly one, got both: " +:+ strings_Join fs ", ") fs ""].
Definition ErrInvalidValue (v path details : string) : FieldError :=
  [mkFieldErrorItem ("invalid value: " +:+ v) [path] details].
Definition ErrGeneric (msg path : string) : FieldError := [mkFieldErrorItem msg [path] ""].
Definition CurrentField := "".

(** ** PEM keys (utils/key_validations.go and clusterimagepolicy_types.go) *)

Section pem.
Context `{X : Ext}.

(** The recursion consumes the input; the length of the input is enough fuel
    when [pem.Decode] leaves a shorter rest. *)
Fixpoint parsePEM (fuel : nat) (b : bytes) : list (string * bytes) * bool :=
  match fuel with
  | 0 => ([], false)
  | S fuel =>
      match pem_Decode b with
      | None => ([], false)
      | Some (pemKey, rest) =>
          if rest =?s "" then ([pemKey], true)
          else let '(l, check) := parsePEM fuel rest in (pemKey :: l, check)
      end
  end.
Definition parsePEMKey (b : bytes) : list (string * bytes) * bool :=
  parsePEM (S (String.length b)) b.

Definition IsValidKey (b : bytes) : bool :=
  let '(pems, validPEM) := parsePEMKey b in
  validPEM && forallb (λ p, is_ok (x509_ParsePKIXPublicKey (snd p))) pems.

Fixpoint parse_keys (pems : list (string * bytes)) : res (list PublicKey) :=
  match pems with
  | [] => Ok []
  | p :: pems' =>
      key ← x509_ParsePKIXPublicKey (snd p);
      rest ← parse_keys pems';
      Ok (key :: rest)
  end.

(** Data that is not PEM gives no keys and no error. *)
Definition ConvertKeyDataToPublicKeys (pubKey : string) : res (list PublicKey) :=
  let '(pems, validPEM) := parsePEMKey pubKey in
  if negb validPEM then Ok [] else parse_keys pems.

End pem.

(** ** The API types and their validation *)

Module v1alpha1.

Record KeyRef := mkKeyRef { SecretRef : option string; Data : string; KMS : string }.
Record Source := mkSource { OCI : string }.
Record TLog := mkTLog { TLog_URL : option string }.
Record KeylessRef := mkKeylessRef {
  URL : option string; Identities : option (list Identity); CACert : option KeyRef }.
Record Authority := mkAuthority {
  Key : option KeyRef; Keyless : option KeylessRef; Sources : list Source; CTLog : option TLog }.
Record ImagePattern := mkImagePattern { Glob : string; Regex : string }.
Record ClusterImagePolicySpec := mkSpec {
  Images : list ImagePattern; Authorities : list Authority }.
Record ClusterImagePolicy := mkCIP { cip_Name : string; Spec : ClusterImagePolicySpec }.

Section validation.
Context `{X : Ext}.

Definition ValidateGlob (glob : string) : FieldError :=
  match strings_Count glob "*" with
  | 0 => []
  | 1 => if strings_HasSuffix glob "*" then []
         else ErrInvalidValue glob CurrentField
                "glob match supports only * as a trailing character"
  | _ => ErrInvalidValue glob CurrentField
           "glob match supports only a single * as a trailing character"
  end.

Definition ValidateRegex (regex : string) : FieldError :=
  match regexp_Compile regex with
  | Ok _ => []
  | Err err => ErrInvalidValue regex CurrentField ("regex is invalid: " +:+ Error err)
  | Panic w => ErrInvalidValue regex CurrentField w
  end.

Definition ImagePattern_Validate (image : ImagePattern) : FieldError :=
  let r := negb (Regex image =?s "") in
  let g := negb (Glob image =?s "") in
  (if r && g then ErrMultipleOneOf ["regex"; "glob"] else [])
  ++ (if negb r && negb g then ErrMissingOneOf ["regex"; "glob"] else [])
  ++ (if g then ViaField "glob" (ValidateGlob (Glob image)) else [])
  ++ (if r then ViaField "regex" (ValidateRegex (Regex image)) else []).

Definition KeyRef_Validate (key : KeyRef) : FieldError :=
  let d := negb (Data key =?s "") in
  let k := negb (KMS key =?s "") in
  let s := match SecretRef key with Some _ => true | None => false end in
  (if negb d && negb k && negb s then ErrMissingOneOf ["data"; "kms"; "secretref"] else [])
  ++ (if d then
        (if k || s then ErrMultipleOneOf ["data"; "kms"; "secretref"] else [])
        ++ (if IsValidKey (Data key) then [] else ErrInvalidValue (Data key) "data" "")
      else if k && s then ErrMultipleOneOf ["data"; "kms"; "secretref"] else []).

Definition Identity_Validate (identity : Identity) : FieldError :=
  let i := negb (id_Issuer identity =?s "") in
  let s := negb (id_Subject identity =?s "") in
  (if negb i && negb s then ErrMissingOneOf ["issuer"; "subject"] else [])
  ++ (if i then ViaField "issuer" (ValidateRegex (id_Issuer identity)) else [])
  ++ (if s then ViaField "subject" (ValidateRegex (id_Subject identity)) else []).

Definition is_some {A} (o : option A) : bool := match o with Some _ => true | None => false end.

Definition KeylessRef_Validate (keyless : KeylessRef) : FieldError :=
  (if negb (is_some (URL keyless)) && negb (is_some (Identities keyless))
      && negb (is_some (CACert keyless))
   then ErrMissingOneOf ["url"; "identities"; "ca-cert"] else [])
  ++ (if is_some (URL keyless) && is_some (CACert keyless)
      then ErrMultipleOneOf ["url"; "ca-cert"] else [])
  ++ (match Identities keyless with Some [] => ErrMissingField "identities" | _ => [] end)
  ++ concat (imap (λ i identity, ViaFieldIndex "identities" i (Identity_Validate identity))
               (default [] (Identities keyless))).

Definition Source_Validate (source : Source) : FieldError :=
  if OCI source =?s "" then ErrMissingField "oci" else [].

Definition Authority_Validate (authority : Authority) : FieldError :=
  (if negb (is_some (Key authority)) && negb (is_some (Keyless authority))
   then ErrMissingOneOf ["key"; "keyless"] else [])
  ++ (if is_some (Key authority) && is_some (Keyless authority)
      then ErrMultipleOneOf ["key"; "keyless"] else [])
  ++ (match Key authority with Some k => ViaField "key" (KeyRef_Validate k) | None => [] end)
  ++ (match Keyless authority with
      | Some k => ViaField "keyless" (KeylessRef_Validate k)
      | None => []
      end)
  ++ concat ((λ s, ViaField "source" (Source_Validate s)) <$> Sources authority).

Definition Spec_Validate (spec : ClusterImagePolicySpec) : FieldError :=
  (match Images spec with [] => ErrMissingField "images" | _ => [] end)
  ++ concat (imap (λ i image, ViaFieldIndex "images" i (ImagePattern_Validate image)) (Images spec))
  ++ (match Authorities spec with [] => ErrMissingField "authorities" | _ => [] end)
  ++ concat (imap (λ i authority, ViaFieldIndex "authorities" i (Authority_Validate authority))
               (Authorities spec)).

Definition Validate (policy : ClusterImagePolicy) : FieldError :=
  ViaField "spec" (Spec_Validate (Spec policy)).

End validation.
End v1alpha1.

(** ** Globs (config/glob.go) *)

Definition GlobMatch (image glob : string) : bool :=
  if negb (strings_HasSuffix glob "*") then image =?s glob
  else strings_HasPrefix image (strings_TrimSuffix glob "*").

(** ** The internal representation *)

Module webhookcip.
Section types.
Context `{R : Registry}.

Record KeyRef := mkKeyRef { Data : string; PublicKeys : list PublicKey }.
Record KeylessRef := mkKeylessRef {
  URL : option string; Identities : option (list Identity); CACert : option KeyRef }.
Record Authority := mkAuthority {
  Key : option KeyRef; Keyless : option KeylessRef; Sources : list v1alpha1.Source;
  CTLog : option v1alpha1.TLog; RemoteOpts : list Option_ }.
Record ClusterImagePolicy := mkCIP {
  Images : list v1alpha1.ImagePattern; Authorities : list Authority }.

(** *** Conversion from the API *)

Definition convertKeyRef (in_ : v1alpha1.KeyRef) : KeyRef := mkKeyRef (v1alpha1.Data in_) [].

Definition convertKeylessRef (in_ : v1alpha1.KeylessRef) : KeylessRef :=
  mkKeylessRef (v1alpha1.URL in_) (v1alpha1.Identities in_)
    (convertKeyRef <$> v1alpha1.CACert in_).

Definition convertAuthority (in_ : v1alpha1.Authority) : Authority :=
  mkAuthority (convertKeyRef <$> v1alpha1.Key in_) (convertKeylessRef <$> v1alpha1.Keyless in_)
    (v1alpha1.Sources in_) (v1alpha1.CTLog in_) [].

Definition ConvertClusterImagePolicyV1alpha1ToWebhook (in_ : v1alpha1.ClusterImagePolicy) :
    ClusterImagePolicy :=
  mkCIP (v1alpha1.Images (v1alpha1.Spec in_))
    (convertAuthority <$> v1alpha1.Authorities (v1alpha1.Spec in_)).

(** *** JSON *)

(** An authority before the UnmarshalJSON methods run: key objects are string
    maps. *)
Record RawAuthority := mkRawAuthority {
  raw_Key : option (gmap string string);
  raw_Keyless : option (option string * option (list Identity) * option (gmap string string));
  raw_Sources : list v1alpha1.Source;
  raw_CTLog : option v1alpha1.TLog }.

Definition KeyRef_UnmarshalJSON `{X : Ext} (ret : gmap string string) : res KeyRef :=
  let data := default "" (ret !! "data") in
  publicKeys ← (if data =?s "" then Ok [] else ConvertKeyDataToPublicKeys data);
  Ok (mkKeyRef data publicKeys).

(** A key object is decoded when it is present. *)
Definition decode_key `{X : Ext} (o : option (gmap string string)) : res (option KeyRef) :=
  match o with None => Ok None | Some m => Some <$> KeyRef_UnmarshalJSON m end.

Fixpoint source_opts (sources : list v1alpha1.Source) : res (list Option_) :=
  match sources with
  | [] => Ok []
  | s :: ss =>
      repo ← wrap "failed to determine source" (name_NewRepository (v1alpha1.OCI s));
      rest ← source_opts ss;
      Ok (if repo =?s "" then rest else WithTargetRepository repo :: rest)
  end.

Definition Authority_UnmarshalJSON `{X : Ext} (raw : RawAuthority) : res Authority :=
  key ← decode_key (raw_Key raw);
  keyless ← match raw_Keyless raw with
            | None => Ok None
            | Some (url, ids, ca) =>
                cacert ← decode_key ca;
                Ok (Some (mkKeylessRef url ids cacert))
            end;
  opts ← source_opts (raw_Sources raw);
  Ok (mkAuthority key keyless (raw_Sources raw) (raw_CTLog raw) opts).

End types.
End webhookcip.

(** ** Configuration (config/image_policies.go, store.go) *)

Class PolicyJson `{R : Registry} := {
  yaml_YAMLToJSON : bytes → res bytes;
  json_Unmarshal_RawCIP :
    bytes → res (list v1alpha1.ImagePattern * list webhookcip.RawAuthority);
  json_Marshal_CIP : webhookcip.ClusterImagePolicy → res bytes }.

Section config.
Context `{X : Ext, R : Registry, J : !PolicyJson}.
Import webhookcip.

Fixpoint unmarshal_authorities (raws : list RawAuthority) : res (list Authority) :=
  match raws with
  | [] => Ok []
  | r :: rs => a ← Authority_UnmarshalJSON r; rest ← unmarshal_authorities rs; Ok (a :: rest)
  end.

Definition parseEntry (entry : string) : res ClusterImagePolicy :=
  j ← map_err (λ e, error_Wrapped
        ("config's value could not be converted to JSON: " +:+ Error e +:+ " : " +:+ entry) e)
      (yaml_YAMLToJSON entry);
  '(images, raws) ← json_Unmarshal_RawCIP j;
  authorities ← unmarshal_authorities raws;
  Ok (mkCIP images authorities).

Definition ImagePolicyConfig := gmap string ClusterImagePolicy.

Definition ImagePoliciesConfigName := "config-image-policies".

Fixpoint policies_from (data : list (string * string)) (ret : ImagePolicyConfig) :
    res ImagePolicyConfig :=
  match data with
  | [] => Ok ret
  | (k, v) :: data' =>
      if k =?s "_example" then policies_from data' ret
      else if v =?s "" then Err (error_New ("configmap has an entry " +:+ k +:+ " but no value"))
      else
        cip ← map_err (λ e, error_Wrapped ("failed to parse the entry " +:+ k +:+ " : " +:+ v
                 +:+ " : " +:+ Error e) e) (parseEntry v);
        policies_from data' (<[k := cip]> ret)
  end.

Definition NewImagePoliciesConfigFromMap (data : gmap string string) : res ImagePolicyConfig :=
  policies_from (map_to_list data) ∅.

(** One pattern of a policy: whether the image matches, and the error of a
    malformed regular expression. *)
Definition pattern_matches (image : string) (p : v1alpha1.ImagePattern) : res bool :=
  if negb (v1alpha1.Glob p =?s "") then Ok (GlobMatch image (v1alpha1.Glob p))
  else if negb (v1alpha1.Regex p =?s "") then
    regex ← regexp_Compile (v1alpha1.Regex p); Ok (regex image)
  else Ok false.

(** The loops of [GetMatchingPolicies]: the authorities found so far and the
    last error. *)
Fixpoint match_patterns (k : string) (authorities : list Authority) (image : string)
    (ps : list v1alpha1.ImagePattern)
    (acc : gmap string (list Authority) * option error) :
    gmap string (list Authority) * option error :=
  match ps with
  | [] => acc
  | p :: ps' =>
      match_patterns k authorities image ps'
        (match pattern_matches image p with
         | Ok true => (map_append k authorities (fst acc), snd acc)
         | Ok false => acc
         | Err e => (fst acc, Some e)
         | Panic w => acc
         end)
  end.

Definition match_policies (image : string) (policies : list (string * ClusterImagePolicy))
    (acc : gmap string (list Authority) * option error) :=
  foldl (λ acc '(k, v), match_patterns k (Authorities v) image (Images v) acc) acc policies.

(** A nil configuration is an error. *)
Definition GetMatchingPolicies (p : option ImagePolicyConfig) (image : string) :
    gmap string (list Authority) * option error :=
  match p with
  | None => (∅, Some (error_New "config is nil"))
  | Some p => match_policies image (map_to_list p) (∅, None)
  end.

End config.

(** ** Globs and keys *)

(** A glob that passes validation is matched as documented: without a star
    it matches that image only, and with its single, trailing star it matches
    exactly the images that start with the text before the star. *)
Theorem GlobMatch_valid glob image :
  v1alpha1.ValidateGlob glob = [] →
  GlobMatch image glob = true ↔
    (strings_Count glob "*" = 0 ∧ image = glob)
    ∨ ∃ p r, glob = p +:+ "*" ∧ strings_Count p "*" = 0 ∧ image = p +:+ r.
Proof.
  unfold v1alpha1.ValidateGlob, GlobMatch. intros Hv.
  destruct (strings_HasSuffix glob "*") eqn:Es; cbn.
  - apply HasSuffix_spec in Es as [q ->]. rewrite TrimSuffix_append, Count_append in *. cbn in Hv.
    assert (strings_Count q "*" = 0) by (destruct (strings_Count q "*") as [|[|]]; done).
    rewrite HasPrefix_spec. split.
    + intros [r ->]. right. eauto.
    + intros [[Hc _]|(p & r & Hq & _ & ->)]; [change (strings_Count "*" "*") with 1 in Hc; lia|]. apply append_inj_r in Hq as ->. eauto.
  - rewrite str_eqb_eq. split.
    + intros ->. left. split; [|done]. destruct (strings_Count glob "*") as [|[|]]; done.
    + intros [[_ ->]|(p & r & -> & _)]; [done|]. exfalso.
      assert (strings_HasSuffix (p +:+ "*") "*" = true) by (apply HasSuffix_spec; eauto). congruence.
Qed.

Section keys.
Context `{X : Ext}.

Lemma parsePEM_nonempty fuel b : snd (parsePEM fuel b) = true → fst (parsePEM fuel b) ≠ [].
Proof.
  destruct fuel as [|fuel]; cbn; [done|]. destruct (pem_Decode b) as [[k rest]|]; cbn; [|done].
  destruct (rest =?s ""); cbn; [done|]. by destruct (parsePEM fuel rest).
Qed.

(** Documented behaviour of [pem.Decode]: it consumes input. *)
Class PemDecodeLaws : Prop := {
  pem_shrinks b k rest : pem_Decode b = Some (k, rest) → String.length rest < String.length b }.

Lemma parsePEM_fuel `{PL : !PemDecodeLaws} fuel fuel' b :
  String.length b < fuel → String.length b < fuel' → parsePEM fuel b = parsePEM fuel' b.
Proof.
  revert fuel' b. induction fuel as [|fuel IH]; intros [|fuel'] b H H'; try lia. cbn.
  destruct (pem_Decode b) as [[k rest]|] eqn:E; [|done]. apply pem_shrinks in E.
  destruct (rest =?s ""); [done|]. rewrite (IH fuel' rest) by lia. done.
Qed.

(** The recursive equation of [parsePEMKey]: the fuel never runs out. *)
Lemma parsePEMKey_eq `{PL : !PemDecodeLaws} b :
  parsePEMKey b =
  match pem_Decode b with
  | None => ([], false)
  | Some (k, rest) =>
      if rest =?s "" then ([k], true)
      else let '(l, check) := parsePEMKey rest in (k :: l, check)
  end.
Proof.
  unfold parsePEMKey at 1. cbn. destruct (pem_Decode b) as [[k rest]|] eqn:E; [|done].
  apply pem_shrinks in E. unfold parsePEMKey. by rewrite (parsePEM_fuel _ (S (String.length rest))) by lia.
Qed.

Lemma parse_keys_all pems :
  forallb (λ p, is_ok (x509_ParsePKIXPublicKey (snd p))) pems = true ↔
  ∃ keys, parse_keys pems = Ok keys ∧ length keys = length pems.
Proof.
  induction pems as [|p pems IH]; cbn; [naive_solver|].
  rewrite andb_true_iff, IH. destruct (x509_ParsePKIXPublicKey (snd p)) as [k| |]; cbn; [|naive_solver..].
  split.
  - intros [_ (keys & -> & Hl)]. exists (k :: keys). cbn. auto.
  - intros (keys & Hk & Hl). split; [done|]. go_inv. eexists. split; [done|]. cbn in Hl. lia.
Qed.

Lemma parse_keys_length pems keys : parse_keys pems = Ok keys → length keys = length pems.
Proof.
  revert keys. induction pems as [|p pems IH]; cbn; intros keys H; go_inv; [done|].
  cbn. f_equal. by apply IH.
Qed.

Lemma IsValidKey_keys data :
  IsValidKey data = true → ∃ keys, ConvertKeyDataToPublicKeys data = Ok keys ∧ keys ≠ [].
Proof.
  unfold IsValidKey, ConvertKeyDataToPublicKeys, parsePEMKey.
  pose proof (parsePEM_nonempty (S (String.length data)) data) as Hne.
  destruct (parsePEM _ data) as [pems [|]]; cbn in *; [|done].
  rewrite parse_keys_all. intros (keys & Hk & Hl). exists keys. split; [done|].
  intros ->. destruct pems; [|done]. by apply Hne.
Qed.

(** Validation and use agree on key data: [IsValidKey] accepts exactly the
    data from which the webhook obtains at least one public key.  In
    particular data that passes validation is never silently dropped. *)
Theorem IsValidKey_iff_keys data :
  IsValidKey data = true ↔ ∃ keys, ConvertKeyDataToPublicKeys data = Ok keys ∧ keys ≠ [].
Proof.
  split; [apply IsValidKey_keys|].
  unfold IsValidKey, ConvertKeyDataToPublicKeys, parsePEMKey.
  destruct (parsePEM _ data) as [pems [|]]; cbn; [|naive_solver].
  rewrite parse_keys_all. intros (keys & Hk & _). exists keys. split; [done|].
  by apply parse_keys_length.
Qed.

End keys.

(** ** Validation *)

Section validation.
Context `{X : Ext}.
Import v1alpha1.

Lemma ViaField_nil f e : ViaField f e = [] ↔ e = [].
Proof. by destruct e. Qed.

Lemma concat_imap_nil {A} (f : nat → A → FieldError) (g : A → FieldError) l :
  (∀ i a, f i a = [] ↔ g a = []) → concat (imap f l) = [] ↔ ∀ a, a ∈ l → g a = [].
Proof.
  revert f. induction l as [|a l IH]; intros f Hf; cbn; [set_solver|].
  rewrite app_nil, (Hf 0 a), (IH (f ∘ S)) by (intros; apply Hf).
  setoid_rewrite elem_of_cons. naive_solver.
Qed.

Lemma concat_map_nil {A} (f : A → FieldError) l :
  concat (f <$> l) = [] ↔ ∀ a, a ∈ l → f a = [].
Proof.
  induction l as [|a l IH]; cbn; [set_solver|]. rewrite app_nil, IH.
  setoid_rewrite elem_of_cons. naive_solver.
Qed.

Definition well_formed_regex (r : string) : Prop := is_ok (regexp_Compile r) = true.

(** Exactly one of the two forms, well formed. *)
Definition valid_pattern (p : ImagePattern) : Prop :=
  (Glob p ≠ "" ∧ Regex p = "" ∧ ValidateGlob (Glob p) = [])
  ∨ (Glob p = "" ∧ Regex p ≠ "" ∧ well_formed_regex (Regex p)).

(** Exactly one source of the key; inline data holds keys. *)
Definition valid_key (k : KeyRef) : Prop :=
  (Data k ≠ "" ∧ KMS k = "" ∧ SecretRef k = None ∧ IsValidKey (Data k) = true)
  ∨ (Data k = "" ∧ KMS k ≠ "" ∧ SecretRef k = None)
  ∨ (Data k = "" ∧ KMS k = "" ∧ SecretRef k ≠ None).

Definition valid_identity (i : Identity) : Prop :=
  (id_Issuer i ≠ "" ∨ id_Subject i ≠ "")
  ∧ (id_Issuer i ≠ "" → well_formed_regex (id_Issuer i))
  ∧ (id_Subject i ≠ "" → well_formed_regex (id_Subject i)).

Definition valid_keyless (k : KeylessRef) : Prop :=
  (URL k ≠ None ∨ Identities k ≠ None ∨ CACert k ≠ None)
  ∧ (URL k = None ∨ CACert k = None)
  ∧ ∀ ids, Identities k = Some ids → ids ≠ [] ∧ ∀ i, i ∈ ids → valid_identity i.

Definition valid_authority (a : Authority) : Prop :=
  ((∃ k, Key a = Some k ∧ Keyless a = None ∧ valid_key k)
   ∨ (∃ k, Key a = None ∧ Keyless a = Some k ∧ valid_keyless k))
  ∧ ∀ s, s ∈ Sources a → OCI s ≠ "".

Definition valid_policy (p : ClusterImagePolicy) : Prop :=
  Images (Spec p) ≠ [] ∧ (∀ i, i ∈ Images (Spec p) → valid_pattern i)
  ∧ Authorities (Spec p) ≠ [] ∧ (∀ a, a ∈ Authorities (Spec p) → valid_authority a).

Lemma ValidateRegex_nil r : ValidateRegex r = [] ↔ well_formed_regex r.
Proof. unfold ValidateRegex, well_formed_regex. by destruct (regexp_Compile r). Qed.

Ltac empties := repeat match goal with
  | |- context [?s =?s ""] => destruct (s =?s "") eqn:?
  end; rewrite ?str_eqb_eq, ?str_eqb_neq in *; cbn.

Lemma ImagePattern_Validate_nil p : ImagePattern_Validate p = [] ↔ valid_pattern p.
Proof.
  unfold ImagePattern_Validate, valid_pattern. empties;
    rewrite ?app_nil, ?app_nil_r, ?ViaField_nil, ?ValidateRegex_nil; naive_solver.
Qed.

Lemma KeyRef_Validate_nil k : KeyRef_Validate k = [] ↔ valid_key k.
Proof.
  unfold KeyRef_Validate, valid_key. empties; destruct (SecretRef k), (IsValidKey (Data k)); cbn;
    naive_solver.
Qed.

Lemma Identity_Validate_nil i : Identity_Validate i = [] ↔ valid_identity i.
Proof.
  unfold Identity_Validate, valid_identity. empties;
    rewrite ?app_nil, ?app_nil_r, ?ViaField_nil, ?ValidateRegex_nil; naive_solver.
Qed.

Lemma identities_nil (o : option (list Identity)) :
  (match o with Some [] => ErrMissingField "identities" | _ => [] end = []
   ∧ ∀ i, i ∈ default [] o → valid_identity i) ↔
  ∀ ids, o = Some ids → ids ≠ [] ∧ ∀ i, i ∈ ids → valid_identity i.
Proof.
  destruct o as [[|i ids]|]; cbn; split.
  - by intros [? _].
  - intros H. by destruct (H [] eq_refl).
  - intros [_ H] ids' [= <-]. done.
  - intros H. split; [done|]. by apply H.
  - by intros _ ids.
  - intros _. split; [done|]. set_solver.
Qed.

Lemma KeylessRef_Validate_nil k : KeylessRef_Validate k = [] ↔ valid_keyless k.
Proof.
  unfold KeylessRef_Validate, valid_keyless. rewrite !app_nil.
  rewrite (concat_imap_nil _ Identity_Validate) by (intros; apply ViaField_nil).
  setoid_rewrite Identity_Validate_nil. rewrite identities_nil.
  destruct (URL k), (CACert k), (Identities k); cbn; naive_solver.
Qed.

Lemma Source_Validate_nil s : Source_Validate s = [] ↔ OCI s ≠ "".
Proof. unfold Source_Validate. empties; naive_solver. Qed.

Lemma Authority_Validate_nil a : Authority_Validate a = [] ↔ valid_authority a.
Proof.
  unfold Authority_Validate, valid_authority. rewrite !app_nil, concat_map_nil.
  setoid_rewrite ViaField_nil. setoid_rewrite Source_Validate_nil.
  destruct (Key a) as [k|], (Keyless a) as [kl|]; cbn;
    rewrite ?ViaField_nil, ?KeyRef_Validate_nil, ?KeylessRef_Validate_nil; naive_solver.
Qed.

(** C30: the admission webhook of the API accepts exactly the well-formed
    policies: at least one image pattern and one authority, every pattern a
    valid glob or a valid regular expression and not both, every authority
    with exactly one of a key and a keyless reference, every key with exactly
    one source, inline keys parseable, identities with valid expressions, and
    sources with a repository. *)
Theorem Validate_correct p : Validate p = [] ↔ valid_policy p.
Proof.
  unfold Validate, Spec_Validate, valid_policy. rewrite ViaField_nil, !app_nil.
  rewrite (concat_imap_nil _ ImagePattern_Validate) by (intros; apply ViaField_nil).
  rewrite (concat_imap_nil _ Authority_Validate) by (intros; apply ViaField_nil).
  setoid_rewrite ImagePattern_Validate_nil. setoid_rewrite Authority_Validate_nil.
  destruct (Images (Spec p)), (Authorities (Spec p)); cbn; naive_solver.
Qed.

End validation.

(** ** Matching *)

Section matching.
Context `{X : Ext, R : Registry, J : !PolicyJson}.
Import webhookcip.

(** The number of patterns of a policy that match an image. *)
Definition matches (image : string) (cip : ClusterImagePolicy) : nat :=
  length (filter (λ p, pattern_matches image p = Ok true) (Images cip)).

Definition malformed (image : string) (cip : ClusterImagePolicy) : Prop :=
  ∃ p e, p ∈ Images cip ∧ pattern_matches image p = Err e.

(** The authorities collected for a policy: all of its authorities, once per
    matching pattern. *)
Definition collected (image : string) (cip : ClusterImagePolicy) : option (list Authority) :=
  match matches image cip with
  | 0 => None
  | n => Some (concat (replicate n (Authorities cip)))
  end.

Lemma match_patterns_other k auths image ps acc k' :
  k' ≠ k → fst (match_patterns k auths image ps acc) !! k' = fst acc !! k'.
Proof.
  intros Hk. induction ps as [|p ps IH] in acc |- *; cbn; [done|]. rewrite IH.
  destruct (pattern_matches image p) as [[|]| |]; cbn; try done. unfold map_append.
  by rewrite lookup_insert_ne.
Qed.

Lemma match_patterns_self k auths image ps acc :
  fst (match_patterns k auths image ps acc) !! k =
  match length (filter (λ p, pattern_matches image p = Ok true) ps) with
  | 0 => fst acc !! k
  | n => Some (default [] (fst acc !! k) ++ concat (replicate n auths))
  end.
Proof.
  induction ps as [|p ps IH] in acc |- *; [done|]. cbn [match_patterns]. rewrite IH.
  destruct (pattern_matches image p) as [[|]| |] eqn:E.
  - rewrite filter_cons_True by done. cbn [length fst]. unfold map_append. rewrite lookup_insert_eq.
    destruct (length _); cbn; [by rewrite app_nil_r|]. by rewrite <- app_assoc.
  - by rewrite filter_cons_False by (rewrite E; done).
  - by rewrite filter_cons_False by (rewrite E; done).
  - by rewrite filter_cons_False by (rewrite E; done).
Qed.

Lemma match_patterns_error k auths image ps acc :
  snd (match_patterns k auths image ps acc) = None ↔
  snd acc = None ∧ ∀ p e, p ∈ ps → pattern_matches image p ≠ Err e.
Proof.
  induction ps as [|p ps IH] in acc |- *; cbn.
  { split; [|by intros []]. intros H. split; [done|]. set_solver. }
  rewrite IH. setoid_rewrite elem_of_cons.
  destruct (pattern_matches image p) as [[|]|e|] eqn:E; cbn.
  1,2,4: split; [intros [? H]; split; [done|]; intros q e [->|Hq]; [by rewrite E|by apply H]
                |intros [? H]; split; [done|]; intros q e Hq; apply H; by right].
  split; [by intros [[=] _]|]. intros [_ H]. by destruct (H p e (or_introl eq_refl)).
Qed.

Lemma match_policies_spec image l acc :
  NoDup l.*1 →
  (∀ k, fst (match_policies image l acc) !! k =
     match list_to_map (M := gmap string ClusterImagePolicy) l !! k with
     | Some cip => match fst acc !! k with
                   | None => collected image cip
                   | Some a => match matches image cip with
                               | 0 => Some a
                               | n => Some (a ++ concat (replicate n (Authorities cip)))
                               end
                   end
     | None => fst acc !! k
     end)
  ∧ (snd (match_policies image l acc) = None ↔
     snd acc = None ∧ ∀ k cip, (k, cip) ∈ l → ¬ malformed image cip).
Proof.
  unfold match_policies, malformed.
  induction l as [|[k0 cip] l IH] in acc |- *; cbn [foldl]; intros Hnd.
  { split; [done|]. set_solver. }
  apply NoDup_cons in Hnd as [Hk0 Hnd]. destruct (IH (match_patterns k0 (Authorities cip) image
    (Images cip) acc) Hnd) as [IH1 IH2]. split.
  - intros k. rewrite IH1. cbn. destruct (decide (k = k0)) as [->|Hne].
    + rewrite lookup_insert_eq.
      rewrite (proj1 (not_elem_of_list_to_map _ _)) by done.
      rewrite match_patterns_self. unfold collected, matches.
      destruct (fst acc !! k0) eqn:Ea; destruct (length _); cbn; done.
    + rewrite lookup_insert_ne by done. rewrite match_patterns_other by done. done.
  - rewrite IH2, match_patterns_error. setoid_rewrite elem_of_cons. naive_solver.
Qed.

(** C31: matching an image against the configured policies.  A policy is
    reported exactly when one of its patterns matches the image, with its own
    authorities, once per matching pattern, and an error is reported exactly
    when a pattern of some policy is not a valid expression. *)
Theorem GetMatchingPolicies_correct (p : gmap string ClusterImagePolicy) image :
  (∀ k, fst (GetMatchingPolicies (Some p) image) !! k = p !! k ≫= collected image)
  ∧ (snd (GetMatchingPolicies (Some p) image) = None ↔
     ∀ k cip, p !! k = Some cip → ¬ malformed image cip).
Proof.
  cbn. destruct (match_policies_spec image (map_to_list p) (∅, None) (NoDup_fst_map_to_list p))
    as [H1 H2]. split.
  - intros k. rewrite H1, list_to_map_to_list. cbn.
    by destruct (p !! k).
  - rewrite H2. setoid_rewrite elem_of_map_to_list. naive_solver.
Qed.

End matching.

Lemma GlobMatch_valid_witness :
  GlobMatch "gcr.io/a/b" "gcr.io/a/*" = true ∧ v1alpha1.ValidateGlob "gcr.io/a/*" = [].
Proof.
  assert (Hv : v1alpha1.ValidateGlob "gcr.io/a/*" = []) by reflexivity.
  split; [|exact Hv].
  apply (GlobMatch_valid "gcr.io/a/*" "gcr.io/a/b" Hv). right.
  exists "gcr.io/a/", "b". repeat split.
Defined.
