(* ===== verification/Webhook.v ===== *)
(** * The admission webhook

    pkg/cosign/kubernetes/webhook: validation.go (verifying an image against
    keys or Fulcio roots, reading the keys of the secret) and validator.go
    (policies, pod specs, tag resolution).

    The cluster, the registry and the Fulcio and Rekor endpoints are
    parameters; an admission request is a call of [Validate*] in one state of
    them. *)
From S2P Require Import Prelude GoStd External Concrete OciSignature OciSignatures OciEntity.
From S2P Require Import OciRemote Tuf Tlog Ctl Verify Policy.

Record Container := mkContainer { c_Name : string; c_Image : string }.
Record PodSpec := mkPodSpec {
  InitContainers : list Container;
  Containers : list Container;
  ImagePullSecrets : list string;
  ServiceAccountName : string }.

(** k8schain.Options *)
Record ChainOptions := mkChainOptions {
  ko_Namespace : string; ko_ServiceAccountName : string; ko_ImagePullSecrets : list string }.

Class Kube `{R : Registry} := {
  Keychain : Type;
  k8schain_New : ChainOptions → res Keychain;
  remote_WithAuthFromKeychain : Keychain → ROption;
  secret_Get : string → res (gmap string bytes);          (* lister, system namespace *)
  fulcio_RootCert : string → res bytes;                    (* ChainPEM of a Fulcio URL *)
  pool_AppendCertsFromPEM : bytes → option (list Certificate);
  rekor_GetRekorClient : string → res Rekor;
  ref_Name : Reference → string }.                         (* ref.Name(): fully qualified *)

Section webhook.
Context `{X : Ext, TR : TrustRoot, C : CtExt, R : Registry, J : !PolicyJson, K : !Kube}.
Import webhookcip.

(** The registry, the nesting depth of the indices in it, and what
    [fulcioroots.Get()] gives in the process. *)
Context (reg : Reg) (depth : nat) (fulcioroots : res CertPool).

(** ** validation.go *)

Definition validSignatures (ref : Reference) (verifier : Verifier) (opts : list Option_) :
    res (list Signature) :=
  fst <$> snd (VerifyImageSignatures depth reg ref
    (mkCheckOpts opts None (Some SimpleClaimVerifier) None (Some verifier) None None "" "" false "" [])).

Definition validSignaturesWithFulcio (ref : Reference) (fulcioRoots : CertPool)
    (rekorClient : option Rekor) (identities : list Identity) (opts : list Option_) :
    res (list Signature) :=
  fst <$> snd (VerifyImageSignatures depth reg ref
    (mkCheckOpts opts None (Some SimpleClaimVerifier) rekorClient None fulcioRoots None "" "" false
       "" identities)).

(** The loop over the keys: any key will do. *)
Fixpoint valid_keys (ref : Reference) (keys : list PublicKey) (opts : list Option_)
    (lastErr : option error) : res (list Signature) :=
  match keys with
  | [] => match lastErr with Some e => Err e | None => Ok [] end
  | k :: keys' =>
      catch (signature_LoadVerifier k)
        (λ e, valid_keys ref keys' opts (Some e))
        (λ verifier,
          catch (validSignatures ref verifier opts)
            (λ e, valid_keys ref keys' opts (Some e))
            (λ sps, match sps with [] => valid_keys ref keys' opts lastErr | _ => Ok sps end))
  end.

Definition valid (ref : Reference) (keys : list PublicKey) (opts : list Option_) :
    res (list Signature) :=
  match keys with
  | [] =>
      roots ← fulcioroots;
      sps ← validSignaturesWithFulcio ref roots None [] opts;
      match sps with [] => Err (error_New "no valid signatures were found") | _ => Ok sps end
  | _ => valid_keys ref keys opts None
  end.

(** [parsePems] recurses while there is a rest, as [parsePEM] does; blocks are
    kept up to the first text that is not PEM. *)
Fixpoint parse_pems (fuel : nat) (b : bytes) : list (string * bytes) :=
  match fuel with
  | 0 => []
  | S fuel => match pem_Decode b with
              | None => []
              | Some (p, rest) => p :: parse_pems fuel rest
              end
  end.
Definition parsePems (b : bytes) : list (string * bytes) := parse_pems (S (String.length b)) b.

(** [keys] is never nil: the malformed-key error is never returned. *)
Definition getKeys (cfg : gmap string bytes) : res (list PublicKey) :=
  let keys := omap (λ p, match x509_ParsePKIXPublicKey (snd p) with Ok k => Some k | _ => None end)
                (parsePems (default "" (cfg !! "cosign.pub"))) in
  Ok keys.

(** ** Policies *)

Definition getFulcioCert (u : string) : res CertPool :=
  chainPEM ← wrap "getting root cert" (fulcio_RootCert u);
  match pool_AppendCertsFromPEM chainPEM with
  | Some certs => Ok (Some certs)
  | None => Err (error_New "error appending to root cert pool")
  end.

(** The Rekor client of an authority with a CTLog URL. *)
Definition authority_rekor (a : Authority) : res (option Rekor) :=
  match CTLog a with
  | Some t => match v1alpha1.TLog_URL t with
              | Some u => Some <$> wrap "creating Rekor client" (rekor_GetRekorClient u)
              | None => Ok None
              end
  | None => Ok None
  end.

Definition keyless_signatures (ref : Reference) (url : string) (k : KeylessRef) (a : Authority)
    (opts : list Option_) : res (list Signature) :=
  fulcioroot ← wrap "fetching FulcioRoot" (getFulcioCert url);
  rekorClient ← authority_rekor a;
  wrap "validate signatures with fulcio"
    (validSignaturesWithFulcio ref fulcioroot rekorClient (default [] (Identities k)) opts).

(** One authority: its outcome, or none when no case of the switch applies. *)
Definition authority_check (ref : Reference) (remoteOpts : list Option_) (a : Authority) :
    option (res (list Signature)) :=
  let opts := remoteOpts ++ RemoteOpts a in
  match Key a with
  | Some (mkKeyRef _ (k :: ks)) => Some (wrap "failed to validate keys" (valid ref (k :: ks) opts))
  | _ =>
      match Keyless a with
      | Some kl => match URL kl with
                   | Some url => Some (keyless_signatures ref url kl a opts)
                   | None => None
                   end
      | None => None
      end
  end.

Fixpoint check_authorities (ref : Reference) (remoteOpts : list Option_) (authorities : list Authority)
    (authorityErrors : list error) : res (list Signature * list error) :=
  match authorities with
  | [] => Ok ([], authorityErrors)
  | a :: authorities' =>
      match authority_check ref remoteOpts a with
      | None => check_authorities ref remoteOpts authorities' authorityErrors
      | Some r =>
          catch r
            (λ e, check_authorities ref remoteOpts authorities' (authorityErrors ++ [e]))
            (λ sps, match sps with
                    | [] => check_authorities ref remoteOpts authorities' (authorityErrors
                              ++ [error_New ("no valid signatures found for " +:+ ref_Name ref)])
                    | _ => Ok (sps, [])
                    end)
      end
  end.

Definition ValidatePolicy (ref : Reference) (kc : Keychain) (authorities : list Authority)
    (remoteOpts : list Option_) : res (list Signature * list error) :=
  check_authorities ref (remoteOpts ++ [WithRemoteOptions [remote_WithAuthFromKeychain kc]])
    authorities [].

(** The loop over the matching policies.  A policy fails when errors were
    gathered; the errors recorded for it are those of an outer slice that
    stays empty. *)
Fixpoint validate_each (ref : Reference) (kc : Keychain) (policies : list (string * list Authority))
    (signatures : gmap string (list Signature)) (ret : gmap string (list error)) :
    res (gmap string (list Signature) * gmap string (list error)) :=
  match policies with
  | [] => Ok (signatures, ret)
  | (p, authorities) :: policies' =>
      '(sps, errs) ← ValidatePolicy ref kc authorities [];
      match errs with
      | _ :: _ => validate_each ref kc policies' signatures (map_append p [] ret)
      | [] => validate_each ref kc policies' (map_append p sps signatures) ret
      end
  end.

Definition validatePolicies (ref : Reference) (kc : Keychain)
    (policies : gmap string (list Authority)) :
    res (gmap string (list Signature) * gmap string (list error)) :=
  validate_each ref kc (map_to_list policies) ∅ ∅.

(** ** Pod specs *)

Definition with_details (d : string) (e : FieldError) : FieldError :=
  (λ i, mkFieldErrorItem (fe_Message i) (fe_Path i) d) <$> e.

(** The configuration attached to the context: none, or one that may hold a nil
    policy configuration. *)
Definition Config := option (option ImagePolicyConfig).

Definition image_error (field : string) (i : nat) (image msg : string) : FieldError :=
  with_details image (ViaFieldIndex field i (ErrGeneric msg "image")).

Definition traditional_check (keys : list PublicKey) (kc : Keychain) (field : string) (i : nat)
    (c : Container) (ref : Reference) : res FieldError :=
  catch (valid ref keys [WithRemoteOptions [remote_WithAuthFromKeychain kc]])
    (λ e, Ok (image_error field i (c_Image c) (Error e))) (λ _, Ok []).

Definition check_container (config : Config) (keys : list PublicKey) (kc : Keychain)
    (field : string) (i : nat) (c : Container) : res FieldError :=
  catch (name_ParseReference (c_Image c))
    (λ e, Ok (ViaFieldIndex field i (ErrGeneric (Error e) "image")))
    (λ ref,
      match ref with
      | name_Tag _ _ =>
          Ok (ViaFieldIndex field i
                (ErrInvalidValue (c_Image c +:+ " must be an image digest") "image" ""))
      | name_Digest _ _ =>
          match config with
          | None => traditional_check keys kc field i c ref
          | Some cfg =>
              match GetMatchingPolicies cfg (ref_Name ref) with
              | (_, Some e) => Ok (image_error field i (c_Image c) (Error e))
              | (policies, None) =>
                  if decide (policies = ∅) then traditional_check keys kc field i c ref else
                  '(signatures, fieldErrors) ← validatePolicies ref kc policies;
                  if negb (bool_decide (size signatures = size policies)) then
                    Ok (concat ((λ '(failingPolicy, _),
                          image_error field i (c_Image c) ("failed policy: " +:+ failingPolicy))
                        <$> map_to_list fieldErrors))
                  else if bool_decide (0 < size signatures) then Ok []
                  else traditional_check keys kc field i c ref
              end
          end
      end).

Fixpoint check_containers (config : Config) (keys : list PublicKey) (kc : Keychain)
    (field : string) (i : nat) (cs : list Container) : res FieldError :=
  match cs with
  | [] => Ok []
  | c :: cs' =>
      e ← check_container config keys kc field i c;
      rest ← check_containers config keys kc field (S i) cs';
      Ok (e ++ rest)
  end.

Definition validatePodSpec (secretName : string) (config : Config) (ps : PodSpec)
    (opt : ChainOptions) : res FieldError :=
  catch (k8schain_New opt) (λ e, Ok (ErrGeneric (Error e) CurrentField)) (λ kc,
  catch (secret_Get secretName) (λ e, Ok (ErrGeneric (Error e) CurrentField)) (λ data,
  keys ← getKeys data;
  e1 ← check_containers config keys kc "initContainers" 0 (InitContainers ps);
  e2 ← check_containers config keys kc "containers" 0 (Containers ps);
  Ok (e1 ++ e2))).

Definition chain_options (ns : string) (ps : PodSpec) : ChainOptions :=
  mkChainOptions ns (ServiceAccountName ps) (ImagePullSecrets ps).

(** The handlers.  Of a resource they read whether it is being deleted, its
    namespace and the pod spec in it. *)
Definition ValidatePodSpecable (secretName : string) (config : Config) (deleting : bool)
    (ns : string) (ps : PodSpec) : res FieldError :=
  if deleting then Ok []
  else ViaField "spec.template.spec" <$> validatePodSpec secretName config ps (chain_options ns ps).

Definition ValidatePod (secretName : string) (config : Config) (deleting : bool)
    (ns : string) (ps : PodSpec) : res FieldError :=
  if deleting then Ok []
  else ViaField "spec" <$> validatePodSpec secretName config ps (chain_options ns ps).

Definition ValidateCronJob (secretName : string) (config : Config) (deleting : bool)
    (ns : string) (ps : PodSpec) : res FieldError :=
  if deleting then Ok []
  else ViaField "spec.jobTemplate.spec.template.spec"
         <$> validatePodSpec secretName config ps (chain_options ns ps).

(** The resources that the webhook admits. *)
Inductive workload := PodSpecable | Pod | CronJob.
Definition Validate_ (w : workload) : string → Config → bool → string → PodSpec → res FieldError :=
  match w with
  | PodSpecable => ValidatePodSpecable
  | Pod => ValidatePod
  | CronJob => ValidateCronJob
  end.

(** ** Resolving tags *)

Definition resolve_container (in_create_or_update : bool) (kc : Keychain) (c : Container) :
    Container :=
  match name_ParseReference (c_Image c) with
  | Ok ref =>
      if in_create_or_update then
        match ResolveDigest reg ref [WithRemoteOptions [remote_WithAuthFromKeychain kc]] with
        | Ok digest => mkContainer (c_Name c) (Reference_String digest)
        | _ => c
        end
      else c
  | _ => c
  end.

Definition resolvePodSpec (in_create_or_update : bool) (ps : PodSpec) (opt : ChainOptions) : PodSpec :=
  match k8schain_New opt with
  | Ok kc =>
      mkPodSpec (resolve_container in_create_or_update kc <$> InitContainers ps)
        (resolve_container in_create_or_update kc <$> Containers ps)
        (ImagePullSecrets ps) (ServiceAccountName ps)
  | _ => ps
  end.

Definition ResolvePodSpecable (in_create_or_update deleting : bool) (ns : string) (ps : PodSpec) :
    PodSpec :=
  if deleting then ps else resolvePodSpec in_create_or_update ps (chain_options ns ps).

Definition ResolvePod (in_create_or_update deleting : bool) (ns : string) (ps : PodSpec) : PodSpec :=
  if deleting then ps else resolvePodSpec in_create_or_update ps (chain_options ns ps).

Definition ResolveCronJob (in_create_or_update deleting : bool) (ns : string) (ps : PodSpec) :
    PodSpec :=
  if deleting then ps else resolvePodSpec in_create_or_update ps (chain_options ns ps).

End webhook.

(** ** What admission means *)

Section admission.
Context `{X : Ext, TR : TrustRoot, C : CtExt, R : Registry, J : !PolicyJson, K : !Kube}.
Context (reg : Reg) (depth : nat) (fulcioroots : res CertPool).
Import webhookcip.

(** The signatures are signatures of the image, by who the options trust. *)
Definition verified (co : CheckOpts) (ref : Reference) (sps : list Signature) : Prop :=
  sps ≠ [] ∧ ∃ se h, remote_SignedEntity depth reg ref (RegistryClientOpts co) = Ok se
    ∧ Entity_Digest se = Ok h
    ∧ ∀ sig, sig ∈ sps → claims_image sig h None ∧ ∃ v, authenticated co sig v ∧ signed_by v sig.

Definition key_opts (v : Verifier) (opts : list Option_) : CheckOpts :=
  mkCheckOpts opts None (Some SimpleClaimVerifier) None (Some v) None None "" "" false "" [].
Definition fulcio_opts (roots : CertPool) (rc : option Rekor) (ids : list Identity)
    (opts : list Option_) : CheckOpts :=
  mkCheckOpts opts None (Some SimpleClaimVerifier) rc None roots None "" "" false "" ids.

(** One of the keys verifies. *)
Definition key_verified (keys : list PublicKey) (ref : Reference) (opts : list Option_) : Prop :=
  ∃ k v sps, k ∈ keys ∧ signature_LoadVerifier k = Ok v ∧ verified (key_opts v opts) ref sps.

Lemma verify_verified co ref sps b co' :
  ClaimVerifier co = Some SimpleClaimVerifier → SignatureRef co = "" → co_Annotations co = None →
  VerifyImageSignatures depth reg ref co = (co', Ok (sps, b)) → verified co ref sps.
Proof.
  intros Hc Hr Ha H.
  apply VerifyImageSignatures_spec in H as (Hne & se & h & set & st & H1 & H2 & _ & _ & Hs); [|done..].
  split; [done|]. exists se, h. do 2 (split; [done|]). intros sig Hin.
  destruct (Hs sig Hin) as (_ & Hcl & Hv & _). by rewrite Ha in Hcl.
Qed.

Lemma validSignatures_verified ref v opts sps :
  validSignatures reg depth ref v opts = Ok sps → verified (key_opts v opts) ref sps.
Proof.
  unfold validSignatures. intros H. apply fmap_Ok in H as ([l b] & H & ->).
  destruct (VerifyImageSignatures _ _ _ _) as [co' r] eqn:E. cbn in H. subst r.
  by eapply verify_verified.
Qed.

Lemma validSignaturesWithFulcio_verified ref roots rc ids opts sps :
  validSignaturesWithFulcio reg depth ref roots rc ids opts = Ok sps →
  verified (fulcio_opts roots rc ids opts) ref sps.
Proof.
  unfold validSignaturesWithFulcio. intros H. apply fmap_Ok in H as ([l b] & H & ->).
  destruct (VerifyImageSignatures _ _ _ _) as [co' r] eqn:E. cbn in H. subst r.
  by eapply verify_verified.
Qed.

Lemma valid_keys_verified ref keys opts lastErr sps :
  valid_keys reg depth ref keys opts lastErr = Ok sps →
  (keys = [] ∧ lastErr = None) ∨ key_verified keys ref opts.
Proof.
  assert (Hmono : ∀ k ks, key_verified ks ref opts → key_verified (k :: ks) ref opts).
  { intros k ks (k' & v & s & Hin & Hrest). exists k', v, s. split; [set_solver|done]. }
  revert lastErr. induction keys as [|k keys IH]; intros lastErr H; cbn in H.
  { destruct lastErr; [done|]. by left. }
  right. destruct (signature_LoadVerifier k) as [v|e|] eqn:Ev; cbn in H; [| |done].
  2:{ apply Hmono. by destruct (IH _ H) as [[_ [=]]|?]. }
  destruct (validSignatures reg depth ref v opts) as [s|e|] eqn:Es; cbn in H; [| |done].
  2:{ apply Hmono. by destruct (IH _ H) as [[_ [=]]|?]. }
  apply validSignatures_verified in Es. destruct Es as [Hne Hv].
  destruct s as [|s0 s]; [done|]. exists k, v, (s0 :: s). split; [set_solver|]. by split.
Qed.

(** What [valid] establishes: a key of the list verifies, or, without keys, a
    certificate under the Fulcio roots, of any identity. *)
Lemma valid_verified ref keys opts sps :
  valid reg depth fulcioroots ref keys opts = Ok sps →
  (keys ≠ [] ∧ key_verified keys ref opts)
  ∨ (keys = [] ∧ ∃ roots sps', fulcioroots = Ok roots
       ∧ verified (fulcio_opts roots None [] opts) ref sps').
Proof.
  unfold valid. destruct keys as [|k keys]; intros H.
  - right. split; [done|]. go_inv.
    match goal with H : validSignaturesWithFulcio _ _ _ _ _ _ _ = _ |- _ =>
      apply validSignaturesWithFulcio_verified in H end.
    eauto.
  - left. split; [done|]. by apply valid_keys_verified in H as [[[=] _]|?].
Qed.

(** An authority that names something to verify against: keys, or a Fulcio
    URL. *)
Definition effective (a : Authority) : Prop :=
  (∃ k, Key a = Some k ∧ PublicKeys k ≠ []) ∨ (∃ kl u, Keyless a = Some kl ∧ URL kl = Some u).

(** An authority is satisfied by the image. *)
Definition satisfied (a : Authority) (ref : Reference) (opts : list Option_) : Prop :=
  (∃ k, Key a = Some k ∧ key_verified (PublicKeys k) ref opts)
  ∨ (∃ kl u roots rc sps, Keyless a = Some kl ∧ URL kl = Some u ∧ getFulcioCert u = Ok roots
       ∧ authority_rekor a = Ok rc
       ∧ verified (fulcio_opts roots rc (default [] (Identities kl)) opts) ref sps).

Lemma authority_check_None ref opts a :
  authority_check reg depth fulcioroots ref opts a = None ↔ ¬ effective a.
Proof.
  unfold authority_check, effective.
  destruct (Key a) as [[d [|k ks]]|], (Keyless a) as [kl|]; try destruct (URL kl) eqn:E;
    naive_solver.
Qed.

Lemma authority_check_satisfied ref opts a sps :
  authority_check reg depth fulcioroots ref opts a = Some (Ok sps) →
  satisfied a ref (opts ++ RemoteOpts a).
Proof.
  unfold authority_check. intros H.
  assert (Hkl : (match Keyless a with
     | Some kl => match URL kl with
                  | Some url => Some (keyless_signatures reg depth ref url kl a (opts ++ RemoteOpts a))
                  | None => None
                  end
     | None => None
     end = Some (Ok sps)) → satisfied a ref (opts ++ RemoteOpts a)).
  { destruct (Keyless a) as [kl|] eqn:Ekl; [|done]. destruct (URL kl) as [u|] eqn:Eu; [|done].
    intros [= Hk]. unfold keyless_signatures in Hk. go_inv.
    match goal with H : validSignaturesWithFulcio _ _ _ _ _ _ _ = _ |- _ =>
      apply validSignaturesWithFulcio_verified in H end.
    right. eexists kl, u, _, _, _. by eauto 10. }
  destruct (Key a) as [[d [|k ks]]|] eqn:Ek; [by apply Hkl| |by apply Hkl].
  assert (Hv : wrap "failed to validate keys"
    (valid reg depth fulcioroots ref (k :: ks) (opts ++ RemoteOpts a)) = Ok sps) by congruence.
  apply wrap_Ok, valid_verified in Hv as [[_ Hv]|[[=] _]].
  left. eexists. split; [done|]. exact Hv.
Qed.

Lemma check_authorities_spec ref opts auths errs sps errs' :
  check_authorities reg depth fulcioroots ref opts auths errs = Ok (sps, errs') → errs' = [] →
  (∃ a, a ∈ auths ∧ satisfied a ref (opts ++ RemoteOpts a))
  ∨ (errs = [] ∧ ∀ a, a ∈ auths → ¬ effective a).
Proof.
  revert errs. induction auths as [|a auths IH]; intros errs H ->; cbn in H.
  { simplify_eq. right. set_solver. }
  destruct (authority_check reg depth fulcioroots ref opts a) as [r|] eqn:E.
  - left. destruct r as [s|e|]; cbn in H; [| |done].
    + exists a. split; [set_solver|]. by eapply authority_check_satisfied.
    + destruct (IH _ H eq_refl) as [(a' & Hin & Hs)|[Hn _]]; [exists a'; set_solver|].
      by destruct errs.
  - destruct (IH _ H eq_refl) as [(a' & Hin & Hs)|[Hn Hf]]; [left; exists a'; set_solver|right].
    split; [done|]. intros a' [->|Hin]%elem_of_cons; [by eapply authority_check_None|by apply Hf].
Qed.

Definition kc_opts (kc : Keychain) : list Option_ :=
  [WithRemoteOptions [remote_WithAuthFromKeychain kc]].

(** A policy is satisfied when one of its authorities is. *)
Definition policy_satisfied (ref : Reference) (kc : Keychain) (auths : list Authority) : Prop :=
  ∃ a, a ∈ auths ∧ satisfied a ref (kc_opts kc ++ RemoteOpts a).

Definition passes (ref : Reference) (kc : Keychain) (auths : list Authority) : Prop :=
  ∃ sps, ValidatePolicy reg depth fulcioroots ref kc auths [] = Ok (sps, []).

Lemma passes_satisfied ref kc auths :
  passes ref kc auths → auths ≠ [] → (∀ a, a ∈ auths → effective a) → policy_satisfied ref kc auths.
Proof.
  intros [sps H] Hne He. unfold ValidatePolicy in H.
  destruct (check_authorities_spec _ _ _ _ _ _ H eq_refl) as [Hs|[_ Hf]]; [exact Hs|].
  destruct auths as [|a auths]; [done|]. destruct (Hf a); [set_solver|]. apply He. set_solver.
Qed.

Lemma elem_of_concat_replicate {A} (a : A) n l : a ∈ concat (replicate n l) → a ∈ l.
Proof. induction n; cbn; set_solver. Qed.

Lemma size_map_append_fresh {A} k (xs : list A) (m : gmap string (list A)) :
  m !! k = None → size (map_append k xs m) = S (size m).
Proof. intros Hk. unfold map_append. by rewrite map_size_insert_None. Qed.

Lemma map_append_nonempty {A} k (xs : list A) (m : gmap string (list A)) : map_append k xs m ≠ ∅.
Proof. apply insert_non_empty. Qed.

Lemma validate_each_spec ref kc l signatures ret signatures' ret' :
  validate_each reg depth fulcioroots ref kc l signatures ret = Ok (signatures', ret') →
  NoDup l.*1 → (∀ k, k ∈ l.*1 → signatures !! k = None) →
  ∃ n, size signatures' = size signatures + n ∧ n ≤ length l
    ∧ (n = length l → ∀ k auths, (k, auths) ∈ l → passes ref kc auths)
    ∧ (n ≠ length l ∨ ret ≠ ∅ → ret' ≠ ∅).
Proof.
  revert signatures ret. induction l as [|[k auths] l IH]; cbn; intros sg ret H Hnd Hfresh.
  { simplify_eq. exists 0. rewrite Nat.add_0_r. split; [done|]. split; [done|]. split; [set_solver|].
    naive_solver. }
  apply bind_Ok in H as ([sps errs] & Hv & H). apply NoDup_cons in Hnd as [Hk Hnd].
  destruct errs as [|e errs].
  - destruct (IH _ _ H Hnd) as (n & Hs & Hle & Hall & Hret).
    { intros k' Hk'. unfold map_append. rewrite lookup_insert_ne by set_solver.
      apply Hfresh. set_solver. }
    rewrite size_map_append_fresh in Hs by (apply Hfresh; set_solver).
    exists (S n). split; [lia|]. split; [lia|]. split.
    + intros Heq k' auths' [[= -> ->]|Hin]%elem_of_cons; [by exists sps|].
      eapply Hall; [lia|done].
    + intros [Hn|Hn]; apply Hret; [left; lia|by right].
  - destruct (IH _ _ H Hnd) as (n & Hs & Hle & _ & Hret); [intros; apply Hfresh; set_solver|].
    exists n. split; [done|]. split; [lia|]. split; [lia|].
    intros _. apply Hret. right. apply map_append_nonempty.
Qed.

(** The errors reported for failed policies are not empty. *)
Lemma failed_errors field i image (fe : gmap string (list error)) :
  fe ≠ ∅ →
  concat ((λ '(failingPolicy, _),
     image_error field i image ("failed policy: " +:+ failingPolicy)) <$> map_to_list fe) ≠ [].
Proof.
  intros Hne. destruct (map_to_list fe) as [|[k v] l] eqn:E; [by apply map_to_list_empty_iff in E|].
  done.
Qed.

Lemma check_container_admits (p : gmap string ClusterImagePolicy) keys kc field i c :
  check_container reg depth fulcioroots (Some (Some p)) keys kc field i c = Ok [] →
  ∃ repo d, let ref := name_Digest repo d in
    name_ParseReference (c_Image c) = Ok ref
    ∧ (∀ k cip auths, p !! k = Some cip → collected (ref_Name ref) cip = Some auths →
         passes ref kc auths)
    ∧ ((∀ k cip, p !! k = Some cip → collected (ref_Name ref) cip = None) →
         ∃ sps, valid reg depth fulcioroots ref keys (kc_opts kc) = Ok sps).
Proof.
  unfold check_container, GetMatchingPolicies.
  destruct (name_ParseReference (c_Image c)) as [ref| |]; cbn [catch]; [|done..].
  destruct ref as [|repo d]; [done|]. intros H. exists repo, d. split; [done|].
  destruct (match_policies_spec (ref_Name (name_Digest repo d)) (map_to_list p) (∅, None)
    (NoDup_fst_map_to_list p)) as [Hm _].
  setoid_rewrite (list_to_map_to_list (M := gmap string) p) in Hm.
  destruct (match_policies _ _ _) as [policies [e|]]; [done|]. cbn [fst] in Hm.
  assert (Hcoll : ∀ k, policies !! k = p !! k ≫= collected (ref_Name (name_Digest repo d))).
  { intros k. rewrite Hm, lookup_empty. by destruct (p !! k). }
  assert (Htrad : traditional_check reg depth fulcioroots keys kc field i c (name_Digest repo d) = Ok [] →
    ∃ sps, valid reg depth fulcioroots (name_Digest repo d) keys (kc_opts kc) = Ok sps).
  { unfold traditional_check, kc_opts. destruct (valid _ _ _ _ _ _) as [s| |]; cbn; [eauto|done..]. }
  case_decide as Hemp.
  { split; [|by intros _; apply Htrad]. intros k cip auths Hk Hc. subst policies.
    specialize (Hcoll k). rewrite Hk, lookup_empty in Hcoll.
    unfold mbind, option_bind in Hcoll. congruence. }
  apply bind_Ok in H as ([sg fe] & Hv & H). unfold validatePolicies in Hv.
  destruct (validate_each_spec _ _ _ _ _ _ _ Hv) as (n & Hs & Hle & Hall & Hret);
    [apply NoDup_fst_map_to_list|done|].
  rewrite map_size_empty in Hs. cbn in Hs.
  destruct (decide (n = length (map_to_list policies))) as [Hn|Hn].
  - split.
    + intros k cip auths Hk Hc. apply (Hall Hn k). apply elem_of_map_to_list.
      rewrite Hcoll, Hk. done.
    + intros Hno. exfalso. apply Hemp, map_empty. intros k. rewrite Hcoll.
      destruct (p !! k) as [cip|] eqn:Ek; [|done]. by apply (Hno k).
  - exfalso. rewrite length_map_to_list in Hn. rewrite bool_decide_false in H by lia. cbn in H.
    injection H as H. eapply failed_errors; [|exact H]. apply Hret. left.
    by rewrite length_map_to_list.
Qed.

Lemma check_containers_admits cfg keys kc field i cs :
  check_containers reg depth fulcioroots cfg keys kc field i cs = Ok [] →
  ∀ c, c ∈ cs → ∃ j, check_container reg depth fulcioroots cfg keys kc field j c = Ok [].
Proof.
  revert i. induction cs as [|c cs IH]; cbn; intros i H c' Hin; [set_solver|].
  apply bind_Ok in H as (e & He & H). apply bind_Ok in H as (rest & Hr & H).
  injection H as H. apply app_nil in H as [-> ->].
  apply elem_of_cons in Hin as [->|Hin]; [eauto|]. by eapply IH.
Qed.

(** Every handler admits exactly when the pod spec in it does. *)
Lemma Validate_admits w secretName cfg ns ps :
  Validate_ reg depth fulcioroots w secretName cfg false ns ps = Ok [] →
  validatePodSpec reg depth fulcioroots secretName cfg ps (chain_options ns ps) = Ok [].
Proof.
  intros H. destruct w; apply fmap_Ok in H as (e & H & He); symmetry in He;
    apply ViaField_nil in He; by subst.
Qed.

Lemma admission_spec w secretName (p : gmap string ClusterImagePolicy) ns ps :
  Validate_ reg depth fulcioroots w secretName (Some (Some p)) false ns ps = Ok [] →
  ∃ kc data keys, k8schain_New (chain_options ns ps) = Ok kc ∧ secret_Get secretName = Ok data
    ∧ getKeys data = Ok keys
    ∧ ∀ c, c ∈ InitContainers ps ++ Containers ps →
      ∃ repo d, let ref := name_Digest repo d in
        name_ParseReference (c_Image c) = Ok ref
        ∧ (∀ k cip, p !! k = Some cip → matches (ref_Name ref) cip ≠ 0 →
             Authorities cip ≠ [] → (∀ a, a ∈ Authorities cip → effective a) →
             policy_satisfied ref kc (Authorities cip))
        ∧ ((∀ k cip, p !! k = Some cip → matches (ref_Name ref) cip = 0) →
             (keys ≠ [] ∧ key_verified keys ref (kc_opts kc))
             ∨ (keys = [] ∧ ∃ roots sps, fulcioroots = Ok roots
                  ∧ verified (fulcio_opts roots None [] (kc_opts kc)) ref sps)).
Proof.
  intros H%Validate_admits. unfold validatePodSpec in H.
  destruct (k8schain_New _) as [kc| |]; cbn [catch] in H; [|done..].
  destruct (secret_Get secretName) as [data| |]; cbn [catch] in H; [|done..].
  apply bind_Ok in H as (keys & Hkeys & H). apply bind_Ok in H as (e1 & H1 & H). apply bind_Ok in H as (e2 & H2 & H).
  injection H as H. apply app_nil in H as [-> ->].
  exists kc, data, keys. do 3 (split; [done|]). intros c Hc.
  assert (∃ field j, check_container reg depth fulcioroots (Some (Some p)) keys kc field j c = Ok [])
    as (field & j & Hcc).
  { apply elem_of_app in Hc as [Hc|Hc].
    - destruct (check_containers_admits _ _ _ _ _ _ H1 c Hc). eauto.
    - destruct (check_containers_admits _ _ _ _ _ _ H2 c Hc). eauto. }
  apply check_container_admits in Hcc as (repo & d & Href & Hpol & Htrad).
  exists repo, d. split; [done|]. split.
  - intros k cip Hk Hm Hne He.
    assert (Hcol : collected (ref_Name (name_Digest repo d)) cip = Some (concat (replicate
      (matches (ref_Name (name_Digest repo d)) cip) (Authorities cip)))).
    { unfold collected. by destruct (matches _ cip). }
    assert (Hsub : ∀ a, a ∈ concat (replicate (matches (ref_Name (name_Digest repo d)) cip)
      (Authorities cip)) → a ∈ Authorities cip).
    { intros a. apply elem_of_concat_replicate. }
    destruct (passes_satisfied _ _ _ (Hpol k cip _ Hk Hcol)) as (a & Hin & Hs).
    + destruct (matches _ cip); [done|]. cbn. by destruct (Authorities cip).
    + intros a Ha. by apply He, Hsub.
    + exists a. split; [by apply Hsub|done].
  - intros Hno. destruct Htrad as [sps Hv].
    { intros k cip Hk. unfold collected. by rewrite (Hno k cip Hk). }
    by eapply valid_verified.
Qed.

(** C2: what the admission webhook promises.  When a workload that is not
    being deleted is admitted, every container and init container runs an image
    referenced by digest, and every policy that matches the image has an
    authority that a signature of the image satisfies, provided that the
    authorities of the policies are effective; an image that no policy matches
    is verified against the keys of the secret, or the Fulcio roots when there
    are none. *)
Theorem admission_sound w secretName (p : gmap string ClusterImagePolicy) ns ps :
  Validate_ reg depth fulcioroots w secretName (Some (Some p)) false ns ps = Ok [] →
  (∀ k cip, p !! k = Some cip →
     Authorities cip ≠ [] ∧ ∀ a, a ∈ Authorities cip → effective a) →
  ∃ kc data keys, k8schain_New (chain_options ns ps) = Ok kc ∧ secret_Get secretName = Ok data
    ∧ getKeys data = Ok keys
    ∧ ∀ c, c ∈ InitContainers ps ++ Containers ps →
      ∃ repo d, let ref := name_Digest repo d in
        name_ParseReference (c_Image c) = Ok ref
        ∧ (∀ k cip, p !! k = Some cip → matches (ref_Name ref) cip ≠ 0 →
             policy_satisfied ref kc (Authorities cip))
        ∧ ((∀ k cip, p !! k = Some cip → matches (ref_Name ref) cip = 0) →
             (keys ≠ [] ∧ key_verified keys ref (kc_opts kc))
             ∨ (keys = [] ∧ ∃ roots sps, fulcioroots = Ok roots
                  ∧ verified (fulcio_opts roots None [] (kc_opts kc)) ref sps)).
Proof.
  intros H Heff. destruct (admission_spec _ _ _ _ _ H) as (kc & data & keys & ? & ? & ? & Hall).
  exists kc, data, keys. split_and!; [done..|]. intros c Hc.
  destruct (Hall c Hc) as (repo & d & ? & Hpol & ?). exists repo, d. split_and!; [done| |done].
  intros k cip Hk Hm. destruct (Heff k cip Hk). by apply (Hpol k cip).
Qed.


(** C38: policies whose authorities are all ineffective admit what they match.  An
    image that is referenced by digest, that some policy matches, and of which every
    matching policy has no effective authority (with a public key or a Fulcio URL) is
    admitted whatever the registry holds, signed or not: no authority is checked, no
    error is gathered, and the policies count as satisfied.  (A matching policy with an
    effective authority is still checked.) *)
Theorem ineffective_policy_admits p keys kc field i c repo d policies :
  name_ParseReference (c_Image c) = Ok (name_Digest repo d) →
  GetMatchingPolicies p (ref_Name (name_Digest repo d)) = (policies, None) → policies ≠ ∅ →
  (∀ k auths a, policies !! k = Some auths → a ∈ auths → ¬ effective a) →
  check_container reg depth fulcioroots (Some p) keys kc field i c = Ok [].
Proof.
  intros Href Hm Hne Hineff. unfold check_container. rewrite Href. cbn [catch]. rewrite Hm.
  rewrite decide_False by done.
  assert (Hca : ∀ opts auths, (∀ a, a ∈ auths → ¬ effective a) →
    check_authorities reg depth fulcioroots (name_Digest repo d) opts auths [] = Ok ([], [])).
  { intros opts auths. induction auths as [|a auths IH]; intros Ha; cbn; [done|].
    rewrite (proj2 (authority_check_None _ _ _)) by (apply Ha; set_solver). apply IH. set_solver. }
  assert (Hve : ∀ l sg, (∀ k auths a, (k, auths) ∈ l → a ∈ auths → ¬ effective a) →
    NoDup l.*1 → (∀ k, k ∈ l.*1 → sg !! k = None) →
    ∃ sg', validate_each reg depth fulcioroots (name_Digest repo d) kc l sg ∅ = Ok (sg', ∅)
      ∧ size sg' = size sg + length l).
  { induction l as [|[k auths] l IH]; intros sg Hl Hnd Hfresh; cbn; [eauto with lia|].
    apply NoDup_cons in Hnd as [Hk Hnd]. unfold ValidatePolicy.
    rewrite Hca by (intros; eapply Hl; [by left|done]). cbn.
    destruct (IH (map_append k [] sg)) as (sg' & -> & Hs).
    - intros. eapply Hl; [by right|done].
    - done.
    - intros k' Hk'. unfold map_append. rewrite lookup_insert_ne by set_solver. apply Hfresh. set_solver.
    - exists sg'. split; [done|]. rewrite Hs, size_map_append_fresh by (apply Hfresh; set_solver). lia. }
  unfold validatePolicies.
  destruct (Hve (map_to_list policies) ∅) as (sg' & -> & Hs).
  - intros k auths a Hk. apply (Hineff k). by apply elem_of_map_to_list.
  - apply NoDup_fst_map_to_list.
  - done.
  - cbn. rewrite map_size_empty, length_map_to_list in Hs. cbn in Hs.
    rewrite (bool_decide_true (size sg' = _)) by done. cbn.
    rewrite bool_decide_true; [done|]. rewrite Hs. destruct (size policies) eqn:E; [|lia].
    by apply map_size_empty_iff in E.
Qed.

(** A secret whose keys are all malformed is not reported: [getKeys] gives
    no keys and no error, and images are then verified against the Fulcio
    roots, for any identity, instead. *)
Theorem malformed_secret_falls_back cfg ref opts :
  (∀ blk, blk ∈ parsePems (default "" (cfg !! "cosign.pub")) →
     is_ok (x509_ParsePKIXPublicKey (snd blk)) = false) →
  getKeys cfg = Ok [] ∧ ∀ sps, valid reg depth fulcioroots ref [] opts = Ok sps →
    ∃ roots, fulcioroots = Ok roots ∧ verified (fulcio_opts roots None [] opts) ref sps.
Proof.
  intros Hbad. split.
  - unfold getKeys. f_equal. induction (parsePems _) as [|blk l IH]; [done|]. cbn.
    pose proof (Hbad blk ltac:(set_solver)) as Hb.
    destruct (x509_ParsePKIXPublicKey (snd blk)); [done|..]; apply IH; set_solver.
  - intros sps H. unfold valid in H. go_inv.
    match goal with H : validSignaturesWithFulcio _ _ _ _ _ _ _ = Ok ?l |- _ =>
      apply validSignaturesWithFulcio_verified in H; destruct l; go_inv end.
    eauto.
Qed.

End admission.

(** ** Witnesses *)

Definition toy_Kube : Kube (R := toy_Registry) := {|
  Keychain := unit;
  k8schain_New _ := Ok ();
  remote_WithAuthFromKeychain _ := (() : ROption (Registry := toy_Registry));
  secret_Get n := Ok (if n =?s "policy-key" then {["cosign.pub" := "k"]} else ∅);
  fulcio_RootCert _ := Ok "root";
  pool_AppendCertsFromPEM b := Some (toy_certs b);
  rekor_GetRekorClient _ := Err (error_New "no client");
  ref_Name := Reference_String |}.

(** The image repo@sha256:d, signed with the key "k". *)
Definition toy_digest_reg : Reg (Registry := toy_Registry) := λ r,
  match r with
  | name_Digest _ _ => Some []
  | name_Tag _ _ => toy_reg r
  end.

Definition toy_pod : PodSpec := mkPodSpec [] [mkContainer "c" "repo@sha256:d"] [] "default".

Definition toy_key_policy : webhookcip.ClusterImagePolicy (R := toy_Registry) :=
  webhookcip.mkCIP (R := toy_Registry) [v1alpha1.mkImagePattern "repo*" ""]
    [webhookcip.mkAuthority (R := toy_Registry) (Some (webhookcip.mkKeyRef "k" [toy_key "k"]))
       None [] None []].

Definition toy_config : gmap string (webhookcip.ClusterImagePolicy (R := toy_Registry)) :=
  {["policy" := toy_key_policy]}.

Lemma admission_sound_witness :
  ∃ keys, getKeys (X := toy) ∅ = Ok keys
    ∧ ∃ repo d, name_ParseReference (Registry := toy_Registry) "repo@sha256:d" = Ok (name_Digest repo d).
Proof.
  destruct (admission_sound (X := toy) (TR := toy_TrustRoot) (C := toy_Ct) (R := toy_Registry)
    (K := toy_Kube) toy_digest_reg 1 (Ok None) Pod "secret" toy_config "ns" toy_pod)
    as (kc & data & keys & _ & Hd & Hk & Hall).
  - vm_compute. reflexivity.
  - intros k cip Hk. unfold toy_config in Hk. apply lookup_singleton_Some in Hk as [<- <-]. split; [done|].
    intros a [->|Hn%elem_of_nil]%elem_of_cons; [|done]. left. eexists. split; [reflexivity|done].
  - injection Hd as <-. exists keys. split; [exact Hk|].
    destruct (Hall (mkContainer "c" "repo@sha256:d")) as (repo & d & Href & _); [by left|].
    exists repo, d. exact Href.
Defined.

(** A policy that passes validation: keyless, with identities and no URL. *)
Definition toy_identity_policy : v1alpha1.ClusterImagePolicy :=
  v1alpha1.mkCIP "identities" (v1alpha1.mkSpec [v1alpha1.mkImagePattern "repo*" ""]
    [v1alpha1.mkAuthority None
       (Some (v1alpha1.mkKeylessRef None (Some [mkIdentity "https://issuer" "user"]) None)) [] None]).

Definition toy_identity_config : gmap string (webhookcip.ClusterImagePolicy (R := toy_Registry)) :=
  {["identities" := webhookcip.ConvertClusterImagePolicyV1alpha1ToWebhook (R := toy_Registry)
      toy_identity_policy]}.

Lemma ineffective_policy_admits_witness :
  v1alpha1.Validate (X := toy) toy_identity_policy = []
  ∧ check_container (X := toy) (TR := toy_TrustRoot) (C := toy_Ct) (R := toy_Registry)
      (K := toy_Kube) (λ _, None) 1 (Ok None) (Some (Some toy_identity_config)) []
      () "containers" 0 (mkContainer "c" "repo@sha256:d") = Ok [].
Proof.
  split; [vm_compute; reflexivity|].
  apply (ineffective_policy_admits (X := toy) (TR := toy_TrustRoot) (C := toy_Ct)
    (R := toy_Registry) (K := toy_Kube) (λ _, None) 1 (Ok None)
    (Some toy_identity_config) [] () "containers" 0 (mkContainer "c" "repo@sha256:d") "repo" "sha256:d"
    {["identities" := webhookcip.Authorities (R := toy_Registry)
        (webhookcip.ConvertClusterImagePolicyV1alpha1ToWebhook (R := toy_Registry)
           toy_identity_policy)]}).
  - reflexivity.
  - reflexivity.
  - done.
  - intros k auths a Hk. apply lookup_singleton_Some in Hk as [<- <-].
    intros [->|Hn%elem_of_nil]%elem_of_cons; [|done].
    intros [(k & [=] & _)|(kl & u & [= <-] & [=])].
Defined.

Lemma malformed_secret_falls_back_witness :
  getKeys (X := toy) {["cosign.pub" := "bad key"]} = Ok [].
Proof.
  apply (malformed_secret_falls_back (X := toy) (TR := toy_TrustRoot) (C := toy_Ct)
    (R := toy_Registry) toy_digest_reg 1 (Ok None) {["cosign.pub" := "bad key"]}
    (name_Tag "" "") []).
  intros blk Hin. vm_compute in Hin.
  apply elem_of_cons in Hin as [->|Hn%elem_of_nil]; [reflexivity|done].
Defined.
