(* ===== verification/Reconciler.v ===== *)
(** * The policy reconciler

    pkg/reconciler/clusterimagepolicy: clusterimagepolicy.go (reconciling and
    finalizing a ClusterImagePolicy) and resources/configmap.go (the entry of
    the policy in the config map that the webhook watches).

    The state is the config map on the API server, the copy of it that the lister
    shows, which may be an older one, and what the tracker watches.  Secrets, KMS,
    the computation of JSON patches and the API server's answers are parameters;
    they may be others at each run ([Env]). *)
From S2P Require Import Prelude GoStd External Concrete OciSignature OciSignatures OciEntity.
From S2P Require Import OciRemote Tuf Tlog Ctl Verify Keys Policy Webhook.

(** tracker.Reference *)
Record TrackerRef := mkTrackerRef {
  tr_APIVersion : string; tr_Kind : string; tr_Namespace : string; tr_Name : string }.
#[export] Instance TrackerRef_eq_dec : EqDecision TrackerRef.
Proof. solve_decision. Defined.

(** The config map config-image-policies, by its Data. *)
Record Cluster := mkCluster {
  cl_ConfigMap : option (gmap string string);     (* on the API server *)
  cl_Cached : option (gmap string string);        (* as the lister shows it *)
  cl_Tracked : list (TrackerRef * string) }.      (* with the policy that tracks it *)

Class ReconcileExt `{R : Registry, K : !Kube} := {
  PatchOp : Type;
  system_Namespace : string;
  tracker_TrackReference : TrackerRef → string → res unit;
  configmaplister_Fails : option string;          (* an error other than not found *)
  duck_CreatePatch : gmap string string → gmap string string → res (list PatchOp);
  jsonpatch_MarshalJSON : list PatchOp → res bytes;
  configmaps_Create : gmap string string → res unit;
  configmaps_Patch : bytes → gmap string string → res (gmap string string) }.

Section reconciler.
Context `{X : Ext, KX : KeyExt, R : Registry, J : !PolicyJson, K : !Kube, E : !ReconcileExt}.

(** ** resources/configmap.go *)

Definition marshal (spec : webhookcip.ClusterImagePolicy) : res string := json_Marshal_CIP spec.

Definition NewConfigMap (cipName : string) (cip : webhookcip.ClusterImagePolicy) :
    res (gmap string string) :=
  entry ← marshal cip; Ok {[cipName := entry]}.

Definition patch_bytes (before after : gmap string string) : res bytes :=
  jsonPatch ← map_err (λ e, error_Wrapped ("creating JSON patch: " +:+ Error e) e)
                (duck_CreatePatch before after);
  match jsonPatch with [] => Ok "" | _ => jsonpatch_MarshalJSON jsonPatch end.

Definition CreatePatch (cipName : string) (cm : gmap string string)
    (cip : webhookcip.ClusterImagePolicy) : res bytes :=
  entry ← marshal cip; patch_bytes cm (<[cipName := entry]> cm).

Definition CreateRemovePatch (cm : gmap string string) (cipName : string) : res bytes :=
  patch_bytes cm (delete cipName cm).

(** ** The API server *)

Definition configmaplister_Get : M Cluster (gmap string string) := reads (λ w,
  match configmaplister_Fails, cl_Cached w with
  | Some msg, _ => Err (error_New msg)
  | None, Some cm => Ok cm
  | None, None => Err (error_Kind kind_k8sNotFound "configmap not found")
  end).

Definition set_ConfigMap (cm : gmap string string) (w : Cluster) : Cluster :=
  mkCluster (Some cm) (cl_Cached w) (cl_Tracked w).
Definition set_Cached (cm : option (gmap string string)) (w : Cluster) : Cluster :=
  mkCluster (cl_ConfigMap w) cm (cl_Tracked w).

(** The object may exist although the lister does not show it yet. *)
Definition create (cm : gmap string string) : M Cluster unit :=
  _ ← reads (λ w, match cl_ConfigMap w with
                  | Some _ => Err (error_New "configmap already exists")
                  | None => configmaps_Create cm
                  end);
  modify (set_ConfigMap cm).

(** A patch is applied to the object that the server holds. *)
Definition patch (p : bytes) : M Cluster unit :=
  cm ← reads (λ w, match cl_ConfigMap w with
                   | Some cm => configmaps_Patch p cm
                   | None => Err (error_Kind kind_k8sNotFound "configmap not found")
                   end);
  modify (set_ConfigMap cm).

(** ** Inlining keys *)

Definition getKMSPublicKey (keyID : string) : res string :=
  kmsSigner ← kms_Get keyID; PublicKeyPem (sv_Verifier kmsSigner).

(** The loop over the secret's entries: each valid key replaces the data. *)
Fixpoint inline_entries (name : string) (data : list (string * bytes)) (keyref : v1alpha1.KeyRef) :
    res v1alpha1.KeyRef :=
  match data with
  | [] => Ok keyref
  | (_, v) :: data' =>
      if negb (IsValidKey v)
      then Err (error_New ("secret " +:+ quoted name +:+ " contains an invalid public key"))
      else inline_entries name data' (v1alpha1.mkKeyRef None v (v1alpha1.KMS keyref))
  end.

Definition secret_reference (name : string) : TrackerRef :=
  mkTrackerRef "v1" "Secret" system_Namespace name.

(** The entries of the secret, which must be exactly one; [cip] is the name of the
    policy that tracks it. *)
Definition tracked_secret_data (cip name : string) : M Cluster (list (string * bytes)) :=
  _ ← lift (map_err (λ e, error_Wrapped
        ("failed to track changes to secret " +:+ quoted name +:+ " : " +:+ Error e) e)
        (tracker_TrackReference (secret_reference name) cip));
  _ ← modify (λ w, mkCluster (cl_ConfigMap w) (cl_Cached w) ((secret_reference name, cip) :: cl_Tracked w));
  data ← lift (secret_Get name);
  if bool_decide (size data = 0) then
    lift (Err (error_New ("secret " +:+ quoted name +:+ " contains no data")))
  else if bool_decide (1 < size data) then
    lift (Err (error_New ("secret " +:+ quoted name
      +:+ " contains multiple data entries, only one is supported")))
  else mret (map_to_list data).

Definition inlineAndTrackSecret (cip name : string) (keyref : v1alpha1.KeyRef) :
    M Cluster v1alpha1.KeyRef :=
  data ← tracked_secret_data cip name; lift (inline_entries name data keyref).

(** A key reference, if it is present and names a secret. *)
Definition inline_ref (cip : string) (keyref : option v1alpha1.KeyRef) : M Cluster (option v1alpha1.KeyRef) :=
  match keyref with
  | Some k =>
      match v1alpha1.SecretRef k with
      | Some name => k' ← inlineAndTrackSecret cip name k; mret (Some k')
      | None => mret keyref
      end
  | None => mret None
  end.

Definition inline_kms (keyref : option v1alpha1.KeyRef) : res (option v1alpha1.KeyRef) :=
  match keyref with
  | Some k =>
      if negb (v1alpha1.KMS k =?s "") && strings_Contains (v1alpha1.KMS k) "://" then
        pubKeyString ← getKMSPublicKey (v1alpha1.KMS k);
        Ok (Some (v1alpha1.mkKeyRef (v1alpha1.SecretRef k) pubKeyString ""))
      else Ok keyref
  | None => Ok None
  end.

Definition inline_keyless (cip : string) (keyless : option v1alpha1.KeylessRef) :
    M Cluster (option v1alpha1.KeylessRef) :=
  match keyless with
  | Some kl =>
      ca ← inline_ref cip (v1alpha1.CACert kl);
      mret (Some (v1alpha1.mkKeylessRef (v1alpha1.URL kl) (v1alpha1.Identities kl) ca))
  | None => mret None
  end.

Definition inline_authority (cip : string) (a : v1alpha1.Authority) : M Cluster v1alpha1.Authority :=
  key ← inline_ref cip (v1alpha1.Key a);
  keyless ← inline_keyless cip (v1alpha1.Keyless a);
  key ← lift (inline_kms key);
  mret (v1alpha1.mkAuthority key keyless (v1alpha1.Sources a) (v1alpha1.CTLog a)).

Fixpoint inline_authorities (cip : string) (l : list v1alpha1.Authority) :
    M Cluster (list v1alpha1.Authority) :=
  match l with
  | [] => mret []
  | a :: l' => a' ← inline_authority cip a; rest ← inline_authorities cip l'; mret (a' :: rest)
  end.

Definition inlinePublicKeys (cip : v1alpha1.ClusterImagePolicy) :
    M Cluster v1alpha1.ClusterImagePolicy :=
  auths ← inline_authorities (v1alpha1.cip_Name cip) (v1alpha1.Authorities (v1alpha1.Spec cip));
  mret (v1alpha1.mkCIP (v1alpha1.cip_Name cip)
          (v1alpha1.mkSpec (v1alpha1.Images (v1alpha1.Spec cip)) auths)).

(** ** Reconciling *)

Definition apply_patch (patchBytes : bytes) : M Cluster unit :=
  if bool_decide (0 < String.length patchBytes) then patch patchBytes else mret ().

Definition removeCIPEntry (cm : gmap string string) (cipName : string) : M Cluster unit :=
  patchBytes ← lift (CreateRemovePatch cm cipName); apply_patch patchBytes.

(** Every error is logged only. *)
Definition handleCIPError (cipName : string) : M Cluster unit :=
  existing ← M_try configmaplister_Get;
  match existing with
  | Ok cm => _ ← M_try (removeCIPEntry cm cipName); mret ()
  | _ => mret ()
  end.

Definition publish (name : string) (webhookCIP : webhookcip.ClusterImagePolicy) : M Cluster unit :=
  existing ← M_try configmaplister_Get;
  match existing with
  | Ok cm => patchBytes ← lift (CreatePatch name cm webhookCIP); apply_patch patchBytes
  | Err err =>
      if negb (apierrs_IsNotFound err) then lift (Err err)
      else cm ← lift (NewConfigMap name webhookCIP); create cm
  | Panic w => lift (Panic w)
  end.

Definition ReconcileKind (cip : v1alpha1.ClusterImagePolicy) : M Cluster unit :=
  cipCopy ← M_try (inlinePublicKeys cip);
  match cipCopy with
  | Ok cipCopy =>
      publish (v1alpha1.cip_Name cip)
        (webhookcip.ConvertClusterImagePolicyV1alpha1ToWebhook cipCopy)
  | Err cipErr => _ ← handleCIPError (v1alpha1.cip_Name cip); lift (Err cipErr)
  | Panic w => lift (Panic w)
  end.

Definition FinalizeKind (cip : v1alpha1.ClusterImagePolicy) : M Cluster unit :=
  existing ← M_try configmaplister_Get;
  match existing with
  | Ok cm => removeCIPEntry cm (v1alpha1.cip_Name cip)
  | Err err => if negb (apierrs_IsNotFound err) then lift (Err err) else mret ()
  | Panic w => lift (Panic w)
  end.

End reconciler.

(** ** What JSON patches are relied on for

    RFC 6902 and knative's duck.CreatePatch, on the JSON of config maps: the patch from
    [a] to [b] has no operation exactly when they are equal, and its text is not empty.
    A map without entries has no member "data" in its JSON.  So the patch that puts
    an entry into [a] adds that entry to the map it is applied to, or, when [a] had
    none, sets the whole member; and the patch that takes the last entry away
    removes the whole member. *)
Definition put_patched (a : gmap string string) (n e : string) (c : gmap string string) :
    gmap string string :=
  if decide (a = ∅) then {[n := e]} else <[n := e]> c.
Definition take_patched (a : gmap string string) (n : string) (c : gmap string string) :
    gmap string string :=
  if decide (delete n a = ∅) then ∅ else delete n c.

Class ReconcileLaws `{R : Registry, K : !Kube, E : !ReconcileExt} := {
  patch_self a : duck_CreatePatch a a = Ok [];
  patch_empty a b ops : duck_CreatePatch a b = Ok ops → ops = [] ↔ a = b;
  patch_text ops p : ops ≠ [] → jsonpatch_MarshalJSON ops = Ok p → p ≠ "";
  patch_puts a n e ops p c c' : a !! n ≠ Some e →
    duck_CreatePatch a (<[n := e]> a) = Ok ops → jsonpatch_MarshalJSON ops = Ok p →
    configmaps_Patch p c = Ok c' → c' = put_patched a n e c;
  patch_takes a n ops p c c' : is_Some (a !! n) →
    duck_CreatePatch a (delete n a) = Ok ops → jsonpatch_MarshalJSON ops = Ok p →
    configmaps_Patch p c = Ok c' → c' = take_patched a n c }.

Section refinement.
Context `{X : Ext, KX : KeyExt, R : Registry, J : !PolicyJson, K : !Kube, E : !ReconcileExt, L : !ReconcileLaws}.

(** The policies in force: the entries of the config map. *)
Definition in_force (w : Cluster) : gmap string string := default ∅ (cl_ConfigMap w).

(** *** The abstract controller's two writes

    [S] is the config map as the lister shows it and [D] as the server holds it. *)
Definition patched (p : bytes) (D : option (gmap string string)) : res (gmap string string) :=
  match D with
  | Some cm => configmaps_Patch p cm
  | None => Err (error_Kind kind_k8sNotFound "configmap not found")
  end.

Definition put_shown (S : option (gmap string string)) (n e : string) (D : option (gmap string string)) :
    option (gmap string string) :=
  match S with
  | None => Some {[n := e]}
  | Some a => if decide (a !! n = Some e) then D else put_patched a n e <$> D
  end.
Definition take_shown (S : option (gmap string string)) (n : string) (D : option (gmap string string)) :
    option (gmap string string) :=
  match S with
  | None => D
  | Some a => if decide (is_Some (a !! n)) then take_patched a n <$> D else D
  end.

(** When they fail: the lister fails, the entry or the patch cannot be made, or the
    server refuses. *)
Definition put_refused (S : option (gmap string string)) (n : string)
    (cip : webhookcip.ClusterImagePolicy) (D : option (gmap string string)) : Prop :=
  is_Some configmaplister_Fails ∨ is_ok (marshal cip) = false ∨
  ∃ e, marshal cip = Ok e ∧
    match S with
    | None => is_Some D ∨ is_ok (configmaps_Create {[n := e]}) = false
    | Some a => a !! n ≠ Some e ∧ is_ok (p ← patch_bytes a (<[n := e]> a); patched p D) = false
    end.
Definition take_refused (S : option (gmap string string)) (n : string)
    (D : option (gmap string string)) : Prop :=
  is_Some configmaplister_Fails ∨
  ∃ a, S = Some a ∧ is_ok (p ← CreateRemovePatch a n; patched p D) = false
    ∧ (is_Some (a !! n) ∨ is_ok (CreateRemovePatch a n) = false).

(** With a lister that is current they put the entry in and take it out. *)
Lemma put_current S n e : default ∅ (put_shown S n e S) = <[n := e]> (default ∅ S).
Proof.
  destruct S as [a|]; cbn; [|done]. unfold put_patched.
  destruct (decide _); cbn; [by rewrite insert_id|]. destruct (decide _) as [->|]; done.
Qed.
Lemma take_current S n : default ∅ (take_shown S n S) = delete n (default ∅ S).
Proof.
  destruct S as [a|]; cbn; [|by rewrite delete_empty]. unfold take_patched.
  destruct (decide _) as [|Hn]; cbn.
  - by destruct (decide _) as [->|].
  - rewrite delete_id; [done|]. by apply eq_None_not_Some.
Qed.

(** *** What the calls do *)

Lemma apply_patch_run a b p w :
  patch_bytes a b = Ok p →
  apply_patch p w =
    if decide (a = b) then (w, Ok ())
    else match patched p (cl_ConfigMap w) with
         | Ok c => (set_ConfigMap c w, Ok ()) | Err e => (w, Err e) | Panic x => (w, Panic x)
         end.
Proof.
  unfold patch_bytes. intros Hp. go_inv.
  match goal with H : duck_CreatePatch _ _ = Ok ?l |- _ =>
    pose proof (patch_empty _ _ _ H) as He; destruct l as [|o ops] end; go_inv.
  - rewrite decide_True by by apply He. done.
  - pose proof (patch_text (o :: ops) _ ltac:(done) ltac:(eassumption)) as Hne.
    rewrite decide_False by (intros Hab; by apply He in Hab). unfold apply_patch.
    rewrite bool_decide_true by (destruct p; cbn; [done|lia]).
    unfold patch, reads, mbind, M_bind, patched. destruct (cl_ConfigMap w) as [c|]; [|done].
    by destruct (configmaps_Patch p c).
Qed.

Lemma patch_bytes_ops a b p :
  patch_bytes a b = Ok p → a ≠ b →
  ∃ ops, duck_CreatePatch a b = Ok ops ∧ jsonpatch_MarshalJSON ops = Ok p.
Proof.
  unfold patch_bytes. intros Hp Hne. go_inv.
  match goal with H : duck_CreatePatch _ _ = Ok ?l |- _ =>
    pose proof (patch_empty _ _ _ H) as He; destruct l as [|o ops] end; go_inv; [|eauto].
  destruct Hne. by apply He.
Qed.

Lemma removeCIPEntry_run cm name w w' r :
  cl_Cached w = Some cm → configmaplister_Fails = None → removeCIPEntry cm name w = (w', r) →
  match r with
  | Ok _ => ¬ take_refused (Some cm) name (cl_ConfigMap w) ∧
      cl_ConfigMap w' = take_shown (Some cm) name (cl_ConfigMap w)
  | _ => take_refused (Some cm) name (cl_ConfigMap w) ∧ w' = w
  end.
Proof.
  intros Hcm Hl. unfold removeCIPEntry, lift. unfold mbind at 1, M_bind at 1.
  destruct (CreateRemovePatch cm name) as [p| |] eqn:Hp.
  2,3: intros [= <- <-]; split; [|done]; right; exists cm; rewrite Hp; cbn; auto.
  pose proof Hp as Hb. unfold CreateRemovePatch in Hb. rewrite (apply_patch_run _ _ _ _ Hb).
  unfold take_shown.
  destruct (decide (is_Some (cm !! name))) as [Hs|Hs].
  - assert (cm ≠ delete name cm) as Hne.
    { intros Heq. destruct Hs as [v Hv]. rewrite Heq, lookup_delete_eq in Hv. done. }
    rewrite decide_False by done. destruct (patched p _) as [c| |] eqn:Hpa.
    + intros [= <- <-]. split.
      * intros [[? ?]|(a & [= <-] & Hok & _)]; [congruence|]. rewrite Hp in Hok. cbn in Hok. by rewrite Hpa in Hok.
      * destruct (patch_bytes_ops _ _ _ Hb Hne) as (ops & Ho & Hm). unfold patched in Hpa.
        destruct (cl_ConfigMap w) as [c0|]; [|done]. cbn. f_equal. by eapply patch_takes.
    + intros [= <- <-]. split; [|done]. right. exists cm. rewrite Hp. cbn. rewrite Hpa. auto.
    + intros [= <- <-]. split; [|done]. right. exists cm. rewrite Hp. cbn. rewrite Hpa. auto.
  - assert (delete name cm = cm) as Hd by (apply delete_id; by apply eq_None_not_Some).
    rewrite decide_True by done. intros [= <- <-]. split; [|done].
    intros [[? ?]|(a & [= <-] & _ & [?|Hok])]; [congruence|done|]. by rewrite Hp in Hok.
Qed.

Lemma create_run name cip w w' r :
  cl_Cached w = None → (cm ← lift (NewConfigMap name cip); create cm) w = (w', r) →
  match r with
  | Ok _ => ∃ e, marshal cip = Ok e ∧ cl_ConfigMap w' = Some {[name := e]}
  | _ => put_refused None name cip (cl_ConfigMap w) ∧ w' = w
  end.
Proof.
  intros Hc. unfold NewConfigMap, create, reads, lift, mbind, M_bind.
  destruct (marshal cip) as [e| |] eqn:Hm; cbn.
  2,3: intros [= <- <-]; split; [right; left; by rewrite Hm|done].
  destruct (cl_ConfigMap w) as [c|] eqn:Hw.
  { intros [= <- <-]. split; [|done]. right. right. exists e. split; [done|]. left. by eexists. }
  destruct (configmaps_Create _) eqn:Hcr; intros [= <- <-]; [by exists e|..];
    (split; [|done]; right; right; exists e; split; [done|]; right; by rewrite Hcr).
Qed.

Lemma publish_run name cip w w' r :
  publish name cip w = (w', r) →
  match r with
  | Ok _ => configmaplister_Fails = None ∧ ∃ e, marshal cip = Ok e
      ∧ cl_ConfigMap w' = put_shown (cl_Cached w) name e (cl_ConfigMap w)
  | _ => put_refused (cl_Cached w) name cip (cl_ConfigMap w) ∧ w' = w
  end.
Proof.
  unfold publish, configmaplister_Get, M_try, reads. unfold mbind at 1, M_bind at 1.
  destruct configmaplister_Fails as [msg|] eqn:Hl.
  { cbn. intros [= <- <-]. split; [|done]. left. rewrite Hl. by eexists. }
  destruct (cl_Cached w) as [a|] eqn:Hc; cbn.
  2: { intros H. apply create_run in H; [|done]. destruct r; [|done..]. auto. }
  unfold CreatePatch, lift, mbind, M_bind. destruct (marshal cip) as [e| |] eqn:Hm; cbn.
  2,3: intros [= <- <-]; split; [right; left; by rewrite Hm|done].
  destruct (decide (a !! name = Some e)) as [Hs|Hs].
  - unfold patch_bytes at 1. rewrite insert_id, patch_self by done. cbn. intros [= <- <-]. split; [done|].
    exists e. split; [done|]. by rewrite decide_True.
  - assert (a ≠ <[name := e]> a) as Hne.
    { intros Heq. apply Hs. rewrite Heq. apply lookup_insert_eq. }
    destruct (patch_bytes a (<[name := e]> a)) as [p| |] eqn:Hp; cbn.
    2,3: intros [= <- <-]; split; [|done]; right; right; exists e; rewrite Hp; done.
    rewrite (apply_patch_run _ _ _ _ Hp), decide_False by done.
    destruct (patched p _) as [c| |] eqn:Hpa; intros [= <- <-].
    + split; [done|]. exists e. split; [done|]. rewrite decide_False by done.
      destruct (patch_bytes_ops _ _ _ Hp Hne) as (ops & Ho & Hj). unfold patched in Hpa.
      destruct (cl_ConfigMap w) as [c0|]; [|done]. cbn. f_equal. by eapply patch_puts.
    + split; [|done]. right. right. exists e. rewrite Hp. cbn. rewrite Hpa. done.
    + split; [|done]. right. right. exists e. rewrite Hp. cbn. rewrite Hpa. done.
Qed.

(** *** Inlining does not touch the config map *)

Definition frames {A} (m : M Cluster A) : Prop := ∀ w,
  cl_ConfigMap (fst (m w)) = cl_ConfigMap w ∧ cl_Cached (fst (m w)) = cl_Cached w.

Lemma frames_ret {A} (a : A) : frames (mret a).
Proof. done. Qed.
Lemma frames_lift {A} (r : res A) : frames (lift r).
Proof. done. Qed.
Lemma frames_bind {A B} (m : M Cluster A) (f : A → M Cluster B) :
  frames m → (∀ a, frames (f a)) → frames (m ≫= f).
Proof.
  intros Hm Hf w. unfold mbind, M_bind. destruct (Hm w) as [H1 H2].
  destruct (m w) as [w1 [a| |]]; [|done..]. destruct (Hf a w1) as [-> ->]. done.
Qed.
Hint Resolve frames_ret frames_lift frames_bind : go.

Lemma frames_secret cip name k : frames (inlineAndTrackSecret cip name k).
Proof.
  unfold inlineAndTrackSecret, tracked_secret_data. apply frames_bind; [|done].
  repeat (apply frames_bind; [done|intros ?]). by repeat case_bool_decide.
Qed.
Hint Resolve frames_secret : go.

Lemma frames_ref cip k : frames (inline_ref cip k).
Proof. destruct k as [k|]; cbn; [destruct (v1alpha1.SecretRef k)|]; auto with go. Qed.
Hint Resolve frames_ref : go.

Lemma frames_authority cip a : frames (inline_authority cip a).
Proof.
  unfold inline_authority, inline_keyless. apply frames_bind; [auto with go|intros k].
  apply frames_bind; [destruct (v1alpha1.Keyless a); auto with go|auto with go].
Qed.
Hint Resolve frames_authority : go.

Lemma frames_inline cip : frames (inlinePublicKeys cip).
Proof.
  unfold inlinePublicKeys. apply frames_bind; [|auto with go].
  induction (v1alpha1.Authorities _); cbn; auto with go.
Qed.

(** *** What inlining gives *)

(** The only entry of the secret is the valid key [v]. *)
Definition secret_holds (name : string) (v : bytes) : Prop :=
  ∃ k, secret_Get name = Ok {[k := v]} ∧ IsValidKey v = true.

Definition secret_inlined (k k' : v1alpha1.KeyRef) : Prop :=
  match v1alpha1.SecretRef k with
  | Some name => ∃ v, secret_holds name v ∧ k' = v1alpha1.mkKeyRef None v (v1alpha1.KMS k)
  | None => k' = k
  end.

Definition kms_inlined (k k' : v1alpha1.KeyRef) : Prop :=
  if strings_Contains (v1alpha1.KMS k) "://" then
    ∃ pem, getKMSPublicKey (v1alpha1.KMS k) = Ok pem
      ∧ k' = v1alpha1.mkKeyRef (v1alpha1.SecretRef k) pem ""
  else k' = k.

(** The key of an authority: from its secret, then from KMS. *)
Definition key_inlined (k k' : v1alpha1.KeyRef) : Prop :=
  ∃ k1, secret_inlined k k1 ∧ kms_inlined k1 k'.

Definition keyless_inlined (k k' : v1alpha1.KeylessRef) : Prop :=
  v1alpha1.URL k' = v1alpha1.URL k ∧ v1alpha1.Identities k' = v1alpha1.Identities k
  ∧ option_Forall2 secret_inlined (v1alpha1.CACert k) (v1alpha1.CACert k').

Definition authority_inlined (a a' : v1alpha1.Authority) : Prop :=
  option_Forall2 key_inlined (v1alpha1.Key a) (v1alpha1.Key a')
  ∧ option_Forall2 keyless_inlined (v1alpha1.Keyless a) (v1alpha1.Keyless a')
  ∧ v1alpha1.Sources a' = v1alpha1.Sources a ∧ v1alpha1.CTLog a' = v1alpha1.CTLog a.

Lemma size_1_singleton {A} (m : gmap string A) : size m = 1 → ∃ k a, m = {[k := a]}.
Proof.
  rewrite <- length_map_to_list. destruct (map_to_list m) as [|[k a] [|]] eqn:Em; intros [=].
  exists k, a. by rewrite <- (list_to_map_to_list m), Em.
Qed.

Lemma inlineAndTrackSecret_spec cip name k w w' k' :
  inlineAndTrackSecret cip name k w = (w', Ok k') → ∃ v, secret_holds name v ∧ k' = v1alpha1.mkKeyRef None v (v1alpha1.KMS k).
Proof.
  intros H. unfold inlineAndTrackSecret, tracked_secret_data in H. M_inv.
  repeat case_bool_decide; M_inv; [done..|].
  match goal with H : secret_Get name = Ok ?d |- _ =>
    assert (size d = 1) as Hs by lia;
    apply size_1_singleton in Hs as (key & v & ->) end.
  rewrite map_to_list_singleton in *. cbn in *.
  destruct (IsValidKey v) eqn:Hv; cbn in *; go_inv. exists v. split; [by exists key|done].
Qed.

Lemma inline_ref_spec cip o w w' o' :
  inline_ref cip o w = (w', Ok o') → option_Forall2 secret_inlined o o'.
Proof.
  destruct o as [k|]; cbn; [|intros [= <- <-]; constructor].
  destruct (v1alpha1.SecretRef k) as [name|] eqn:Hs.
  - intros H. M_inv. constructor. unfold secret_inlined. rewrite Hs.
    by eapply inlineAndTrackSecret_spec.
  - intros [= <- <-]. constructor. unfold secret_inlined. by rewrite Hs.
Qed.

Lemma inline_kms_spec o o' : inline_kms o = Ok o' → option_Forall2 kms_inlined o o'.
Proof.
  destruct o as [k|]; cbn; [|intros [= <-]; constructor].
  destruct (v1alpha1.KMS k =?s "") eqn:Hk; cbn.
  - apply str_eqb_eq in Hk. intros [= <-]. constructor. unfold kms_inlined. by rewrite Hk.
  - destruct (strings_Contains _ _) eqn:Hc; intros H; go_inv; constructor; unfold kms_inlined;
      rewrite Hc; eauto.
Qed.

Lemma option_Forall2_compose {A} (P Q : A → A → Prop) o o1 o2 :
  option_Forall2 P o o1 → option_Forall2 Q o1 o2 →
  option_Forall2 (λ a c, ∃ b, P a b ∧ Q b c) o o2.
Proof. intros HP HQ. destruct HP; inversion HQ; subst; constructor; eauto. Qed.

Lemma inline_keyless_spec cip o w w' o' :
  inline_keyless cip o w = (w', Ok o') → option_Forall2 keyless_inlined o o'.
Proof.
  destruct o as [kl|]; cbn; [|intros [= <- <-]; constructor].
  intros H. M_inv. constructor. split; [done|]. split; [done|]. by eapply inline_ref_spec.
Qed.

Lemma inline_authority_spec cip a w w' a' :
  inline_authority cip a w = (w', Ok a') → authority_inlined a a'.
Proof.
  unfold inline_authority. intros H. M_inv. split; [|split; [|done]]; cbn.
  - eapply option_Forall2_compose; [by eapply inline_ref_spec|by apply inline_kms_spec].
  - by eapply inline_keyless_spec.
Qed.

(** The policy with its keys inlined. *)
Definition policy_inlined (cip cip' : v1alpha1.ClusterImagePolicy) : Prop :=
  v1alpha1.Images (v1alpha1.Spec cip') = v1alpha1.Images (v1alpha1.Spec cip)
  ∧ Forall2 authority_inlined (v1alpha1.Authorities (v1alpha1.Spec cip))
      (v1alpha1.Authorities (v1alpha1.Spec cip')).

Lemma inline_authorities_spec cip l w w' l' :
  inline_authorities cip l w = (w', Ok l') → Forall2 authority_inlined l l'.
Proof.
  revert w w' l'. induction l as [|a l IH]; cbn; intros w w' l' H; M_inv; [constructor|].
  constructor; [by eapply inline_authority_spec|by eapply IH].
Qed.

Lemma inlinePublicKeys_spec cip w w' cip' :
  inlinePublicKeys cip w = (w', Ok cip') → policy_inlined cip cip'.
Proof.
  unfold inlinePublicKeys. intros H. M_inv. split; [done|]. by eapply inline_authorities_spec.
Qed.

(** *** The abstract controller

    An event and its outcome change the config map [D] of the server in one step,
    given the copy [S] that the lister shows: a policy is put in with its keys inlined;
    a policy whose keys cannot be inlined, or that is finalized, is taken out;
    nothing changes when the write is refused. *)

Inductive event := ev_Reconcile (cip : v1alpha1.ClusterImagePolicy)
  | ev_Finalize (cip : v1alpha1.ClusterImagePolicy).

Definition run (ev : event) : M Cluster unit :=
  match ev with ev_Reconcile cip => ReconcileKind cip | ev_Finalize cip => FinalizeKind cip end.

(** The keys of the policy cannot be inlined. *)
Definition inline_error (cip : v1alpha1.ClusterImagePolicy) (e : error) : Prop :=
  ∀ w, snd (inlinePublicKeys cip w) = Err e.

Inductive controls (S : option (gmap string string)) :
    event → res unit → option (gmap string string) → option (gmap string string) → Prop :=
  | controls_publish cip cip' entry D :
      policy_inlined cip cip' →
      marshal (webhookcip.ConvertClusterImagePolicyV1alpha1ToWebhook cip') = Ok entry →
      controls S (ev_Reconcile cip) (Ok ()) D (put_shown S (v1alpha1.cip_Name cip) entry D)
  | controls_refused cip cip' e D :
      policy_inlined cip cip' →
      put_refused S (v1alpha1.cip_Name cip)
        (webhookcip.ConvertClusterImagePolicyV1alpha1ToWebhook cip') D →
      controls S (ev_Reconcile cip) (Err e) D D
  | controls_withdraw cip e D :
      inline_error cip e → ¬ take_refused S (v1alpha1.cip_Name cip) D →
      controls S (ev_Reconcile cip) (Err e) D (take_shown S (v1alpha1.cip_Name cip) D)
  | controls_stuck cip e D :
      inline_error cip e → take_refused S (v1alpha1.cip_Name cip) D →
      controls S (ev_Reconcile cip) (Err e) D D
  | controls_finalize cip D :
      ¬ take_refused S (v1alpha1.cip_Name cip) D →
      controls S (ev_Finalize cip) (Ok ()) D (take_shown S (v1alpha1.cip_Name cip) D)
  | controls_unfinalized cip e D :
      take_refused S (v1alpha1.cip_Name cip) D → controls S (ev_Finalize cip) (Err e) D D
  | controls_crash ev x D : controls S ev (Panic x) D D.

(** A call whose answer does not depend on the cluster's state. *)
Definition oblivious {A} (m : M Cluster A) : Prop := ∀ w w', snd (m w) = snd (m w').

Lemma oblivious_ret {A} (a : A) : oblivious (mret a).
Proof. done. Qed.
Lemma oblivious_lift {A} (r : res A) : oblivious (lift r).
Proof. done. Qed.
Lemma oblivious_bind {A B} (m : M Cluster A) (f : A → M Cluster B) :
  oblivious m → (∀ a, oblivious (f a)) → oblivious (m ≫= f).
Proof.
  intros Hm Hf w w'. unfold mbind, M_bind. specialize (Hm w w').
  destruct (m w) as [w1 r1], (m w') as [w2 r2]. cbn in Hm. subst. destruct r2; [apply Hf|done..].
Qed.
Hint Resolve oblivious_ret oblivious_lift oblivious_bind : go.

Lemma oblivious_ref cip k : oblivious (inline_ref cip k).
Proof.
  destruct k as [k|]; cbn; [destruct (v1alpha1.SecretRef k)|]; auto with go.
  apply oblivious_bind; [|auto with go]. apply oblivious_bind; [|auto with go].
  unfold tracked_secret_data.
  repeat (apply oblivious_bind; [done|intros ?]). by repeat case_bool_decide.
Qed.
Hint Resolve oblivious_ref : go.

Lemma oblivious_inline cip : oblivious (inlinePublicKeys cip).
Proof.
  unfold inlinePublicKeys. apply oblivious_bind; [|auto with go].
  induction (v1alpha1.Authorities _) as [|a l IH]; cbn; [auto with go|].
  apply oblivious_bind; [|auto with go]. unfold inline_authority, inline_keyless.
  apply oblivious_bind; [auto with go|intros k].
  apply oblivious_bind; [destruct (v1alpha1.Keyless a); auto with go|auto with go].
Qed.

Lemma handleCIPError_run name w w' r :
  handleCIPError name w = (w', r) →
  match r with
  | Ok _ => ¬ take_refused (cl_Cached w) name (cl_ConfigMap w)
        ∧ cl_ConfigMap w' = take_shown (cl_Cached w) name (cl_ConfigMap w)
      ∨ take_refused (cl_Cached w) name (cl_ConfigMap w) ∧ cl_ConfigMap w' = cl_ConfigMap w
  | Err _ => False
  | Panic _ => w' = w
  end.
Proof.
  unfold handleCIPError, configmaplister_Get, M_try, reads, mbind, M_bind.
  destruct configmaplister_Fails as [e|] eqn:Hl.
  { intros [= <- <-]. right. split; [left; by rewrite Hl|done]. }
  destruct (cl_Cached w) as [cm|] eqn:Hcm.
  2: { intros [= <- <-]. left. split; [|done]. intros [[? ?]|(? & [=] & _)]. congruence. }
  destruct (removeCIPEntry cm name w) as [w1 r1] eqn:Hr.
  apply removeCIPEntry_run in Hr; [|done..]. intros H.
  destruct r1; injection H as <- <-; [by left|by right; destruct Hr as [? ->]|by destruct Hr].
Qed.

Lemma finalize_run cip w w' r :
  FinalizeKind cip w = (w', r) →
  match r with
  | Ok _ => ¬ take_refused (cl_Cached w) (v1alpha1.cip_Name cip) (cl_ConfigMap w)
      ∧ cl_ConfigMap w' = take_shown (cl_Cached w) (v1alpha1.cip_Name cip) (cl_ConfigMap w)
  | _ => take_refused (cl_Cached w) (v1alpha1.cip_Name cip) (cl_ConfigMap w) ∧ w' = w
  end.
Proof.
  unfold FinalizeKind, configmaplister_Get, M_try, reads, mbind, M_bind.
  destruct configmaplister_Fails as [e|] eqn:Hl.
  { cbn. intros [= <- <-]. split; [left; by rewrite Hl|done]. }
  destruct (cl_Cached w) as [cm|] eqn:Hcm; cbn.
  - intros H. by apply removeCIPEntry_run in H.
  - intros [= <- <-]. split; [|done]. intros [[? ?]|(? & [=] & _)]. congruence.
Qed.

Lemma reconciler_refines_spec ev w w' r :
  run ev w = (w', r) → controls (cl_Cached w) ev r (cl_ConfigMap w) (cl_ConfigMap w').
Proof.
  destruct ev as [cip|cip]; cbn.
  - unfold ReconcileKind, M_try, mbind at 1, M_bind at 1.
    pose proof (oblivious_inline cip w) as Ho. destruct (frames_inline cip w) as [Hf1 Hf2].
    destruct (inlinePublicKeys cip w) as [w1 r1] eqn:Hi. cbn in Ho, Hf1, Hf2. rewrite <- Hf1, <- Hf2.
    destruct r1 as [cip'|e|x]; cbn.
    + apply inlinePublicKeys_spec in Hi. intros H. apply publish_run in H. destruct r as [[]|e|x].
      * destruct H as (_ & entry & Hm & ->). by econstructor.
      * destruct H as [? ->]. by econstructor.
      * destruct H as [_ ->]. constructor.
    + assert (inline_error cip e) as He by (intros w2; by rewrite <- Ho).
      unfold mbind, M_bind. destruct (handleCIPError _ w1) as [w2 r2] eqn:Hh.
      apply handleCIPError_run in Hh. destruct r2; intros [= <- <-]; [|done|subst; constructor].
      destruct Hh as [[? ->]|[? ->]]; by constructor.
    + intros [= <- <-]. constructor.
  - intros H. apply finalize_run in H. destruct r as [[]|e|x]; destruct H as [H ->]; by constructor.
Qed.

(** What a run can do to an entry, with any lister: only the policy of the event comes
    in or changes. *)
Lemma controls_entries S ev r D D' n v :
  controls S ev r D D' → default ∅ D' !! n = Some v →
  default ∅ D !! n = Some v ∨ ∃ cip, ev = ev_Reconcile cip ∧ n = v1alpha1.cip_Name cip.
Proof.
  intros Hc Hn. assert (∀ k, default ∅ (take_shown S k D) !! n = Some v → default ∅ D !! n = Some v) as Ht.
  { intros k. unfold take_shown. destruct S as [a|]; [|done]. destruct (decide _); [|done].
    destruct D as [c|]; cbn; [|done]. unfold take_patched. destruct (decide _); [done|].
    intros H. by apply lookup_delete_Some in H as [_ H]. }
  destruct Hc as [cip cip' e D| | | | | |]; eauto. destruct (decide (n = v1alpha1.cip_Name cip)) as [->|Hne]; [eauto|].
  left. unfold put_shown in Hn. destruct S as [a|]; cbn in Hn;
    [|by rewrite lookup_singleton_ne in Hn]. destruct (decide _); [done|]. destruct D as [c|]; cbn in *; [|done].
  unfold put_patched in Hn. destruct (decide _);
    [by rewrite lookup_singleton_ne in Hn|by rewrite lookup_insert_ne in Hn].
Qed.

(** *** Reconciling again *)

(** Publishing an entry that the lister shows writes nothing. *)
Lemma publish_again name cip w a entry :
  configmaplister_Fails = None → marshal cip = Ok entry → cl_Cached w = Some a → a !! name = Some entry →
  publish name cip w = (w, Ok ()).
Proof.
  intros Hl Hm Hc Hin.
  unfold publish, configmaplister_Get, M_try, reads, mbind, M_bind. rewrite Hl, Hc.
  unfold CreatePatch, patch_bytes, lift. rewrite Hm. cbn.
  rewrite insert_id by done. by rewrite patch_self.
Qed.

(** Reconciling is idempotent: after a run with a current lister, run again when the
    lister has caught up, whatever the API server would answer to a write, it succeeds
    and writes nothing. *)
Theorem ReconcileKind_idempotent cip w w1 :
  cl_Cached w = cl_ConfigMap w → ReconcileKind cip w = (w1, Ok ()) →
  ∃ w2, ReconcileKind cip (set_Cached (cl_ConfigMap w1) w1) = (w2, Ok ()) ∧ cl_ConfigMap w2 = cl_ConfigMap w1.
Proof.
  intros Hcur H. set (w1' := set_Cached _ w1). unfold ReconcileKind, M_try in *. unfold mbind, M_bind in *.
  pose proof (oblivious_inline cip w w1') as Ho. destruct (frames_inline cip w1') as [Hf1 Hf2].
  destruct (frames_inline cip w) as [Hg1 Hg2].
  destruct (inlinePublicKeys cip w) as [wa ra], (inlinePublicKeys cip w1') as [wb rb].
  cbn in Ho, Hf1, Hf2, Hg1, Hg2. subst rb. destruct ra as [cip'|e|x].
  - apply publish_run in H as (Hl & entry & Hm & Hin).
    assert (default ∅ (cl_ConfigMap w1) !! v1alpha1.cip_Name cip = Some entry) as Hd.
    { rewrite Hin, Hg2, Hcur, Hg1, put_current. apply lookup_insert_eq. }
    destruct (cl_ConfigMap w1) as [a|] eqn:Ha; [|done].
    exists wb. split; [|by rewrite Hf1; cbn]. by eapply publish_again.
  - by destruct (handleCIPError _ wa) as [? []].
  - done.
Qed.

End refinement.

(** ** Runs of the controller

    What surrounds a run: the keys of KMS, the secrets and the answers of the API
    server, with the laws of patches.  At each run it may be another. *)
Record Env `{X : Ext, R : Registry} := mkEnv {
  env_Keys : KeyExt; env_Kube : Kube; env_Reconcile : ReconcileExt; env_Laws : ReconcileLaws }.
Arguments mkEnv {X G R}.

Section runs.
Context `{X : Ext, R : Registry, J : !PolicyJson}.

(** An event with its surroundings, the config map that the lister shows, and the
    outcome. *)
Record Run := mkRun {
  run_Env : Env; run_Lister : option (gmap string string); run_Event : event; run_Outcome : res unit }.

Inductive trace : list Run → Cluster → Cluster → Prop :=
  | trace_nil w : trace [] w w
  | trace_cons env S ev r rs w w1 w2 :
      run (KX := env_Keys env) (E := env_Reconcile env) ev (set_Cached S w) = (w1, r) →
      trace rs w1 w2 → trace (mkRun env S ev r :: rs) w w2.

Inductive controls_all :
    list Run → option (gmap string string) → option (gmap string string) → Prop :=
  | controls_nil D : controls_all [] D D
  | controls_cons env S ev r rs D D1 D2 :
      controls (KX := env_Keys env) (E := env_Reconcile env) S ev r D D1 →
      controls_all rs D1 D2 → controls_all (mkRun env S ev r :: rs) D D2.

(** C8: the reconciler refines the abstract controller, over every sequence of
    events, with other secrets, KMS keys and answers of the API server at each, and
    with whatever copy [S] of the config map the lister shows.  A run that succeeds puts
    its policy in, with the keys of its secrets and KMS references inlined
    ([put_shown]), or takes it out when it is finalized ([take_shown]).  A policy
    whose keys cannot be inlined is taken out and the error is returned, unless the
    lister fails or the server refuses the patch.  When a write is refused nothing
    changes.  With a lister that is current, putting in and taking out are exactly
    that, and the entries of other policies are not touched.  With one that lags, an
    entry that it shows already is not written, one that it does not show is not taken
    out, and the patch for the first or the last entry it shows replaces the
    entries of all policies. *)
Theorem reconciler_refines rs w w' :
  trace rs w w' →
  controls_all rs (cl_ConfigMap w) (cl_ConfigMap w')
  ∧ ∀ S n e, default ∅ (put_shown S n e S) = <[n := e]> (default ∅ S)
      ∧ default ∅ (take_shown S n S) = delete n (default ∅ S).
Proof.
  intros Ht. split; [|auto using put_current, take_current].
  induction Ht as [|env S ev r rs w w1 w2 Hr Ht IH]; econstructor; [|exact IH].
  exact (reconciler_refines_spec (L := env_Laws env) ev (set_Cached S w) w1 r Hr).
Qed.

End runs.

(** ** From the reconciler to the webhook *)

Section delivery.
Context `{X : Ext, KX : KeyExt, R : Registry, J : !PolicyJson, K : !Kube, E : !ReconcileExt, L : !ReconcileLaws}.

(** What decoding the JSON of a policy gives: the tags of the types, with
    omitempty on the data of a key and on the identities. *)
Definition raw_key (k : webhookcip.KeyRef) : gmap string string :=
  if webhookcip.Data k =?s "" then ∅ else {["data" := webhookcip.Data k]}.

Definition raw_identities (o : option (list Identity)) : option (list Identity) :=
  match o with Some [] => None | _ => o end.

Definition raw_keyless (k : webhookcip.KeylessRef) :=
  (webhookcip.URL k, raw_identities (webhookcip.Identities k), raw_key <$> webhookcip.CACert k).

Definition raw_authority (a : webhookcip.Authority) : webhookcip.RawAuthority :=
  webhookcip.mkRawAuthority (raw_key <$> webhookcip.Key a) (raw_keyless <$> webhookcip.Keyless a)
    (webhookcip.Sources a) (webhookcip.CTLog a).

(** encoding/json and YAML keep a policy (whose strings are valid UTF-8). *)
Definition json_faithful (cip : webhookcip.ClusterImagePolicy) : Prop := ∀ entry,
  json_Marshal_CIP cip = Ok entry → entry ≠ "" ∧ ∃ j, yaml_YAMLToJSON entry = Ok j
    ∧ json_Unmarshal_RawCIP j
      = Ok (webhookcip.Images cip, raw_authority <$> webhookcip.Authorities cip).

(** The keys that the webhook holds for a key reference whose inlined data is
    [data]. *)
Definition holds_keys (data : string) (wk : webhookcip.KeyRef) : Prop :=
  webhookcip.Data wk = data
  ∧ (data ≠ "" → ConvertKeyDataToPublicKeys data = Ok (webhookcip.PublicKeys wk)).

Definition key_delivered (k : v1alpha1.KeyRef) (wk : webhookcip.KeyRef) : Prop :=
  ∃ k', key_inlined k k' ∧ holds_keys (v1alpha1.Data k') wk.

Definition cacert_delivered (k : v1alpha1.KeyRef) (wk : webhookcip.KeyRef) : Prop :=
  ∃ k', secret_inlined k k' ∧ holds_keys (v1alpha1.Data k') wk.

Definition keyless_delivered (k : v1alpha1.KeylessRef) (wk : webhookcip.KeylessRef) : Prop :=
  webhookcip.URL wk = v1alpha1.URL k
  ∧ default [] (webhookcip.Identities wk) = default [] (v1alpha1.Identities k)
  ∧ option_Forall2 cacert_delivered (v1alpha1.CACert k) (webhookcip.CACert wk).

Definition authority_delivered (a : v1alpha1.Authority) (wa : webhookcip.Authority) : Prop :=
  option_Forall2 key_delivered (v1alpha1.Key a) (webhookcip.Key wa)
  ∧ option_Forall2 keyless_delivered (v1alpha1.Keyless a) (webhookcip.Keyless wa)
  ∧ webhookcip.Sources wa = v1alpha1.Sources a.

Lemma decode_raw_key (k' : v1alpha1.KeyRef) wk :
  webhookcip.KeyRef_UnmarshalJSON (raw_key (webhookcip.convertKeyRef k')) = Ok wk →
  holds_keys (v1alpha1.Data k') wk.
Proof.
  unfold webhookcip.KeyRef_UnmarshalJSON, raw_key, holds_keys. cbn.
  destruct (v1alpha1.Data k' =?s "") eqn:Hd.
  - apply str_eqb_eq in Hd. rewrite lookup_empty. cbn. intros [= <-]. done.
  - rewrite lookup_singleton_eq. cbn. rewrite Hd. intros H. go_inv. done.
Qed.

Lemma decode_keys (P : v1alpha1.KeyRef → v1alpha1.KeyRef → Prop) o o' wo :
  option_Forall2 P o o' →
  webhookcip.decode_key (raw_key <$> (webhookcip.convertKeyRef <$> o')) = Ok wo →
  option_Forall2 (λ k wk, ∃ k', P k k' ∧ holds_keys (v1alpha1.Data k') wk) o wo.
Proof.
  intros HP. destruct HP; cbn; intros H'; go_inv; constructor.
  eexists. split; [done|]. by apply decode_raw_key.
Qed.

Lemma decode_authority a a' wa :
  authority_inlined a a' →
  webhookcip.Authority_UnmarshalJSON (raw_authority (webhookcip.convertAuthority a')) = Ok wa →
  authority_delivered a wa.
Proof.
  intros (Hk & Hkl & Hs & _) H. unfold webhookcip.Authority_UnmarshalJSON in H. cbn in H. go_inv.
  split; [|split; [|done]]; cbn.
  - by eapply decode_keys.
  - destruct Hkl as [kl kl' (Hu & Hi & Hc)|]; cbn in *; go_inv; constructor.
    split; [done|]. split; [|by eapply decode_keys]. cbn. rewrite Hi.
    by destruct (v1alpha1.Identities kl) as [[]|].
Qed.

Lemma unmarshal_delivered l l' was :
  Forall2 authority_inlined l l' →
  unmarshal_authorities (raw_authority <$> (webhookcip.convertAuthority <$> l')) = Ok was →
  Forall2 authority_delivered l was.
Proof.
  intros HP. revert was. induction HP; cbn; intros was H'; go_inv; constructor; [|auto].
  by eapply decode_authority.
Qed.

Lemma policies_from_lookup l (ret cfg : gmap string webhookcip.ClusterImagePolicy) :
  policies_from l ret = Ok cfg → NoDup l.*1 →
  (∀ k, k ∉ l.*1 → cfg !! k = ret !! k)
  ∧ ∀ k v, (k, v) ∈ l → k ≠ "_example" → ∃ p, parseEntry v = Ok p ∧ cfg !! k = Some p.
Proof.
  revert ret. induction l as [|[k v] l IH]; cbn; intros ret H HN; go_inv; [set_solver|].
  apply NoDup_cons in HN as [Hk HN].
  destruct (k =?s "_example") eqn:Hx; [|destruct (v =?s ""); go_inv].
  - apply str_eqb_eq in Hx. destruct (IH _ H HN) as [H1 H2]. split; [set_solver|].
    intros k' v' [[= -> ->]|Hin]%elem_of_cons; [done|eauto].
  - match goal with H : policies_from _ _ = _ |- _ => destruct (IH _ H HN) as [H1 H2] end. split.
    + intros k' Hk'. rewrite H1 by set_solver. apply (lookup_insert_ne ret). set_solver.
    + intros k' v' [[= -> ->]|Hin]%elem_of_cons Hne; [|eauto].
      eexists. split; [done|]. rewrite H1 by done. apply (lookup_insert_eq ret).
Qed.

Lemma policy_delivered cip w w' cfg :
  ReconcileKind cip w = (w', Ok ()) → cl_Cached w = cl_ConfigMap w → v1alpha1.cip_Name cip ≠ "_example" →
  (∀ cip', policy_inlined cip cip' →
     json_faithful (webhookcip.ConvertClusterImagePolicyV1alpha1ToWebhook cip')) →
  NewImagePoliciesConfigFromMap (in_force w') = Ok cfg →
  ∃ p, cfg !! v1alpha1.cip_Name cip = Some p
    ∧ webhookcip.Images p = v1alpha1.Images (v1alpha1.Spec cip)
    ∧ Forall2 authority_delivered (v1alpha1.Authorities (v1alpha1.Spec cip))
        (webhookcip.Authorities p).
Proof.
  intros H Hcur Hname Hj Hcfg. apply (reconciler_refines_spec (ev_Reconcile cip)) in H.
  inversion H as [? cip' entry D Hi Hm Heq1 Heq2 Heq3 Hin| | | | | |]; subst.
  assert (in_force w' = <[v1alpha1.cip_Name cip := entry]> (in_force w)) as Hf.
  { unfold in_force. by rewrite <- Hin, Hcur, put_current. }
  unfold NewImagePoliciesConfigFromMap in Hcfg.
  apply policies_from_lookup in Hcfg as [_ Hlk]; [|apply NoDup_fst_map_to_list].
  destruct (Hlk (v1alpha1.cip_Name cip) entry) as (p & Hp & Hl); [|done|].
  { apply elem_of_map_to_list. rewrite Hf. apply lookup_insert_eq. }
  exists p. split; [done|]. destruct (Hj _ Hi _ Hm) as (_ & j & Hy & Hu). destruct Hi as [Him Hi].
  unfold parseEntry in Hp. rewrite Hy in Hp. cbn in Hp. rewrite Hu in Hp. cbn in Hp. go_inv.
  split; [done|]. by eapply unmarshal_delivered.
Qed.

(** What the operator writes is what the webhook enforces: after a policy
    is reconciled with a lister that is current, the configuration that the webhook reads from the config map
    has, under its name, the same image patterns and its authorities in order,
    each with the same sources and identities and with the public keys found in
    the secret, the KMS key or the inline data that it refers to. *)
Theorem reconciled_policy_delivered cip w w' cfg :
  ReconcileKind cip w = (w', Ok ()) → cl_Cached w = cl_ConfigMap w → v1alpha1.cip_Name cip ≠ "_example" →
  (∀ cip', policy_inlined cip cip' →
     json_faithful (webhookcip.ConvertClusterImagePolicyV1alpha1ToWebhook cip')) →
  NewImagePoliciesConfigFromMap (in_force w') = Ok cfg →
  ∃ p, cfg !! v1alpha1.cip_Name cip = Some p
    ∧ webhookcip.Images p = v1alpha1.Images (v1alpha1.Spec cip)
    ∧ Forall2 authority_delivered (v1alpha1.Authorities (v1alpha1.Spec cip))
        (webhookcip.Authorities p).
Proof. apply policy_delivered. Qed.

End delivery.

(** ** Witnesses *)

(** One policy, whose key is in the secret "policy-key". *)
Definition toy_secret_policy : v1alpha1.ClusterImagePolicy :=
  v1alpha1.mkCIP "policy" (v1alpha1.mkSpec [v1alpha1.mkImagePattern "repo*" ""]
    [v1alpha1.mkAuthority (Some (v1alpha1.mkKeyRef (Some "policy-key") "" "")) None [] None]).

Definition toy_entries : gmap string string := {["policy" := "{}"]}.

Definition toy_Json : PolicyJson (R := toy_Registry) := {|
  yaml_YAMLToJSON b := Ok b;
  json_Unmarshal_RawCIP _ :=
    Ok ([v1alpha1.mkImagePattern "repo*" ""],
        [webhookcip.mkRawAuthority (Some {["data" := "k"]}) None [] None]);
  json_Marshal_CIP _ := Ok "{}" |}.

(** Patches of maps that have no entry but that of the policy. *)
Definition toy_Reconcile_with (K : Kube (R := toy_Registry)) : ReconcileExt (R := toy_Registry) (K := K) := {|
  PatchOp := string;
  system_Namespace := "cosign-system";
  tracker_TrackReference _ _ := Ok ();
  configmaplister_Fails := None;
  duck_CreatePatch a b :=
    if decide (a = b) then Ok []
    else if decide (b = ∅) then Ok ["remove"]
    else if decide (b = toy_entries) then
      if decide (a = ∅) then Ok ["add"]
      else if decide (delete "policy" a = ∅) then Ok ["replace"] else Err (error_New "patch")
    else Err (error_New "patch");
  jsonpatch_MarshalJSON ops := Ok ("[" +:+ default "" (head ops));
  configmaps_Create _ := Ok ();
  configmaps_Patch p c :=
    if p =?s "[remove" then Ok ∅
    else if p =?s "[add" then Ok toy_entries
    else if p =?s "[replace" then Ok (<["policy" := "{}"]> c) else Err (error_New "patch") |}.

Lemma toy_entries_insert a n e : <[n := e]> a = toy_entries → n = "policy" ∧ e = "{}".
Proof.
  intros H. assert (toy_entries !! n = Some e) as Hn by (rewrite <- H; apply lookup_insert_eq).
  unfold toy_entries in Hn. apply (lookup_singleton_Some (M := gmap string)) in Hn as [<- <-]. done.
Qed.

#[export] Instance toy_ReconcileLaws_with K :
  ReconcileLaws (R := toy_Registry) (K := K) (E := toy_Reconcile_with K).
Proof.
  split; cbn.
  - intros a. by rewrite decide_True.
  - intros a b ops. repeat destruct (decide _); naive_solver.
  - by intros ops p _ [= <-].
  - intros a n e ops p c c' Hn Hc [= <-]. unfold put_patched.
    assert (a ≠ <[n := e]> a) by (intros Heq; apply Hn; rewrite Heq; apply lookup_insert_eq).
    rewrite decide_False in Hc by done.
    rewrite decide_False in Hc by apply insert_non_empty.
    destruct (decide (_ = toy_entries)) as [Ht|]; [|done].
    destruct (toy_entries_insert _ _ _ Ht) as [-> ->].
    destruct (decide (a = ∅)) as [->|]; [injection Hc as <-; by intros [= <-]|].
    destruct (decide _); [|done]. injection Hc as <-. by intros [= <-].
  - intros a n ops p c c' [v Hv] Hc [= <-]. unfold take_patched.
    assert (a ≠ delete n a) by (intros Heq; by rewrite Heq, lookup_delete_eq in Hv).
    rewrite decide_False in Hc by done.
    destruct (decide (delete n a = ∅)); [injection Hc as <-; by intros [= <-]|].
    destruct (decide (delete n a = toy_entries)) as [Ht|]; [|done].
    rewrite decide_False in Hc by (intros ->; done).
    destruct (decide _) as [Hp|]; [|done]. exfalso.
    assert (n ≠ "policy") as Hne.
    { intros ->. assert (toy_entries !! "policy" = None) as Hx by (rewrite <- Ht; apply lookup_delete_eq). done. }
    assert (delete "policy" a !! n = Some v) as Hx by by rewrite lookup_delete_ne.
    by rewrite Hp in Hx.
Qed.
Definition toy_Reconcile : ReconcileExt (R := toy_Registry) (K := toy_Kube) := toy_Reconcile_with toy_Kube.
#[export] Instance toy_ReconcileLaws :
  ReconcileLaws (R := toy_Registry) (K := toy_Kube) (E := toy_Reconcile) := toy_ReconcileLaws_with toy_Kube.

(** The cluster with an older version of the policy, which the lister shows. *)
Definition toy_cluster : Cluster := mkCluster (Some {["policy" := "old"]}) (Some {["policy" := "old"]}) [].

Definition toy_after : Cluster :=
  mkCluster (Some toy_entries) (Some {["policy" := "old"]})
    [(mkTrackerRef "v1" "Secret" "cosign-system" "policy-key", "policy")].

Lemma toy_reconcile :
  ReconcileKind (X := toy) (KX := toy_Keys) (R := toy_Registry) (J := toy_Json) (K := toy_Kube)
    (E := toy_Reconcile)
    toy_secret_policy toy_cluster = (toy_after, Ok ()).
Proof. vm_compute. reflexivity. Qed.

(** Then the secret is lost: the policy is withdrawn. *)
Definition toy_Kube_lost : Kube (R := toy_Registry) := {|
  Keychain := @Keychain _ _ toy_Kube;
  k8schain_New := @k8schain_New _ _ toy_Kube;
  remote_WithAuthFromKeychain := @remote_WithAuthFromKeychain _ _ toy_Kube;
  secret_Get _ := Err (error_Kind kind_k8sNotFound "secret not found");
  fulcio_RootCert := @fulcio_RootCert _ _ toy_Kube;
  pool_AppendCertsFromPEM := @pool_AppendCertsFromPEM _ _ toy_Kube;
  rekor_GetRekorClient := @rekor_GetRekorClient _ _ toy_Kube;
  ref_Name := @ref_Name _ _ toy_Kube |}.

Definition toy_Env : Env (X := toy) (R := toy_Registry) :=
  mkEnv (X := toy) (R := toy_Registry) toy_Keys toy_Kube toy_Reconcile toy_ReconcileLaws.
Definition toy_Env_lost : Env (X := toy) (R := toy_Registry) :=
  mkEnv (X := toy) (R := toy_Registry) toy_Keys toy_Kube_lost (toy_Reconcile_with toy_Kube_lost) (toy_ReconcileLaws_with toy_Kube_lost).

Definition toy_runs : list (Run (X := toy) (R := toy_Registry)) :=
  [ mkRun toy_Env (Some {["policy" := "old"]}) (ev_Reconcile toy_secret_policy) (Ok ());
    mkRun toy_Env_lost (Some toy_entries) (ev_Reconcile toy_secret_policy)
      (Err (error_Kind kind_k8sNotFound "secret not found")) ].

Lemma reconciler_refines_witness :
  controls_all (X := toy) (R := toy_Registry) (J := toy_Json) toy_runs
    (Some {["policy" := "old"]}) (Some ∅).
Proof.
  edestruct (reconciler_refines (X := toy) (R := toy_Registry) (J := toy_Json) toy_runs toy_cluster)
    as [H _].
  - econstructor; [exact toy_reconcile|]. econstructor; [vm_compute; reflexivity|constructor].
  - exact H.
Defined.

Lemma ReconcileKind_idempotent_witness :
  ∃ w2, ReconcileKind (X := toy) (KX := toy_Keys) (R := toy_Registry) (J := toy_Json)
    (K := toy_Kube) (E := toy_Reconcile) toy_secret_policy (set_Cached (Some toy_entries) toy_after)
    = (w2, Ok ()) ∧ cl_ConfigMap w2 = Some toy_entries.
Proof.
  apply (ReconcileKind_idempotent (X := toy) (KX := toy_Keys) (R := toy_Registry) (J := toy_Json)
    (K := toy_Kube)
    (E := toy_Reconcile) toy_secret_policy toy_cluster toy_after); [reflexivity|exact toy_reconcile].
Defined.

Lemma toy_secret_value v :
  secret_holds (X := toy) (R := toy_Registry) (K := toy_Kube) "policy-key" v → v = "k".
Proof.
  intros (key & Hg & _).
  change (Ok ({["cosign.pub" := "k"]} : gmap string bytes) = Ok {[key := v]}) in Hg.
  assert (({["cosign.pub" := "k"]} : gmap string bytes) = {[key := v]}) as He by congruence.
  by apply (inj2 singletonM) in He as [_ <-].
Qed.

Lemma toy_policy_faithful cip' :
  policy_inlined (X := toy) (KX := toy_Keys) (R := toy_Registry) (K := toy_Kube)
    toy_secret_policy cip' →
  json_faithful (R := toy_Registry) (J := toy_Json)
    (webhookcip.ConvertClusterImagePolicyV1alpha1ToWebhook (R := toy_Registry) cip').
Proof.
  destruct cip' as [n [im auths]]. unfold policy_inlined. cbn. intros [-> Hf].
  apply Forall2_cons_inv_l in Hf as ([k kl so ct] & l' & (Hk & Hkl & Hso & Hct) & Hf & ->).
  apply Forall2_nil_inv_l in Hf as ->. cbn in Hso, Hct, Hk, Hkl. subst so ct. inversion Hkl; subst.
  inversion Hk as [? k2 (k1 & Hs & Hm)|]; subst.
  destruct Hs as (v & ->%toy_secret_value & ->). cbn in Hm. subst k2.
  intros entry [= <-]. split; [done|]. exists "{}". split; [done|]. reflexivity.
Qed.

Lemma reconciled_policy_delivered_witness :
  ∃ cfg p, NewImagePoliciesConfigFromMap (X := toy) (R := toy_Registry) (J := toy_Json)
    toy_entries = Ok cfg ∧ cfg !! "policy" = Some p
    ∧ webhookcip.Images (R := toy_Registry) p = [v1alpha1.mkImagePattern "repo*" ""].
Proof.
  destruct (ok_res (NewImagePoliciesConfigFromMap (X := toy) (R := toy_Registry) (J := toy_Json)
    toy_entries)) as [cfg Hc]; [reflexivity|]. exists cfg.
  destruct (reconciled_policy_delivered (X := toy) (KX := toy_Keys) (R := toy_Registry) (J := toy_Json)
    (K := toy_Kube) (E := toy_Reconcile) toy_secret_policy toy_cluster toy_after cfg)
    as (p & Hp & Hi & _).
  - exact toy_reconcile.
  - reflexivity.
  - done.
  - exact toy_policy_faithful.
  - exact Hc.
  - exists p. split; [exact Hc|]. split; [exact Hp|exact Hi].
Defined.
