(* ===== verification/ConfigStore.v ===== *)
(** * The configuration of the webhook, between the reconciler and admission

    pkg/apis/config/store.go: the store that follows the config map of policies, and the
    configuration that it attaches to the context of a request.

    The untyped store of knative is a parameter with the laws that its documentation
    states.  The theorems put the reconciler, the store and the webhook together. *)
From S2P Require Import Prelude GoStd External Concrete OciSignature OciSignatures OciEntity.
From S2P Require Import OciRemote Tuf Tlog Ctl Verify Keys Policy Webhook Reconciler.

Notation ConfigMap := (gmap string string).

Class StoreExt `{R : Registry} := {
  UntypedStore : Type;
  (* with the constructor of the one config map that it follows *)
  configmap_NewUntypedStore : (ConfigMap → res ImagePolicyConfig) → UntypedStore;
  (* the constructor that the store was made with *)
  us_constructor : UntypedStore → ConfigMap → res ImagePolicyConfig;
  (* a fatal error ends the process *)
  us_OnConfigChanged : ConfigMap → UntypedStore → res UntypedStore;
  us_UntypedLoad : UntypedStore → option ImagePolicyConfig }.

(** knative: "OnConfigChanged will invoke the mapped constructor against a Kubernetes
    ConfigMap.  If successful it will be stored.  If construction fails during the first
    appearance the store will log a fatal error.  If construction fails while updating
    the store will log an error message." *)
Class StoreLaws `{R : Registry, U : !StoreExt} := {
  new_constructor k : us_constructor (configmap_NewUntypedStore k) = k;
  new_empty k : us_UntypedLoad (configmap_NewUntypedStore k) = None;
  changed_constructor cm s s' : us_OnConfigChanged cm s = Ok s' → us_constructor s' = us_constructor s;
  changed_stored cm s cfg : us_constructor s cm = Ok cfg →
    ∃ s', us_OnConfigChanged cm s = Ok s' ∧ us_UntypedLoad s' = Some cfg;
  changed_first cm s e : us_constructor s cm = Err e → us_UntypedLoad s = None →
    is_ok (us_OnConfigChanged cm s) = false;
  changed_panics cm s x : us_constructor s cm = Panic x → is_ok (us_OnConfigChanged cm s) = false;
  changed_kept cm s e cfg : us_constructor s cm = Err e → us_UntypedLoad s = Some cfg →
    ∃ s', us_OnConfigChanged cm s = Ok s' ∧ us_UntypedLoad s' = Some cfg }.

Section store.
Context `{X : Ext, R : Registry, J : !PolicyJson, U : !StoreExt}.

(** ** store.go *)

(** A context, as far as the key of this package goes: what is attached to it. *)
Definition Context_ := Config.

Definition FromContext (ctx : Context_) : Config := ctx.

(** The error of the empty map is dropped. *)
Definition FromContextOrDefaults (ctx : Context_) : option ImagePolicyConfig :=
  match FromContext ctx with
  | Some cfg => cfg
  | None => match NewImagePoliciesConfigFromMap ∅ with Ok c => Some c | _ => None end
  end.

Definition ToContext (ctx : Context_) (c : option ImagePolicyConfig) : Context_ := Some c.

Definition NewImagePoliciesConfigFromConfigMap (config : ConfigMap) : res ImagePolicyConfig :=
  NewImagePoliciesConfigFromMap config.

Definition NewStore : UntypedStore := configmap_NewUntypedStore NewImagePoliciesConfigFromConfigMap.

(** The assertion fails on the nil of a store that nothing was stored in. *)
Definition Store_Load (s : UntypedStore) : res (option ImagePolicyConfig) :=
  match us_UntypedLoad s with
  | Some cfg => Ok (Some cfg)
  | None => Panic "interface conversion: interface is nil, not *config.ImagePolicyConfig"
  end.

Definition Store_ToContext (s : UntypedStore) (ctx : Context_) : res Context_ :=
  c ← Store_Load s; Ok (ToContext ctx c).

(** The store after a sequence of changes of the config map. *)
Fixpoint follow (cms : list ConfigMap) (s : UntypedStore) : res UntypedStore :=
  match cms with
  | [] => Ok s
  | cm :: cms => s' ← us_OnConfigChanged cm s; follow cms s'
  end.

(** ** What is in force *)

Section laws.
Context `{L : !StoreLaws}.

(** The last map that parses. *)
Fixpoint last_good (cms : list ConfigMap) (cur : option ImagePolicyConfig) : option ImagePolicyConfig :=
  match cms with
  | [] => cur
  | cm :: cms =>
      last_good cms (match NewImagePoliciesConfigFromMap cm with Ok cfg => Some cfg | _ => cur end)
  end.

Definition fresh_store (s : UntypedStore) : Prop := us_constructor s = NewImagePoliciesConfigFromConfigMap.

Lemma changed_load cm s s' :
  fresh_store s → us_OnConfigChanged cm s = Ok s' →
  fresh_store s' ∧ us_UntypedLoad s'
    = match NewImagePoliciesConfigFromMap cm with Ok cfg => Some cfg | _ => us_UntypedLoad s end.
Proof.
  unfold fresh_store. intros Hf H. split; [by rewrite (changed_constructor _ _ _ H)|].
  assert (us_constructor s cm = NewImagePoliciesConfigFromMap cm) as Hk by by rewrite Hf.
  destruct (NewImagePoliciesConfigFromMap cm) as [cfg|e|x].
  - apply changed_stored in Hk as (s1 & H1 & Hl). rewrite H in H1. by injection H1 as <-.
  - destruct (us_UntypedLoad s) as [old|] eqn:Ho.
    + destruct (changed_kept _ _ _ _ Hk Ho) as (s1 & H1 & Hl). rewrite H in H1. by injection H1 as <-.
    + apply changed_first in Hk; [|done]. by rewrite H in Hk.
  - apply changed_panics in Hk. by rewrite H in Hk.
Qed.

Lemma follow_last_good cms s s' :
  fresh_store s → follow cms s = Ok s' →
  fresh_store s' ∧ us_UntypedLoad s' = last_good cms (us_UntypedLoad s).
Proof.
  revert s. induction cms as [|cm cms IH]; intros s Hf; cbn; [by intros [= <-]|].
  intros (s1 & H1 & H)%bind_Ok. destruct (changed_load _ _ _ Hf H1) as [Hf1 Hl1].
  apply IH in H as [Hf' ->]; [|done]. by rewrite Hl1.
Qed.

(** The policies of a request are those of the last config map that could be read, however
    the maps before it and after it look; until there has been one there is no
    configuration at all, and a request that loads it panics. *)
Theorem requests_see_last_good cms s ctx :
  follow cms NewStore = Ok s →
  Store_ToContext s ctx = match last_good cms None with
                          | Some cfg => Ok (Some (Some cfg))
                          | None => Panic "interface conversion: interface is nil, not *config.ImagePolicyConfig"
                          end.
Proof.
  intros H. apply follow_last_good in H as [_ Hl]; [|apply new_constructor].
  unfold Store_ToContext, Store_Load. rewrite Hl. unfold NewStore. rewrite new_empty.
  by destruct (last_good cms None).
Qed.

End laws.
End store.

(** ** From a policy to admission *)

Section pipeline.
Context `{X : Ext, TR : TrustRoot, C : CtExt, KX : KeyExt, R : Registry, J : !PolicyJson, K : !Kube,
  E : !ReconcileExt, L : !ReconcileLaws, U : !StoreExt, UL : !StoreLaws}.
Context (reg : Reg) (depth : nat) (fulcioroots : res CertPool).

(** A policy, from the API to the admission of a workload.  The reconciler has
    published the policy [cip] without an error, with a current lister, the store of the webhook follows the
    config map and has read the version that holds it, and the webhook then admits a
    workload whose context comes from that store.  The authorities of the policy, as the
    webhook reads them, are effective.  Then every container and init
    container whose image one of the policy's patterns matches runs a digest, and a
    signature of that very digest satisfies one of the policy's authorities, with the
    keys that the secret, the KMS key or the inline data of the policy give. *)
Theorem policy_enforced cip cl cl' cms s s' ctx ctx' w secretName ns ps cfg :
  ReconcileKind cip cl = (cl', Ok ()) → cl_Cached cl = cl_ConfigMap cl → v1alpha1.cip_Name cip ≠ "_example" →
  (∀ cip', policy_inlined cip cip' →
     json_faithful (webhookcip.ConvertClusterImagePolicyV1alpha1ToWebhook cip')) →
  follow cms NewStore = Ok s → us_OnConfigChanged (in_force cl') s = Ok s' →
  NewImagePoliciesConfigFromMap (in_force cl') = Ok cfg →
  (∀ p, cfg !! v1alpha1.cip_Name cip = Some p →
     webhookcip.Authorities p ≠ [] ∧ ∀ a, a ∈ webhookcip.Authorities p → effective a) →
  Store_ToContext s' ctx = Ok ctx' →
  Validate_ reg depth fulcioroots w secretName (FromContext ctx') false ns ps = Ok [] →
  ∃ kc auths, k8schain_New (chain_options ns ps) = Ok kc
    ∧ Forall2 authority_delivered (v1alpha1.Authorities (v1alpha1.Spec cip)) auths
    ∧ ∀ c ref pat, c ∈ InitContainers ps ++ Containers ps → name_ParseReference (c_Image c) = Ok ref →
      pat ∈ v1alpha1.Images (v1alpha1.Spec cip) → pattern_matches (ref_Name ref) pat = Ok true →
      (∃ repo d, ref = name_Digest repo d) ∧ policy_satisfied reg depth ref kc auths.
Proof.
  intros Hr Hcur Hn Hj Hs Hc Hcfg He Hctx Hv.
  destruct (policy_delivered cip cl cl' cfg Hr Hcur Hn Hj Hcfg) as (p & Hp & Him & Ha).
  apply follow_last_good in Hs as [Hf _]; [|apply new_constructor].
  destruct (changed_load _ _ _ Hf Hc) as [_ Hl]. rewrite Hcfg in Hl.
  unfold Store_ToContext, Store_Load in Hctx. rewrite Hl in Hctx. injection Hctx as <-.
  destruct (admission_spec reg depth fulcioroots w secretName cfg ns ps Hv)
    as (kc & data & keys & Hkc & _ & _ & Hall).
  exists kc, (webhookcip.Authorities p). split; [done|]. split; [done|]. intros c ref pat Hin Href Hpat Hm.
  destruct (Hall c Hin) as (repo & d & Href' & Hsat & _). rewrite Href in Href'. simplify_eq.
  destruct (He p Hp) as [Hne Heff]. split; [by exists repo, d|]. eapply Hsat; [done| |done|done]. unfold matches. rewrite Him.
  intros H0%length_zero_iff_nil. apply (not_elem_of_nil pat). rewrite <- H0.
  by apply list_elem_of_filter.
Qed.

End pipeline.

(** ** A run *)

Definition toy_Store : StoreExt (R := toy_Registry) := {|
  UntypedStore := (ConfigMap → res (ImagePolicyConfig (R := toy_Registry)))
                  * option (ImagePolicyConfig (R := toy_Registry));
  configmap_NewUntypedStore k := (k, None);
  us_constructor s := fst s;
  us_OnConfigChanged cm s :=
    match fst s cm, snd s with
    | Ok cfg, _ => Ok (fst s, Some cfg)
    | Err _, Some cfg => Ok s
    | Err e, None => Err e
    | Panic x, _ => Panic x
    end;
  us_UntypedLoad s := snd s |}.

#[export] Instance toy_StoreLaws : StoreLaws (R := toy_Registry) (U := toy_Store).
Proof.
  split; cbn; [done|done|..].
  - intros cm [k o] s'. cbn. destruct (k cm), o; naive_solver.
  - intros cm [k o] cfg. cbn. intros ->. by eexists.
  - intros cm [k o] e. cbn. by intros -> ->.
  - intros cm [k o] x. cbn. by intros ->.
  - intros cm [k o] e cfg. cbn. intros -> ->. by eexists.
Qed.

Lemma toy_config_parsed :
  NewImagePoliciesConfigFromMap (X := toy) (R := toy_Registry) (J := toy_Json) toy_entries = Ok toy_config.
Proof.
  unfold NewImagePoliciesConfigFromMap, toy_entries. rewrite map_to_list_singleton. reflexivity.
Qed.

Lemma toy_config_effective k p : toy_config !! k = Some p →
  webhookcip.Authorities p ≠ [] ∧ ∀ a, a ∈ webhookcip.Authorities p → effective a.
Proof.
  intros Hk.
  destruct (proj1 (lookup_singleton_Some (M := gmap string) "policy" k toy_key_policy p) Hk) as [<- <-].
  split; [done|]. intros a [->|Hn%elem_of_nil]%elem_of_cons; [|done]. left. eexists. split; [reflexivity|done].
Qed.

Lemma policy_enforced_witness :
  ∃ kc auths, policy_satisfied (X := toy) (TR := toy_TrustRoot) (C := toy_Ct) (R := toy_Registry)
    (K := toy_Kube) toy_digest_reg 1 (name_Digest "repo" "sha256:d") kc auths.
Proof.
  destruct (policy_enforced (X := toy) (TR := toy_TrustRoot) (C := toy_Ct) (KX := toy_Keys)
    (R := toy_Registry) (J := toy_Json) (K := toy_Kube) (E := toy_Reconcile) (U := toy_Store)
    toy_digest_reg 1 (Ok None) toy_secret_policy toy_cluster toy_after []
    (NewStore (X := toy) (R := toy_Registry) (J := toy_Json) (U := toy_Store))
    (NewImagePoliciesConfigFromConfigMap (X := toy) (R := toy_Registry) (J := toy_Json), Some toy_config)
    None (Some (Some toy_config)) Pod "secret" "ns" toy_pod toy_config)
    as (kc & auths & _ & _ & Hall).
  - exact toy_reconcile.
  - reflexivity.
  - done.
  - exact toy_policy_faithful.
  - reflexivity.
  - cbn. change (in_force toy_after) with toy_entries. unfold NewImagePoliciesConfigFromConfigMap.
    by rewrite toy_config_parsed.
  - exact toy_config_parsed.
  - exact (toy_config_effective _).
  - reflexivity.
  - vm_compute. reflexivity.
  - exists kc, auths. eapply (Hall (mkContainer "c" "repo@sha256:d")); [by left|reflexivity|by left|reflexivity].
Defined.
