(* ===== verification/Objects.v ===== *)
(** * Policies as objects in memory

    pkg/apis/cosigned/v1alpha1/zz_generated.deepcopy.go, and inlinePublicKeys of
    pkg/reconciler/clusterimagepolicy/clusterimagepolicy.go as it changes the copy of a
    policy in place.

    The other files treat a policy as a value.  In the program it is a structure with
    pointers and slices, which the informer's cache shares with every reader.  Here
    pointers and slices are addresses in a store, DeepCopy allocates, and inlining
    writes through pointers; [read_ClusterImagePolicy] gives the value that an object
    stands for.  The main theorem says that the program in memory computes what the
    functions on values compute, and that no object that existed before is changed. *)
From S2P Require Import Prelude GoStd External Concrete OciSignature OciSignatures OciEntity.
From S2P Require Import OciRemote Tuf Tlog Ctl Verify Keys Policy Webhook Reconciler.

Notation addr := nat (only parsing).

(** The structures; ObjectMeta is the name. *)
Module obj.
Record KeyRef := mkKeyRef { SecretRef : option addr; Data : string; KMS : string }.
Record TLog := mkTLog { TLog_URL : option addr }.
Record KeylessRef := mkKeylessRef {
  URL : option addr; Identities : option addr; CACert : option addr }.
Record Authority := mkAuthority {
  Key : option addr; Keyless : option addr; Sources : option addr; CTLog : option addr }.
Record ClusterImagePolicySpec := mkSpec { Images : option addr; Authorities : option addr }.
Record ClusterImagePolicy := mkCIP { cip_Name : string; Spec : ClusterImagePolicySpec }.
Record ClusterImagePolicyList := mkCIPList { Items : option addr }.
End obj.

(** What an address holds: a structure, or the elements of a slice. *)
Inductive cell :=
  | cSecretReference (x : string)
  | cURL (x : string)
  | cKeyRef (x : obj.KeyRef)
  | cTLog (x : obj.TLog)
  | cKeylessRef (x : obj.KeylessRef)
  | cSource (x : v1alpha1.Source)
  | cSources (x : list v1alpha1.Source)
  | cIdentity (x : Identity)
  | cIdentities (x : list Identity)
  | cImagePattern (x : v1alpha1.ImagePattern)
  | cImages (x : list v1alpha1.ImagePattern)
  | cAuthority (x : obj.Authority)
  | cAuthorities (x : list obj.Authority)
  | cSpec (x : obj.ClusterImagePolicySpec)
  | cPolicy (x : obj.ClusterImagePolicy)
  | cItems (x : list obj.ClusterImagePolicy)
  | cPolicyList (x : obj.ClusterImagePolicyList).

Definition as_SecretReference (c : cell) := match c with cSecretReference x => Some x | _ => None end.
Definition as_URL (c : cell) := match c with cURL x => Some x | _ => None end.
Definition as_KeyRef (c : cell) := match c with cKeyRef x => Some x | _ => None end.
Definition as_TLog (c : cell) := match c with cTLog x => Some x | _ => None end.
Definition as_KeylessRef (c : cell) := match c with cKeylessRef x => Some x | _ => None end.
Definition as_Source (c : cell) := match c with cSource x => Some x | _ => None end.
Definition as_Sources (c : cell) := match c with cSources x => Some x | _ => None end.
Definition as_Identity (c : cell) := match c with cIdentity x => Some x | _ => None end.
Definition as_Identities (c : cell) := match c with cIdentities x => Some x | _ => None end.
Definition as_ImagePattern (c : cell) := match c with cImagePattern x => Some x | _ => None end.
Definition as_Images (c : cell) := match c with cImages x => Some x | _ => None end.
Definition as_Authority (c : cell) := match c with cAuthority x => Some x | _ => None end.
Definition as_Authorities (c : cell) := match c with cAuthorities x => Some x | _ => None end.
Definition as_Spec (c : cell) := match c with cSpec x => Some x | _ => None end.
Definition as_Policy (c : cell) := match c with cPolicy x => Some x | _ => None end.
Definition as_Items (c : cell) := match c with cItems x => Some x | _ => None end.
Definition as_PolicyList (c : cell) := match c with cPolicyList x => Some x | _ => None end.

Notation cells := (gmap nat cell) (only parsing).
Record Store := mkStore { st_cells : cells; st_next : addr }.

(** ** Pointers *)

Definition load {A} (as_A : cell → option A) (a : addr) : M Store A := reads (λ s,
  match st_cells s !! a ≫= as_A with Some x => Ok x | None => Panic "invalid memory address" end).
Definition store_at (a : addr) (c : cell) : M Store unit :=
  modify (λ s, mkStore (<[a := c]> (st_cells s)) (st_next s)).
Definition alloc (c : cell) : M Store addr := λ s,
  (mkStore (<[st_next s := c]> (st_cells s)) (S (st_next s)), Ok (st_next s)).

(** The statement for a pointer or a slice that is not nil: new, and copy into it. *)
Definition copy_ptr {A} (as_A : cell → option A) (mk : A → cell) (DeepCopyInto : A → M Store A)
    (p : option addr) : M Store (option addr) :=
  match p with
  | None => mret None
  | Some a => x ← load as_A a; y ← DeepCopyInto x; a' ← alloc (mk y); mret (Some a')
  end.

Fixpoint copy_each {A} (DeepCopyInto : A → M Store A) (l : list A) : M Store (list A) :=
  match l with
  | [] => mret []
  | x :: l' => y ← DeepCopyInto x; rest ← copy_each DeepCopyInto l'; mret (y :: rest)
  end.

(** ** zz_generated.deepcopy.go *)

Definition Identity_DeepCopyInto (i : Identity) : M Store Identity := mret i.
Definition ImagePattern_DeepCopyInto (i : v1alpha1.ImagePattern) : M Store v1alpha1.ImagePattern := mret i.
Definition Source_DeepCopyInto (i : v1alpha1.Source) : M Store v1alpha1.Source := mret i.

Definition KeyRef_DeepCopyInto (k : obj.KeyRef) : M Store obj.KeyRef :=
  secretRef ← copy_ptr as_SecretReference cSecretReference mret (obj.SecretRef k);
  mret (obj.mkKeyRef secretRef (obj.Data k) (obj.KMS k)).

Definition TLog_DeepCopyInto (t : obj.TLog) : M Store obj.TLog :=
  url ← copy_ptr as_URL cURL mret (obj.TLog_URL t); mret (obj.mkTLog url).

Definition KeylessRef_DeepCopyInto (k : obj.KeylessRef) : M Store obj.KeylessRef :=
  url ← copy_ptr as_URL cURL mret (obj.URL k);
  identities ← copy_ptr as_Identities cIdentities (copy_each Identity_DeepCopyInto) (obj.Identities k);
  caCert ← copy_ptr as_KeyRef cKeyRef KeyRef_DeepCopyInto (obj.CACert k);
  mret (obj.mkKeylessRef url identities caCert).

Definition Authority_DeepCopyInto (a : obj.Authority) : M Store obj.Authority :=
  key ← copy_ptr as_KeyRef cKeyRef KeyRef_DeepCopyInto (obj.Key a);
  keyless ← copy_ptr as_KeylessRef cKeylessRef KeylessRef_DeepCopyInto (obj.Keyless a);
  sources ← copy_ptr as_Sources cSources (copy_each Source_DeepCopyInto) (obj.Sources a);
  ctLog ← copy_ptr as_TLog cTLog TLog_DeepCopyInto (obj.CTLog a);
  mret (obj.mkAuthority key keyless sources ctLog).

Definition ClusterImagePolicySpec_DeepCopyInto (s : obj.ClusterImagePolicySpec) :
    M Store obj.ClusterImagePolicySpec :=
  images ← copy_ptr as_Images cImages (copy_each ImagePattern_DeepCopyInto) (obj.Images s);
  authorities ← copy_ptr as_Authorities cAuthorities (copy_each Authority_DeepCopyInto)
                  (obj.Authorities s);
  mret (obj.mkSpec images authorities).

Definition ClusterImagePolicy_DeepCopyInto (cip : obj.ClusterImagePolicy) :
    M Store obj.ClusterImagePolicy :=
  spec ← ClusterImagePolicySpec_DeepCopyInto (obj.Spec cip);
  mret (obj.mkCIP (obj.cip_Name cip) spec).

Definition ClusterImagePolicyList_DeepCopyInto (l : obj.ClusterImagePolicyList) :
    M Store obj.ClusterImagePolicyList :=
  items ← copy_ptr as_Items cItems (copy_each ClusterImagePolicy_DeepCopyInto) (obj.Items l);
  mret (obj.mkCIPList items).

(** The methods on pointers: nil for nil, otherwise new and DeepCopyInto. *)
Definition Identity_DeepCopy := copy_ptr as_Identity cIdentity Identity_DeepCopyInto.
Definition ImagePattern_DeepCopy := copy_ptr as_ImagePattern cImagePattern ImagePattern_DeepCopyInto.
Definition Source_DeepCopy := copy_ptr as_Source cSource Source_DeepCopyInto.
Definition KeyRef_DeepCopy := copy_ptr as_KeyRef cKeyRef KeyRef_DeepCopyInto.
Definition TLog_DeepCopy := copy_ptr as_TLog cTLog TLog_DeepCopyInto.
Definition KeylessRef_DeepCopy := copy_ptr as_KeylessRef cKeylessRef KeylessRef_DeepCopyInto.
Definition Authority_DeepCopy := copy_ptr as_Authority cAuthority Authority_DeepCopyInto.
Definition ClusterImagePolicySpec_DeepCopy :=
  copy_ptr as_Spec cSpec ClusterImagePolicySpec_DeepCopyInto.
Definition ClusterImagePolicy_DeepCopy := copy_ptr as_Policy cPolicy ClusterImagePolicy_DeepCopyInto.
Definition ClusterImagePolicyList_DeepCopy :=
  copy_ptr as_PolicyList cPolicyList ClusterImagePolicyList_DeepCopyInto.

(** A nil pointer is returned as a nil interface. *)
Definition ClusterImagePolicy_DeepCopyObject (cip : option addr) : M Store (option addr) :=
  c ← ClusterImagePolicy_DeepCopy cip; match c with Some c => mret (Some c) | None => mret None end.
Definition ClusterImagePolicyList_DeepCopyObject (l : option addr) : M Store (option addr) :=
  c ← ClusterImagePolicyList_DeepCopy l; match c with Some c => mret (Some c) | None => mret None end.

(** ** The value of an object *)

Section values.
Context (h : cells).

Definition read_ptr {A B} (as_A : cell → option A) (rd : A → option B) (p : option addr) :
    option (option B) :=
  match p with
  | None => Some None
  | Some a => x ← h !! a ≫= as_A; b ← rd x; Some (Some b)
  end.

Definition read_KeyRef (k : obj.KeyRef) : option v1alpha1.KeyRef :=
  secretRef ← read_ptr as_SecretReference Some (obj.SecretRef k);
  Some (v1alpha1.mkKeyRef secretRef (obj.Data k) (obj.KMS k)).

Definition read_TLog (t : obj.TLog) : option v1alpha1.TLog :=
  url ← read_ptr as_URL Some (obj.TLog_URL t); Some (v1alpha1.mkTLog url).

Definition read_KeylessRef (k : obj.KeylessRef) : option v1alpha1.KeylessRef :=
  url ← read_ptr as_URL Some (obj.URL k);
  identities ← read_ptr as_Identities Some (obj.Identities k);
  caCert ← read_ptr as_KeyRef read_KeyRef (obj.CACert k);
  Some (v1alpha1.mkKeylessRef url identities caCert).

(** A nil slice and an empty one are the same list. *)
Definition read_Authority (a : obj.Authority) : option v1alpha1.Authority :=
  key ← read_ptr as_KeyRef read_KeyRef (obj.Key a);
  keyless ← read_ptr as_KeylessRef read_KeylessRef (obj.Keyless a);
  sources ← read_ptr as_Sources Some (obj.Sources a);
  ctLog ← read_ptr as_TLog read_TLog (obj.CTLog a);
  Some (v1alpha1.mkAuthority key keyless (default [] sources) ctLog).

Definition read_Spec (sp : obj.ClusterImagePolicySpec) : option v1alpha1.ClusterImagePolicySpec :=
  images ← read_ptr as_Images Some (obj.Images sp);
  authorities ← read_ptr as_Authorities (mapM read_Authority) (obj.Authorities sp);
  Some (v1alpha1.mkSpec (default [] images) (default [] authorities)).

Definition read_ClusterImagePolicy (cip : obj.ClusterImagePolicy) : option v1alpha1.ClusterImagePolicy :=
  spec ← read_Spec (obj.Spec cip); Some (v1alpha1.mkCIP (obj.cip_Name cip) spec).

(** The policy at an address. *)
Definition read_policy_at (a : addr) : option v1alpha1.ClusterImagePolicy :=
  p ← h !! a ≫= as_Policy; read_ClusterImagePolicy p.

End values.

(** ** Objects that occupy an interval of addresses

    [rep lo hi h x b]: the object [x] stands for [b], and every address that it uses is
    in [lo, hi), no two of its parts sharing any. *)

Definition Rep (A B : Type) : Type := addr → addr → cells → A → B → Prop.

Definition rep_leaf {A} : Rep A A := λ lo hi h x b, lo ≤ hi ∧ x = b.

Definition rep_ptr {A B} (as_A : cell → option A) (rep : Rep A B) : Rep (option addr) (option B) :=
  λ lo hi h p v,
  match p, v with
  | None, None => lo ≤ hi
  | Some a, Some b => lo ≤ a < hi ∧ ∃ x, h !! a ≫= as_A = Some x ∧ rep lo a h x b
  | _, _ => False
  end.

Fixpoint rep_each {A B} (rep : Rep A B) (lo hi : addr) (h : cells) (l : list A) (v : list B) : Prop :=
  match l, v with
  | [], [] => lo ≤ hi
  | x :: l, b :: v => ∃ mid, rep lo mid h x b ∧ rep_each rep mid hi h l v
  | _, _ => False
  end.

Definition rep_KeyRef : Rep obj.KeyRef v1alpha1.KeyRef := λ lo hi h k v,
  rep_ptr as_SecretReference rep_leaf lo hi h (obj.SecretRef k) (v1alpha1.SecretRef v)
  ∧ obj.Data k = v1alpha1.Data v ∧ obj.KMS k = v1alpha1.KMS v.

Definition rep_TLog : Rep obj.TLog v1alpha1.TLog := λ lo hi h t v,
  rep_ptr as_URL rep_leaf lo hi h (obj.TLog_URL t) (v1alpha1.TLog_URL v).

Definition rep_KeylessRef : Rep obj.KeylessRef v1alpha1.KeylessRef := λ lo hi h k v, ∃ m1 m2,
  rep_ptr as_URL rep_leaf lo m1 h (obj.URL k) (v1alpha1.URL v)
  ∧ rep_ptr as_Identities rep_leaf m1 m2 h (obj.Identities k) (v1alpha1.Identities v)
  ∧ rep_ptr as_KeyRef rep_KeyRef m2 hi h (obj.CACert k) (v1alpha1.CACert v).

Definition rep_Authority : Rep obj.Authority v1alpha1.Authority := λ lo hi h a v, ∃ m1 m2 m3 sources,
  rep_ptr as_KeyRef rep_KeyRef lo m1 h (obj.Key a) (v1alpha1.Key v)
  ∧ rep_ptr as_KeylessRef rep_KeylessRef m1 m2 h (obj.Keyless a) (v1alpha1.Keyless v)
  ∧ rep_ptr as_Sources rep_leaf m2 m3 h (obj.Sources a) sources
  ∧ v1alpha1.Sources v = default [] sources
  ∧ rep_ptr as_TLog rep_TLog m3 hi h (obj.CTLog a) (v1alpha1.CTLog v).

Definition rep_Spec : Rep obj.ClusterImagePolicySpec v1alpha1.ClusterImagePolicySpec :=
  λ lo hi h sp v, ∃ m1 images authorities,
  rep_ptr as_Images rep_leaf lo m1 h (obj.Images sp) images
  ∧ v1alpha1.Images v = default [] images
  ∧ rep_ptr as_Authorities (rep_each rep_Authority) m1 hi h (obj.Authorities sp) authorities
  ∧ v1alpha1.Authorities v = default [] authorities.

Definition rep_ClusterImagePolicy : Rep obj.ClusterImagePolicy v1alpha1.ClusterImagePolicy :=
  λ lo hi h p v, obj.cip_Name p = v1alpha1.cip_Name v
  ∧ rep_Spec lo hi h (obj.Spec p) (v1alpha1.Spec v).

(** A representation is determined by the addresses of its interval, and reads back. *)
Definition agree (lo hi : addr) (h h' : cells) : Prop := ∀ a, lo ≤ a < hi → h' !! a = h !! a.

Class RepOk {A B} (rep : Rep A B) (rd : cells → A → option B) := {
  rep_le lo hi h x b : rep lo hi h x b → lo ≤ hi;
  rep_agree lo hi h h' x b : agree lo hi h h' → rep lo hi h x b → rep lo hi h' x b;
  rep_read lo hi h x b : rep lo hi h x b → rd h x = Some b }.

Lemma agree_sub lo hi lo' hi' h h' :
  agree lo hi h h' → lo ≤ lo' → hi' ≤ hi → agree lo' hi' h h'.
Proof. intros H ?? a ?. apply H. lia. Qed.

Ltac rep_les :=
  repeat match goal with
  | H : ?rep ?lo ?hi ?h ?x ?b |- _ =>
      lazymatch goal with
      | _ : lo ≤ hi |- _ => fail
      | _ => assert (lo ≤ hi) by exact (rep_le _ _ _ _ _ H)
      end
  end.

#[export] Instance leaf_ok {A} : RepOk (@rep_leaf A) (λ _, Some).
Proof. split; unfold rep_leaf; naive_solver. Qed.

#[export] Instance ptr_ok {A B} (as_A : cell → option A) (rep : Rep A B) rd `{!RepOk rep rd} :
  RepOk (rep_ptr as_A rep) (λ h, read_ptr h as_A (rd h)).
Proof.
  split.
  - intros lo hi h [a|] [b|]; unfold rep_ptr, read_ptr; try done. lia.
  - intros lo hi h h' [a|] [b|] Hag; unfold rep_ptr, read_ptr; try done. intros (Ha & x & Hx & Hr).
    split; [done|]. exists x. rewrite (Hag a Ha). split; [done|].
    eapply rep_agree; [|done]. eapply agree_sub; [done|lia..].
  - intros lo hi h [a|] [b|]; unfold rep_ptr, read_ptr; try done. intros (Ha & x & -> & Hr).
    cbn. by rewrite (rep_read _ _ _ _ _ Hr).
Qed.

Lemma rep_each_le {A B} (rep : Rep A B) rd `{!RepOk rep rd} lo hi h l v :
  rep_each rep lo hi h l v → lo ≤ hi.
Proof.
  revert lo v. induction l as [|x l IH]; intros lo [|b v]; cbn; try done.
  intros (mid & Hx%rep_le & Hl%IH). lia.
Qed.

#[export] Instance each_ok {A B} (rep : Rep A B) rd `{!RepOk rep rd} :
  RepOk (rep_each rep) (λ h, mapM (rd h)).
Proof.
  split.
  - intros. by eapply rep_each_le.
  - intros lo hi h h' l. revert lo. induction l as [|x l IH]; intros lo [|b v] Hag; cbn; try done.
    intros (mid & Hx & Hl). exists mid. pose proof (rep_le _ _ _ _ _ Hx).
    pose proof (rep_each_le _ _ _ _ _ _ _ Hl).
    split; [eapply rep_agree; [|done]|apply IH; [|done]]; (eapply agree_sub; [done|lia..]).
  - intros lo hi h l. revert lo. induction l as [|x l IH]; intros lo [|b v]; cbn; try done.
    intros (mid & Hx & Hl). rewrite (rep_read _ _ _ _ _ Hx). cbn. by rewrite (IH _ _ Hl).
Qed.

(** The parts of a structure, each on its interval. *)
Ltac rep_parts_agree Hag :=
  split_and?; try done;
  first [eapply rep_agree; [|eassumption]; eapply agree_sub; [exact Hag|lia..] | done].
Ltac rep_parts_read :=
  repeat match goal with H : rep_ptr _ _ _ _ _ _ _ |- _ => apply rep_read in H as -> end.

#[export] Instance KeyRef_ok : RepOk rep_KeyRef read_KeyRef.
Proof.
  split.
  - by intros lo hi h k v (H%rep_le & _).
  - intros lo hi h h' k v Hag (H & ? & ?). unfold rep_KeyRef. rep_parts_agree Hag.
  - intros lo hi h [] [] (H & ? & ?). unfold read_KeyRef. cbn in *. subst. by rep_parts_read.
Qed.

#[export] Instance TLog_ok : RepOk rep_TLog read_TLog.
Proof.
  split.
  - unfold rep_TLog. by intros lo hi h k v H%rep_le.
  - intros lo hi h h' k v Hag H. unfold rep_TLog in *. by eapply rep_agree.
  - intros lo hi h [] [] H. unfold read_TLog, rep_TLog in *. by rep_parts_read.
Qed.

#[export] Instance KeylessRef_ok : RepOk rep_KeylessRef read_KeylessRef.
Proof.
  split.
  - intros lo hi h k v (m1 & m2 & H1%rep_le & H2%rep_le & H3%rep_le). lia.
  - intros lo hi h h' k v Hag (m1 & m2 & H1 & H2 & H3). exists m1, m2. rep_les. rep_parts_agree Hag.
  - intros lo hi h [] [] (m1 & m2 & H1 & H2 & H3). unfold read_KeylessRef. by rep_parts_read.
Qed.

#[export] Instance Authority_ok : RepOk rep_Authority read_Authority.
Proof.
  split.
  - intros lo hi h k v (m1 & m2 & m3 & src & H1%rep_le & H2%rep_le & H3%rep_le & _ & H4%rep_le). lia.
  - intros lo hi h h' k v Hag (m1 & m2 & m3 & src & H1 & H2 & H3 & ? & H4).
    exists m1, m2, m3, src. rep_les. rep_parts_agree Hag.
  - intros lo hi h [] [] (m1 & m2 & m3 & src & H1 & H2 & H3 & Hs & H4).
    unfold read_Authority. rep_parts_read. cbn in *. by subst.
Qed.

#[export] Instance Spec_ok : RepOk rep_Spec read_Spec.
Proof.
  split.
  - intros lo hi h k v (m1 & im & au & H1%rep_le & _ & H2%rep_le & _). lia.
  - intros lo hi h h' k v Hag (m1 & im & au & H1 & ? & H2 & ?). exists m1, im, au. rep_les.
    rep_parts_agree Hag.
  - intros lo hi h [] [] (m1 & im & au & H1 & Hi & H2 & Ha).
    unfold read_Spec. rep_parts_read. cbn in *. by subst.
Qed.

#[export] Instance ClusterImagePolicy_ok : RepOk rep_ClusterImagePolicy read_ClusterImagePolicy.
Proof.
  split.
  - by intros lo hi h k v (_ & H%rep_le).
  - intros lo hi h h' k v Hag (? & H). split; [done|]. by eapply rep_agree.
  - intros lo hi h [] [] (? & H). unfold read_ClusterImagePolicy. apply rep_read in H as ->.
    cbn in *. by subst.
Qed.

(** ** DeepCopy *)

(** Cells added where there were none do not change what is read. *)
Definition oincl {B} (o o' : option B) : Prop := ∀ b, o = Some b → o' = Some b.

Lemma oincl_refl {B} (o : option B) : oincl o o.
Proof. by intros b. Qed.
Lemma oincl_bind {A B} (o o' : option A) (f f' : A → option B) :
  oincl o o' → (∀ x, oincl (f x) (f' x)) → oincl (o ≫= f) (o' ≫= f').
Proof. intros Ho Hf b (x & Hx & Hb)%bind_Some. rewrite (Ho _ Hx). cbn. by apply Hf. Qed.
Lemma oincl_lookup (h h' : cells) a : h ⊆ h' → oincl (h !! a) (h' !! a).
Proof. intros Hsub c Hc. by eapply lookup_weaken. Qed.
Lemma oincl_mapM {A B} (f f' : A → option B) l :
  (∀ x, oincl (f x) (f' x)) → oincl (mapM f l) (mapM f' l).
Proof. intros Hf v. rewrite !mapM_Some. intros H. eapply Forall2_impl; [done|]. intros ??. apply Hf. Qed.
#[local] Hint Resolve oincl_refl oincl_bind oincl_lookup oincl_mapM : objects.

Lemma oincl_ptr {A B} h h' (as_A : cell → option A) (rd rd' : A → option B) p :
  h ⊆ h' → (∀ x, oincl (rd x) (rd' x)) → oincl (read_ptr h as_A rd p) (read_ptr h' as_A rd' p).
Proof. intros Hsub Hrd. destruct p; cbn [read_ptr]; auto 6 with objects. Qed.
#[local] Hint Resolve oincl_ptr : objects.

Section mono.
Context (h h' : cells) (Hsub : h ⊆ h').

Lemma KeyRef_mono k : oincl (read_KeyRef h k) (read_KeyRef h' k).
Proof. unfold read_KeyRef. auto with objects. Qed.
#[local] Hint Resolve KeyRef_mono : objects.
Lemma TLog_mono k : oincl (read_TLog h k) (read_TLog h' k).
Proof. unfold read_TLog. auto with objects. Qed.
#[local] Hint Resolve TLog_mono : objects.
Lemma KeylessRef_mono k : oincl (read_KeylessRef h k) (read_KeylessRef h' k).
Proof. unfold read_KeylessRef. auto 8 with objects. Qed.
#[local] Hint Resolve KeylessRef_mono : objects.
Lemma Authority_mono k : oincl (read_Authority h k) (read_Authority h' k).
Proof. unfold read_Authority. auto 10 with objects. Qed.
#[local] Hint Resolve Authority_mono : objects.
Lemma Spec_mono k : oincl (read_Spec h k) (read_Spec h' k).
Proof. unfold read_Spec. auto 8 with objects. Qed.
#[local] Hint Resolve Spec_mono : objects.
Lemma ClusterImagePolicy_mono k : oincl (read_ClusterImagePolicy h k) (read_ClusterImagePolicy h' k).
Proof. unfold read_ClusterImagePolicy. auto with objects. Qed.
#[local] Hint Resolve ClusterImagePolicy_mono : objects.
Lemma policy_at_mono a : oincl (read_policy_at h a) (read_policy_at h' a).
Proof. unfold read_policy_at. auto with objects. Qed.
End mono.

(** Every address that is not yet allocated is empty. *)
Definition wf (s : Store) : Prop := ∀ a, st_next s ≤ a → st_cells s !! a = None.
Definition ext (s s' : Store) : Prop :=
  st_next s ≤ st_next s' ∧ agree 0 (st_next s) (st_cells s) (st_cells s').

Lemma ext_refl s : ext s s.
Proof. by split. Qed.
Lemma ext_trans s1 s2 s3 : ext s1 s2 → ext s2 s3 → ext s1 s3.
Proof.
  intros [H1 A1] [H2 A2]. split; [lia|]. intros a Ha. rewrite A2 by lia. by apply A1.
Qed.
Lemma ext_subseteq s s' : wf s → ext s s' → st_cells s ⊆ st_cells s'.
Proof.
  intros Hwf [_ Hag]. apply map_subseteq_spec. intros a c Hc.
  destruct (decide (a < st_next s)) as [Hlt|Hge]; [by rewrite Hag by lia|].
  rewrite Hwf in Hc by lia. done.
Qed.

(** The copy stands for the same value, on addresses that were not in use, and nothing
    that was in use is changed. *)
Definition copies {A B} (rd : cells → A → option B) (rep : Rep A B) (f : A → M Store A) : Prop :=
  ∀ s x b, wf s → rd (st_cells s) x = Some b →
  ∃ s' y, f x s = (s', Ok y) ∧ ext s s' ∧ wf s'
    ∧ rep (st_next s) (st_next s') (st_cells s') y b.

Lemma rep_ext {A B} (rep : Rep A B) rd `{!RepOk rep rd} lo s s' x b :
  ext s s' → rep lo (st_next s) (st_cells s) x b → rep lo (st_next s) (st_cells s') x b.
Proof. intros [_ Hag] H. eapply rep_agree; [|exact H]. eapply agree_sub; [exact Hag|lia..]. Qed.

Lemma bind_run {W A B} (m : M W A) (f : A → M W B) w w1 a :
  m w = (w1, Ok a) → (m ≫= f) w = f a w1.
Proof. unfold mbind, M_bind. by intros ->. Qed.

Lemma copies_leaf {A} : copies (λ _, Some) (@rep_leaf A) mret.
Proof.
  intros s x b Hwf [= <-]. exists s, x. split_and!; [done|apply ext_refl|done|]. by split.
Qed.

Lemma copies_leaves {A} (f : A → M Store A) :
  (∀ x, f x = mret x) → copies (λ _, Some) rep_leaf (copy_each f).
Proof.
  intros Hf s l b Hwf [= <-]. exists s, l.
  split_and!; [|apply ext_refl|done|by split].
  clear Hwf. induction l as [|x l IH]; cbn [copy_each]; [done|].
  rewrite Hf, (bind_run _ _ s s x) by done. by rewrite (bind_run _ _ _ _ _ IH).
Qed.

Lemma load_run {A} (as_A : cell → option A) a s x :
  st_cells s !! a ≫= as_A = Some x → load as_A a s = (s, Ok x).
Proof. unfold load, reads. by intros ->. Qed.

Lemma alloc_ext c s : wf s → ∃ s', alloc c s = (s', Ok (st_next s)) ∧ ext s s' ∧ wf s'
  ∧ st_next s' = S (st_next s) ∧ st_cells s' !! st_next s = Some c.
Proof.
  intros Hwf. eexists. split; [reflexivity|]. split_and!; cbn; try done.
  - split; cbn; [lia|]. intros a Ha. by rewrite lookup_insert_ne by lia.
  - intros a Ha. cbn in *. rewrite lookup_insert_ne by lia. apply Hwf. lia.
  - apply lookup_insert_eq.
Qed.

Lemma copies_ptr {A B} (as_A : cell → option A) mk rd (rep : Rep A B) f `{!RepOk rep rd} :
  (∀ y, as_A (mk y) = Some y) → copies rd rep f →
  copies (λ h, read_ptr h as_A (rd h)) (rep_ptr as_A rep) (copy_ptr as_A mk f).
Proof.
  intros Hmk Hf s [a|] b Hwf; cbn [read_ptr copy_ptr].
  - intros (x & Hx & (v & Hv & [= <-])%bind_Some)%bind_Some.
    destruct (Hf s x v Hwf Hv) as (s1 & y & E1 & X1 & W1 & R1).
    destruct (alloc_ext (mk y) s1 W1) as (s2 & E2 & X2 & W2 & N2 & L2).
    exists s2, (Some (st_next s1)). split_and!; [|by eapply ext_trans|done|].
    + by rewrite (bind_run _ _ _ _ _ (load_run _ _ _ _ Hx)), (bind_run _ _ _ _ _ E1),
        (bind_run _ _ _ _ _ E2).
    + pose proof (proj1 X1). cbn [rep_ptr]. split; [lia|]. exists y. rewrite L2. cbn. split; [done|].
      by eapply rep_ext.
  - intros [= <-]. exists s, None. split_and!; [done|apply ext_refl|done|]. cbn. lia.
Qed.

Lemma copies_each {A B} rd (rep : Rep A B) f `{!RepOk rep rd} :
  (∀ h h', h ⊆ h' → ∀ x, oincl (rd h x) (rd h' x)) → copies rd rep f →
  copies (λ h, mapM (rd h)) (rep_each rep) (copy_each f).
Proof.
  intros Hmono Hf s l. revert s. induction l as [|x l IH]; intros s v Hwf; cbn [copy_each].
  - intros [= <-]. exists s, []. split_and!; [done|apply ext_refl|done|]. cbn. lia.
  - intros (b & Hb & (bs & Hbs & [= <-])%bind_Some)%bind_Some.
    destruct (Hf s x b Hwf Hb) as (s1 & y & E1 & X1 & W1 & R1).
    destruct (IH s1 bs W1) as (s2 & ys & E2 & X2 & W2 & R2).
    { eapply (oincl_mapM (rd (st_cells s))); [|exact Hbs]. intros z. apply Hmono. by apply ext_subseteq. }
    exists s2, (y :: ys). split_and!; [|by eapply ext_trans|done|].
    + by rewrite (bind_run _ _ _ _ _ E1), (bind_run _ _ _ _ _ E2).
    + exists (st_next s1). split; [by eapply rep_ext|done].
Qed.

#[local] Hint Resolve KeyRef_mono TLog_mono KeylessRef_mono Authority_mono Spec_mono
  ClusterImagePolicy_mono policy_at_mono ext_subseteq : objects.

(** A field, copied after others: [s0] is the store in which the structure was read. *)
Lemma copy_later {A B} (rd : cells → A → option B) rep f (Hf : copies rd rep f)
    (Hm : ∀ h h', h ⊆ h' → ∀ x, oincl (rd h x) (rd h' x)) (s0 s : Store) x b :
  wf s0 → ext s0 s → wf s → rd (st_cells s0) x = Some b →
  ∃ s' y, f x s = (s', Ok y) ∧ ext s s' ∧ ext s0 s' ∧ wf s'
    ∧ rep (st_next s) (st_next s') (st_cells s') y b.
Proof.
  intros Hwf0 Hx Hwf H. destruct (Hf s x b Hwf) as (s' & y & Hrun & ? & ? & ?).
  { eapply Hm; [exact (ext_subseteq _ _ Hwf0 Hx)|exact H]. }
  exists s', y. split_and!; [done|done|by eapply ext_trans|done..].
Qed.

Ltac copy_field C H :=
  let s1 := fresh "s" in let y := fresh "y" in let E := fresh "E" in
  let X1 := fresh "X" in let X0 := fresh "X" in let W := fresh "W" in let R1 := fresh "R" in
  edestruct (copy_later _ _ _ C) as (s1 & y & E & X1 & X0 & W & R1);
    [ solve [auto with objects] | | | | exact H | ];
    [ eassumption | eassumption | eassumption | rewrite (bind_run _ _ _ _ _ E); clear E ].
Ltac copied := eexists _, _; split_and!; [reflexivity|eassumption|eassumption|].
Ltac rep_fields :=
  split_and!; try done; (eapply rep_ext; [apply _| |eassumption]; eauto using ext_refl, ext_trans).

Lemma KeyRef_copies : copies read_KeyRef rep_KeyRef KeyRef_DeepCopyInto.
Proof.
  intros s k v Hwf (sr & Hs & [= <-])%bind_Some. unfold KeyRef_DeepCopyInto. pose proof (ext_refl s).
  copy_field (copies_ptr as_SecretReference cSecretReference _ _ _ (λ _, eq_refl) copies_leaf) Hs.
  copied. split_and!; done.
Qed.

Lemma TLog_copies : copies read_TLog rep_TLog TLog_DeepCopyInto.
Proof.
  intros s k v Hwf (sr & Hs & [= <-])%bind_Some. unfold TLog_DeepCopyInto. pose proof (ext_refl s).
  copy_field (copies_ptr as_URL cURL _ _ _ (λ _, eq_refl) copies_leaf) Hs.
  copied. done.
Qed.

Lemma KeylessRef_copies : copies read_KeylessRef rep_KeylessRef KeylessRef_DeepCopyInto.
Proof.
  intros s k v Hwf (u & Hu & (i & Hi & (c & Hc & [= <-])%bind_Some)%bind_Some)%bind_Some.
  unfold KeylessRef_DeepCopyInto. pose proof (ext_refl s).
  copy_field (copies_ptr as_URL cURL _ _ _ (λ _, eq_refl) copies_leaf) Hu.
  copy_field (copies_ptr as_Identities cIdentities _ _ _ (λ _, eq_refl)
    (copies_leaves Identity_DeepCopyInto (λ _, eq_refl))) Hi.
  copy_field (copies_ptr as_KeyRef cKeyRef _ _ _ (λ _, eq_refl) KeyRef_copies) Hc.
  copied. eexists _, _. rep_fields.
Qed.

Lemma Authority_copies : copies read_Authority rep_Authority Authority_DeepCopyInto.
Proof.
  intros s k v Hwf (ke & Hk & (kl & Hkl & (so & Hso & (ct & Hct & [= <-])%bind_Some)
    %bind_Some)%bind_Some)%bind_Some.
  unfold Authority_DeepCopyInto. pose proof (ext_refl s).
  copy_field (copies_ptr as_KeyRef cKeyRef _ _ _ (λ _, eq_refl) KeyRef_copies) Hk.
  copy_field (copies_ptr as_KeylessRef cKeylessRef _ _ _ (λ _, eq_refl) KeylessRef_copies) Hkl.
  copy_field (copies_ptr as_Sources cSources _ _ _ (λ _, eq_refl)
    (copies_leaves Source_DeepCopyInto (λ _, eq_refl))) Hso.
  copy_field (copies_ptr as_TLog cTLog _ _ _ (λ _, eq_refl) TLog_copies) Hct.
  copied. eexists _, _, _, _. rep_fields.
Qed.

Lemma Spec_copies : copies read_Spec rep_Spec ClusterImagePolicySpec_DeepCopyInto.
Proof.
  intros s k v Hwf (im & Hi & (au & Ha & [= <-])%bind_Some)%bind_Some.
  unfold ClusterImagePolicySpec_DeepCopyInto. pose proof (ext_refl s).
  copy_field (copies_ptr as_Images cImages _ _ _ (λ _, eq_refl)
    (copies_leaves ImagePattern_DeepCopyInto (λ _, eq_refl))) Hi.
  copy_field (copies_ptr as_Authorities cAuthorities _ _ _ (λ _, eq_refl)
    (copies_each _ _ _ Authority_mono Authority_copies)) Ha.
  copied. eexists _, _, _. rep_fields.
Qed.

Lemma ClusterImagePolicy_copies :
  copies read_ClusterImagePolicy rep_ClusterImagePolicy ClusterImagePolicy_DeepCopyInto.
Proof.
  intros s k v Hwf (sp & Hs & [= <-])%bind_Some. unfold ClusterImagePolicy_DeepCopyInto.
  pose proof (ext_refl s). copy_field Spec_copies Hs. copied. done.
Qed.

Lemma DeepCopy_copies :
  copies (λ h, read_ptr h as_Policy (read_ClusterImagePolicy h))
    (rep_ptr as_Policy rep_ClusterImagePolicy) ClusterImagePolicy_DeepCopy.
Proof. apply copies_ptr; [apply _|done|apply ClusterImagePolicy_copies]. Qed.

(** ** Inlining, in place *)

Section inlining.
Context `{X : Ext, KX : KeyExt, R : Registry, K : !Kube, E : !ReconcileExt}.

Definition World : Type := Cluster * Store.
Definition in_mem {A} (m : M Store A) : M World A := λ w,
  let '(s, r) := m (snd w) in ((fst w, s), r).
Definition in_cl {A} (m : M Cluster A) : M World A := λ w,
  let '(c, r) := m (fst w) in ((c, snd w), r).

(** The loop over the secret's entries assigns to the fields of the key reference. *)
Fixpoint assign_entries (name : string) (data : list (string * bytes)) (keyref : addr) : M Store unit :=
  match data with
  | [] => mret ()
  | (_, v) :: data' =>
      if negb (IsValidKey v)
      then lift (Err (error_New ("secret " +:+ quoted name +:+ " contains an invalid public key")))
      else
        k ← load as_KeyRef keyref;
        store_at keyref (cKeyRef (obj.mkKeyRef None v (obj.KMS k)));;
        assign_entries name data' keyref
  end.

(** inlineAndTrackSecret; the names are those of the policy and of keyref.SecretRef. *)
Definition mem_inlineAndTrackSecret (cip name : string) (keyref : addr) : M World unit :=
  data ← in_cl (tracked_secret_data cip name); in_mem (assign_entries name data keyref).

(** A reference to a key, if it is not nil and names a secret. *)
Definition mem_inline_ref (cip : string) (keyref : option addr) : M World unit :=
  match keyref with
  | None => mret ()
  | Some a =>
      k ← in_mem (load as_KeyRef a);
      match obj.SecretRef k with
      | None => mret ()
      | Some s => name ← in_mem (load as_SecretReference s); mem_inlineAndTrackSecret cip name a
      end
  end.

Definition mem_inline_kms (keyref : option addr) : M World unit :=
  match keyref with
  | None => mret ()
  | Some a =>
      k ← in_mem (load as_KeyRef a);
      if negb (obj.KMS k =?s "") && strings_Contains (obj.KMS k) "://" then
        pubKeyString ← lift (getKMSPublicKey (obj.KMS k));
        in_mem (store_at a (cKeyRef (obj.mkKeyRef (obj.SecretRef k) pubKeyString "")))
      else mret ()
  end.

Definition mem_inline_keyless (cip : string) (keyless : option addr) : M World unit :=
  match keyless with
  | None => mret ()
  | Some a => kl ← in_mem (load as_KeylessRef a); mem_inline_ref cip (obj.CACert kl)
  end.

Definition mem_inline_authority (cip : string) (authority : obj.Authority) : M World unit :=
  mem_inline_ref cip (obj.Key authority);;
  mem_inline_keyless cip (obj.Keyless authority);;
  mem_inline_kms (obj.Key authority).

Fixpoint mem_inline_authorities (cip : string) (l : list obj.Authority) : M World unit :=
  match l with
  | [] => mret ()
  | a :: l' => mem_inline_authority cip a;; mem_inline_authorities cip l'
  end.

Definition mem_inlinePublicKeys (cip : option addr) : M World addr :=
  ret ← in_mem (ClusterImagePolicy_DeepCopy cip);
  match ret with
  | None => lift (Panic "nil pointer dereference")
  | Some ret =>
      p ← in_mem (load as_Policy ret);
      match obj.Authorities (obj.Spec p) with
      | None => mret ()
      | Some a => l ← in_mem (load as_Authorities a); mem_inline_authorities (obj.cip_Name p) l
      end;;
      mret ret
  end.

(** *** The functions on values are what the program in memory computes *)

Definition no_value {B} (r : res B) : res unit :=
  match r with Ok _ => Ok () | Err e => Err e | Panic x => Panic x end.

(** Only addresses of the interval are written. *)
Definition writes (lo hi : addr) (s s' : Store) : Prop :=
  st_next s' = st_next s ∧ ∀ a, a < lo ∨ hi ≤ a → st_cells s' !! a = st_cells s !! a.

(** [m] changes the object [x] in place as [f] changes its value. *)
Definition sim {A B} (rep : Rep A B) (x : A) (m : M World unit) (f : B → M Cluster B) : Prop :=
  ∀ lo hi c s v, rep lo hi (st_cells s) x v →
  ∃ s', m (c, s) = ((fst (f v c), s'), no_value (snd (f v c))) ∧ writes lo hi s s'
    ∧ ∀ v', snd (f v c) = Ok v' → rep lo hi (st_cells s') x v'.

Lemma writes_refl lo hi s : writes lo hi s s.
Proof. by split. Qed.
Lemma writes_trans lo hi s1 s2 s3 : writes lo hi s1 s2 → writes lo hi s2 s3 → writes lo hi s1 s3.
Proof. intros [N1 A1] [N2 A2]. split; [congruence|]. intros a Ha. by rewrite A2, A1. Qed.
Lemma writes_weaken lo hi lo' hi' s s' : writes lo hi s s' → lo' ≤ lo → hi ≤ hi' → writes lo' hi' s s'.
Proof. intros [N A1] ??. split; [done|]. intros a Ha. apply A1. lia. Qed.
Lemma writes_agree lo hi lo' hi' s s' :
  writes lo hi s s' → hi' ≤ lo ∨ hi ≤ lo' → agree lo' hi' (st_cells s) (st_cells s').
Proof. intros [N A1] ? a Ha. apply A1. lia. Qed.

Lemma store_at_writes a c s :
  ∃ s', store_at a c s = (s', Ok ()) ∧ writes a (S a) s s' ∧ st_cells s' !! a = Some c.
Proof.
  eexists. split; [reflexivity|]. split; [|apply lookup_insert_eq].
  split; [done|]. intros b Hb. cbn. by rewrite lookup_insert_ne by lia.
Qed.

(** The key reference at [a], with what it points to below. *)
Definition keyref_at (lo a : addr) (s : Store) (k : v1alpha1.KeyRef) : Prop :=
  ∃ x, st_cells s !! a ≫= as_KeyRef = Some x ∧ rep_KeyRef lo a (st_cells s) x k.

Lemma assign_entries_sim name data lo a s k :
  keyref_at lo a s k →
  ∃ s', assign_entries name data a s = (s', no_value (inline_entries name data k))
    ∧ writes a (S a) s s' ∧ ∀ k', inline_entries name data k = Ok k' → keyref_at lo a s' k'.
Proof.
  revert s k. induction data as [|[e v] data IH]; intros s k Hk; cbn [assign_entries inline_entries].
  - exists s. split_and!; [done|apply writes_refl|by intros k' [= <-]].
  - destruct (IsValidKey v); cbn [negb]; [|exists s; by split_and!; [|apply writes_refl|]].
    destruct Hk as (x & Hx & Hrep). rewrite (bind_run _ _ _ _ _ (load_run _ _ _ _ Hx)).
    destruct (store_at_writes a (cKeyRef (obj.mkKeyRef None v (obj.KMS x))) s) as (s1 & E1 & W1 & L1).
    rewrite (bind_run _ _ _ _ _ E1).
    destruct (IH s1 (v1alpha1.mkKeyRef None v (v1alpha1.KMS k))) as (s2 & E2 & W2 & H2).
    { eexists. rewrite L1. split; [done|]. pose proof (rep_le _ _ _ _ _ Hrep).
      destruct Hrep as (_ & _ & ->). by split_and!. }
    exists s2. split_and!; [done|by eapply writes_trans|done].
Qed.

Lemma in_mem_run {A} (m : M Store A) c s s' r : m s = (s', r) → in_mem m (c, s) = ((c, s'), r).
Proof. unfold in_mem. cbn. by intros ->. Qed.
Lemma load_mem {A B} (as_A : cell → option A) a c s x (f : A → M World B) :
  st_cells s !! a ≫= as_A = Some x → (y ← in_mem (load as_A a); f y) (c, s) = f x (c, s).
Proof. intros Hx. apply bind_run. by apply in_mem_run, load_run. Qed.

Lemma secret_sim cip name lo a c s k :
  keyref_at lo a s k →
  ∃ s', mem_inlineAndTrackSecret cip name a (c, s)
        = ((fst (inlineAndTrackSecret cip name k c), s'), no_value (snd (inlineAndTrackSecret cip name k c)))
    ∧ writes a (S a) s s'
    ∧ ∀ k', snd (inlineAndTrackSecret cip name k c) = Ok k' → keyref_at lo a s' k'.
Proof.
  intros Hk. unfold mem_inlineAndTrackSecret, inlineAndTrackSecret, mbind, M_bind, in_cl, in_mem. cbn.
  destruct (tracked_secret_data cip name c) as [c1 [data|e|x]]; cbn;
    [|by exists s; split_and!; [|apply writes_refl|]..].
  destruct (assign_entries_sim name data lo a s k Hk) as (s' & -> & ? & ?). by exists s'.
Qed.

Lemma keyref_ptr lo hi a s s' k' :
  lo ≤ a < hi → writes a (S a) s s' → keyref_at lo a s' k' →
  writes lo hi s s' ∧ rep_ptr as_KeyRef rep_KeyRef lo hi (st_cells s') (Some a) (Some k').
Proof. intros Ha Hw Hk. split; [eapply writes_weaken; [done|lia..]|]. by split. Qed.

Lemma inline_ref_sim cip p : sim (rep_ptr as_KeyRef rep_KeyRef) p (mem_inline_ref cip p) (inline_ref cip).
Proof.
  intros lo hi c s v Hrep. destruct p as [a|], v as [k|]; try done.
  2: { exists s. split_and!; [done|apply writes_refl|]. cbn. by intros v' [= <-]. }
  pose proof Hrep as (Ha & x & Hx & Hk). cbn [mem_inline_ref inline_ref]. rewrite (load_mem _ _ _ _ _ _ Hx).
  pose proof Hk as (Hs & _ & _).
  destruct (obj.SecretRef x) as [sa|], (v1alpha1.SecretRef k) as [name|]; try done.
  2: { exists s. split_and!; [done|apply writes_refl|]. by intros v' [= <-]. }
  destruct Hs as (_ & nm & Hn & _ & ->). rewrite (load_mem _ _ _ _ _ _ Hn).
  destruct (secret_sim cip name lo a c s k) as (s' & -> & Hw & Hk'); [by exists x|].
  exists s'. unfold mbind, M_bind. destruct (inlineAndTrackSecret cip name k c) as [c1 [k'|e|w]]; cbn;
    (split_and!; [done|eapply writes_weaken; [done|lia..]|]); try done.
  intros v' [= <-]. by eapply keyref_ptr; [..|apply Hk'].
Qed.

Lemma inline_kms_sim p :
  sim (rep_ptr as_KeyRef rep_KeyRef) p (mem_inline_kms p) (λ v, lift (inline_kms v)).
Proof.
  intros lo hi c s v Hrep. destruct p as [a|], v as [k|]; try done.
  2: { exists s. split_and!; [done|apply writes_refl|]. cbn. by intros v' [= <-]. }
  pose proof Hrep as (Ha & x & Hx & Hk). cbn [mem_inline_kms inline_kms]. rewrite (load_mem _ _ _ _ _ _ Hx).
  pose proof Hk as (Hs & _ & ->). destruct (_ && _).
  2: { exists s. split_and!; [done|apply writes_refl|]. by intros v' [= <-]. }
  unfold lift, mbind, M_bind, res_bind. destruct (getKMSPublicKey _) as [pem|e|w]; cbn [fst snd no_value];
    [|by exists s; split_and!; [|apply writes_refl|]..].
  destruct (store_at_writes a (cKeyRef (obj.mkKeyRef (obj.SecretRef x) pem "")) s)
    as (s' & Hrun & Hw & Hl).
  exists s'. rewrite (in_mem_run _ _ _ _ _ Hrun).
  split_and!; [done|eapply writes_weaken; [done|lia..]|]. intros v' [= <-].
  eapply keyref_ptr; [done..|]. eexists. rewrite Hl. split; [done|]. split_and!; cbn; try done.
  eapply rep_agree; [|exact Hs]. eapply writes_agree; [done|lia].
Qed.

(** What is represented elsewhere stays. *)
Ltac keep W := eapply rep_agree; [eapply (writes_agree _ _ _ _ _ _ W); lia|].

Lemma inline_keyless_sim cip p :
  sim (rep_ptr as_KeylessRef rep_KeylessRef) p (mem_inline_keyless cip p) (inline_keyless cip).
Proof.
  intros lo hi c s v Hrep. destruct p as [a|], v as [k|]; try done.
  2: { exists s. split_and!; [done|apply writes_refl|]. cbn. by intros v' [= <-]. }
  destruct Hrep as (Ha & x & Hx & m1 & m2 & H1 & H2 & H3). cbn [mem_inline_keyless inline_keyless].
  rewrite (load_mem _ _ _ _ _ _ Hx). rep_les.
  destruct (inline_ref_sim cip _ _ _ c _ _ H3) as (s' & -> & Hw & Hr). exists s'.
  unfold mbind, M_bind. destruct (inline_ref cip (v1alpha1.CACert k) c) as [c1 [ca|e|w]];
    cbn [fst snd no_value] in *; (split_and!; [done|eapply writes_weaken; [done|lia..]|]); try done.
  intros v' [= <-]. split; [done|]. exists x. rewrite (proj2 Hw) by lia. split; [done|].
  exists m1, m2. split_and!; [..|by apply Hr]; cbn;
    keep Hw; eassumption.
Qed.

Lemma inline_authority_sim cip a : sim rep_Authority a (mem_inline_authority cip a) (inline_authority cip).
Proof.
  intros lo hi c s v (m1 & m2 & m3 & src & H1 & H2 & H3 & Hsrc & H4). rep_les.
  unfold mem_inline_authority, inline_authority, mbind, M_bind.
  destruct (inline_ref_sim cip _ _ _ c _ _ H1) as (s1 & -> & W1 & R1).
  destruct (inline_ref cip (v1alpha1.Key v) c) as [c1 [key|e|w]]; cbn [fst snd no_value] in *;
    [|by exists s1; split_and!; [|eapply writes_weaken; [done|lia..]|]..].
  specialize (R1 _ eq_refl).
  destruct (inline_keyless_sim cip (obj.Keyless a) m1 m2 c1 s1 (v1alpha1.Keyless v)) as (s2 & -> & W2 & R2).
  { keep W1. exact H2. }
  assert (writes lo hi s s2) by (eapply writes_trans; (eapply writes_weaken; [done|lia..])).
  destruct (inline_keyless cip (v1alpha1.Keyless v) c1) as [c2 [keyless|e|w]]; cbn [fst snd no_value] in *;
    [|by exists s2; split_and!..].
  specialize (R2 _ eq_refl).
  destruct (inline_kms_sim (obj.Key a) lo m1 c2 s2 key) as (s3 & -> & W3 & R3).
  { keep W2. exact R1. }
  assert (writes lo hi s s3) by (eapply writes_trans; [done|eapply writes_weaken; [done|lia..]]).
  exists s3. unfold lift in *. destruct (inline_kms key) as [key'|e|w]; cbn [fst snd no_value] in *;
    (split_and!; [done..|]); try done.
  intros v' [= <-]. exists m1, m2, m3, src. split_and!; cbn; [by apply R3| |..|done|].
  - keep W3. exact R2.
  - keep W3. keep W2. keep W1. exact H3.
  - keep W3. keep W2. keep W1. exact H4.
Qed.

Lemma inline_authorities_sim cip l :
  sim (rep_each rep_Authority) l (mem_inline_authorities cip l) (inline_authorities cip).
Proof.
  induction l as [|a l IH]; intros lo hi c s [|v vs] Hrep; try done.
  { exists s. split_and!; [done|apply writes_refl|]. cbn. by intros v' [= <-]. }
  destruct Hrep as (mid & Ha & Hl). rep_les.
  cbn [mem_inline_authorities inline_authorities]. unfold mbind, M_bind.
  destruct (inline_authority_sim cip a lo mid c s v Ha) as (s1 & -> & W1 & R1).
  destruct (inline_authority cip v c) as [c1 [v1|e|w]]; cbn [fst snd no_value] in *;
    [|by exists s1; split_and!; [|eapply writes_weaken; [done|lia..]|]..].
  specialize (R1 _ eq_refl).
  destruct (IH mid hi c1 s1 vs) as (s2 & -> & W2 & R2).
  { keep W1. exact Hl. }
  assert (writes lo hi s s2) by (eapply writes_trans; (eapply writes_weaken; [done|lia..])).
  exists s2. destruct (inline_authorities cip vs c1) as [c2 [vs'|e|w]]; cbn [fst snd no_value] in *;
    (split_and!; [done..|]); try done.
  intros v' [= <-]. exists mid. split; [|by apply R2].
  keep W2. exact R1.
Qed.

Lemma inline_spec_sim p lo hi c s v :
  rep_ClusterImagePolicy lo hi (st_cells s) p v →
  ∃ s', match obj.Authorities (obj.Spec p) with
        | None => mret ()
        | Some a => l ← in_mem (load as_Authorities a); mem_inline_authorities (obj.cip_Name p) l
        end (c, s) = ((fst (inlinePublicKeys v c), s'), no_value (snd (inlinePublicKeys v c)))
    ∧ writes lo hi s s'
    ∧ ∀ v', snd (inlinePublicKeys v c) = Ok v' → rep_ClusterImagePolicy lo hi (st_cells s') p v'.
Proof.
  intros (Hn & m1 & im & au & H1 & Hi & H2 & Ha). unfold inlinePublicKeys. rewrite Ha, Hi. rep_les.
  destruct (obj.Authorities (obj.Spec p)) as [a|] eqn:Hp, au as [vs|]; try done; cbn [default id].
  2: { exists s. split_and!; [done|apply writes_refl|]. intros v' [= <-].
    split; [done|]. exists m1, im, None. by rewrite Hp. }
  destruct H2 as (Haddr & l & Hl & H2). rewrite (load_mem _ _ _ _ _ _ Hl).
  rewrite Hn. destruct (inline_authorities_sim (v1alpha1.cip_Name v) l _ _ c _ _ H2) as (s' & -> & Hw & Hr). exists s'.
  unfold mbind, M_bind. destruct (inline_authorities (v1alpha1.cip_Name v) vs c) as [c1 [vs'|e|w]]; cbn [fst snd no_value] in *;
    (split_and!; [done|eapply writes_weaken; [done|lia..]|]); try done.
  intros v' [= <-]. split; [done|]. exists m1, im, (Some vs'). split_and!; cbn; try done.
  - keep Hw. exact H1.
  - rewrite Hp. split; [done|]. exists l. rewrite (proj2 Hw) by lia. split; [done|by apply Hr].
Qed.

(** C9: The reconciler, working on structures in memory, computes what the functions on
    values compute, and never touches the object that it was given.  From any store in
    which the address [cip] holds the policy [v], inlining the keys ends, leaves the
    cluster as [inlinePublicKeys v] does, and ends with the same error, crash or success;
    on success the address that it returns was not in use before and now holds the
    policy that [inlinePublicKeys v] returns.  Whatever the outcome, every cell that was
    in use before, and so the informer's copy of every policy, is unchanged. *)
Theorem inline_in_memory c s cip v :
  wf s → read_policy_at (st_cells s) cip = Some v →
  ∃ s' r, mem_inlinePublicKeys (Some cip) (c, s) = ((fst (inlinePublicKeys v c), s'), r)
    ∧ st_cells s ⊆ st_cells s'
    ∧ no_value r = no_value (snd (inlinePublicKeys v c))
    ∧ ∀ v', snd (inlinePublicKeys v c) = Ok v' → ∃ ret, r = Ok ret
        ∧ st_cells s !! ret = None ∧ read_policy_at (st_cells s') ret = Some v'.
Proof.
  intros Hwf Hv. destruct (DeepCopy_copies s (Some cip) (Some v) Hwf) as (s1 & y & E1 & X1 & W1 & R1).
  { cbn. unfold read_policy_at in Hv. apply bind_Some in Hv as (p & -> & Hp). cbn. by rewrite Hp. }
  destruct y as [ret|]; [|done]. destruct R1 as ([Hlo _] & p & Hp & R1).
  destruct (inline_spec_sim p _ _ c _ _ R1) as (s2 & E2 & Hw & Hr).
  unfold mem_inlinePublicKeys. rewrite (bind_run _ _ _ _ _ (in_mem_run _ _ _ _ _ E1)).
  rewrite (load_mem _ _ _ _ _ _ Hp). exists s2. unfold mbind at 1, M_bind at 1. rewrite E2.
  assert (st_cells s ⊆ st_cells s2) as Hsub.
  { apply ext_subseteq; [done|]. pose proof (proj1 X1). destruct X1 as [_ Hag], Hw as [HN HA].
    split; [lia|]. intros a Ha. rewrite HA by lia. by apply Hag. }
  destruct (inlinePublicKeys v c) as [c1 [v1|e|w]]; cbn [fst snd no_value] in *;
    (eexists; split_and!; [done..|]); try done.
  intros v' [= <-]. exists ret. split_and!; [done|by apply Hwf|]. unfold read_policy_at.
  rewrite (proj2 Hw) by lia. rewrite Hp. cbn. by eapply rep_read, Hr.
Qed.

End inlining.

(** ** A policy in memory

    At 4 the policy of [toy_secret_policy], with what it points to below. *)
Definition toy_store : Store := mkStore
  (list_to_map [(0, cSecretReference "policy-key"); (1, cKeyRef (obj.mkKeyRef (Some 0) "" ""));
    (2, cAuthorities [obj.mkAuthority (Some 1) None None None]);
    (3, cImages [v1alpha1.mkImagePattern "repo*" ""]);
    (4, cPolicy (obj.mkCIP "policy" (obj.mkSpec (Some 3) (Some 2))))]) 5.

Lemma toy_store_wf : wf toy_store.
Proof. intros a Ha. cbn in *. rewrite !lookup_insert_ne by lia. apply lookup_empty. Qed.

Lemma inline_in_memory_witness :
  ∃ s' r, mem_inlinePublicKeys (X := toy) (KX := toy_Keys) (R := toy_Registry) (K := toy_Kube)
      (E := toy_Reconcile) (Some 4) (toy_cluster, toy_store)
    = ((mkCluster (cl_ConfigMap toy_cluster) (cl_Cached toy_cluster)
          [(mkTrackerRef "v1" "Secret" "cosign-system" "policy-key", "policy")], s'), r)
    ∧ read_policy_at (st_cells s') 4 = Some toy_secret_policy.
Proof.
  destruct (inline_in_memory (X := toy) (KX := toy_Keys) (R := toy_Registry) (K := toy_Kube)
    (E := toy_Reconcile) toy_cluster toy_store 4 toy_secret_policy) as (s' & r & Hrun & Hsub & _).
  - apply toy_store_wf.
  - reflexivity.
  - exists s', r. split; [exact Hrun|]. by apply (policy_at_mono _ _ Hsub).
Defined.
