(* ===== verification/Controller.v ===== *)
(** * The controller around the policy reconciler

    pkg/client/injection/reconciler/cosigned/v1alpha1/clusterimagepolicy:
    reconciler.go, state.go and controller.go, which run the reconciler of
    [Reconciler] on a policy that the work queue names, keep the finalizer on it,
    and record events.

    [CtlWorld] has the policies that the API server holds, the informer's cache of
    them, the changes that were not delivered to the cache yet, the cluster of
    [Reconciler], with the config map and the copy of it that its lister shows, and the
    recorded events.  [step] is a move of the cluster: a user or another controller
    changes a policy, a change is delivered, the lister of the config map shows another
    state of it, or a key is reconciled, with surroundings ([CtlEnv]) that may be others
    at each run.  The main theorem is an invariant of this system: a policy that is in
    force exists and has the finalizer, if the lister shows the entry of a policy
    whenever its deletion is reconciled; without that it is not one
    ([stale_lister_outlives]). *)
From stdpp Require Import sorting relations.
From S2P Require Import Prelude GoStd External Concrete OciSignature OciSignatures OciEntity.
From S2P Require Import OciRemote Tuf Tlog Ctl Verify Keys Policy Webhook Reconciler.

(** A ClusterImagePolicy with the metadata that the controller looks at. *)
Record Object := mkObject {
  o_Version : nat;                                 (* ResourceVersion *)
  o_Deleting : bool;                               (* DeletionTimestamp is set *)
  o_Finalizers : list string;
  o_Policy : v1alpha1.ClusterImagePolicy }.

Definition set_Finalizers (fs : list string) (o : Object) : Object :=
  mkObject (o_Version o) (o_Deleting o) fs (o_Policy o).

Inductive EventType := EventTypeNormal | EventTypeWarning.
Record RecordedEvent := mkRecordedEvent {
  re_Object : string; re_Type : EventType; re_Reason : string; re_Message : string }.

Record CtlWorld := mkCtlWorld {
  w_Api : gmap string Object;
  w_Cache : gmap string Object;
  w_Watch : list (string * option Object);         (* oldest first *)
  w_Next : nat;                                    (* the next resource version *)
  w_Cluster : Cluster;
  w_Events : list RecordedEvent }.

Class ControllerExt := {
  cache_SplitMetaNamespaceKey : string → res (string * string);
  IsLeaderFor : string → string → bool;
  lister_Fails : string → option error;            (* other than not found *)
  (* a patch that the server refuses, or that it applies without the answer arriving *)
  patch_Refused : Object → option error;
  patch_Lost : Object → option error;
  (* knative: the event in an error, whether the error is one, and the marked errors *)
  reconciler_EventAs : error → option (EventType * string);
  is_ReconcilerEvent : error → bool;
  controller_NewSkipKey : string → error;
  controller_IsSkipKey : error → bool;
  controller_IsRequeueKey : error → bool }.

(** sets.String: List is sorted. *)
Definition string_le (s t : string) : Prop := String.leb s t = true.
#[export] Instance string_le_dec s t : Decision (string_le s t).
Proof. unfold string_le. apply _. Defined.
Definition sets_List (s : gset string) : list string := merge_sort string_le (elements s).

Lemma sets_List_elem s x : x ∈ sets_List s ↔ x ∈ s.
Proof. unfold sets_List. by rewrite merge_sort_Permutation, elem_of_elements. Qed.

Section controller.
Context `{X : Ext, KX : KeyExt, R : Registry, J : !PolicyJson, K : !Kube, E : !ReconcileExt, CX : ControllerExt}.

(** ** The API server *)

Definition set_Api (api : gmap string Object) (name : string) (next : nat) (w : CtlWorld) : CtlWorld :=
  mkCtlWorld api (w_Cache w) (w_Watch w ++ [(name, api !! name)]) next (w_Cluster w) (w_Events w).

(** Store a new state of an object: it gets a new version, and it goes when it is
    being deleted and nothing holds it back. *)
Definition store (name : string) (o : Object) (w : CtlWorld) : CtlWorld :=
  let o := mkObject (w_Next w) (o_Deleting o) (o_Finalizers o) (o_Policy o) in
  set_Api (if o_Deleting o && bool_decide (o_Finalizers o = []) then delete name (w_Api w)
           else <[name := o]> (w_Api w)) name (S (w_Next w)) w.
(** The merge patch of the finalizers carries the version it was made for. *)
Definition patch_Finalizers (name : string) (fs : list string) (version : nat) : M CtlWorld Object :=
  λ w,
    match w_Api w !! name with
    | None => (w, Err (error_Kind kind_k8sNotFound "clusterimagepolicy not found"))
    | Some o =>
        match patch_Refused o with
        | Some e => (w, Err e)
        | None =>
            if negb (bool_decide (o_Version o = version))
            then (w, Err (error_New "the object has been modified"))
            else
              let o' := mkObject (w_Next w) (o_Deleting o) fs (o_Policy o) in
              (store name (set_Finalizers fs o) w,
               match patch_Lost o with Some e => Err e | None => Ok o' end)
        end
    end.

(** ** reconciler.go *)

Definition lister_Get (name : string) : M CtlWorld Object := reads (λ w,
  match lister_Fails name, w_Cache w !! name with
  | Some e, _ => Err e
  | None, Some o => Ok o
  | None, None => Err (error_Kind kind_k8sNotFound "clusterimagepolicy not found")
  end).

Definition Recorder_Event (name : string) (t : EventType) (reason msg : string) : M CtlWorld unit :=
  modify (λ w, mkCtlWorld (w_Api w) (w_Cache w) (w_Watch w) (w_Next w) (w_Cluster w)
                 (w_Events w ++ [mkRecordedEvent name t reason msg])).

Definition in_cluster {A} (m : M Cluster A) : M CtlWorld A := λ w,
  let '(c, r) := m (w_Cluster w) in
  (mkCtlWorld (w_Api w) (w_Cache w) (w_Watch w) (w_Next w) c (w_Events w), r).

Context (finalizerName : string).

Definition name_of (o : Object) : string := v1alpha1.cip_Name (o_Policy o).

(** What is patched, if anything, to give the existing finalizers the desired
    state of this one. *)
Definition finalizers_patch (existing desired : list string) : option (list string) :=
  if bool_decide (finalizerName ∈ desired) then
    if bool_decide (finalizerName ∈ existing) then None
    else Some (existing ++ [finalizerName])
  else
    if negb (bool_decide (finalizerName ∈ existing)) then None
    else Some (sets_List (list_to_set existing ∖ {[finalizerName]})).

Definition updateFinalizersFiltered (resource : Object) : M CtlWorld Object :=
  existing ← lister_Get (name_of resource);
  match finalizers_patch (o_Finalizers existing) (o_Finalizers resource) with
  | None => mret resource
  | Some finalizers =>
      let resourceName := name_of resource in
      updated ← M_try (patch_Finalizers resourceName finalizers (o_Version existing));
      match updated with
      | Ok updated =>
          Recorder_Event resourceName EventTypeNormal "FinalizerUpdate"
            ("Updated " +:+ quoted resourceName +:+ " finalizers");;
          mret updated
      | Err err =>
          Recorder_Event resourceName EventTypeWarning "FinalizerUpdateFailed"
            ("Failed to update finalizers for " +:+ quoted resourceName +:+ ": " +:+ Error err);;
          lift (Err err)
      | Panic why => lift (Panic why)
      end
  end.

(** The reconciler of [Reconciler] implements Finalizer. *)
Definition setFinalizerIfFinalizer (resource : Object) : M CtlWorld Object :=
  let finalizers := list_to_set (o_Finalizers resource) in
  let finalizers := if o_Deleting resource then finalizers else {[finalizerName]} ∪ finalizers in
  updateFinalizersFiltered (set_Finalizers (sets_List finalizers) resource).

(** [None] is a nil event. *)
Definition cleared (reconcileEvent : option error) : bool :=
  match reconcileEvent with
  | None => true
  | Some e => match reconciler_EventAs e with Some (EventTypeNormal, _) => true | _ => false end
  end.

Definition clearFinalizer (resource : Object) (reconcileEvent : option error) : M CtlWorld Object :=
  if negb (o_Deleting resource) then mret resource else
  let finalizers : gset string := list_to_set (o_Finalizers resource) in
  let finalizers := if cleared reconcileEvent then finalizers ∖ {[finalizerName]} else finalizers in
  updateFinalizersFiltered (set_Finalizers (sets_List finalizers) resource).

(** The call of the business logic: its error is the event. *)
Definition do_event (m : M Cluster unit) : M CtlWorld (option error) :=
  r ← M_try (in_cluster m);
  match r with
  | Ok _ => mret None
  | Err e => mret (Some e)
  | Panic why => lift (Panic why)
  end.

Definition report (resource : Object) (reconcileEvent : option error) : M CtlWorld unit :=
  match reconcileEvent with
  | None => mret ()
  | Some e =>
      match reconciler_EventAs e with
      | Some (t, reason) =>
          Recorder_Event (name_of resource) t reason (Error e);;
          if negb (is_ReconcilerEvent e) then lift (Err e) else mret ()
      | None =>
          (if controller_IsSkipKey e then mret ()
           else if controller_IsRequeueKey e then mret ()
           else Recorder_Event (name_of resource) EventTypeWarning "InternalError" (Error e));;
          lift (Err e)
      end
  end.

(** state.go; the reconciler of [Reconciler] is not a ReadOnlyInterface (isROI is
    false), so only a leader does work. *)
Record state := mkState {
  st_key : string; st_namespace : string; st_name : string; st_isLeader : bool }.

Definition newState (key : string) : res state :=
  '(namespace, name) ← map_err (λ _, error_New ("invalid resource key: " +:+ key))
                         (cache_SplitMetaNamespaceKey key);
  Ok (mkState key namespace name (IsLeaderFor namespace name)).

Definition isNotLeaderNorObserver (s : state) : bool := negb (st_isLeader s).

Inductive method := DoReconcileKind | DoFinalizeKind | DoUnknown.
Definition reconcileMethodFor (s : state) (o : Object) : method :=
  if negb (o_Deleting o) then if st_isLeader s then DoReconcileKind else DoUnknown
  else if st_isLeader s then DoFinalizeKind else DoUnknown.

(** Reconcile, for a resource of the lister. *)
Definition reconcile_resource (s : state) (resource : Object) : M CtlWorld unit :=
  match reconcileMethodFor s resource with
  | DoReconcileKind =>
      resource ← M_wrap "failed to set finalizers" (setFinalizerIfFinalizer resource);
      event ← do_event (ReconcileKind (o_Policy resource));
      report resource event
  | DoFinalizeKind =>
      event ← do_event (FinalizeKind (o_Policy resource));
      resource ← M_wrap "failed to clear finalizers" (clearFinalizer resource event);
      report resource event
  | DoUnknown => report resource None
  end.

Definition Reconcile (key : string) : M CtlWorld unit :=
  match newState key with
  | Ok s =>
      if isNotLeaderNorObserver s then lift (Err (controller_NewSkipKey key)) else
      original ← M_try (lister_Get (st_name s));
      match original with
      | Ok original => reconcile_resource s original
      | Err err => if apierrs_IsNotFound err then mret () else lift (Err err)
      | Panic why => lift (Panic why)
      end
  | Err _ => mret ()
  | Panic why => lift (Panic why)
  end.

(** ** The cluster as a transition system *)

Definition deliver (name : string) (s : option Object) (rest : list (string * option Object))
    (w : CtlWorld) : CtlWorld :=
  mkCtlWorld (w_Api w) (match s with Some o => <[name := o]> (w_Cache w) | None => delete name (w_Cache w) end)
    rest (w_Next w) (w_Cluster w) (w_Events w).

Definition initial (w : CtlWorld) : Prop :=
  w_Api w = ∅ ∧ w_Cache w = ∅ ∧ w_Watch w = [] ∧ in_force (w_Cluster w) = ∅.

(** *** The invariant *)

(** The states of a policy from the one that the cache shows to the current one. *)
Definition history (name : string) (w : CtlWorld) : list (option Object) :=
  w_Cache w !! name :: (snd <$> filter (λ p, fst p = name) (w_Watch w)).

Definition has_fin (s : option Object) : Prop := ∃ o, s = Some o ∧ finalizerName ∈ o_Finalizers o.
Definition live_fin (s : option Object) : Prop :=
  ∃ o, s = Some o ∧ finalizerName ∈ o_Finalizers o ∧ o_Deleting o = false.

(** Versions grow, and a policy that had the finalizer while it was not being
    deleted has kept it. *)
Definition later (s s' : option Object) : Prop :=
  (∀ o o', s = Some o → s' = Some o' → o_Version o < o_Version o') ∧ (live_fin s → has_fin s').

Record Inv (w : CtlWorld) : Prop := {
  inv_last name : last (history name w) = Some (w_Api w !! name);
  inv_sorted name : StronglySorted later (history name w);
  inv_object name o : Some o ∈ history name w → name_of o = name ∧ o_Version o < w_Next w;
  inv_entry name : is_Some (in_force (w_Cluster w) !! name) → has_fin (w_Api w !! name) }.

Lemma sorted_snoc {A} (Q : A → A → Prop) l x :
  StronglySorted Q l → (∀ y, y ∈ l → Q y x) → StronglySorted Q (l ++ [x]).
Proof.
  induction 1 as [|y l Hl IH Hy]; intros Hx; cbn; [repeat constructor|].
  constructor; [apply IH; set_solver|]. rewrite Forall_app. split; [done|]. constructor; [|done]. apply Hx. by left.
Qed.

Lemma sorted_last {A} (Q : A → A → Prop) l x y :
  StronglySorted Q l → last l = Some x → y ∈ l → y = x ∨ Q y x.
Proof.
  induction 1 as [|z l Hl IH Hz]; [done|]. intros Hlast Hy. destruct l as [|z' l].
  - injection Hlast as <-. apply list_elem_of_singleton in Hy. by left.
  - apply elem_of_cons in Hy as [->|Hy]; [|by apply IH]. right.
    rewrite Forall_forall in Hz. apply Hz. by apply last_Some_elem_of.
Qed.

(** A version is the current one only if the cache is up to date. *)
Lemma up_to_date w name o o' :
  Inv w → w_Cache w !! name = Some o → w_Api w !! name = Some o' → o_Version o = o_Version o' →
  history name w = [Some o] ∧ o' = o.
Proof.
  intros HI Hc Ha Hv. pose proof (inv_last w HI name) as Hl. pose proof (inv_sorted w HI name) as Hs.
  unfold history in *. rewrite Hc, Ha in *. destruct (snd <$> _) as [|s l] eqn:Ep.
  - by injection Hl as <-.
  - exfalso. apply StronglySorted_inv in Hs as [_ Hs]. rewrite Forall_forall in Hs.
    destruct (Hs (Some o')) as [Hlt _]; [by apply last_Some_elem_of|].
    specialize (Hlt o o' eq_refl eq_refl). lia.
Qed.

Lemma live_now w name s : Inv w → s ∈ history name w → live_fin s → has_fin (w_Api w !! name).
Proof.
  intros HI Hs Hl. destruct (sorted_last _ _ _ _ (inv_sorted w HI name) (inv_last w HI name) Hs) as [->|[_ H]].
  - destruct Hl as (o & -> & ? & _). by exists o.
  - by apply H.
Qed.

Lemma history_store n name o w :
  history n (store name o w)
  = history n w ++ (if decide (n = name) then [w_Api (store name o w) !! name] else []).
Proof.
  unfold history, store, set_Api. cbn [w_Cache w_Watch]. rewrite filter_app, fmap_app, <-app_comm_cons.
  f_equal. f_equal. unfold filter, list_filter. cbn. by repeat case_decide.
Qed.

(** *** What preserves it *)

Lemma Inv_store w name o :
  Inv w → name_of o = name →
  (∀ s, s ∈ history name w → live_fin s → has_fin (w_Api (store name o w) !! name)) →
  (is_Some (in_force (w_Cluster w) !! name) → has_fin (w_Api (store name o w) !! name)) →
  Inv (store name o w).
Proof.
  intros HI Hn Hlive Hentry.
  assert (∀ n, n ≠ name → w_Api (store name o w) !! n = w_Api w !! n) as Hne.
  { intros n Hnn. unfold store. cbn. case_match;
      [by rewrite lookup_delete_ne|by rewrite lookup_insert_ne]. }
  assert (∀ o', w_Api (store name o w) !! name = Some o' → name_of o' = name ∧ o_Version o' = w_Next w) as Hnew.
  { intros o'. unfold store. cbn. case_match;
      [by rewrite lookup_delete_eq|rewrite lookup_insert_eq; by intros [= <-]]. }
  split; intros n; [| |intros o'|]; try rewrite history_store; destruct (decide (n = name)) as [->|Hnn].
  - apply last_snoc.
  - rewrite app_nil_r, Hne by done. by apply inv_last.
  - apply sorted_snoc; [by apply inv_sorted|]. intros s Hs. split; [|by apply Hlive].
    intros o1 o2 -> Ho2. apply Hnew in Ho2 as [_ ->]. by eapply inv_object.
  - rewrite app_nil_r. by apply inv_sorted.
  - intros [Ho|Ho]%elem_of_app.
    + destruct (inv_object w HI name o' Ho). split; [done|]. cbn. lia.
    + apply list_elem_of_singleton in Ho. symmetry in Ho. apply Hnew in Ho as [? ->]. split; [done|]. cbn. lia.
  - rewrite app_nil_r. intros Ho. destruct (inv_object w HI n o' Ho). split; [done|]. cbn. lia.
  - exact Hentry.
  - rewrite Hne by done. apply (inv_entry w HI).
Qed.

(** A change that keeps the finalizer. *)
Lemma Inv_store_keep w name o :
  Inv w → name_of o = name →
  (has_fin (w_Api w !! name) → finalizerName ∈ o_Finalizers o) → Inv (store name o w).
Proof.
  intros HI Hn Hk.
  assert (has_fin (w_Api w !! name) → has_fin (w_Api (store name o w) !! name)) as Hfin.
  { intros Hf%Hk. unfold store. cbn. rewrite (bool_decide_false (_ = [])) by (intros Hnil; rewrite Hnil in Hf; by apply not_elem_of_nil in Hf).
    rewrite andb_false_r, lookup_insert_eq. by eexists. }
  apply Inv_store; [done..| |].
  - intros s Hs Hl. apply Hfin. by eapply live_now.
  - intros He. by apply Hfin, inv_entry.
Qed.

Lemma Inv_deliver w name s rest :
  w_Watch w = (name, s) :: rest → Inv w → Inv (deliver name s rest w).
Proof.
  intros Hw HI.
  assert (∀ n, n = name → history n w = w_Cache w !! n :: history n (deliver name s rest w)) as Heq.
  { intros n ->. unfold history. rewrite Hw. cbn. rewrite decide_True by done. cbn. f_equal. f_equal.
    destruct s; cbn; [by rewrite lookup_insert_eq|by rewrite lookup_delete_eq]. }
  assert (∀ n, n ≠ name → history n w = history n (deliver name s rest w)) as Hne.
  { intros n Hn. unfold history. rewrite Hw. cbn. rewrite decide_False by done. f_equal.
    destruct s; cbn; [by rewrite lookup_insert_ne|by rewrite lookup_delete_ne]. }
  assert (∀ n x, x ∈ history n (deliver name s rest w) → x ∈ history n w) as Hin.
  { intros n x Hx. destruct (decide (n = name)); [rewrite (Heq n) by done; by right|by rewrite (Hne n)]. }
  split; intros n.
  - pose proof (inv_last w HI n) as H. destruct (decide (n = name)); [|by rewrite <-Hne].
    by rewrite (Heq n) in H.
  - pose proof (inv_sorted w HI n) as H. destruct (decide (n = name)); [|by rewrite <-Hne].
    rewrite (Heq n) in H by done. by apply StronglySorted_inv in H as [H _].
  - intros o Ho. by apply (inv_object w HI), Hin.
  - apply (inv_entry w HI).
Qed.

Lemma Inv_initial w : initial w → Inv w.
Proof.
  intros (Ha & Hc & Hw & He).
  assert (∀ n, history n w = [None]) as Hh by (intros n; unfold history; by rewrite Hc, Hw).
  split; intros n; rewrite ?Hh, ?Ha, ?He; [done|by repeat constructor| |].
  - by intros o [=]%list_elem_of_singleton.
  - by intros [? [=]].
Qed.

(** The parts of the world but for the cluster and the events. *)
Definition same_api (w w' : CtlWorld) : Prop :=
  w_Api w' = w_Api w ∧ w_Cache w' = w_Cache w ∧ w_Watch w' = w_Watch w ∧ w_Next w' = w_Next w.

Lemma Inv_cluster w w' :
  same_api w w' → Inv w →
  (∀ n, is_Some (in_force (w_Cluster w') !! n) → has_fin (w_Api w !! n)) → Inv w'.
Proof.
  intros (Ha & Hc & Hw & Hn) HI He.
  assert (∀ n, history n w' = history n w) as Hh by (intros n; unfold history; by rewrite Hc, Hw).
  split; intros n; rewrite ?Hh, ?Ha, ?Hn; [apply (inv_last w HI)|apply (inv_sorted w HI)|apply (inv_object w HI)|apply He].
Qed.

(** *** Reconciling preserves it *)

(** Whatever the outcome, the invariant holds again, and a success gives [Q]. *)
Definition keeps {A} (P : CtlWorld → Prop) (m : M CtlWorld A) (Q : A → CtlWorld → Prop) : Prop :=
  ∀ w w' r, Inv w → P w → m w = (w', r) → Inv w' ∧ ∀ a, r = Ok a → Q a w'.

Lemma keeps_ret {A} P (a : A) (Q : A → CtlWorld → Prop) : (∀ w, P w → Q a w) → keeps P (mret a) Q.
Proof. intros HQ w w' r HI HP [= <- <-]. split; [done|]. intros b [= <-]. auto. Qed.
Lemma keeps_fail {A} P (r : res A) Q : is_ok r = false → keeps P (lift r) Q.
Proof. intros Hr w w' r' HI HP [= <- <-]. split; [done|]. by intros b ->. Qed.
Lemma keeps_bind {A B} P (m : M CtlWorld A) (f : A → M CtlWorld B) Q Q' :
  keeps P m Q → (∀ a, keeps (Q a) (f a) Q') → keeps P (m ≫= f) Q'.
Proof.
  intros Hm Hf w w' r HI HP. unfold mbind, M_bind. destruct (m w) as [w1 r1] eqn:Hw.
  destruct (Hm _ _ _ HI HP Hw) as [HI1 HQ]. destruct r1 as [a| |].
  - intros H. by eapply Hf; [|apply HQ|].
  - intros [= <- <-]. split; [done|]. by intros ? [=].
  - intros [= <- <-]. split; [done|]. by intros ? [=].
Qed.
Lemma keeps_wrap {A} P msg (m : M CtlWorld A) Q : keeps P m Q → keeps P (M_wrap msg m) Q.
Proof.
  intros Hm w w' r HI HP. unfold M_wrap. destruct (m w) as [w1 r1] eqn:Hw. intros [= <- <-].
  destruct (Hm _ _ _ HI HP Hw) as [HI1 HQ]. split; [done|]. intros a H. apply wrap_Ok in H. auto.
Qed.

Lemma keeps_event (P : CtlWorld → Prop) name t reason msg :
  keeps P (Recorder_Event name t reason msg) (λ _ _, True).
Proof.
  intros w w' r HI HP [= <- <-]. split; [|done].
  eapply Inv_cluster; [| |apply (inv_entry w HI)]; [|done]. done.
Qed.

Lemma keeps_report P o event : keeps P (report o event) (λ _ _, True).
Proof.
  unfold report. destruct event as [e|]; [|by apply keeps_ret].
  destruct (reconciler_EventAs e) as [[t reason]|].
  - eapply keeps_bind; [apply keeps_event|]. intros ?.
    destruct (negb _); [by apply keeps_fail|by apply keeps_ret].
  - eapply (keeps_bind _ _ _ (λ _ _, True)); [|intros ?; by apply keeps_fail].
    destruct (controller_IsSkipKey e); [by apply keeps_ret|].
    destruct (controller_IsRequeueKey e); [by apply keeps_ret|apply keeps_event].
Qed.

(** The outcomes of a patch: nothing, or the finalizers of the object that is both
    cached and current. *)
Lemma updateFinalizersFiltered_spec resource w w' r :
  Inv w → updateFinalizersFiltered resource w = (w', r) → let name := name_of resource in
  (same_api w w' ∧ w_Cluster w' = w_Cluster w ∧ ∀ a, r = Ok a → a = resource
     ∧ ∃ o, w_Cache w !! name = Some o ∧ finalizers_patch (o_Finalizers o) (o_Finalizers resource) = None)
  ∨ ∃ o fs, history name w = [Some o] ∧ w_Cache w !! name = Some o
     ∧ finalizers_patch (o_Finalizers o) (o_Finalizers resource) = Some fs
     ∧ same_api (store name (set_Finalizers fs o) w) w' ∧ w_Cluster w' = w_Cluster w
     ∧ ∀ a, r = Ok a → o_Policy a = o_Policy o.
Proof.
  intros HI. unfold updateFinalizersFiltered, lister_Get, reads. unfold mbind at 1, M_bind at 1.
  destruct (lister_Fails _); [intros [= <- <-]; by left|].
  destruct (w_Cache w !! name_of resource) as [o|] eqn:Hc; [|intros [= <- <-]; by left].
  destruct (finalizers_patch _ _) as [fs|] eqn:Hp.
  2: { intros [= <- <-]. left. split; [done|]. split; [done|]. intros a [= <-]. eauto. }
  unfold M_try, patch_Finalizers, mbind, M_bind.
  destruct (w_Api w !! name_of resource) as [o'|] eqn:Ha; [|intros [= <- <-]; by left].
  destruct (patch_Refused o'); [intros [= <- <-]; by left|].
  case_bool_decide as Hv; cbn; [|intros [= <- <-]; by left].
  destruct (up_to_date w _ o o' HI Hc Ha) as [Hh ->]; [done|].
  intros H. right. exists o, fs. split; [done|]. split; [done|]. split; [done|].
  destruct (patch_Lost o) as [e|]; injection H as <- <-; (split; [done|]; split; [done|]); naive_solver.
Qed.

Context `{L : !ReconcileLaws}.

(** An error of FinalizeKind is not a normal event in disguise. *)
Hypothesis finalize_errors : ∀ cip c c' e, FinalizeKind cip c = (c', Err e) → cleared (Some e) = false.

(** Only a reconciled policy comes into force. *)
Lemma run_dom ev c c' r n :
  run ev c = (c', r) → is_Some (in_force c' !! n) →
  is_Some (in_force c !! n) ∨ ∃ cip, ev = ev_Reconcile cip ∧ n = v1alpha1.cip_Name cip.
Proof.
  intros Hr [v Hv]. apply reconciler_refines_spec in Hr.
  destruct (controls_entries _ _ _ _ _ _ _ Hr Hv) as [?|?]; [left; by eexists|by right].
Qed.

(** The lister shows the entry of the policy, if the config map has one. *)
Definition shows_entry (name : string) (c : Cluster) : Prop :=
  is_Some (in_force c !! name) → is_Some (default ∅ (cl_Cached c) !! name).

Lemma FinalizeKind_Ok cip c c' :
  shows_entry (v1alpha1.cip_Name cip) c → FinalizeKind cip c = (c', Ok ()) →
  in_force c' !! v1alpha1.cip_Name cip = None.
Proof.
  intros Hs H. apply finalize_run in H as [_ H]. unfold in_force at 1. rewrite H.
  unfold shows_entry, in_force in Hs. unfold take_shown. destruct (cl_Cached c) as [a|]; cbn in Hs.
  - destruct (decide _) as [|Hn].
    + destruct (cl_ConfigMap c) as [cm|]; cbn; [|done]. unfold take_patched.
      destruct (decide _); [done|apply lookup_delete_eq].
    + apply eq_None_not_Some. auto.
  - apply eq_None_not_Some. intros [? [=]]%Hs.
Qed.

Lemma do_event_spec (m : M Cluster unit) w w' r :
  do_event m w = (w', r) → ∃ c r0, m (w_Cluster w) = (c, r0) ∧ same_api w w' ∧ w_Cluster w' = c
    ∧ ∀ ev, r = Ok ev → match r0 with Ok _ => ev = None | Err e => ev = Some e | Panic _ => False end.
Proof.
  unfold do_event, M_try, in_cluster, mbind, M_bind. destruct (m (w_Cluster w)) as [c r0].
  destruct r0 as [[]|e|x]; intros [= <- <-]; eexists _, _; (split; [done|]);
    (split; [done|]); (split; [done|]); naive_solver.
Qed.

Lemma keeps_ReconcileKind cip :
  keeps (λ w, has_fin (w_Api w !! v1alpha1.cip_Name cip)) (do_event (ReconcileKind cip)) (λ _ _, True).
Proof.
  intros w w' r HI Hf (c & r0 & Hm & Hs & Hc & _)%do_event_spec. split; [|done].
  eapply Inv_cluster; [done..|]. rewrite Hc. intros n Hn.
  destruct (run_dom (ev_Reconcile cip) _ _ _ _ Hm Hn) as [He|(? & [= <-] & ->)]; [by apply inv_entry|done].
Qed.

Lemma keeps_FinalizeKind o :
  keeps (λ w, w_Cache w !! name_of o = Some o ∧ shows_entry (name_of o) (w_Cluster w))
    (do_event (FinalizeKind (o_Policy o)))
    (λ ev w, w_Cache w !! name_of o = Some o
       ∧ (cleared ev = true → in_force (w_Cluster w) !! name_of o = None)).
Proof.
  intros w w' r HI [Hf Hse] (c & r0 & Hm & Hs & Hc & Hr)%do_event_spec. split.
  - eapply Inv_cluster; [done..|]. rewrite Hc. intros n Hn.
    destruct (run_dom (ev_Finalize (o_Policy o)) _ _ _ _ Hm Hn) as [He|(? & [=] & _)]. by apply inv_entry.
  - intros ev ->. specialize (Hr ev eq_refl). split; [by destruct Hs as (_ & -> & _)|].
    rewrite Hc. intros Hcl. destruct r0 as [[]|e|]; [|subst ev..|done].
    + by apply FinalizeKind_Ok in Hm.
    + by rewrite (finalize_errors _ _ _ _ Hm) in Hcl.
Qed.

Lemma finalizers_patch_set existing desired :
  finalizerName ∈ desired →
  match finalizers_patch existing desired with
  | Some fs => finalizerName ∈ fs
  | None => finalizerName ∈ existing
  end.
Proof.
  intros Hd. unfold finalizers_patch. rewrite bool_decide_true by done.
  case_bool_decide; [done|set_solver].
Qed.

Lemma keeps_setFinalizer o :
  keeps (λ w, w_Cache w !! name_of o = Some o ∧ o_Deleting o = false) (setFinalizerIfFinalizer o)
    (λ o' w, name_of o' = name_of o ∧ has_fin (w_Api w !! name_of o)).
Proof.
  intros w w' r HI [Hc Hd] H. unfold setFinalizerIfFinalizer in H. rewrite Hd in H.
  assert (Some o ∈ history (name_of o) w) as Hin by (unfold history; rewrite Hc; by left).
  apply updateFinalizersFiltered_spec in H; [|done]. cbn in H.
  match type of H with context [finalizers_patch _ (sets_List ?s)] =>
    change (name_of (set_Finalizers (sets_List s) o)) with (name_of o) in H;
    assert (finalizerName ∈ sets_List s) as Hs by (apply sets_List_elem; set_solver) end.
  destruct H as [(Hsame & Hcl & Hr)|(o1 & fs & Hh & Hc1 & Hp & Hsame & Hcl & Hr)].
  - split; [eapply Inv_cluster; [done..|]; rewrite Hcl; apply (inv_entry w HI)|].
    intros a Ha. destruct (Hr a Ha) as (-> & o1 & Hc1 & Hp). split; [done|].
    rewrite Hc in Hc1. injection Hc1 as <-. destruct Hsame as [-> _].
    eapply live_now; [done..|]. exists o. split; [done|]. split; [|done].
    pose proof (finalizers_patch_set (o_Finalizers o) _ Hs) as Hset. by rewrite Hp in Hset.
  - rewrite Hc in Hc1. injection Hc1 as <-.
    pose proof (finalizers_patch_set (o_Finalizers o) _ Hs) as Hset. rewrite Hp in Hset.
    assert (Inv (store (name_of o) (set_Finalizers fs o) w)) as HI1 by (by apply Inv_store_keep).
    split; [eapply Inv_cluster; [done..|]; rewrite Hcl; apply (inv_entry _ HI1)|].
    intros a Ha. split; [unfold name_of; by rewrite (Hr a Ha)|]. destruct Hsame as [-> _].
    unfold store. cbn. rewrite Hd. cbn. rewrite lookup_insert_eq. by eexists.
Qed.

Lemma finalizers_patch_same fs : finalizers_patch fs (sets_List (list_to_set fs)) = None.
Proof.
  unfold finalizers_patch.
  rewrite (bool_decide_ext _ (finalizerName ∈ fs)) by (rewrite sets_List_elem; set_solver).
  by case_bool_decide.
Qed.

Lemma keeps_clearFinalizer o event :
  keeps (λ w, w_Cache w !! name_of o = Some o
           ∧ (cleared event = true → in_force (w_Cluster w) !! name_of o = None))
    (clearFinalizer o event) (λ _ _, True).
Proof.
  intros w w' r HI [Hc Hcl]. unfold clearFinalizer.
  destruct (o_Deleting o) eqn:Hd; cbn; [|intros [= <- <-]; split; [done|]; done].
  intros H. split; [|done]. apply updateFinalizersFiltered_spec in H; [|done]. cbn in H.
  match type of H with context [finalizers_patch _ (sets_List ?s)] =>
    change (name_of (set_Finalizers (sets_List s) o)) with (name_of o) in H end.
  destruct H as [(Hsame & Hw & _)|(o1 & fs & Hh & Hc1 & Hp & Hsame & Hw & _)].
  - eapply Inv_cluster; [done..|]. rewrite Hw. apply (inv_entry w HI).
  - rewrite Hc in Hc1. injection Hc1 as <-.
    destruct (cleared event); [|by rewrite finalizers_patch_same in Hp].
    assert (Inv (store (name_of o) (set_Finalizers fs o) w)) as HI1.
    { apply Inv_store; [done..| |].
      - rewrite Hh. intros s ->%list_elem_of_singleton (? & [= <-] & _ & ?). congruence.
      - rewrite Hcl by done. by intros [? [=]]. }
    eapply Inv_cluster; [done..|]. rewrite Hw. apply (inv_entry _ HI1).
Qed.

Lemma keeps_resource st o :
  keeps (λ w, w_Cache w !! name_of o = Some o
           ∧ (o_Deleting o = true → shows_entry (name_of o) (w_Cluster w)))
    (reconcile_resource st o) (λ _ _, True).
Proof.
  unfold reconcile_resource, reconcileMethodFor.
  destruct (o_Deleting o) eqn:Hd, (st_isLeader st); cbn; try by apply keeps_ret.
  - eapply keeps_bind; [intros w w' r HI [Hc Hs]; by apply keeps_FinalizeKind; auto|]. intros ev.
    eapply keeps_bind; [apply keeps_wrap, keeps_clearFinalizer|]. intros o'. apply keeps_report.
  - eapply keeps_bind; [apply keeps_wrap|].
    { intros w w' r HI [Hc _]. by apply (keeps_setFinalizer o w w' r HI). }
    intros o'. eapply keeps_bind; [|intros ev; apply keeps_report].
    intros w w' r HI [Hn Hf]. apply keeps_ReconcileKind; [done|]. change (has_fin (w_Api w !! name_of o')).
    by rewrite Hn.
Qed.

(** A deletion is reconciled only when the lister shows the entry. *)
Definition deletion_shown (key : string) (w : CtlWorld) : Prop := ∀ ns name o,
  cache_SplitMetaNamespaceKey key = Ok (ns, name) → w_Cache w !! name = Some o → o_Deleting o = true →
  shows_entry name (w_Cluster w).

Lemma keeps_Reconcile key : keeps (deletion_shown key) (Reconcile key) (λ _ _, True).
Proof.
  unfold Reconcile. destruct (newState key) as [[k ns name leader]| |] eqn:Hst;
    [|by apply keeps_ret|by apply keeps_fail].
  assert (cache_SplitMetaNamespaceKey key = Ok (ns, name)) as Hk.
  { unfold newState in Hst. apply bind_Ok in Hst as ([ns' name'] & Hm & [= <- <- <- <-]).
    by apply map_err_Ok in Hm. }
  destruct (isNotLeaderNorObserver _); [by apply keeps_fail|]. cbn [st_name].
  intros w w' r HI Hds. unfold M_try, lister_Get, reads. unfold mbind, M_bind.
  destruct (lister_Fails name) as [e|]; [destruct (apierrs_IsNotFound e); by intros [= <- <-]|].
  destruct (w_Cache w !! name) as [o|] eqn:Hc; [|by intros [= <- <-]].
  apply keeps_resource; [done|].
  destruct (inv_object w HI name o) as [-> _]; [unfold history; rewrite Hc; by left|].
  split; [done|]. intros Hd. by eapply Hds.
Qed.

(** *** Reconciling a deletion *)

Lemma finalizers_patch_clear fs :
  match finalizers_patch fs (sets_List (list_to_set fs ∖ {[finalizerName]})) with
  | Some fs' => fs' = sets_List (list_to_set fs ∖ {[finalizerName]}) ∧ finalizerName ∈ fs
  | None => finalizerName ∉ fs
  end.
Proof.
  unfold finalizers_patch. rewrite bool_decide_false by (rewrite sets_List_elem; set_solver).
  case_bool_decide; cbn; done.
Qed.

(** Reconciling a policy that is being deleted, when the cache is current and nothing
    fails. *)
Lemma Reconcile_deleting key ns name o w c :
  cache_SplitMetaNamespaceKey key = Ok (ns, name) → IsLeaderFor ns name = true →
  lister_Fails name = None → patch_Refused o = None → patch_Lost o = None →
  name_of o = name → o_Deleting o = true →
  w_Cache w !! name = Some o → w_Api w !! name = Some o →
  FinalizeKind (o_Policy o) (w_Cluster w) = (c, Ok ()) →
  ∃ w', Reconcile key w = (w', Ok ()) ∧ w_Cluster w' = c
    ∧ w_Api w' !! name = (let fs := sets_List (list_to_set (o_Finalizers o) ∖ {[finalizerName]}) in
        if bool_decide (finalizerName ∈ o_Finalizers o)
        then if bool_decide (fs = []) then None else Some (mkObject (w_Next w) true fs (o_Policy o))
        else Some o).
Proof.
  intros Hk Hlead Hlist Hpr Hpl Hname Hd Hc Ha Hfin.
  unfold Reconcile, newState, isNotLeaderNorObserver, M_try, lister_Get, reads.
  rewrite Hk. cbn [map_err mbind res_bind st_isLeader st_name]. rewrite Hlead. cbn [negb]. unfold mbind at 1, M_bind at 1.
  rewrite Hlist, Hc. unfold reconcile_resource, reconcileMethodFor. rewrite Hd. cbn [negb st_isLeader].
  unfold do_event, M_try, in_cluster, M_wrap, clearFinalizer. unfold mbind, M_bind. rewrite Hfin, Hd. cbn [negb cleared mret M_ret].
  unfold updateFinalizersFiltered, lister_Get, reads. unfold mbind at 1, M_bind at 1. cbn [w_Cache].
  change (name_of (set_Finalizers _ o)) with (name_of o). rewrite Hname, Hlist, Hc. cbn [o_Finalizers set_Finalizers].
  pose proof (finalizers_patch_clear (o_Finalizers o)) as Hp.
  destruct (finalizers_patch _ _) as [fs|]; [destruct Hp as [-> Hp]|].
  - unfold M_try, patch_Finalizers, mbind, M_bind. cbn [w_Api]. rewrite Ha, Hpr, Hpl. rewrite !bool_decide_true by done.
    cbn. rewrite Hd. eexists. split; [done|]. split; [done|]. cbn.
    case_bool_decide; [apply lookup_delete_eq|apply lookup_insert_eq].
  - eexists. split; [done|]. split; [done|]. by rewrite bool_decide_false.
Qed.

End controller.

(** ** The cluster as a transition system *)

(** What surrounds a run of the controller. *)
Record CtlEnv `{X : Ext, R : Registry} := mkCtlEnv {
  ce_Env : Env; ce_Ext : ControllerExt;
  ce_errors cip c c' e :
    FinalizeKind (E := env_Reconcile ce_Env) cip c = (c', Err e) → cleared (CX := ce_Ext) (Some e) = false }.
Arguments mkCtlEnv {X G R}.

Section system.
Context `{X : Ext, R : Registry, J : !PolicyJson} (finalizerName : string).

Definition show (cm : option (gmap string string)) (w : CtlWorld) : CtlWorld :=
  mkCtlWorld (w_Api w) (w_Cache w) (w_Watch w) (w_Next w) (set_Cached cm (w_Cluster w)) (w_Events w).
Definition Reconcile_in (env : CtlEnv) (key : string) : M CtlWorld unit :=
  Reconcile (KX := env_Keys (ce_Env env)) (K := env_Kube (ce_Env env)) (E := env_Reconcile (ce_Env env))
    (CX := ce_Ext env) finalizerName key.

(** Users and other controllers create, change and delete policies, and leave the
    finalizer of this controller alone.  With [seen], deletions are reconciled only
    when the lister of the config map shows the entry of the policy. *)
Inductive step (seen : bool) (w : CtlWorld) : CtlWorld → Prop :=
  | step_create name fs cip :
      w_Api w !! name = None → v1alpha1.cip_Name cip = name → finalizerName ∉ fs →
      step seen w (store name (mkObject 0 false fs cip) w)
  | step_update name o fs cip :
      w_Api w !! name = Some o → v1alpha1.cip_Name cip = name →
      (finalizerName ∈ fs ↔ finalizerName ∈ o_Finalizers o) →
      step seen w (store name (mkObject 0 (o_Deleting o) fs cip) w)
  | step_delete name o :
      w_Api w !! name = Some o →
      step seen w (store name (mkObject 0 true (o_Finalizers o) (o_Policy o)) w)
  | step_deliver name s rest :
      w_Watch w = (name, s) :: rest → step seen w (deliver name s rest w)
  | step_show cm : step seen w (show cm w)
  | step_reconcile env key w' r :
      (seen = true → deletion_shown (CX := ce_Ext env) key w) →
      Reconcile_in env key w = (w', r) → step seen w w'.

Lemma step_Inv w w' : step true w w' → Inv finalizerName w → Inv finalizerName w'.
Proof.
  destruct 1 as [name fs cip Ha Hn Hfs|name o fs cip Ha Hn Hfs|name o Ha|name s rest Hw|cm|env key w' r Hs Hr];
    intros HI.
  - apply Inv_store_keep; [done..|]. rewrite Ha. by intros (? & [=] & _).
  - apply Inv_store_keep; [done..|]. rewrite Ha. intros (? & [= <-] & Hf). by apply Hfs.
  - apply Inv_store_keep; [done|..].
    + apply (inv_object _ w HI name o). apply last_Some_elem_of. rewrite (inv_last _ w HI). by rewrite Ha.
    + rewrite Ha. by intros (? & [= <-] & Hf).
  - by apply Inv_deliver.
  - eapply (Inv_cluster _ w); [done|done|]. apply (inv_entry _ w HI).
  - eapply (keeps_Reconcile (L := env_Laws (ce_Env env)) finalizerName (ce_errors env) key); [done| |exact Hr].
    by apply Hs.
Qed.


(** *** A deletion completes *)

(** Every change is delivered in the end. *)
Lemma drain w : ∃ w', rtc (step true) w w' ∧ w_Watch w' = [] ∧ w_Api w' = w_Api w ∧ w_Cluster w' = w_Cluster w.
Proof.
  remember (w_Watch w) as l eqn:Hl. revert w Hl. induction l as [|[n s] l IH]; intros w Hl.
  - by exists w.
  - destruct (IH (deliver n s l w)) as (w' & Hr & Hw & Ha & Hc); [done|].
    exists w'. split; [|done]. eapply rtc_l; [|exact Hr]. by apply step_deliver.
Qed.

(** C11: a policy that is being deleted can always be withdrawn: from every reachable
    state in which the policy is marked as deleted, if the leader's calls succeed, the
    cluster can go on, by delivering the pending changes, of the config map too, and
    reconciling the policy once, to a state in which its entry is no longer in force and
    its object has lost the finalizer, or is gone if nothing else holds it. *)
Theorem deletion_completes w0 w env key ns name o c :
  let EX := ce_Ext env in
  initial w0 → rtc (step true) w0 w → w_Api w !! name = Some o → o_Deleting o = true →
  cache_SplitMetaNamespaceKey key = Ok (ns, name) → IsLeaderFor ns name = true →
  lister_Fails name = None → patch_Refused o = None → patch_Lost o = None →
  FinalizeKind (E := env_Reconcile (ce_Env env)) (o_Policy o)
    (set_Cached (cl_ConfigMap (w_Cluster w)) (w_Cluster w)) = (c, Ok ()) →
  ∃ w', rtc (step true) w w' ∧ in_force (w_Cluster w') !! name = None
    ∧ (∀ o', w_Api w' !! name = Some o' → finalizerName ∉ o_Finalizers o')
    ∧ (o_Finalizers o = [finalizerName] → w_Api w' !! name = None).
Proof.
  intros EX H0 Hr Ha Hd Hk Hlead Hlist Hpr Hpl Hfin. apply (Inv_initial finalizerName) in H0.
  assert (∀ v v', rtc (step true) v v' → Inv finalizerName v → Inv finalizerName v') as Hinv.
  { induction 1; eauto using step_Inv. }
  destruct (drain w) as (w1 & Hr1 & Hw1 & Ha1 & Hc1).
  set (w2 := show (cl_ConfigMap (w_Cluster w)) w1).
  assert (Hr2 : rtc (step true) w w2) by (eapply rtc_r; [exact Hr1|apply step_show]).
  assert (Inv finalizerName w2) as HI2 by eauto. pose proof (inv_last _ w2 HI2 name) as Hl. unfold history in Hl.
  cbn [w2 show w_Watch w_Cache w_Api] in Hl. rewrite Hw1, Ha1, Ha in Hl. cbn in Hl. injection Hl as Hl.
  destruct (inv_object _ w2 HI2 name o) as [Hname _]; [unfold history; cbn; rewrite Hl; by left|].
  assert (Hshow : shows_entry name (w_Cluster w2)).
  { unfold shows_entry, in_force. cbn. by rewrite Hc1. }
  destruct (Reconcile_deleting (KX := env_Keys (ce_Env env)) (E := env_Reconcile (ce_Env env))
    (L := env_Laws (ce_Env env)) (CX := EX) finalizerName (ce_errors env) key ns name o w2 c Hk Hlead Hlist Hpr Hpl Hname Hd)
    as (w' & Hrec & Hc & Hapi); [exact Hl|by cbn; rewrite Ha1|by cbn; rewrite Hc1|].
  exists w'. split.
  { eapply rtc_r; [exact Hr2|]. eapply (step_reconcile true w2 env key); [|exact Hrec].
    intros _ ns' name' o' Hk' Ho' _. change (cache_SplitMetaNamespaceKey (ControllerExt := EX) key = Ok (ns', name')) in Hk'.
    rewrite Hk in Hk'. by injection Hk' as <- <-. }
  split.
  { rewrite Hc, <-Hname. eapply (FinalizeKind_Ok (L := env_Laws (ce_Env env))); [|exact Hfin].
    rewrite <- Hc1 at 2. change (name_of o) with (v1alpha1.cip_Name (o_Policy o)) in Hname. rewrite Hname. exact Hshow. }
  rewrite Hapi. split.
  - intros o'. cbn zeta. case_bool_decide; [case_bool_decide; [done|]|by intros [= <-]].
    intros [= <-]. cbn. rewrite sets_List_elem. set_solver.
  - intros Hfs. cbn zeta. rewrite Hfs, (bool_decide_true (finalizerName ∈ _)) by (by left).
    assert (list_to_set [finalizerName] ∖ {[finalizerName]} = (∅ : gset string)) as Hset by set_solver.
    unfold sets_List. by rewrite Hset, elements_empty.
Qed.

End system.

(** ** Witnesses *)

(** A cluster whose calls succeed and whose only replica leads. *)
Definition toy_Controller : ControllerExt := {|
  cache_SplitMetaNamespaceKey key := Ok ("", key);
  IsLeaderFor _ _ := true;
  lister_Fails _ := None;
  patch_Refused _ := None;
  patch_Lost _ := None;
  reconciler_EventAs _ := None;
  is_ReconcilerEvent _ := false;
  controller_NewSkipKey key := error_New ("skip " +:+ key);
  controller_IsSkipKey _ := false;
  controller_IsRequeueKey _ := false |}.

Section witnesses.
#[local] Existing Instances toy toy_Keys toy_Ggcr toy_Registry toy_Json toy_Kube toy_Reconcile toy_Controller.

Definition toy_Fin : string := "cosigned.sigstore.dev".
Definition toy_CtlEnv : CtlEnv := mkCtlEnv toy_Env toy_Controller (λ _ _ _ _ _, eq_refl).

(** A user creates the policy, the change is delivered, the policy is reconciled,
    the config map is delivered to its lister, and the user deletes the policy. *)
Definition toy_start : CtlWorld := mkCtlWorld ∅ ∅ [] 0 (mkCluster None None []) [].
Definition toy_created : CtlWorld := store "policy" (mkObject 0 false [] toy_secret_policy) toy_start.
Definition toy_delivered : CtlWorld :=
  deliver "policy" (Some (mkObject 0 false [] toy_secret_policy)) [] toy_created.
Definition toy_reconciled : CtlWorld := fst (Reconcile_in toy_Fin toy_CtlEnv "policy" toy_delivered).
Definition toy_deleted : CtlWorld :=
  store "policy" (mkObject 0 true [toy_Fin] toy_secret_policy) toy_reconciled.

Lemma toy_run seen : rtc (step toy_Fin seen) toy_start toy_reconciled.
Proof.
  eapply rtc_l; [apply (step_create _ _ _ "policy" [] toy_secret_policy); [done|done|apply not_elem_of_nil]|].
  eapply rtc_l; [by apply (step_deliver _ _ _ "policy" (Some (mkObject 0 false [] toy_secret_policy)) [])|].
  apply rtc_once. eapply (step_reconcile _ _ _ toy_CtlEnv "policy"); [|apply surjective_pairing].
  intros _ ns name o [= <- <-] Ho Hd. vm_compute in Ho. injection Ho as <-. done.
Qed.
Lemma toy_delete seen : rtc (step toy_Fin seen) toy_start toy_deleted.
Proof.
  eapply rtc_r; [apply toy_run|].
  apply (step_delete _ _ _ "policy" (mkObject 1 false [toy_Fin] toy_secret_policy)). vm_compute. reflexivity.
Qed.


Lemma deletion_completes_witness :
  ∃ w', rtc (step toy_Fin true) toy_deleted w' ∧ in_force (w_Cluster w') !! "policy" = None
    ∧ w_Api w' !! "policy" = None.
Proof.
  edestruct (deletion_completes toy_Fin toy_start toy_deleted toy_CtlEnv "policy" "" "policy")
    as (w' & Hr & He & _ & Ha).
  - done.
  - apply toy_delete.
  - vm_compute. reflexivity.
  - reflexivity.
  - reflexivity.
  - reflexivity.
  - reflexivity.
  - reflexivity.
  - reflexivity.
  - vm_compute. reflexivity.
  - exists w'. split; [exact Hr|]. split; [exact He|]. apply Ha. reflexivity.
Defined.

(** The lister of the config map has not seen the map that the first reconciliation
    made when the deletion is reconciled: nothing is withdrawn, the finalizer is
    removed, the object goes, and its entry stays in force. *)
Definition toy_pending1 : CtlWorld := deliver "policy" (Some (mkObject 1 false [toy_Fin] toy_secret_policy))
  [("policy", w_Api toy_deleted !! "policy")] toy_deleted.
Definition toy_pending : CtlWorld := deliver "policy" (w_Api toy_deleted !! "policy") [] toy_pending1.
Theorem stale_lister_outlives :
  ∃ w, rtc (step toy_Fin false) toy_start w ∧ w_Api w !! "policy" = None
    ∧ in_force (w_Cluster w) !! "policy" = Some "{}".
Proof.
  exists (fst (Reconcile_in toy_Fin toy_CtlEnv "policy" toy_pending)). split_and!.
  - etrans; [apply toy_delete|]. apply (rtc_l _ _ toy_pending1); [|apply (rtc_l _ _ toy_pending); [|apply rtc_once]].
    + apply (step_deliver _ _ toy_deleted). vm_compute. reflexivity.
    + by apply (step_deliver _ _ toy_pending1).
    + refine (step_reconcile toy_Fin false toy_pending toy_CtlEnv "policy" _ _ _ (surjective_pairing _)).
      intros Hf. discriminate Hf.
  - vm_compute. reflexivity.
  - vm_compute. reflexivity.
Qed.

End witnesses.
