(* ===== verification/Clients.v ===== *)
(** * The generated clients of the policy API

    pkg/client/clientset/versioned (the typed client, which sends REST requests,
    and the fake one of the tests) and pkg/client/injection/client (a client with
    the same interface on top of the dynamic client).

    An operation is in the monad [M] over [ClientWorld]: the API server and the
    object that the caller's pointer addresses, which one of the clients changes.
    The REST and dynamic clients of client-go, its codecs and encoding/json are
    parameters ([ClientExt]); what is used of them is [ClientLaws].  The main
    theorem is that the dynamic client can stand for the typed one. *)
From Stdlib Require Import QArith.
From S2P Require Import Prelude GoStd External Policy.
#[local] Open Scope Z_scope.

(** ** Groups, versions and kinds *)

Record GroupVersion := mkGV { gv_Group : string; gv_Version : string }.
Record GroupVersionKind := mkGVK { gvk_Group : string; gvk_Version : string; gvk_Kind : string }.
Record GroupVersionResource := mkGVR {
  gvr_Group : string; gvr_Version : string; gvr_Resource : string }.

#[export] Instance GroupVersionResource_eq_dec : EqDecision GroupVersionResource.
Proof. solve_decision. Defined.
#[export] Instance GroupVersionKind_eq_dec : EqDecision GroupVersionKind.
Proof. solve_decision. Defined.
#[export] Instance GroupVersion_eq_dec : EqDecision GroupVersion.
Proof. solve_decision. Defined.

Definition GroupName : string := "cosigned.sigstore.dev".
Definition SchemeGroupVersion : GroupVersion := mkGV GroupName "v1alpha1".
Definition WithKind (gv : GroupVersion) (kind : string) : GroupVersionKind :=
  mkGVK (gv_Group gv) (gv_Version gv) kind.
Definition WithResource (gv : GroupVersion) (resource : string) : GroupVersionResource :=
  mkGVR (gv_Group gv) (gv_Version gv) resource.

(** A group and a resource of it, as [Resource] gives them. *)
Definition Resource (resource : string) : string * string :=
  (gvr_Group (WithResource SchemeGroupVersion resource), resource).

(** ** Policies as the API has them *)

Record Policy := mkPolicy {
  p_APIVersion : string; p_Kind : string;              (* TypeMeta *)
  p_Namespace : string; p_ResourceVersion : string; p_Labels : gmap string string;
  p_CIP : v1alpha1.ClusterImagePolicy }.
Record PolicyList := mkPolicyList { pl_ResourceVersion : string; pl_Items : list Policy }.

Definition p_Name (p : Policy) : string := v1alpha1.cip_Name (p_CIP p).

Definition set_TypeMeta (apiVersion kind : string) (p : Policy) : Policy :=
  mkPolicy apiVersion kind (p_Namespace p) (p_ResourceVersion p) (p_Labels p) (p_CIP p).
(** [SetGroupVersionKind]: a kind with a group is written as group and version. *)
Definition SetGroupVersionKind (k : GroupVersionKind) (p : Policy) : Policy :=
  set_TypeMeta (gvk_Group k +:+ "/" +:+ gvk_Version k) (gvk_Kind k) p.
Definition clear_TypeMeta : Policy → Policy := set_TypeMeta "" "".

(** ** Options and requests *)

Record GetOptions := mkGetOptions { go_ResourceVersion : string }.
Record ListOptions := mkListOptions {
  lo_LabelSelector : string; lo_FieldSelector : string; lo_Watch : bool;
  lo_ResourceVersion : string; lo_TimeoutSeconds : option Z; lo_Limit : Z; lo_Continue : string }.
Definition no_ListOptions : ListOptions := mkListOptions "" "" false "" None 0 "".
Definition set_Watch (o : ListOptions) : ListOptions :=
  mkListOptions (lo_LabelSelector o) (lo_FieldSelector o) true (lo_ResourceVersion o)
    (lo_TimeoutSeconds o) (lo_Limit o) (lo_Continue o).
Definition set_LabelSelector (s : string) (o : ListOptions) : ListOptions :=
  mkListOptions s (lo_FieldSelector o) (lo_Watch o) (lo_ResourceVersion o)
    (lo_TimeoutSeconds o) (lo_Limit o) (lo_Continue o).

Inductive Verb := GET | POST | PUT | DELETE | PATCH (pt : string).

(** rest.Config, its fields that the clients read or set; a rate is a rational. *)
Record Config := mkConfig {
  rc_Host : string; rc_APIPath : string; rc_GroupVersion : option GroupVersion;
  rc_UserAgent : string; rc_Burst : Z; rc_QPS : Q; rc_RateLimiter : option (Q * Z) }.

(** What is only handed on to client-go: options of the other calls. *)
Class ClientTypes := {
  CreateOptions : Type; UpdateOptions : Type; DeleteOptions : Type; PatchOptions : Type }.

Section requests.
Context `{T : ClientTypes}.

Inductive Params :=
  | params_None
  | params_Get (o : GetOptions)
  | params_List (o : ListOptions)
  | params_Create (o : CreateOptions)
  | params_Update (o : UpdateOptions)
  | params_Patch (o : PatchOptions).

Inductive Body :=
  | body_None
  | body_Object (p : Policy)
  | body_Bytes (b : bytes)
  | body_Delete (o : DeleteOptions).

(** A request as the calls of the builder describe it; a timeout of zero is none. *)
Record Request := mkRequest {
  rq_Verb : Verb; rq_Resource : string; rq_Name : option string; rq_SubResource : list string;
  rq_Params : Params; rq_Timeout : Z; rq_Body : Body }.
End requests.

Class ClientExt := {
  client_types :: ClientTypes;
  Server : Type;
  HTTPClient : Type; RESTClient : Type; DynamicClient : Type; Unstructured : Type;
  UnstructuredList : Type; WatchInterface : Type;
  (* rest *)
  rest_HTTPClientFor : Config → res HTTPClient;
  rest_RESTClientForConfigAndClient : Config → HTTPClient → res RESTClient;
  rest_DefaultKubernetesUserAgent : string;
  discovery_NewDiscoveryClientForConfigAndClient : Config → HTTPClient → res RESTClient;
  rest_Do : RESTClient → Request → M Server bytes;
  rest_Watch : RESTClient → Request → M Server WatchInterface;
  codec_Into : bytes → res Policy;
  codec_IntoList : bytes → res PolicyList;
  (* encoding/json, on typed objects and on unstructured ones *)
  json_Marshal_Policy : Policy → res bytes;
  json_Unmarshal_Policy : bytes → res Policy;
  json_Unmarshal_PolicyList : bytes → res PolicyList;
  json_Marshal_U : Unstructured → res bytes;
  json_Unmarshal_U : bytes → res Unstructured;
  json_Marshal_UList : UnstructuredList → res bytes;
  json_Unmarshal_UList : bytes → res UnstructuredList;
  (* dynamic.ResourceInterface *)
  dyn_Create : DynamicClient → GroupVersionResource → Unstructured → CreateOptions → M Server Unstructured;
  dyn_Update : DynamicClient → GroupVersionResource → Unstructured → UpdateOptions → M Server Unstructured;
  dyn_UpdateStatus : DynamicClient → GroupVersionResource → Unstructured → UpdateOptions →
    M Server Unstructured;
  dyn_Delete : DynamicClient → GroupVersionResource → string → DeleteOptions → M Server unit;
  dyn_DeleteCollection : DynamicClient → GroupVersionResource → DeleteOptions → ListOptions →
    M Server unit;
  dyn_Get : DynamicClient → GroupVersionResource → string → GetOptions → M Server Unstructured;
  dyn_List : DynamicClient → GroupVersionResource → ListOptions → M Server UnstructuredList;
  dyn_Patch : DynamicClient → GroupVersionResource → string → string → bytes → PatchOptions →
    list string → M Server Unstructured }.

Section clients.
Context `{CX : ClientExt}.

(** The server and the object behind the caller's pointer. *)
Record ClientWorld := mkClientWorld { cw_Server : Server; cw_In : Policy }.

Definition on_server {A} (m : M Server A) : M ClientWorld A := λ w,
  let '(s, r) := m (cw_Server w) in (mkClientWorld s (cw_In w), r).
Definition in_ : M ClientWorld Policy := gets cw_In.
Definition update_in (f : Policy → Policy) : M ClientWorld unit :=
  modify (λ w, mkClientWorld (cw_Server w) (f (cw_In w))).

(** ClusterImagePolicyInterface.  [Create], [Update] take the caller's object. *)
Record ClusterImagePolicyInterface := mkInterface {
  Create : CreateOptions → M ClientWorld Policy;
  Update : UpdateOptions → M ClientWorld Policy;
  Delete : string → DeleteOptions → M ClientWorld unit;
  DeleteCollection : DeleteOptions → ListOptions → M ClientWorld unit;
  Get : string → GetOptions → M ClientWorld Policy;
  List : ListOptions → M ClientWorld PolicyList;
  Watch : ListOptions → M ClientWorld WatchInterface;
  Patch : string → string → bytes → PatchOptions → list string → M ClientWorld Policy }.

(** ** The typed client *)
Section typed.
Context (c : RESTClient).

Definition int64 (z : Z) : Z := (z + 2 ^ 63) mod 2 ^ 64 - 2 ^ 63.
Definition time_Second : Z := 1000000000.

(** The option in nanoseconds, a product of two int64, and zero without it. *)
Definition timeout_of (o : ListOptions) : Z :=
  match lo_TimeoutSeconds o with Some s => int64 (int64 s * time_Second) | None => 0 end.

Definition into (rq : Request) : M ClientWorld Policy :=
  b ← on_server (rest_Do c rq); lift (codec_Into b).
Definition into_list (rq : Request) : M ClientWorld PolicyList :=
  b ← on_server (rest_Do c rq); lift (codec_IntoList b).
Definition do_error (rq : Request) : M ClientWorld unit :=
  _ ← on_server (rest_Do c rq); mret ().

Definition typed_Get (name : string) (options : GetOptions) : M ClientWorld Policy :=
  into (mkRequest GET "clusterimagepolicies" (Some name) [] (params_Get options) 0 body_None).
Definition typed_List (opts : ListOptions) : M ClientWorld PolicyList :=
  into_list (mkRequest GET "clusterimagepolicies" None [] (params_List opts) (timeout_of opts) body_None).
Definition typed_Watch (opts : ListOptions) : M ClientWorld WatchInterface :=
  on_server (rest_Watch c
    (mkRequest GET "clusterimagepolicies" None [] (params_List (set_Watch opts)) (timeout_of opts) body_None)).
Definition typed_Create (opts : CreateOptions) : M ClientWorld Policy :=
  clusterImagePolicy ← in_;
  into (mkRequest POST "clusterimagepolicies" None [] (params_Create opts) 0
          (body_Object clusterImagePolicy)).
Definition typed_Update (opts : UpdateOptions) : M ClientWorld Policy :=
  clusterImagePolicy ← in_;
  into (mkRequest PUT "clusterimagepolicies" (Some (p_Name clusterImagePolicy)) [] (params_Update opts) 0
          (body_Object clusterImagePolicy)).
Definition typed_Delete (name : string) (opts : DeleteOptions) : M ClientWorld unit :=
  do_error (mkRequest DELETE "clusterimagepolicies" (Some name) [] params_None 0 (body_Delete opts)).
Definition typed_DeleteCollection (opts : DeleteOptions) (listOpts : ListOptions) : M ClientWorld unit :=
  do_error (mkRequest DELETE "clusterimagepolicies" None [] (params_List listOpts) (timeout_of listOpts)
              (body_Delete opts)).
Definition typed_Patch (name pt : string) (data : bytes) (opts : PatchOptions) (subresources : list string) :
    M ClientWorld Policy :=
  into (mkRequest (PATCH pt) "clusterimagepolicies" (Some name) subresources (params_Patch opts) 0
          (body_Bytes data)).

Definition clusterImagePolicies : ClusterImagePolicyInterface :=
  mkInterface typed_Create typed_Update typed_Delete typed_DeleteCollection typed_Get typed_List
    typed_Watch typed_Patch.
End typed.

(** ** The client on top of the dynamic one *)
Section wrapped.
Context (dyn : DynamicClient).

Definition policy_GVK : GroupVersionKind := mkGVK "cosigned.sigstore.dev" "v1alpha1" "ClusterImagePolicy".
Definition policy_GVR : GroupVersionResource :=
  mkGVR "cosigned.sigstore.dev" "v1alpha1" "clusterimagepolicies".

(** [convert]: through JSON, here with its two ends. *)
Definition convert {A B} (marshal : A → res bytes) (unmarshal : bytes → res B) (from : A) : res B :=
  bs ← map_err (λ e, error_Wrapped ("Marshal() = " +:+ Error e) e) (marshal from);
  map_err (λ e, error_Wrapped ("Unmarshal() = " +:+ Error e) e) (unmarshal bs).
Definition to_unstructured : Policy → res Unstructured := convert json_Marshal_Policy json_Unmarshal_U.
Definition from_unstructured : Unstructured → res Policy := convert json_Marshal_U json_Unmarshal_Policy.

(** The common body of Create, Update and UpdateStatus. *)
Definition wrap_write (send : Unstructured → M Server Unstructured) : M ClientWorld Policy :=
  _ ← update_in (SetGroupVersionKind policy_GVK);
  p ← in_;
  uo ← lift (to_unstructured p);
  uo ← on_server (send uo);
  lift (from_unstructured uo).

Definition wrap_Create (opts : CreateOptions) : M ClientWorld Policy :=
  wrap_write (λ uo, dyn_Create dyn policy_GVR uo opts).
Definition wrap_Update (opts : UpdateOptions) : M ClientWorld Policy :=
  wrap_write (λ uo, dyn_Update dyn policy_GVR uo opts).
Definition wrap_UpdateStatus (opts : UpdateOptions) : M ClientWorld Policy :=
  wrap_write (λ uo, dyn_UpdateStatus dyn policy_GVR uo opts).
Definition wrap_Delete (name : string) (opts : DeleteOptions) : M ClientWorld unit :=
  on_server (dyn_Delete dyn policy_GVR name opts).
Definition wrap_DeleteCollection (opts : DeleteOptions) (listOpts : ListOptions) : M ClientWorld unit :=
  on_server (dyn_DeleteCollection dyn policy_GVR opts listOpts).
Definition wrap_Get (name : string) (opts : GetOptions) : M ClientWorld Policy :=
  uo ← on_server (dyn_Get dyn policy_GVR name opts); lift (from_unstructured uo).
Definition wrap_List (opts : ListOptions) : M ClientWorld PolicyList :=
  uo ← on_server (dyn_List dyn policy_GVR opts);
  lift (convert json_Marshal_UList json_Unmarshal_PolicyList uo).
(** The subresources are not passed on. *)
Definition wrap_Patch (name pt : string) (data : bytes) (opts : PatchOptions) (subresources : list string) :
    M ClientWorld Policy :=
  uo ← on_server (dyn_Patch dyn policy_GVR name pt data opts []); lift (from_unstructured uo).
Definition wrap_Watch (opts : ListOptions) : M ClientWorld WatchInterface :=
  lift (Err (error_New "NYI: Watch")).

Definition wrapped : ClusterImagePolicyInterface :=
  mkInterface wrap_Create wrap_Update wrap_Delete wrap_DeleteCollection wrap_Get wrap_List
    wrap_Watch wrap_Patch.
End wrapped.

(** ** Clientsets *)

(** [setConfigDefaults], on the copy of the configuration that the caller made. *)
Definition setConfigDefaults (config : Config) : Config :=
  mkConfig (rc_Host config) "/apis" (Some SchemeGroupVersion)
    (if rc_UserAgent config =?s "" then rest_DefaultKubernetesUserAgent else rc_UserAgent config)
    (rc_Burst config) (rc_QPS config) (rc_RateLimiter config).

Definition group_NewForConfigAndClient (c : Config) (h : HTTPClient) : res RESTClient :=
  rest_RESTClientForConfigAndClient (setConfigDefaults c) h.
Definition group_NewForConfig (c : Config) : res RESTClient :=
  let config := setConfigDefaults c in
  httpClient ← rest_HTTPClientFor config;
  group_NewForConfigAndClient config httpClient.

(** The group's client and the one for discovery. *)
Record Clientset := mkClientset { cs_cosignedV1alpha1 : RESTClient; cs_DiscoveryClient : RESTClient }.

(** The configuration that NewForConfigAndClient works with, with a rate limiter
    when a rate is given and none is set. *)
Definition limited (c : Config) : res Config :=
  match rc_RateLimiter c with
  | None =>
      if negb (Qle_bool (rc_QPS c) 0) then
        if rc_Burst c <=? 0 then
          Err (error_New "burst is required to be greater than 0 when RateLimiter is not set and QPS is set to greater than 0")
        else Ok (mkConfig (rc_Host c) (rc_APIPath c) (rc_GroupVersion c) (rc_UserAgent c) (rc_Burst c)
                   (rc_QPS c) (Some (rc_QPS c, rc_Burst c)))
      else Ok c
  | Some _ => Ok c
  end.
Definition NewForConfigAndClient (c : Config) (httpClient : HTTPClient) : res Clientset :=
  configShallowCopy ← limited c;
  cosigned ← group_NewForConfigAndClient configShallowCopy httpClient;
  disco ← discovery_NewDiscoveryClientForConfigAndClient configShallowCopy httpClient;
  Ok (mkClientset cosigned disco).
Definition NewForConfig (c : Config) : res Clientset :=
  httpClient ← rest_HTTPClientFor c; NewForConfigAndClient c httpClient.
Definition NewForConfigOrDie (c : Config) : res Clientset :=
  match NewForConfig c with Err e => Panic (Error e) | r => r end.

(** versioned.Interface: the clientset or the wrapper. *)
Inductive Interface := i_Clientset (cs : Clientset) | i_wrapClient (dyn : DynamicClient).

Definition ClusterImagePolicies (i : Interface) : ClusterImagePolicyInterface :=
  match i with
  | i_Clientset cs => clusterImagePolicies (cs_cosignedV1alpha1 cs)
  | i_wrapClient dyn => wrapped dyn
  end.
Definition Discovery (i : Interface) : res RESTClient :=
  match i with
  | i_Clientset cs => Ok (cs_DiscoveryClient cs)
  | i_wrapClient _ => Panic "Discovery called on dynamic client!"
  end.
Definition RESTClient_ (i : Interface) : res RESTClient :=
  match i with
  | i_Clientset cs => Ok (cs_cosignedV1alpha1 cs)
  | i_wrapClient _ => Panic "RESTClient called on dynamic client!"
  end.
End clients.

(** ** What is used of client-go *)

Definition with_body `{T : ClientTypes} (rq : Request) (b : Body) : Request :=
  mkRequest (rq_Verb rq) (rq_Resource rq) (rq_Name rq) (rq_SubResource rq) (rq_Params rq)
    (rq_Timeout rq) b.

(** A name that can be a segment of a path; the two clients refuse the others at
    different places. *)
Definition valid_name (name : string) : bool :=
  negb (name =?s "") && negb (name =?s ".") && negb (name =?s "..") &&
  negb (strings_Contains name "/") && negb (strings_Contains name "%").

(** Two outcomes, of which both succeed with related values or neither does. *)
Definition same_outcome {A B} (sim : A → B → Prop) (r1 : res A) (r2 : res B) : Prop :=
  match r1, r2 with
  | Ok a, Ok b => sim a b
  | Err _, Err _ | Panic _, Panic _ => True
  | _, _ => False
  end.

Section laws.
Context `{CX : ClientExt}.

Definition single (rq : Request) : Prop := rq_Verb rq = POST ∨ is_Some (rq_Name rq).

(** Send a request, decode the answer without its type. *)
Definition dyn_send (c : RESTClient) (rq : Request) : M Server Unstructured :=
  b ← rest_Do c rq; lift (json_Unmarshal_U b).

(** An answer that the codec decodes into an object, with its kind removed, is
    decoded by JSON into the same one, and without its type; another by neither. *)
Definition decodes_alike {A U} (clear : A → A) (into unmarshal : bytes → res A)
    (unmarshal_U : bytes → res U) (b : bytes) : Prop :=
  (∃ a u, into b = Ok (clear a) ∧ unmarshal b = Ok a ∧ unmarshal_U b = Ok u) ∨
  (∃ e e', into b = Err e ∧ unmarshal_U b = Err e').

Class ClientLaws (c : RESTClient) (dyn : DynamicClient) := {
  (* two texts of one JSON value *)
  json_equiv :: Equiv bytes;
  json_U_text b u : json_Unmarshal_U b = Ok u → ∃ b', json_Marshal_U u = Ok b' ∧ b' ≡ b;
  json_UList_text b u : json_Unmarshal_UList b = Ok u → ∃ b', json_Marshal_UList u = Ok b' ∧ b' ≡ b;
  json_Unmarshal_Policy_proper :: Proper ((≡) ==> (=)) json_Unmarshal_Policy;
  json_Unmarshal_PolicyList_proper :: Proper ((≡) ==> (=)) json_Unmarshal_PolicyList;
  rest_Do_proper rq :: Proper ((≡) ==> (=) ==> (=)) (λ b s, rest_Do c (with_body rq (body_Bytes b)) s);
  (* a typed object is sent as JSON with its kind, or not at all *)
  codec_Encode p :
    (∃ b u, json_Marshal_Policy (SetGroupVersionKind policy_GVK p) = Ok b ∧ json_Unmarshal_U b = Ok u ∧
            ∀ rq s, rest_Do c (with_body rq (body_Object p)) s = rest_Do c (with_body rq (body_Bytes b)) s) ∨
    (∃ e, json_Marshal_Policy (SetGroupVersionKind policy_GVK p) = Err e ∧
          ∀ rq s, ∃ e', rest_Do c (with_body rq (body_Object p)) s = (s, Err e'));
  answers_decode rq s s' b : single rq → rest_Do c rq s = (s', Ok b) →
    decodes_alike clear_TypeMeta codec_Into json_Unmarshal_Policy json_Unmarshal_U b;
  answers_list rq s s' b : rq_Verb rq = GET → rq_Name rq = None → rest_Do c rq s = (s', Ok b) →
    decodes_alike id codec_IntoList json_Unmarshal_PolicyList json_Unmarshal_UList b;
  (* the requests of the dynamic client *)
  dyn_Create_sends u b o s : json_Marshal_U u = Ok b →
    dyn_Create dyn policy_GVR u o s = dyn_send c
      (mkRequest POST "clusterimagepolicies" None [] (params_Create o) 0 (body_Bytes b)) s;
  dyn_Update_sends p u b o s : valid_name (p_Name p) = true → to_unstructured p = Ok u →
    json_Marshal_U u = Ok b →
    dyn_Update dyn policy_GVR u o s = dyn_send c
      (mkRequest PUT "clusterimagepolicies" (Some (p_Name p)) [] (params_Update o) 0 (body_Bytes b)) s;
  dyn_Get_sends name o s : valid_name name = true →
    dyn_Get dyn policy_GVR name o s = dyn_send c
      (mkRequest GET "clusterimagepolicies" (Some name) [] (params_Get o) 0 body_None) s;
  dyn_List_sends o s :
    dyn_List dyn policy_GVR o s = (rest_Do c
      (mkRequest GET "clusterimagepolicies" None [] (params_List o) 0 body_None)
      ≫= λ b, lift (json_Unmarshal_UList b)) s;
  dyn_Delete_sends name o s : valid_name name = true →
    dyn_Delete dyn policy_GVR name o s = (rest_Do c
      (mkRequest DELETE "clusterimagepolicies" (Some name) [] params_None 0 (body_Delete o))
      ≫= λ _, mret ()) s;
  dyn_DeleteCollection_sends o lo s :
    dyn_DeleteCollection dyn policy_GVR o lo s = (rest_Do c
      (mkRequest DELETE "clusterimagepolicies" None [] (params_List lo) 0 (body_Delete o))
      ≫= λ _, mret ()) s;
  dyn_Patch_sends name pt data o subs s : valid_name name = true →
    dyn_Patch dyn policy_GVR name pt data o subs s = dyn_send c
      (mkRequest (PATCH pt) "clusterimagepolicies" (Some name) subs (params_Patch o) 0 (body_Bytes data)) s }.

(** ** The dynamic client stands for the typed one *)

(** From states that differ at most in the kind written in the caller's object,
    the two operations leave the server in one state, such states again, and
    related outcomes. *)
Definition agrees {A B} (sim : A → B → Prop) (m1 : M ClientWorld A) (m2 : M ClientWorld B) : Prop :=
  ∀ w1 w2, cw_Server w1 = cw_Server w2 → clear_TypeMeta (cw_In w1) = clear_TypeMeta (cw_In w2) →
    cw_Server (fst (m1 w1)) = cw_Server (fst (m2 w2)) ∧
    clear_TypeMeta (cw_In (fst (m1 w1))) = clear_TypeMeta (cw_In (fst (m2 w2))) ∧
    same_outcome sim (snd (m1 w1)) (snd (m2 w2)).

Definition same_policy (p q : Policy) : Prop := p = clear_TypeMeta q.

Section agreement.
Context (c : RESTClient) (dyn : DynamicClient) `{L : !ClientLaws c dyn}.

(** Decoding an answer: with the codec, or through the unstructured object. *)
Lemma decoded_alike {A U} clear (into unmarshal : bytes → res A) (unmarshal_U : bytes → res U) marshal_U b :
  (∀ b u, unmarshal_U b = Ok u → ∃ b', marshal_U u = Ok b' ∧ b' ≡ b) →
  Proper ((≡) ==> (=)) unmarshal →
  decodes_alike clear into unmarshal unmarshal_U b →
  same_outcome (λ p q, p = clear q) (into b) (unmarshal_U b ≫= convert marshal_U unmarshal).
Proof.
  intros Htext Hp [(a & u & -> & Ha & Hu)|(e & e' & -> & ->)]; [|done].
  rewrite Hu. destruct (Htext _ _ Hu) as (b' & Hb' & Heq). cbn. unfold convert. rewrite Hb'. cbn.
  by rewrite (Hp _ _ Heq), Ha.
Qed.

(** A request for which both clients decode the answer. *)
Lemma agrees_decode {A U} clear (into unmarshal : bytes → res A) (unmarshal_U : bytes → res U) marshal_U
    (m : M Server bytes) (d : M Server U) w1 w2 :
  (∀ b u, unmarshal_U b = Ok u → ∃ b', marshal_U u = Ok b' ∧ b' ≡ b) →
  Proper ((≡) ==> (=)) unmarshal →
  (∀ s s' b, m s = (s', Ok b) → decodes_alike clear into unmarshal unmarshal_U b) →
  d (cw_Server w2) = (m ≫= λ b, lift (unmarshal_U b)) (cw_Server w2) →
  cw_Server w1 = cw_Server w2 → clear_TypeMeta (cw_In w1) = clear_TypeMeta (cw_In w2) →
  let o1 := (b ← on_server m; lift (into b)) w1 in
  let o2 := (u ← on_server d; lift (convert marshal_U unmarshal u)) w2 in
  cw_Server (fst o1) = cw_Server (fst o2) ∧
  clear_TypeMeta (cw_In (fst o1)) = clear_TypeMeta (cw_In (fst o2)) ∧
  same_outcome (λ p q, p = clear q) (snd o1) (snd o2).
Proof.
  intros Htext Hp Hdec Hd Hs Hin. unfold mbind, M_bind, on_server. cbn.
  rewrite Hd, Hs. unfold mbind, M_bind, lift.
  destruct (m (cw_Server w2)) as [s' [b|e|x]] eqn:Hm; cbn; [|done..].
  pose proof (decoded_alike clear into unmarshal unmarshal_U marshal_U b Htext Hp (Hdec _ _ _ Hm)) as Ho.
  destruct (unmarshal_U b); cbn in *; auto.
Qed.

Lemma SetGVK_clear k p q : clear_TypeMeta p = clear_TypeMeta q → SetGroupVersionKind k p = SetGroupVersionKind k q.
Proof. destruct p, q; cbn. by intros [= -> -> -> ->]. Qed.
Lemma p_Name_clear p q : clear_TypeMeta p = clear_TypeMeta q → p_Name p = p_Name q.
Proof. destruct p, q; cbn. by intros [= -> -> -> ->]. Qed.
Lemma with_body_single rq b : single rq → single (with_body rq b).
Proof. by destruct rq. Qed.

(** Create and Update: what is sent is the caller's object in two texts of one
    JSON value. *)
Lemma agrees_write (rq : Policy → Request) (send : Unstructured → M Server Unstructured) w1 w2 :
  cw_Server w1 = cw_Server w2 → clear_TypeMeta (cw_In w1) = clear_TypeMeta (cw_In w2) →
  single (rq (cw_In w1)) →
  (∀ u b s, to_unstructured (SetGroupVersionKind policy_GVK (cw_In w2)) = Ok u → json_Marshal_U u = Ok b →
     send u s = dyn_send c (with_body (rq (cw_In w1)) (body_Bytes b)) s) →
  let o1 := (p ← in_; into c (with_body (rq p) (body_Object p))) w1 in
  let o2 := wrap_write send w2 in
  cw_Server (fst o1) = cw_Server (fst o2) ∧
  clear_TypeMeta (cw_In (fst o1)) = clear_TypeMeta (cw_In (fst o2)) ∧
  same_outcome same_policy (snd o1) (snd o2).
Proof.
  intros Hs Hin Hsingle Hsend o1 o2.
  pose proof (SetGVK_clear policy_GVK _ _ Hin) as Hp.
  assert (Hin2 : clear_TypeMeta (cw_In w1) =
                 clear_TypeMeta (SetGroupVersionKind policy_GVK (cw_In w2))) by (rewrite Hin; done).
  destruct (codec_Encode (c := c) (dyn := dyn) (cw_In w1)) as [(b & u & Hb & Hu & Hdo)|(e & He & Hdo)].
  - destruct (json_U_text (c := c) (dyn := dyn) _ _ Hu) as (b' & Hb' & Heq).
    assert (Hto : to_unstructured (SetGroupVersionKind policy_GVK (cw_In w2)) = Ok u).
    { unfold to_unstructured, convert. rewrite <- Hp, Hb. cbn. by rewrite Hu. }
    set (m := λ s, rest_Do c (with_body (rq (cw_In w1)) (body_Bytes b)) s).
    assert (Ho1 : o1 = (b ← on_server m; lift (codec_Into b)) w1).
    { unfold o1, into, in_, gets. unfold mbind, M_bind, on_server. cbn. by rewrite Hdo. }
    set (w2' := mkClientWorld (cw_Server w2) (SetGroupVersionKind policy_GVK (cw_In w2))).
    assert (Ho2 : o2 = (u ← on_server (send u); lift (from_unstructured u)) w2').
    { unfold o2, wrap_write, update_in, modify, in_, gets.
      unfold mbind at 1 2 3, M_bind at 1 2 3. cbn. by rewrite Hto. }
    rewrite Ho1, Ho2. unfold same_policy, from_unstructured.
    apply (agrees_decode _ _ _ json_Unmarshal_U); [apply json_U_text|apply _| |..|done|done].
    + intros s s' b0. apply answers_decode. by apply with_body_single.
    + cbn. rewrite (Hsend u b' _ Hto Hb'). unfold dyn_send. unfold mbind, M_bind, m.
      by rewrite (rest_Do_proper (c := c) (dyn := dyn) (rq (cw_In w1)) _ _ Heq _ _ eq_refl).
  - assert (Hto : ∃ e', to_unstructured (SetGroupVersionKind policy_GVK (cw_In w2)) = Err e').
    { unfold to_unstructured, convert. rewrite <- Hp, He. cbn. eauto. }
    destruct Hto as [e' Hto]. destruct (Hdo (rq (cw_In w1)) (cw_Server w1)) as [e'' He''].
    assert (Ho1 : o1 = (w1, Err e'')).
    { unfold o1, into, in_, gets. unfold mbind, M_bind, on_server. cbn. rewrite He''. by destruct w1. }
    assert (Ho2 : o2 = (mkClientWorld (cw_Server w2) (SetGroupVersionKind policy_GVK (cw_In w2)), Err e')).
    { unfold o2, wrap_write, update_in, modify, in_, gets.
      unfold mbind, M_bind. cbn. by rewrite Hto. }
    by rewrite Ho1, Ho2.
Qed.

(** A request without an answer to decode. *)
Lemma agrees_error (rq : Request) (d : M Server unit) :
  (∀ s, d s = (rest_Do c rq ≫= λ _, mret ()) s) → agrees eq (do_error c rq) (on_server d).
Proof.
  intros Hd w1 w2 Hs Hin. unfold do_error, on_server. unfold mbind, M_bind. cbn.
  rewrite Hd, Hs. unfold mbind, M_bind. by destruct (rest_Do c rq (cw_Server w2)) as [? []].
Qed.

(** C14: how far the dynamic client of knative can be used for the typed one.  Run on the
    same server, Create, Update, Delete, DeleteCollection, Get, List and Patch of the
    interface come to the same in both: given the requests that the dynamic client of
    client-go sends (a law of that library), they leave the server alike, and give the
    same policies, up to the kind that the codec removes, or fail in both.  This is so
    for names that can be part of a path and for listings without a timeout.  They
    differ in two operations: a patch of a subresource, where the wrapper patches the
    object itself, whatever the subresource, and Watch, which the typed client sends to
    the server and the wrapper always refuses as not implemented, without a request. *)
Theorem dynamic_for_typed :
  let typed := clusterImagePolicies c in
  let dynamic := wrapped dyn in
  (∀ o, agrees same_policy (Create typed o) (Create dynamic o)) ∧
  (∀ o w1 w2, valid_name (p_Name (cw_In w1)) = true →
     cw_Server w1 = cw_Server w2 → clear_TypeMeta (cw_In w1) = clear_TypeMeta (cw_In w2) →
     cw_Server (fst (Update typed o w1)) = cw_Server (fst (Update dynamic o w2)) ∧
     same_outcome same_policy (snd (Update typed o w1)) (snd (Update dynamic o w2))) ∧
  (∀ name o, valid_name name = true → agrees eq (Delete typed name o) (Delete dynamic name o)) ∧
  (∀ o lo, lo_TimeoutSeconds lo = None →
     agrees eq (DeleteCollection typed o lo) (DeleteCollection dynamic o lo)) ∧
  (∀ name o, valid_name name = true → agrees same_policy (Get typed name o) (Get dynamic name o)) ∧
  (∀ lo, lo_TimeoutSeconds lo = None → agrees eq (List typed lo) (List dynamic lo)) ∧
  (∀ name pt data o subresources, valid_name name = true →
     agrees same_policy (Patch typed name pt data o []) (Patch dynamic name pt data o subresources)) ∧
  (∀ lo w, Watch dynamic lo w = (w, Err (error_New "NYI: Watch")) ∧
     cw_Server (fst (Watch typed lo w)) = fst (rest_Watch c (mkRequest GET "clusterimagepolicies" None []
       (params_List (set_Watch lo)) (timeout_of lo) body_None) (cw_Server w))).
Proof.
  intros typed dynamic. split_and!.
  - intros o w1 w2 Hs Hin.
    apply (agrees_write (λ _, mkRequest POST "clusterimagepolicies" None [] (params_Create o) 0 body_None));
      [done|done|by left|].
    intros u b s _ Hb. by apply (dyn_Create_sends (c := c)).
  - intros o w1 w2 Hn Hs Hin.
    destruct (agrees_write (λ p, mkRequest PUT "clusterimagepolicies" (Some (p_Name p)) []
      (params_Update o) 0 body_None) (λ u, dyn_Update dyn policy_GVR u o) w1 w2) as (?&_&?);
      [done|done|by right; eexists| |done].
    intros u b s Hu Hb. cbn. rewrite (p_Name_clear _ _ Hin) in Hn |- *.
    apply (dyn_Update_sends (c := c) (SetGroupVersionKind policy_GVK (cw_In w2))); auto.
  - intros name o Hn. apply agrees_error. intros s. by apply (dyn_Delete_sends (c := c)).
  - intros o lo Hlo. unfold typed; cbn. unfold typed_DeleteCollection, timeout_of. rewrite Hlo.
    apply agrees_error. intros s. apply (dyn_DeleteCollection_sends (c := c)).
  - intros name o Hn w1 w2 Hs Hin.
    apply (agrees_decode _ _ _ json_Unmarshal_U); [apply json_U_text|apply _| | |done|done].
    + intros s s' b. apply answers_decode. right. by eexists.
    + by apply (dyn_Get_sends (c := c)).
  - intros lo Hlo w1 w2 Hs Hin. unfold typed; cbn. unfold typed_List, timeout_of. rewrite Hlo.
    apply (agrees_decode id _ _ json_Unmarshal_UList); [apply json_UList_text|apply _| | |done|done].
    + intros s s' b. by apply answers_list.
    + apply (dyn_List_sends (c := c)).
  - intros name pt data o subs Hn w1 w2 Hs Hin.
    apply (agrees_decode _ _ _ json_Unmarshal_U); [apply json_U_text|apply _| | |done|done].
    + intros s s' b. apply answers_decode. right. by eexists.
    + by apply (dyn_Patch_sends (c := c)).
  - intros lo w. split; [done|]. unfold typed; cbn. unfold typed_Watch, on_server.
    by destruct (rest_Watch _ _ _).
Qed.
End agreement.
End laws.

(** ** Durations and configurations *)
Section configuration.
Context `{CX : ClientExt}.

(** The timeout of a listing is the option in nanoseconds exactly up to
    9223372036 seconds, about 292 years, in either direction; beyond, the product
    wraps around. *)
Theorem list_timeout_bounds o s :
  lo_TimeoutSeconds o = Some s → - 2 ^ 63 <= s < 2 ^ 63 →
  timeout_of o = s * time_Second ↔ - 9223372036 <= s <= 9223372036.
Proof.
  intros Ho Hs. unfold timeout_of. rewrite Ho.
  assert (Hid : ∀ z, int64 z = z ↔ - 2 ^ 63 <= z < 2 ^ 63).
  { intros z. unfold int64. split; intros Hz.
    - pose proof (Z.mod_pos_bound (z + 2 ^ 63) (2 ^ 64) ltac:(lia)). lia.
    - rewrite Z.mod_small; lia. }
  rewrite (proj2 (Hid s) Hs), Hid. unfold time_Second. lia.
Qed.

(** A clientset speaks to the policies' group under /apis, as the user agent that
    the caller named, with the limiter of the caller or one that is made from a
    positive rate and burst; a positive rate without a burst is refused. *)
Lemma NewForConfig_client c cs : NewForConfig c = Ok cs →
  ∃ h limiter,
    rest_HTTPClientFor c = Ok h ∧
    rest_RESTClientForConfigAndClient
      (mkConfig (rc_Host c) "/apis" (Some SchemeGroupVersion)
         (if rc_UserAgent c =?s "" then rest_DefaultKubernetesUserAgent else rc_UserAgent c)
         (rc_Burst c) (rc_QPS c) limiter) h = Ok (cs_cosignedV1alpha1 cs) ∧
    (limiter = rc_RateLimiter c ∧ (is_Some (rc_RateLimiter c) ∨ Qle (rc_QPS c) 0) ∨
     limiter = Some (rc_QPS c, rc_Burst c) ∧ rc_RateLimiter c = None ∧ 0 < rc_Burst c).
Proof.
  unfold NewForConfig, NewForConfigAndClient. intros H. apply bind_Ok in H as (h & Hh & H).
  apply bind_Ok in H as (c' & Hc' & H). go_inv. exists h, (rc_RateLimiter c').
  unfold group_NewForConfigAndClient, setConfigDefaults, limited in *.
  destruct (rc_RateLimiter c) as [l|] eqn:Hl.
  - go_inv. rewrite Hl in *. split_and!; eauto.
  - destruct (Qle_bool (rc_QPS c) 0) eqn:Hq; cbn in *.
    + go_inv. rewrite Hl in *. split_and!; [done|done|]. left. split; [done|right]. by apply Qle_bool_iff.
    + destruct (rc_Burst c <=? 0) eqn:Hb; go_inv. split_and!; [done|done|].
      right. split_and!; [done|done|lia].
Qed.
End configuration.

(** ** The fake clientset

    pkg/client/clientset/versioned/fake: the clients of the tests answer from the
    reactions of client-go's testing package, which are a parameter. *)

Inductive Action :=
  | RootGet (r : GroupVersionResource) (name : string)
  | RootList (r : GroupVersionResource) (k : GroupVersionKind) (o : ListOptions)
  | RootWatch (r : GroupVersionResource) (o : ListOptions)
  | RootCreate (r : GroupVersionResource) (p : Policy)
  | RootUpdate (r : GroupVersionResource) (p : Policy)
  | RootDelete (r : GroupVersionResource) (name : string)
  | RootDeleteCollection (r : GroupVersionResource) (o : ListOptions)
  | RootPatchSubresource (r : GroupVersionResource) (name pt : string) (data : bytes) (subs : list string).

(** A runtime.Object that a reaction answers with. *)
Inductive FakeObject := fo_Policy (p : Policy) | fo_PolicyList (l : PolicyList) | fo_Other.

Class FakeExt := {
  Tracker : Type;
  Invokes : Action → Tracker → Tracker * (option FakeObject * option error);
  (* the label selector of the options, if it has one, as a predicate on labels *)
  ExtractLabels : ListOptions → option (gmap string string → bool) }.

Section fake.
Context `{FX : FakeExt}.

Definition clusterimagepoliciesResource : GroupVersionResource :=
  mkGVR "cosigned.sigstore.dev" "v1alpha1" "clusterimagepolicies".
Definition clusterimagepoliciesKind : GroupVersionKind :=
  mkGVK "cosigned.sigstore.dev" "v1alpha1" "ClusterImagePolicy".

(** [if obj == nil { return nil, err }; return obj.( *T), err]: a nil object can come
    without an error, and another type is a failed assertion. *)
Definition fake_result {A} (cast : FakeObject → option A) (a : Action) : M Tracker (option A) := λ t,
  let '(t, (obj, err)) := Invokes a t in
  (t, match obj with
      | None => match err with Some e => Err e | None => Ok None end
      | Some o =>
          match cast o with
          | None => Panic "interface conversion"
          | Some x => match err with Some e => Err e | None => Ok (Some x) end
          end
      end).
Definition as_Policy (o : FakeObject) : option Policy := match o with fo_Policy p => Some p | _ => None end.
Definition as_PolicyList (o : FakeObject) : option PolicyList :=
  match o with fo_PolicyList l => Some l | _ => None end.

Definition fake_Get (name : string) (options : GetOptions) : M Tracker (option Policy) :=
  fake_result as_Policy (RootGet clusterimagepoliciesResource name).
Definition fake_Create (p : Policy) : M Tracker (option Policy) :=
  fake_result as_Policy (RootCreate clusterimagepoliciesResource p).
Definition fake_Update (p : Policy) : M Tracker (option Policy) :=
  fake_result as_Policy (RootUpdate clusterimagepoliciesResource p).
Definition fake_Patch (name pt : string) (data : bytes) (subresources : list string) :
    M Tracker (option Policy) :=
  fake_result as_Policy (RootPatchSubresource clusterimagepoliciesResource name pt data subresources).
Definition fake_error (a : Action) : M Tracker unit := λ t,
  let '(t, (_, err)) := Invokes a t in (t, match err with Some e => Err e | None => Ok () end).
Definition fake_Delete (name : string) : M Tracker unit :=
  fake_error (RootDelete clusterimagepoliciesResource name).
Definition fake_DeleteCollection (listOpts : ListOptions) : M Tracker unit :=
  fake_error (RootDeleteCollection clusterimagepoliciesResource listOpts).

(** The items whose labels match are kept. *)
Definition fake_List (opts : ListOptions) : M Tracker (option PolicyList) :=
  obj ← fake_result as_PolicyList
          (RootList clusterimagepoliciesResource clusterimagepoliciesKind opts);
  mret (obj ≫= λ l,
    let label := default (λ _, true) (ExtractLabels opts) in
    Some (mkPolicyList (pl_ResourceVersion l)
            (foldl (λ items item, if label (p_Labels item) then items ++ [item] else items) []
               (pl_Items l)))).

Lemma foldl_filter {A} (f : A → bool) l acc :
  foldl (λ items item, if f item then items ++ [item] else items) acc l = acc ++ filter (λ x, f x) l.
Proof.
  revert acc. induction l as [|x l IH]; intros acc; cbn; [by rewrite app_nil_r|].
  rewrite IH. destruct (f x); cbn; [|done]. by rewrite <- app_assoc.
Qed.

(** The fake listing gives the policies of the reaction that the selector
    matches, in their order, all of them without one. *)
Lemma fake_List_filters opts t t' l :
  Invokes (RootList clusterimagepoliciesResource clusterimagepoliciesKind opts) t =
    (t', (Some (fo_PolicyList l), None)) →
  fake_List opts t = (t', Ok (Some (mkPolicyList (pl_ResourceVersion l)
    (match ExtractLabels opts with
     | Some label => filter (λ p, label (p_Labels p)) (pl_Items l)
     | None => pl_Items l
     end)))).
Proof.
  intros Hi. unfold fake_List, fake_result. unfold mbind, M_bind. rewrite Hi. cbn.
  unfold mret, M_ret. do 4 f_equal. rewrite (foldl_filter (λ p, default (λ _, true) (ExtractLabels opts) (p_Labels p))).
  destruct (ExtractLabels opts) as [label|]; [done|].
  rewrite app_nil_l. induction (pl_Items l) as [|x xs IH]; [done|].
  rewrite filter_cons, decide_True by done. by rewrite IH.
Qed.
End fake.

(** ** A small API server *)
Section witnesses.

Definition toy_policy (name : string) : Policy :=
  mkPolicy "cosigned.sigstore.dev/v1alpha1" "ClusterImagePolicy" "" "" ∅
    (v1alpha1.mkCIP name (v1alpha1.mkSpec [] [])).

Definition toy_Types : ClientTypes := {|
  CreateOptions := unit; UpdateOptions := unit; DeleteOptions := unit; PatchOptions := unit |}.

(** Its JSON of a policy is the name. *)
Definition toy_request_body (b : Body (T := toy_Types)) : bytes :=
  match b with body_Object p => p_Name p | body_Bytes b => b | _ => "" end.
Definition toy_Do (rq : Request (T := toy_Types)) : M (gmap string bytes) bytes := λ s,
  match rq_Verb rq, rq_Name rq with
  | GET, Some n =>
      (s, match s !! n with
          | Some b => Ok b
          | None => Err (error_Kind kind_k8sNotFound "not found")
          end)
  | GET, None => (s, Ok (String.concat "," (map_to_list s).*1))
  | DELETE, Some n => (delete n s, Ok "")
  | DELETE, None => (∅, Ok "")
  | _, _ => let b := toy_request_body (rq_Body rq) in (<[b := b]> s, Ok b)
  end.

#[local] Instance toy_Client : ClientExt := {|
  client_types := toy_Types; Server := gmap string bytes; HTTPClient := unit; RESTClient := unit;
  DynamicClient := unit; Unstructured := bytes; UnstructuredList := bytes; WatchInterface := unit;
  rest_HTTPClientFor := λ _, Ok ();
  rest_RESTClientForConfigAndClient := λ _ _, Ok ();
  rest_DefaultKubernetesUserAgent := "cosigned";
  discovery_NewDiscoveryClientForConfigAndClient := λ _ _, Ok ();
  rest_Do := λ _, toy_Do;
  rest_Watch := λ _ _, mret ();
  codec_Into := λ b, Ok (clear_TypeMeta (toy_policy b));
  codec_IntoList := λ b, Ok (mkPolicyList "" [toy_policy b]);
  json_Marshal_Policy := λ p, Ok (p_Name p);
  json_Unmarshal_Policy := λ b, Ok (toy_policy b);
  json_Unmarshal_PolicyList := λ b, Ok (mkPolicyList "" [toy_policy b]);
  json_Marshal_U := λ u, Ok u;
  json_Unmarshal_U := λ b, Ok b;
  json_Marshal_UList := λ u, Ok u;
  json_Unmarshal_UList := λ b, Ok b;
  dyn_Create := λ _ _ u o, toy_Do (mkRequest POST "clusterimagepolicies" None [] (params_Create o) 0 (body_Bytes u));
  dyn_Update := λ _ _ u o,
    toy_Do (mkRequest PUT "clusterimagepolicies" (Some u) [] (params_Update o) 0 (body_Bytes u));
  dyn_UpdateStatus := λ _ _ u o,
    toy_Do (mkRequest PUT "clusterimagepolicies" (Some u) ["status"] (params_Update o) 0 (body_Bytes u));
  dyn_Delete := λ _ _ name o, toy_Do (mkRequest DELETE "clusterimagepolicies" (Some name) [] params_None 0
    (body_Delete o)) ≫= λ _, mret ();
  dyn_DeleteCollection := λ _ _ o lo, toy_Do (mkRequest DELETE "clusterimagepolicies" None []
    (params_List lo) 0 (body_Delete o)) ≫= λ _, mret ();
  dyn_Get := λ _ _ name o, toy_Do (mkRequest GET "clusterimagepolicies" (Some name) [] (params_Get o) 0 body_None);
  dyn_List := λ _ _ o, toy_Do (mkRequest GET "clusterimagepolicies" None [] (params_List o) 0 body_None);
  dyn_Patch := λ _ _ name pt data o subs,
    toy_Do (mkRequest (PATCH pt) "clusterimagepolicies" (Some name) subs (params_Patch o) 0 (body_Bytes data)) |}.

Lemma bind_toy {A} (m : M (gmap string bytes) A) s : (m ≫= λ b, lift (Ok b)) s = m s.
Proof. unfold mbind, M_bind, lift. by destruct (m s) as [? []]. Qed.

#[local] Instance toy_ClientLaws : ClientLaws () ().
Proof.
  refine {| json_equiv := (=) |}; try (by intros; symmetry; apply bind_toy); try done.
  - intros b u [= ->]. by eexists.
  - intros b u [= ->]. by eexists.
  - intros p. left. exists (p_Name p), (p_Name p). split_and!; [done|done|].
    intros rq s. cbn. unfold toy_Do. by destruct rq as [[] ? [] ? ? ? ?].
  - intros rq s s' b _ _. left. by exists (toy_policy b), b.
  - intros rq s s' b _ _ _. left. by exists (mkPolicyList "" [toy_policy b]), b.
  - intros u b o s [= ->]. symmetry. apply bind_toy.
  - intros p u b o s _ Hu Hb. cbn in Hu, Hb. unfold to_unstructured, convert in Hu. cbn in Hu.
    simplify_eq. symmetry. apply bind_toy.
Qed.

Definition toy_client_world : ClientWorld := mkClientWorld {["policy" := "policy"]} (toy_policy "new").

Lemma dynamic_for_typed_witness :
  same_outcome same_policy
    (snd (Get (clusterImagePolicies ()) "policy" (mkGetOptions "") toy_client_world))
    (snd (Get (wrapped ()) "policy" (mkGetOptions "") toy_client_world)) ∧
  cw_Server (fst (Create (clusterImagePolicies ()) () toy_client_world)) =
    cw_Server (fst (Create (wrapped ()) () toy_client_world)) ∧
  Get (wrapped ()) "policy" (mkGetOptions "") toy_client_world = (toy_client_world, Ok (toy_policy "policy")).
Proof.
  destruct (dynamic_for_typed (CX := toy_Client) () ()) as (HC & _ & _ & _ & HG & _ & _). split_and!.
  - by apply (HG "policy" (mkGetOptions "") eq_refl toy_client_world toy_client_world).
  - by apply (HC () toy_client_world toy_client_world).
  - vm_compute. reflexivity.
Defined.

Lemma list_timeout_bounds_witness :
  timeout_of (mkListOptions "" "" false "" (Some 60) 0 "") = 60 * time_Second ∧
  timeout_of (mkListOptions "" "" false "" (Some 9223372037) 0 "") ≠ 9223372037 * time_Second.
Proof.
  split.
  - apply (list_timeout_bounds (mkListOptions "" "" false "" (Some 60) 0 "") 60); [reflexivity|lia..].
  - rewrite (list_timeout_bounds (mkListOptions "" "" false "" (Some 9223372037) 0 "") 9223372037);
      [lia|reflexivity|lia].
Defined.
End witnesses.
