(* ===== verification/Helpers.v ===== *)
(** * Small packages

    pkg/signature/annotations.go (annotations as a flag), pkg/signature/keys.go (the
    extensions of a certificate), internal/pkg/cosign/payload (the options of a
    signer), pkg/oci/empty/signed.go (an image that stands for a missing one) and
    pkg/cosign/kubernetes/client.go (the configuration of the cluster's client).

    The theorems: annotations that are printed and set again are the same
    ([annotations_roundtrip]); the two ways to read annotations agree where both
    read ([annotations_agree]). *)
From S2P Require Import Prelude GoStd GoUrl External Concrete OciSignature OciSignatures OciEntity.
From S2P Require Import OciRemote Tuf Tlog Ctl Verify Keys Sign Attest Blob VerifyCmd Clients.

(** ** Annotations *)

(** A nil map, or one with any values. *)
Definition AnnotationsMap_ : Type := option (gmap string any).

(** The map is made before the argument is looked at. *)
Definition Set_ (s : string) : M AnnotationsMap_ unit :=
  _ ← modify (λ a, Some (default ∅ a));
  match strings_SplitN2 s "="%char with
  | [k; v] => modify (λ a, Some (<[k := any_string v]> (default ∅ a)))
  | _ => lift (Err (error_New ("invalid flag: " +:+ s +:+ ", expected key=value")))
  end.

(** [fmt.Sprintf("%s", v)] of a value that is a string; the other kinds are shown with
    their Go type. *)
Definition sprint_any (other : any → string) (v : any) : string :=
  match v with any_string s => s | v => other v end.
(** The entries in the order in which they are visited. *)
Definition String_ (other : any → string) (entries : list (string * any)) : string :=
  strings_Join ((λ '(k, v), k +:+ "=" +:+ sprint_any other v) <$> entries) ",".

(** A text that can be a key, and one that can be a value, of the comma-separated form. *)
Definition plain_key (k : string) : bool :=
  bool_decide (strings_Count k "="%char = 0) && bool_decide (strings_Count k ","%char = 0).
Definition plain_value (v : any) : bool :=
  match v with any_string s => bool_decide (strings_Count s ","%char = 0) | _ => false end.
Definition plain_entry (e : string * any) : Prop := plain_key e.1 = true ∧ plain_value e.2 = true.

Fixpoint set_each (l : list string) : M AnnotationsMap_ unit :=
  match l with [] => mret () | s :: l => Set_ s;; set_each l end.

Lemma set_entry k s a :
  strings_Count k "="%char = 0 →
  Set_ (k +:+ "=" +:+ s) a = (Some (<[k := any_string s]> (default ∅ a)), Ok ()).
Proof. intros Hk. unfold Set_. unfold mbind, M_bind, modify. cbn. by rewrite SplitN2_append. Qed.

Lemma set_entries other l a :
  Forall plain_entry l →
  set_each ((λ '(k, v), k +:+ "=" +:+ sprint_any other v) <$> l) a
  = (match l with [] => a | _ => Some (list_to_map (reverse l) ∪ default ∅ a) end, Ok ()).
Proof.
  intros Hl. revert a. induction Hl as [|[k v] l [Hk Hv] Hl IH]; intros a; [done|].
  cbn in Hk, Hv. unfold plain_key, plain_value in Hk, Hv.
  apply andb_true_iff in Hk as [Hk1 _]. apply bool_decide_eq_true in Hk1.
  destruct v as [| | |s| |]; try done.
  cbn [fmap list_fmap set_each]. unfold mbind at 1, M_bind at 1. cbn [sprint_any].
  rewrite set_entry by done. rewrite IH. f_equal. rewrite reverse_cons, list_to_map_app.
  destruct l as [|e l]; cbn; f_equal.
  - by rewrite (left_id_L ∅ (∪)), insert_empty, insert_union_singleton_l.
  - rewrite <- (assoc_L (∪)). f_equal. by rewrite insert_empty, insert_union_singleton_l.
Qed.

(** Annotations survive being printed and read: for a map with keys and values that
    the syntax can hold, in whatever order String visits the entries, setting each of the
    comma-separated parts gives the map again. *)
Theorem annotations_roundtrip other (m : gmap string any) entries :
  m ≠ ∅ → entries ≡ₚ map_to_list m → Forall plain_entry entries →
  set_each (strings_Split (String_ other entries) ","%char) None = (Some m, Ok ()).
Proof.
  intros Hm Hp Hf.
  assert (Hne : entries ≠ []).
  { intros ->. apply Permutation_nil_l in Hp. symmetry in Hp. by apply map_to_list_empty_iff in Hp. }
  assert (Hnd : NoDup entries.*1).
  { rewrite Hp. apply NoDup_fst_map_to_list. }
  unfold String_. rewrite Split_Join.
  - rewrite (set_entries other entries None Hf). destruct entries as [|e l]; [done|].
    f_equal. f_equal. cbn [default]. rewrite (right_id_L ∅ (∪)).
    rewrite <- (list_to_map_to_list m). apply list_to_map_proper.
    + by rewrite fmap_reverse, reverse_Permutation.
    + by rewrite reverse_Permutation.
  - by destruct entries.
  - apply Forall_fmap. eapply Forall_impl; [exact Hf|]. intros [k v] [Hk Hv]. cbn in *.
    unfold plain_key, plain_value in *. apply andb_true_iff in Hk as [_ Hk].
    apply bool_decide_eq_true in Hk. destruct v; try done. apply bool_decide_eq_true in Hv.
    rewrite !Count_append. cbn. by rewrite Hk, Hv.
Qed.

Lemma Split_nonempty s c : strings_Split s c ≠ [].
Proof. destruct s; cbn; [done|]. case_decide; [done|]. by destruct (strings_Split s c). Qed.
Lemma Join_Split s c : strings_Join (strings_Split s c) (String c "") = s.
Proof.
  induction s as [|b s IH]; cbn; [done|]. pose proof (Split_nonempty s c).
  destruct (strings_Split s c) as [|w ws]; [done|]. case_decide as Hb; [subst b; cbn; by rewrite <- IH|].
  destruct ws; cbn in *; by rewrite <- IH.
Qed.
Lemma Split_eq_SplitN2 s c k v : strings_Split s c = [k; v] → strings_SplitN2 s c = [k; v].
Proof.
  revert k v. induction s as [|a s IH]; intros k v; cbn; [done|]. case_decide as Ha.
  - intros [= <- Hs]. do 2 f_equal. rewrite <- (Join_Split s c), Hs. done.
  - destruct (strings_Split s c) as [|w ws]; [done|]. intros [= <- ->]. by rewrite (IH w v).
Qed.

(** The annotations that the commands read from their flags are those that the flag type
    of the package reads; that type also takes values with an equals sign, which the
    commands refuse. *)
Theorem annotations_agree l m :
  AnnotationsMap l = Ok (Some m) → set_each l None = (Some m, Ok ()).
Proof.
  unfold AnnotationsMap.
  assert (Hgen : ∀ a r, annotations_map l a = Ok r →
    set_each l a = (match l with [] => a | _ => r end, Ok ()) ∧ (l = [] → r = a)).
  { induction l as [|s l IH]; intros a r; cbn; [by intros [= <-]|].
    destruct (strings_Split s "=") as [|k [|v [|]]] eqn:Hs; try done. intros H.
    apply IH in H as [H Hr]. split; [|done]. unfold mbind at 1, M_bind at 1.
    unfold Set_. unfold mbind at 1, M_bind at 1, modify. cbn.
    rewrite (Split_eq_SplitN2 _ _ _ _ Hs). cbn. rewrite H. destruct l; [by rewrite Hr|done]. }
  intros H. destruct (Hgen None (Some m) H) as [-> Hr]. by destruct l; [discriminate Hr|].
Qed.

(** ** Extensions of a certificate *)

Definition CertExtensionMap : gmap string string :=
  list_to_map [ (CertExtensionOIDCIssuer, "oidcIssuer");
    ("1.3.6.1.4.1.57264.1.2", "githubWorkflowTrigger"); ("1.3.6.1.4.1.57264.1.3", "githubWorkflowSha");
    ("1.3.6.1.4.1.57264.1.4", "githubWorkflowName"); ("1.3.6.1.4.1.57264.1.5", "githubWorkflowRepository");
    ("1.3.6.1.4.1.57264.1.6", "githubWorkflowRef") ].

Definition extension_name (id : string) : string := default id (CertExtensionMap !! id).
Definition CertExtensions (cert : Certificate) : gmap string string :=
  foldl (λ extensions '(id, value), <[extension_name id := value]> extensions) ∅ (cert_Extensions cert).

Lemma fold_extensions l (m : gmap string string) name :
  name ∉ (extension_name ∘ fst) <$> l →
  foldl (λ extensions '(id, value), <[extension_name id := value]> extensions) m l !! name = m !! name.
Proof.
  revert m. induction l as [|[id v] l IH]; intros m; cbn; [done|].
  rewrite not_elem_of_cons. intros [Hne Hl]. rewrite IH by done. by rewrite lookup_insert_ne.
Qed.

(** An extension is listed under its readable name, with the value of the last extension
    of that name. *)
Lemma CertExtensions_last cert pre id value post :
  cert_Extensions cert = pre ++ (id, value) :: post →
  extension_name id ∉ (extension_name ∘ fst) <$> post →
  CertExtensions cert !! extension_name id = Some value.
Proof.
  intros He Hn. unfold CertExtensions. rewrite He, foldl_app. cbn.
  rewrite fold_extensions by done. apply lookup_insert_eq.
Qed.

(** ** The options of a signer *)

(** An option, with the interfaces that it implements. *)
Record SignerOption := mkSignerOption { so_Name : string; is_SignOption : bool; is_PublicKeyOption : bool }.
Record payloadSigner := mkPayloadSigner {
  ps_signer : SignerVerifier; ps_signOpts : list SignerOption; ps_publicKeyOpts : list SignerOption }.

Fixpoint sort_options (l sOpts pkOpts : list SignerOption) : res (list SignerOption * list SignerOption) :=
  match l with
  | [] => Ok (sOpts, pkOpts)
  | o :: l =>
      if is_SignOption o then sort_options l (sOpts ++ [o]) pkOpts
      else if is_PublicKeyOption o then sort_options l sOpts (pkOpts ++ [o])
      else Panic "options must be of type `signature.SignOption` or `signature.PublicKeyOption`"
  end.
Definition newSigner (s : SignerVerifier) (opts : list SignerOption) : res payloadSigner :=
  '(sOpts, pkOpts) ← sort_options opts [] []; Ok (mkPayloadSigner s sOpts pkOpts).

Lemma sort_options_spec l s p r :
  sort_options l s p = Ok r →
  r = (s ++ filter (λ o, is_SignOption o) l, p ++ filter (λ o, negb (is_SignOption o)) l) ∧
  Forall (λ o, is_SignOption o || is_PublicKeyOption o) l.
Proof.
  revert s p. induction l as [|o l IH]; intros s p; cbn.
  { intros [= <-]. by rewrite !app_nil_r. }
  destruct (is_SignOption o) eqn:Hs; cbn.
  - intros H. apply IH in H as [-> Hf]. rewrite <- app_assoc. split; [done|].
    constructor; [|done]. by rewrite Hs.
  - destruct (is_PublicKeyOption o) eqn:Hp; [|done]. intros H. apply IH in H as [-> Hf].
    rewrite <- app_assoc. split; [done|]. constructor; [|done]. by rewrite Hp, orb_true_r.
Qed.

(** No option is lost, each goes to one side, in order; one that is of both kinds is
    not passed when the public key is asked for. *)
Lemma newSigner_options s opts ps :
  newSigner s opts = Ok ps →
  ps_signOpts ps = filter (λ o, is_SignOption o) opts ∧
  ps_publicKeyOpts ps = filter (λ o, negb (is_SignOption o)) opts ∧
  Forall (λ o, is_SignOption o || is_PublicKeyOption o) opts.
Proof.
  unfold newSigner. intros H. apply bind_Ok in H as ([so po] & Hs & [= <-]).
  apply sort_options_spec in Hs as [[= -> ->] ?]. done.
Qed.

(** ** An image that stands for a missing one *)
Section empty.
Context `{R : Registry}.

(** [empty_Signatures] is the empty set of pkg/oci/empty. *)
Definition empty_Signatures : Signatures := emptyImage empty_Image.
(** The digest is that of a reference by digest, and none otherwise. *)
Definition empty_SignedImage (ref : Reference) : res Entity :=
  d ← match ref with
      | name_Digest _ digest => v1_NewHash digest
      | name_Tag _ _ => Ok (mkHash "" "")
      end;
  Ok (EImage 0 (mkEntityCore
    (if Hex d =?s "" then Err (error_New "digest not available") else Ok d)
    (Ok empty_Signatures) (Ok empty_Signatures)
    (λ _, Err (error_New "no attachments")))).

(** It has no signatures, attestations and attachments, and the digest of the reference. *)
Lemma empty_SignedImage_spec ref se :
  empty_SignedImage ref = Ok se →
  (∃ s, Entity_Signatures se = Ok s ∧ OciSignatures.Get s = Ok []) ∧
  (∃ s, Entity_Attestations se = Ok s ∧ OciSignatures.Get s = Ok []) ∧
  (∀ name, is_ok (Entity_Attachment se name) = false) ∧
  match ref with
  | name_Digest _ digest => ∀ h, v1_NewHash digest = Ok h → Hex h ≠ "" → Entity_Digest se = Ok h
  | name_Tag _ _ => is_ok (Entity_Digest se) = false
  end.
Proof.
  unfold empty_SignedImage. intros H. apply bind_Ok in H as (d & Hd & [= <-]). split_and!.
  - by eexists.
  - by eexists.
  - done.
  - destruct ref; [by simplify_eq|]. intros h Hh Hne. rewrite Hd in Hh. simplify_eq. cbn.
    by rewrite (proj2 (str_eqb_neq _ _) Hne).
Qed.
End empty.

(** ** The configuration of the cluster's client *)
Section kube.
Context `{CX : ClientExt}.
(** clientcmd: the configuration of the user, if it is empty, and that of the pod. *)
Context (kubeCfg_ClientConfig : res Config) (IsEmptyConfig : error → bool) (InClusterConfig : res Config).
Context {KubeInterface : Type} (kubernetes_NewForConfig : Config → res KubeInterface).

Definition restClientConfig : res Config :=
  match kubeCfg_ClientConfig with
  | Err e =>
      if IsEmptyConfig e then
        map_err (λ e, error_Wrapped ("error creating REST client config in-cluster: " +:+ Error e) e) InClusterConfig
      else Err (error_Wrapped ("error creating REST client config: " +:+ Error e) e)
  | r => r
  end.
Definition Client : res KubeInterface :=
  config ← map_err (λ e, error_Wrapped ("getting client config for Kubernetes client: " +:+ Error e) e) restClientConfig;
  kubernetes_NewForConfig config.

(** The pod's own configuration is used only when the user has none. *)
Lemma in_cluster_only_without_config k :
  Client = Ok k → ∃ c, kubernetes_NewForConfig c = Ok k ∧
    (kubeCfg_ClientConfig = Ok c ∨
     InClusterConfig = Ok c ∧ ∃ e, kubeCfg_ClientConfig = Err e ∧ IsEmptyConfig e = true).
Proof.
  unfold Client, restClientConfig. intros H. apply bind_Ok in H as (c & Hc & Hk). apply map_err_Ok in Hc.
  exists c. split; [done|]. destruct kubeCfg_ClientConfig as [c0|e|x]; [by left|..|done].
  destruct (IsEmptyConfig e) eqn:He; [|done]. apply map_err_Ok in Hc. right. eauto.
Qed.
End kube.

(** ** Runs *)

Lemma annotations_roundtrip_witness :
  set_each (strings_Split (String_ (λ _, "") [("a", any_string "1=2"); ("b", any_string "")]) ","%char) None
    = (Some (<["a" := any_string "1=2"]> {["b" := any_string ""]}), Ok ()).
Proof.
  apply (annotations_roundtrip (λ _, "") (<["a" := any_string "1=2"]> {["b" := any_string ""]})).
  - apply insert_non_empty.
  - rewrite map_to_list_insert by done. by rewrite map_to_list_singleton.
  - repeat constructor.
Defined.

Lemma annotations_agree_witness :
  set_each ["env=prod"; "team=a"] None
    = (Some (<["team" := any_string "a"]> (<["env" := any_string "prod"]> ∅)), Ok ()) ∧
  is_ok (AnnotationsMap ["url=a=b"]) = false ∧ is_ok (snd (set_each ["url=a=b"] None)) = true.
Proof.
  split; [|split; reflexivity].
  apply (annotations_agree ["env=prod"; "team=a"]
    (<["team" := any_string "a"]> (<["env" := any_string "prod"]> ∅))). reflexivity.
Defined.
