(* ===== verification/Informers.v ===== *)
(** * Listers, informers and their injection

    pkg/client/listers, pkg/client/informers/externalversions (the factory of
    shared informers) and pkg/client/injection (clients, factories and informers
    that a context carries).

    Factories and informers are pointers: [InfWorld] is the memory that they are in,
    with the variables that closures capture.  A shared informer itself, the
    indexer behind it and labels belong to client-go.  The theorems: every
    informer that a factory hands out is run at most once and is the same for all
    who ask ([informers_shared]); the filtered factories, which capture the variable
    of a loop, all select with its last value ([filtered_last_selector]). *)
From stdpp Require Import relations.
From S2P Require Import Prelude GoStd External Policy Clients.
#[local] Open Scope Z_scope.

Abbreviation addr := nat.
(** A reflect.Type, by its name. *)
Abbreviation reflect_Type := string.

Class InformerExt `{CX : ClientExt} := {
  Indexer : Type;
  Selector : Type;
  labels_Everything : Selector;
  Selector_String : Selector → string;
  Requirements : Type;
  labels_ParseToRequirements : string → res Requirements;
  Selector_Add : Selector → Requirements → Selector;
  (* an object in an indexer is a policy or something else *)
  indexer_GetByKey : Indexer → string → res (option (option Policy));
  cache_ListAll : Indexer → Selector → res (list (option Policy));
  inf_GetIndexer : addr → Indexer;
  cache_WaitForCacheSync : addr → bool }.

(** ** Listers *)
Section listers.
Context `{IX : InformerExt}.

(** [m.( *v1alpha1.ClusterImagePolicy)] *)
Definition as_policy (m : option Policy) : res Policy :=
  match m with Some p => Ok p | None => Panic "interface conversion" end.

(** ListAll calls the function that appends on each object that it selects. *)
Fixpoint append_each (ms : list (option Policy)) (ret : list Policy) : res (list Policy) :=
  match ms with
  | [] => Ok ret
  | m :: ms => p ← as_policy m; append_each ms (ret ++ [p])
  end.
Definition lister_List (indexer : Indexer) (selector : Selector) : res (list Policy) :=
  ms ← cache_ListAll indexer selector; append_each ms [].

Definition lister_Get (indexer : Indexer) (name : string) : res Policy :=
  obj ← indexer_GetByKey indexer name;
  match obj with
  | None => Err (error_Kind kind_k8sNotFound
                   ("clusterimagepolicy.cosigned.sigstore.dev " +:+ quoted name +:+ " not found"))
  | Some m => as_policy m
  end.

Lemma append_each_policies ps ret : append_each (Some <$> ps) ret = Ok (ret ++ ps).
Proof.
  revert ret. induction ps as [|p ps IH]; intros ret; cbn; [by rewrite app_nil_r|].
  rewrite IH. by rewrite <- app_assoc.
Qed.

(** From an indexer that holds policies, as the informers' does, the lister gives
    the selected ones in their order. *)
Lemma lister_List_selected indexer selector ps :
  cache_ListAll indexer selector = Ok (Some <$> ps) → lister_List indexer selector = Ok ps.
Proof. intros H. unfold lister_List. rewrite H. apply (append_each_policies ps []). Qed.
End listers.

(** ** The factory *)
Section informers.
Context `{IX : InformerExt}.

(** Variables that closures share. *)
Abbreviation Vars := (gmap addr string).
(** A TweakListOptionsFunc runs when a list or a watch starts. *)
Definition TweakListOptionsFunc : Type := Vars → ListOptions → ListOptions.

Record SharedIndexInformer := mkInformer {
  inf_ListWatch : option (Interface * option TweakListOptionsFunc);
  inf_Type : reflect_Type; inf_Resync : Z; inf_Indexers : list string;
  inf_Runs : nat }.                                (* goroutines that run it *)

Record sharedInformerFactory := mkFactory {
  f_client : Interface; f_namespace : string; f_tweakListOptions : option TweakListOptionsFunc;
  f_defaultResync : Z; f_customResync : gmap reflect_Type Z;
  f_informers : gmap reflect_Type addr; f_startedInformers : gmap reflect_Type bool }.

Record InfWorld := mkInfWorld {
  iw_Factories : gmap addr sharedInformerFactory;
  iw_Informers : gmap addr SharedIndexInformer;
  iw_Vars : Vars;
  iw_Next : addr }.

Definition set_factory (a : addr) (f : sharedInformerFactory) (w : InfWorld) : InfWorld :=
  mkInfWorld (<[a := f]> (iw_Factories w)) (iw_Informers w) (iw_Vars w) (iw_Next w).
Definition set_var (a : addr) (s : string) (w : InfWorld) : InfWorld :=
  mkInfWorld (iw_Factories w) (iw_Informers w) (<[a := s]> (iw_Vars w)) (iw_Next w).

Definition new_var : M InfWorld addr := λ w,
  (mkInfWorld (iw_Factories w) (iw_Informers w) (<[iw_Next w := ""]> (iw_Vars w)) (S (iw_Next w)),
   Ok (iw_Next w)).
Definition new_factory (f : sharedInformerFactory) : M InfWorld addr := λ w,
  (mkInfWorld (<[iw_Next w := f]> (iw_Factories w)) (iw_Informers w) (iw_Vars w) (S (iw_Next w)),
   Ok (iw_Next w)).
(** cache.NewSharedIndexInformer: a pointer to an informer that does not run yet. *)
Definition cache_NewSharedIndexInformer (lw : option (Interface * option TweakListOptionsFunc))
    (t : reflect_Type) (resync : Z) (indexers : list string) : M InfWorld addr := λ w,
  (mkInfWorld (iw_Factories w) (<[iw_Next w := mkInformer lw t resync indexers 0]> (iw_Informers w))
     (iw_Vars w) (S (iw_Next w)), Ok (iw_Next w)).

Definition factory_at (a : addr) : M InfWorld sharedInformerFactory :=
  reads (λ w, deref (iw_Factories w !! a)).

Definition SharedInformerOption : Type := sharedInformerFactory → sharedInformerFactory.

Definition WithCustomResyncConfig (resyncConfig : list (reflect_Type * Z)) : SharedInformerOption := λ f,
  mkFactory (f_client f) (f_namespace f) (f_tweakListOptions f) (f_defaultResync f)
    (foldl (λ m kv, <[kv.1 := kv.2]> m) (f_customResync f) resyncConfig)
    (f_informers f) (f_startedInformers f).
Definition WithTweakListOptions (tweak : TweakListOptionsFunc) : SharedInformerOption := λ f,
  mkFactory (f_client f) (f_namespace f) (Some tweak) (f_defaultResync f) (f_customResync f)
    (f_informers f) (f_startedInformers f).
Definition WithNamespace (namespace : string) : SharedInformerOption := λ f,
  mkFactory (f_client f) namespace (f_tweakListOptions f) (f_defaultResync f) (f_customResync f)
    (f_informers f) (f_startedInformers f).

Definition NewSharedInformerFactoryWithOptions (client : Interface) (defaultResync : Z)
    (options : list SharedInformerOption) : M InfWorld addr :=
  new_factory (foldl (λ f opt, opt f) (mkFactory client "" None defaultResync ∅ ∅ ∅) options).
Definition NewSharedInformerFactory (client : Interface) (defaultResync : Z) : M InfWorld addr :=
  NewSharedInformerFactoryWithOptions client defaultResync [].
Definition NewFilteredSharedInformerFactory (client : Interface) (defaultResync : Z) (namespace : string)
    (tweak : TweakListOptionsFunc) : M InfWorld addr :=
  NewSharedInformerFactoryWithOptions client defaultResync [WithNamespace namespace; WithTweakListOptions tweak].

(** [go informer.Run(stopCh)] *)
Definition go_run (i : addr) (w : InfWorld) : InfWorld :=
  mkInfWorld (iw_Factories w)
    (alter (λ inf, mkInformer (inf_ListWatch inf) (inf_Type inf) (inf_Resync inf) (inf_Indexers inf)
                     (S (inf_Runs inf))) i (iw_Informers w))
    (iw_Vars w) (iw_Next w).

Definition mark_started (t : reflect_Type) (f : sharedInformerFactory) : sharedInformerFactory :=
  mkFactory (f_client f) (f_namespace f) (f_tweakListOptions f) (f_defaultResync f) (f_customResync f)
    (f_informers f) (<[t := true]> (f_startedInformers f)).
Definition is_started (t : reflect_Type) (f : sharedInformerFactory) : bool :=
  default false (f_startedInformers f !! t).

(** The range over [f.informers], in any order. *)
Fixpoint start_each (a : addr) (l : list (reflect_Type * addr)) : M InfWorld unit :=
  match l with
  | [] => mret ()
  | (informerType, informer) :: l =>
      f ← factory_at a;
      _ ← (if is_started informerType f then mret ()
           else _ ← modify (go_run informer); modify (set_factory a (mark_started informerType f)));
      start_each a l
  end.
Definition Start (a : addr) : M InfWorld unit :=
  f ← factory_at a; start_each a (map_to_list (f_informers f)).

Definition WaitForCacheSync (a : addr) : M InfWorld (gmap reflect_Type bool) :=
  f ← factory_at a;
  mret (cache_WaitForCacheSync <$> filter (λ '(t, _), is_started t f) (f_informers f)).

Definition InformerFor (a : addr) (informerType : reflect_Type)
    (newFunc : Interface → Z → M InfWorld addr) : M InfWorld addr :=
  f ← factory_at a;
  match f_informers f !! informerType with
  | Some informer => mret informer
  | None =>
      let resyncPeriod := default (f_defaultResync f) (f_customResync f !! informerType) in
      informer ← newFunc (f_client f) resyncPeriod;
      f ← factory_at a;
      _ ← modify (set_factory a (mkFactory (f_client f) (f_namespace f) (f_tweakListOptions f)
            (f_defaultResync f) (f_customResync f) (<[informerType := informer]> (f_informers f))
            (f_startedInformers f)));
      mret informer
  end.

(** ** The informer of policies *)

Record clusterImagePolicyInformer := mkPolicyInformer {
  ci_factory : addr; ci_tweakListOptions : option TweakListOptionsFunc }.

(** [f.Cosigned().V1alpha1().ClusterImagePolicies()]: each step hands the factory
    and the tweak on; the namespace is not used for a cluster-wide resource. *)
Definition Cosigned_V1alpha1_ClusterImagePolicies (a : addr) : M InfWorld clusterImagePolicyInformer :=
  f ← factory_at a; mret (mkPolicyInformer a (f_tweakListOptions f)).

Definition policy_Type : reflect_Type := "*v1alpha1.ClusterImagePolicy".

Definition NewFilteredClusterImagePolicyInformer (client : Interface) (resyncPeriod : Z)
    (indexers : list string) (tweak : option TweakListOptionsFunc) : M InfWorld addr :=
  cache_NewSharedIndexInformer (Some (client, tweak)) policy_Type resyncPeriod indexers.
Definition NewClusterImagePolicyInformer (client : Interface) (resyncPeriod : Z) (indexers : list string) :
    M InfWorld addr :=
  NewFilteredClusterImagePolicyInformer client resyncPeriod indexers None.
Definition defaultInformer (ci : clusterImagePolicyInformer) (client : Interface) (resyncPeriod : Z) :
    M InfWorld addr :=
  NewFilteredClusterImagePolicyInformer client resyncPeriod ["namespace"] (ci_tweakListOptions ci).
Definition Informer (ci : clusterImagePolicyInformer) : M InfWorld addr :=
  InformerFor (ci_factory ci) policy_Type (defaultInformer ci).

(** The options that ListFunc and WatchFunc pass to the client, as the variables
    are when they run. *)
Definition tweaked (tweak : option TweakListOptionsFunc) (vars : Vars) (options : ListOptions) : ListOptions :=
  match tweak with Some t => t vars options | None => options end.
Definition ListFunc (lw : Interface * option TweakListOptionsFunc) (vars : Vars) (options : ListOptions) :
    M ClientWorld PolicyList :=
  List (ClusterImagePolicies lw.1) (tweaked lw.2 vars options).
Definition WatchFunc (lw : Interface * option TweakListOptionsFunc) (vars : Vars) (options : ListOptions) :
    M ClientWorld WatchInterface :=
  Watch (ClusterImagePolicies lw.1) (tweaked lw.2 vars options).

(** generic.go: the resource and the informer of the matching type. *)
Definition ForResource (a : addr) (resource : GroupVersionResource) : M InfWorld (string * string * addr) :=
  if bool_decide (resource = WithResource SchemeGroupVersion "clusterimagepolicies") then
    ci ← Cosigned_V1alpha1_ClusterImagePolicies a;
    informer ← Informer ci;
    mret (gvr_Group resource, gvr_Resource resource, informer)
  else lift (Err (error_New ("no informer found for " +:+ gvr_Group resource +:+ "/"
                    +:+ gvr_Version resource +:+ ", Resource=" +:+ gvr_Resource resource))).
End informers.

(** ** Sharing *)
Section sharing.
Context `{IX : InformerExt}.

(** An option that leaves the informers alone, as all options of the package do. *)
Definition plain (opt : SharedInformerOption) : Prop := ∀ f,
  f_informers (opt f) = f_informers f ∧ f_startedInformers (opt f) = f_startedInformers f.

Lemma plain_resync l : plain (WithCustomResyncConfig l).
Proof. done. Qed.
Lemma plain_tweak t : plain (WithTweakListOptions t).
Proof. done. Qed.
Lemma plain_namespace n : plain (WithNamespace n).
Proof. done. Qed.

(** What the goroutines of a process do with its factories.  The lock of a
    factory makes each call one step. *)
Inductive fstep (w : InfWorld) : InfWorld → Prop :=
  | step_New client resync opts w' r :
      Forall plain opts →
      NewSharedInformerFactoryWithOptions client resync opts w = (w', r) → fstep w w'
  | step_InformerFor a t lw indexers w' r :
      InformerFor a t (λ client resync, cache_NewSharedIndexInformer (lw client) t resync indexers) w = (w', r) →
      fstep w w'
  | step_Start a w' r : Start a w = (w', r) → fstep w w'
  | step_var a s : fstep w (set_var a s w).

Definition start_of : InfWorld := mkInfWorld ∅ ∅ ∅ 0.

(** The factory at [a] holds the informer [i] for the type [t]. *)
Definition holds (w : InfWorld) (a : addr) (t : reflect_Type) (i : addr) (f : sharedInformerFactory) : Prop :=
  iw_Factories w !! a = Some f ∧ f_informers f !! t = Some i.

Record FInv (w : InfWorld) : Prop := {
  fi_fresh_factory : ∀ a, (iw_Next w ≤ a)%nat → iw_Factories w !! a = None;
  fi_fresh_informer : ∀ i, (iw_Next w ≤ i)%nat → iw_Informers w !! i = None;
  fi_runs : ∀ a t i f, holds w a t i f →
    ∃ inf, iw_Informers w !! i = Some inf ∧ inf_Runs inf = if is_started t f then 1%nat else 0%nat;
  fi_owner : ∀ a t f a' t' f' i, holds w a t i f → holds w a' t' i f' → a = a' ∧ t = t';
  fi_started : ∀ a t f, iw_Factories w !! a = Some f → is_started t f = true → is_Some (f_informers f !! t);
  fi_once : ∀ i inf, iw_Informers w !! i = Some inf → (inf_Runs inf ≤ 1)%nat }.

(** What a factory handed out, it hands out again. *)
Definition keeps_informers (w w' : InfWorld) : Prop := ∀ a t i f,
  holds w a t i f → ∃ f', holds w' a t i f'.

#[export] Instance keeps_informers_preorder : PreOrder keeps_informers.
Proof.
  split; [intros w a t i f H; eauto|].
  intros w1 w2 w3 H12 H23 a t i f H. destruct (H12 _ _ _ _ H). eauto.
Qed.

Lemma FInv_start : FInv start_of.
Proof. split; unfold holds; cbn; intros; try done; naive_solver. Qed.

Lemma is_started_mark t t' f : is_started t (mark_started t' f) = bool_decide (t = t') || is_started t f.
Proof.
  unfold is_started, mark_started. cbn.
  destruct (decide (t = t')) as [->|?].
  - by rewrite lookup_insert_eq, bool_decide_true by done.
  - by rewrite lookup_insert_ne, bool_decide_false by done.
Qed.

(** An informer of the factory that was not started is run and marked. *)
Lemma FInv_run w a t i f :
  FInv w → holds w a t i f → is_started t f = false →
  FInv (set_factory a (mark_started t f) (go_run i w)) ∧
  keeps_informers w (set_factory a (mark_started t f) (go_run i w)).
Proof.
  intros HI Hh Hs. destruct Hh as [Ha Hi].
  assert (Hback : ∀ a' t' i' f', holds (set_factory a (mark_started t f) (go_run i w)) a' t' i' f' →
    ∃ f0, holds w a' t' i' f0 ∧ is_started t' f' = bool_decide (a' = a ∧ t' = t) || is_started t' f0).
  { intros a' t' i' f' [Ha' Hi']. cbn in Ha'. destruct (decide (a' = a)) as [->|Hne].
    - rewrite lookup_insert_eq in Ha'. simplify_eq. exists f. split; [done|].
      rewrite is_started_mark. by rewrite (bool_decide_ext (a = a ∧ t' = t) (t' = t)) by naive_solver.
    - rewrite lookup_insert_ne in Ha' by done. exists f'. split; [done|].
      by rewrite bool_decide_false by naive_solver. }
  split; [split|].
  - intros a' Hlt. cbn in *. rewrite lookup_insert_ne; [by apply HI|].
    intros ->. by rewrite (fi_fresh_factory _ HI _ Hlt) in Ha.
  - intros i' Hlt. cbn. apply lookup_alter_None. by apply HI.
  - intros a' t' i' f' Hh'. destruct (Hback _ _ _ _ Hh') as (f0 & H0 & ->).
    destruct (fi_runs _ HI _ _ _ _ H0) as (inf & Hinf & Hr). cbn. rewrite lookup_alter.
    case_decide as Hd.
    + subst i'. destruct (fi_owner _ HI _ _ _ _ _ _ _ H0 (conj Ha Hi)) as [-> ->].
      rewrite bool_decide_true, Hinf by done. eexists. split; [done|]. cbn. rewrite Hr.
      destruct H0 as [H0 _]. rewrite H0 in Ha. simplify_eq. by rewrite Hs.
    + exists inf. split; [done|]. rewrite Hr, bool_decide_false; [done|].
      intros [-> ->]. destruct H0 as [H0 H0']. congruence.
  - intros a1 t1 f1 a2 t2 f2 i' H1 H2. apply Hback in H1 as (?&?&_), H2 as (?&?&_).
    by eapply (fi_owner _ HI).
  - intros a' t' f' Ha' Hs'. cbn in Ha'. destruct (decide (a' = a)) as [->|Hne].
    + rewrite lookup_insert_eq in Ha'. simplify_eq. rewrite is_started_mark in Hs'. cbn.
      apply orb_true_iff in Hs' as [Ht|Hs']; [|by eapply (fi_started _ HI)].
      apply bool_decide_eq_true in Ht as ->. by eexists.
    + rewrite lookup_insert_ne in Ha' by done. by eapply (fi_started _ HI).
  - intros i' inf. cbn. rewrite lookup_alter. case_decide as Hd; [subst i'|apply HI].
    destruct (fi_runs _ HI _ _ _ _ (conj Ha Hi)) as (inf0 & -> & Hr). rewrite Hs in Hr.
    intros [= <-]. cbn. lia.
  - intros a' t' i' f' [Ha' Hi']. destruct (decide (a' = a)) as [->|Hne].
    + exists (mark_started t f). simplify_eq. split; [by cbn; rewrite lookup_insert_eq|done].
    + exists f'. split; [by cbn; rewrite lookup_insert_ne|done].
Qed.

Lemma factory_at_Ok a w w' f : factory_at a w = (w', Ok f) ↔ iw_Factories w !! a = Some f ∧ w' = w.
Proof. unfold factory_at. rewrite reads_Ok, deref_Ok. done. Qed.
Lemma factory_at_run a w f : iw_Factories w !! a = Some f → factory_at a w = (w, Ok f).
Proof. intros H. by apply factory_at_Ok. Qed.
Lemma factory_at_none a w : iw_Factories w !! a = None → factory_at a w = (w, Panic "nil dereference").
Proof. intros H. unfold factory_at, reads. by rewrite H. Qed.

(** The loop of Start runs what it has not run, and marks it. *)
Lemma start_each_spec a l w f :
  FInv w → iw_Factories w !! a = Some f →
  (∀ t i, (t, i) ∈ l → f_informers f !! t = Some i) →
  ∃ w' f', start_each a l w = (w', Ok ()) ∧ FInv w' ∧ keeps_informers w w' ∧
    iw_Factories w' !! a = Some f' ∧ f_informers f' = f_informers f ∧
    (∀ t, is_started t f = true → is_started t f' = true) ∧
    (∀ t i, (t, i) ∈ l → is_started t f' = true).
Proof.
  revert w f. induction l as [|[t i] l IH]; intros w f HI Ha Hl.
  { exists w, f. split_and!; [done..|]. intros t i Hin. by apply elem_of_nil in Hin. }
  cbn. unfold mbind at 1, M_bind at 1. rewrite (factory_at_run _ _ _ Ha).
  destruct (is_started t f) eqn:Hs.
  - destruct (IH w f HI Ha) as (w' & f' & He & ?&?&?&?& Hk & Hst).
    { intros t' i' ?. apply Hl. by right. }
    exists w', f'. split_and!; [done..|]. intros t' i' [[= -> ->]|Hin]%elem_of_cons; eauto.
  - assert (Hh : holds w a t i f) by (split; [done|apply Hl; by left]).
    destruct (FInv_run _ _ _ _ _ HI Hh Hs) as [HI' Hk].
    set (w1 := set_factory a (mark_started t f) (go_run i w)) in *.
    destruct (IH w1 (mark_started t f) HI') as (w' & f' & He & HI2 & Hk2 & Ha2 & Hf2 & Hst & Hall).
    { cbn. by rewrite lookup_insert_eq. }
    { intros t' i' ?. apply Hl. by right. }
    exists w', f'. split_and!; [exact He|done|by etrans|done|done| |].
    + intros t' Ht'. apply Hst. rewrite is_started_mark, Ht'. apply orb_true_r.
    + intros t' i' [[= -> ->]|Hin]%elem_of_cons; [|by eapply Hall].
      apply Hst. rewrite is_started_mark. by rewrite bool_decide_true.
Qed.

Lemma Start_spec a w f :
  FInv w → iw_Factories w !! a = Some f →
  ∃ w', Start a w = (w', Ok ()) ∧ FInv w' ∧ keeps_informers w w' ∧
    ∀ t i, f_informers f !! t = Some i →
      ∃ inf, iw_Informers w' !! i = Some inf ∧ inf_Runs inf = 1%nat.
Proof.
  intros HI Ha. destruct (start_each_spec a (map_to_list (f_informers f)) w f HI Ha)
    as (w' & f' & He & HI' & Hk & Ha' & Hf' & _ & Hall).
  { intros t i. by rewrite elem_of_map_to_list. }
  exists w'. split_and!; [|done|done|].
  - unfold Start. unfold mbind, M_bind. by rewrite (factory_at_run _ _ _ Ha).
  - intros t i Hi. destruct (fi_runs _ HI' a t i f') as (inf & Hinf & Hr); [by split; [|rewrite Hf']|].
    exists inf. split; [done|]. rewrite Hr, (Hall t i); [done|]. by apply elem_of_map_to_list.
Qed.

(** An informer that is made for a type for which the factory has none. *)
Definition register (a : addr) (t : reflect_Type) (f : sharedInformerFactory) (inf : SharedIndexInformer)
    (w : InfWorld) : InfWorld :=
  mkInfWorld
    (<[a := mkFactory (f_client f) (f_namespace f) (f_tweakListOptions f) (f_defaultResync f)
              (f_customResync f) (<[t := iw_Next w]> (f_informers f)) (f_startedInformers f)]> (iw_Factories w))
    (<[iw_Next w := inf]> (iw_Informers w)) (iw_Vars w) (S (iw_Next w)).

Lemma FInv_register a t f inf w :
  FInv w → iw_Factories w !! a = Some f → f_informers f !! t = None → inf_Runs inf = 0%nat →
  FInv (register a t f inf w) ∧ keeps_informers w (register a t f inf w).
Proof.
  intros HI Ha Ht Hr.
  assert (Hback : ∀ a' t' i' f', holds (register a t f inf w) a' t' i' f' →
    (a' = a ∧ t' = t ∧ i' = iw_Next w ∧ is_started t' f' = false) ∨
    ∃ f0, holds w a' t' i' f0 ∧ is_started t' f' = is_started t' f0 ∧ i' ≠ iw_Next w).
  { assert (Hold : ∀ a' t' i' f', holds w a' t' i' f' → i' ≠ iw_Next w).
    { intros a' t' i' f' Hh ->. destruct (fi_runs _ HI _ _ _ _ Hh) as (? & Hi & _).
      by rewrite (fi_fresh_informer _ HI) in Hi by lia. }
    intros a' t' i' f' [Ha' Hi']. cbn in Ha'. destruct (decide (a' = a)) as [->|Hne].
    - rewrite lookup_insert_eq in Ha'. simplify_eq. cbn in Hi'.
      destruct (decide (t' = t)) as [->|Hnt].
      + rewrite lookup_insert_eq in Hi'. simplify_eq. left. split_and!; [done..|].
        apply not_true_is_false. intros Hs.
        destruct (fi_started _ HI a t f Ha) as [? ?]; [exact Hs|congruence].
      + rewrite lookup_insert_ne in Hi' by done. right. exists f.
        split_and!; [by split|done|by apply (Hold a t' i' f)].
    - rewrite lookup_insert_ne in Ha' by done. right. exists f'.
      split_and!; [by split|done|by apply (Hold a' t' i' f')]. }
  split; [split|].
  - intros a' Hlt. cbn in *. rewrite lookup_insert_ne; [apply HI; lia|].
    intros ->. rewrite (fi_fresh_factory _ HI) in Ha; [done|lia].
  - intros i Hlt. cbn in *. rewrite lookup_insert_ne by lia. apply HI. lia.
  - intros a' t' i' f' Hh. cbn. destruct (Hback _ _ _ _ Hh) as [(-> & -> & -> & ->)|(f0 & H0 & -> & Hne)].
    + rewrite lookup_insert_eq. by eexists.
    + rewrite lookup_insert_ne by done. by eapply (fi_runs _ HI).
  - intros a1 t1 f1 a2 t2 f2 i H1 H2.
    destruct (Hback _ _ _ _ H1) as [(-> & -> & -> & _)|(? & ? & _ & ?)];
      destruct (Hback _ _ _ _ H2) as [(-> & -> & ? & _)|(? & ? & _ & ?)]; try done.
    by eapply (fi_owner _ HI).
  - intros a' t' f' Ha' Hs. cbn in Ha'. destruct (decide (a' = a)) as [->|Hne].
    + rewrite lookup_insert_eq in Ha'. simplify_eq. cbn. apply lookup_insert_is_Some'. right.
      by eapply (fi_started _ HI).
    + rewrite lookup_insert_ne in Ha' by done. by eapply (fi_started _ HI).
  - intros i inf'. cbn. rewrite lookup_insert. case_decide; [intros [= <-]; lia|apply HI].
  - intros a' t' i' f' [Ha' Hi']. destruct (decide (a' = a)) as [->|Hne].
    + eexists. split; [by cbn; rewrite lookup_insert_eq|]. cbn. simplify_eq.
      rewrite lookup_insert_ne; [done|]. intros ->. congruence.
    + exists f'. split; [by cbn; rewrite lookup_insert_ne|done].
Qed.

Lemma plain_options opts f : Forall plain opts →
  f_informers (foldl (λ f opt, opt f) f opts) = f_informers f ∧
  f_startedInformers (foldl (λ f opt, opt f) f opts) = f_startedInformers f.
Proof.
  revert f. induction opts as [|o opts IH]; intros f; cbn; [done|].
  intros [Ho Hos]%Forall_cons. destruct (IH (o f) Hos) as [-> ->]. apply Ho.
Qed.

Lemma FInv_new_factory f w w' r :
  FInv w → f_informers f = ∅ → f_startedInformers f = ∅ → new_factory f w = (w', r) →
  FInv w' ∧ keeps_informers w w'.
Proof.
  intros HI Hi Hs [= <- <-].
  assert (Hback : ∀ a t i f', holds (fst (new_factory f w)) a t i f' → holds w a t i f').
  { intros a t i f' [Ha Hin]. cbn in Ha. rewrite lookup_insert in Ha. case_decide; simplify_eq; [|done].
    by rewrite Hi, lookup_empty in Hin. }
  split; [split|].
  - intros a Hlt. cbn in *. rewrite lookup_insert_ne by lia. apply HI. lia.
  - intros i Hlt. apply HI. cbn in Hlt. lia.
  - intros a t i f' Hh. cbn. by eapply (fi_runs _ HI), Hback.
  - intros a t f1 a' t' f2 i H1 H2. eapply (fi_owner _ HI); by apply Hback.
  - intros a t f' Ha Hst. cbn in Ha. rewrite lookup_insert in Ha. case_decide; simplify_eq.
    + unfold is_started in Hst. by rewrite Hs, lookup_empty in Hst.
    + by eapply (fi_started _ HI).
  - apply HI.
  - intros a t i f' [Ha Hin]. exists f'. split; [|done]. cbn. rewrite lookup_insert_ne; [done|].
    intros <-. rewrite (fi_fresh_factory _ HI) in Ha; [done|lia].
Qed.

Lemma InformerFor_spec a t lw indexers w w' r :
  FInv w →
  InformerFor a t (λ client resync, cache_NewSharedIndexInformer (lw client) t resync indexers) w = (w', r) →
  FInv w' ∧ keeps_informers w w' ∧ (∀ i, r = Ok i → ∃ f, holds w' a t i f).
Proof.
  intros HI. unfold InformerFor. unfold mbind at 1, M_bind at 1.
  destruct (iw_Factories w !! a) as [f|] eqn:Ha.
  2:{ rewrite (factory_at_none _ _ Ha). by intros [= <- <-]. }
  rewrite (factory_at_run _ _ _ Ha). destruct (f_informers f !! t) as [i|] eqn:Ht.
  - intros [= <- <-]. split_and!; [done|done|]. intros ? [= <-]. exists f. by split.
  - unfold mbind, M_bind, cache_NewSharedIndexInformer. cbn.
    unfold factory_at, reads. cbn. rewrite Ha. cbn. intros [= <- <-].
    destruct (FInv_register a t f (mkInformer (lw (f_client f)) t
      (default (f_defaultResync f) (f_customResync f !! t)) indexers 0) w HI Ha Ht eq_refl) as [? ?].
    split_and!; [done|done|]. intros ? [= <-].
    eexists. split; [cbn; by rewrite lookup_insert_eq|]. cbn. by rewrite lookup_insert_eq.
Qed.

Lemma fstep_FInv w w' : fstep w w' → FInv w → FInv w' ∧ keeps_informers w w'.
Proof.
  intros Hstep HI. destruct Hstep as [client resync opts w' r Ho Hn|a t lw idx w' r Hi|a w' r Hs|a s].
  - destruct (plain_options opts (mkFactory client "" None resync ∅ ∅ ∅) Ho) as [? ?].
    by eapply FInv_new_factory.
  - destruct (InformerFor_spec _ _ _ _ _ _ _ HI Hi) as (?&?&_). done.
  - destruct (iw_Factories w !! a) as [f|] eqn:Ha.
    + destruct (Start_spec a w f HI Ha) as (w'' & He & ?&?&_). rewrite He in Hs. by simplify_eq.
    + unfold Start in Hs. unfold mbind, M_bind in Hs. rewrite (factory_at_none _ _ Ha) in Hs.
      by simplify_eq.
  - split; [destruct HI; constructor; assumption|]. intros a' t i f Hh. by exists f.
Qed.

Lemma fsteps_FInv w w' : rtc fstep w w' → FInv w → FInv w' ∧ keeps_informers w w'.
Proof.
  induction 1 as [w|w w1 w' Hs _ IH]; intros HI; [done|].
  destruct (fstep_FInv _ _ Hs HI) as [HI1 Hk]. destruct (IH HI1) as [? ?]. split; [done|by etrans].
Qed.

(** C13: informers are shared and run once.  However the goroutines of a process make
    factories, ask for informers and start them: no informer is run twice; after
    Start every informer that the factory had handed out runs, exactly once; and
    who asks for a type again, at any later time, gets the informer that the first
    one got. *)
Theorem informers_shared w :
  rtc fstep start_of w →
  (∀ i inf, iw_Informers w !! i = Some inf → (inf_Runs inf ≤ 1)%nat) ∧
  (∀ a f, iw_Factories w !! a = Some f → ∃ w', Start a w = (w', Ok ()) ∧
     ∀ t i, f_informers f !! t = Some i →
       ∃ inf, iw_Informers w' !! i = Some inf ∧ inf_Runs inf = 1%nat) ∧
  (∀ a t lw lw' indexers indexers' w1 w2 w3 i i',
     InformerFor a t (λ c r, cache_NewSharedIndexInformer (lw c) t r indexers) w = (w1, Ok i) →
     rtc fstep w1 w2 →
     InformerFor a t (λ c r, cache_NewSharedIndexInformer (lw' c) t r indexers') w2 = (w3, Ok i') →
     i' = i).
Proof.
  intros Hr. destruct (fsteps_FInv _ _ Hr FInv_start) as [HI _]. split_and!.
  - apply HI.
  - intros a f Ha. destruct (Start_spec a w f HI Ha) as (w' & ?&_&_&?). eauto.
  - intros a t lw lw' idx idx' w1 w2 w3 i i' H1 H12 H2.
    destruct (InformerFor_spec _ _ _ _ _ _ _ HI H1) as (HI1 & _ & Hi).
    destruct (Hi i eq_refl) as [f Hf].
    destruct (fsteps_FInv _ _ H12 HI1) as [HI2 Hk]. destruct (Hk _ _ _ _ Hf) as [f' [Ha' Hf']].
    unfold InformerFor in H2. unfold mbind at 1, M_bind at 1 in H2.
    rewrite (factory_at_run _ _ _ Ha'), Hf' in H2. by apply M_ret_Ok in H2 as [-> _].
Qed.
End sharing.

(** ** Injection *)
Section injection.
Context `{IX : InformerExt}.

(** ClusterImagePolicyInformer: of a factory, or one that asks the client. *)
Inductive PolicyInformer :=
  | pi_shared (ci : clusterImagePolicyInformer)
  | pi_wrapper (client : Interface) (resourceVersion : string)
  | pi_filtered (client : Interface) (selector : string).

(** The keys of the injection packages and the values under them. *)
Inductive ctxkey :=
  | key_client | key_factory | key_filtered_factory (Selector : string) | key_LabelKey
  | key_informer | key_filtered_informer (Selector : string).
#[export] Instance ctxkey_eq_dec : EqDecision ctxkey.
Proof. solve_decision. Defined.

Inductive ctxval :=
  | cv_client (i : Interface) | cv_factory (a : addr) | cv_labels (l : list string)
  | cv_informer (i : PolicyInformer).

(** A context: what knative's own functions find in it, and the values. *)
Record Ctx := mkCtx {
  ctx_Config : option Config; ctx_Dynamic : option DynamicClient; ctx_NamespaceScope : option string;
  ctx_ResyncPeriod : Z; ctx_ResourceVersion : string; ctx_Values : list (ctxkey * ctxval) }.

Definition WithValue (ctx : Ctx) (k : ctxkey) (v : ctxval) : Ctx :=
  mkCtx (ctx_Config ctx) (ctx_Dynamic ctx) (ctx_NamespaceScope ctx) (ctx_ResyncPeriod ctx)
    (ctx_ResourceVersion ctx) ((k, v) :: ctx_Values ctx).
Fixpoint find_value (k : ctxkey) (l : list (ctxkey * ctxval)) : option ctxval :=
  match l with
  | [] => None
  | (k', v) :: l => if bool_decide (k = k') then Some v else find_value k l
  end.
Definition Value (ctx : Ctx) (k : ctxkey) : option ctxval := find_value k (ctx_Values ctx).

(** *** client *)

Definition withClientFromConfig (ctx : Ctx) (cfg : Config) : res Ctx :=
  cs ← NewForConfigOrDie cfg; Ok (WithValue ctx key_client (cv_client (i_Clientset cs))).
Definition withClientFromDynamic (ctx : Ctx) : res Ctx :=
  match ctx_Dynamic ctx with
  | Some dyn => Ok (WithValue ctx key_client (cv_client (i_wrapClient dyn)))
  | None => Panic "Unable to fetch dynamic client from context."
  end.
Definition client_Get (ctx : Ctx) : res Interface :=
  match Value ctx key_client with
  | Some (cv_client i) => Ok i
  | Some _ => Panic "interface conversion"
  | None =>
      match ctx_Config ctx with
      | None => Panic "Unable to fetch github.com/sigstore/cosign/pkg/client/clientset/versioned.Interface from context. This context is not the application context (which is typically given to constructors via sharedmain)."
      | Some _ => Panic "Unable to fetch github.com/sigstore/cosign/pkg/client/clientset/versioned.Interface from context."
      end
  end.

(** *** informers/factory *)

Definition namespace_options (ctx : Ctx) : list SharedInformerOption :=
  match ctx_NamespaceScope ctx with Some n => [WithNamespace n] | None => [] end.
Definition withInformerFactory (ctx : Ctx) : M InfWorld Ctx :=
  c ← lift (client_Get ctx);
  f ← NewSharedInformerFactoryWithOptions c (ctx_ResyncPeriod ctx) (namespace_options ctx);
  mret (WithValue ctx key_factory (cv_factory f)).
Definition factory_Get (ctx : Ctx) : res addr :=
  match Value ctx key_factory with
  | Some (cv_factory f) => Ok f
  | Some _ => Panic "interface conversion"
  | None => Panic "Unable to fetch github.com/sigstore/cosign/pkg/client/informers/externalversions.SharedInformerFactory from context."
  end.

(** *** informers/factory/filtered *)

Definition WithSelectors (ctx : Ctx) (selector : list string) : Ctx :=
  WithValue ctx key_LabelKey (cv_labels selector).
Definition labelSelectors (ctx : Ctx) : res (list string) :=
  match Value ctx key_LabelKey with
  | Some (cv_labels l) => Ok l
  | Some _ => Panic "interface conversion"
  | None => Panic "Unable to fetch labelkey from context."
  end.

(** The loop.  The variable [selector] is one for all iterations, as in every Go
    before 1.22, and the function that is passed on refers to it. *)
Fixpoint filtered_loop (selector : addr) (c : Interface) (l : list string) (ctx : Ctx) : M InfWorld Ctx :=
  match l with
  | [] => mret ctx
  | s :: l =>
      _ ← modify (set_var selector s);
      let opts := namespace_options ctx ++
        [WithTweakListOptions (λ vars o, set_LabelSelector (default "" (vars !! selector)) o)] in
      f ← NewSharedInformerFactoryWithOptions c (ctx_ResyncPeriod ctx) opts;
      filtered_loop selector c l (WithValue ctx (key_filtered_factory s) (cv_factory f))
  end.
Definition filtered_withInformerFactory (ctx : Ctx) : M InfWorld Ctx :=
  c ← lift (client_Get ctx);
  l ← lift (labelSelectors ctx);
  selector ← new_var;
  filtered_loop selector c l ctx.
Definition filtered_factory_Get (ctx : Ctx) (selector : string) : res addr :=
  match Value ctx (key_filtered_factory selector) with
  | Some (cv_factory f) => Ok f
  | Some _ => Panic "interface conversion"
  | None => Panic ("Unable to fetch github.com/sigstore/cosign/pkg/client/informers/externalversions.SharedInformerFactory with selector " +:+ selector +:+ " from context.")
  end.

(** *** informers/cosigned/v1alpha1/clusterimagepolicy *)

Definition withInformer (ctx : Ctx) : M InfWorld (Ctx * addr) :=
  f ← lift (factory_Get ctx);
  inf ← Cosigned_V1alpha1_ClusterImagePolicies f;
  informer ← Informer inf;
  mret (WithValue ctx key_informer (cv_informer (pi_shared inf)), informer).
Definition withDynamicInformer (ctx : Ctx) : res Ctx :=
  c ← client_Get ctx;
  Ok (WithValue ctx key_informer (cv_informer (pi_wrapper c (ctx_ResourceVersion ctx)))).
Definition informer_Get (ctx : Ctx) : res PolicyInformer :=
  match Value ctx key_informer with
  | Some (cv_informer i) => Ok i
  | Some _ => Panic "interface conversion"
  | None => Panic "Unable to fetch github.com/sigstore/cosign/pkg/client/informers/externalversions/cosigned/v1alpha1.ClusterImagePolicyInformer from context."
  end.

Definition wrapper_SetResourceVersion (rv : string) (i : PolicyInformer) : PolicyInformer :=
  match i with pi_wrapper c _ => pi_wrapper c rv | i => i end.
(** The lister of a wrapper asks the API server. *)
Definition wrapper_List (client : Interface) (resourceVersion : string) (selector : Selector) :
    M ClientWorld (list Policy) :=
  lo ← List (ClusterImagePolicies client)
         (mkListOptions (Selector_String selector) "" false resourceVersion None 0 "");
  mret (pl_Items lo).
Definition wrapper_Get (client : Interface) (resourceVersion : string) (name : string) : M ClientWorld Policy :=
  Get (ClusterImagePolicies client) name (mkGetOptions resourceVersion).

(** *** informers/cosigned/v1alpha1/clusterimagepolicy/filtered *)

Fixpoint filtered_informers (l : list string) (ctx : Ctx) (infs : list addr) : M InfWorld (Ctx * list addr) :=
  match l with
  | [] => mret (ctx, infs)
  | selector :: l =>
      f ← lift (filtered_factory_Get ctx selector);
      inf ← Cosigned_V1alpha1_ClusterImagePolicies f;
      informer ← Informer inf;
      filtered_informers l (WithValue ctx (key_filtered_informer selector) (cv_informer (pi_shared inf)))
        (infs ++ [informer])
  end.
Definition filtered_withInformer (ctx : Ctx) : M InfWorld (Ctx * list addr) :=
  l ← lift (labelSelectors ctx); filtered_informers l ctx [].

Fixpoint filtered_wrappers (l : list string) (ctx : Ctx) : res Ctx :=
  match l with
  | [] => Ok ctx
  | selector :: l =>
      c ← client_Get ctx;
      filtered_wrappers l (WithValue ctx (key_filtered_informer selector) (cv_informer (pi_filtered c selector)))
  end.
Definition filtered_withDynamicInformer (ctx : Ctx) : res Ctx :=
  l ← labelSelectors ctx; filtered_wrappers l ctx.
Definition filtered_informer_Get (ctx : Ctx) (selector : string) : res PolicyInformer :=
  match Value ctx (key_filtered_informer selector) with
  | Some (cv_informer i) => Ok i
  | Some _ => Panic "interface conversion"
  | None => Panic ("Unable to fetch github.com/sigstore/cosign/pkg/client/informers/externalversions/cosigned/v1alpha1.ClusterImagePolicyInformer with selector " +:+ selector +:+ " from context.")
  end.

Definition filtered_List (client : Interface) (w_selector : string) (selector : Selector) :
    M ClientWorld (list Policy) :=
  reqs ← lift (labels_ParseToRequirements w_selector);
  lo ← List (ClusterImagePolicies client)
         (set_LabelSelector (Selector_String (Selector_Add selector reqs)) no_ListOptions);
  mret (pl_Items lo).
Definition filtered_Get (client : Interface) (name : string) : M ClientWorld Policy :=
  Get (ClusterImagePolicies client) name (mkGetOptions "").

(** Informer and Lister of the three, the lister's answers. *)
Definition pi_Informer (i : PolicyInformer) : M InfWorld addr :=
  match i with
  | pi_shared ci => Informer ci
  | _ => cache_NewSharedIndexInformer None policy_Type 0 []
  end.

(** *** The selectors of filtered factories *)

Lemma Value_WithValue ctx k v k' :
  Value (WithValue ctx k v) k' = if bool_decide (k' = k) then Some v else Value ctx k'.
Proof. done. Qed.

(** The factory that the context has for [s] tweaks its lists with the variable. *)
Definition selects_var (selector : addr) (s : string) (ctx : Ctx) (w : InfWorld) : Prop := ∃ a f,
  filtered_factory_Get ctx s = Ok a ∧ iw_Factories w !! a = Some f ∧
  f_tweakListOptions f = Some (λ vars o, set_LabelSelector (default "" (vars !! selector)) o).

Lemma filtered_loop_spec selector c l ctx w :
  (∀ a, (iw_Next w ≤ a)%nat → iw_Factories w !! a = None) →
  ∃ ctx' w', filtered_loop selector c l ctx w = (w', Ok ctx') ∧
    iw_Vars w' !! selector = match last l with Some s => Some s | None => iw_Vars w !! selector end ∧
    ∀ s, s ∈ l ∨ selects_var selector s ctx w → selects_var selector s ctx' w'.
Proof.
  revert ctx w. induction l as [|s l IH]; intros ctx w Hf.
  { exists ctx, w. split_and!; [done..|]. intros s [Hs|Hs]; [by apply elem_of_nil in Hs|done]. }
  cbn. unfold mbind at 1, M_bind at 1. cbn.
  unfold mbind at 1, M_bind at 1. cbn.
  set (opts := namespace_options ctx ++ _).
  set (w1 := mkInfWorld _ _ _ _). set (ctx1 := WithValue ctx _ _).
  destruct (IH ctx1 w1) as (ctx' & w' & He & Hv & Hs).
  { intros a Ha. cbn in *. rewrite lookup_insert_ne by lia. apply Hf. lia. }
  exists ctx', w'. split_and!; [exact He| |].
  - rewrite Hv, last_cons. cbn. rewrite lookup_insert_eq. by destruct (last l).
  - intros s' Hs'. apply Hs. destruct (decide (s' ∈ l)) as [Hl|Hl]; [by left|]. right.
    destruct (decide (s' = s)) as [->|Hne].
    + exists (iw_Next w). eexists. split_and!.
      * unfold filtered_factory_Get, ctx1. by rewrite Value_WithValue, bool_decide_true.
      * cbn. by rewrite lookup_insert_eq.
      * unfold opts. rewrite foldl_app. done.
    + destruct Hs' as [[]%elem_of_cons|(a & f & Hg & Ha & Ht)]; [done..|].
      exists a, f. split_and!; [|cbn; rewrite lookup_insert_ne; [done|]|done].
      * unfold filtered_factory_Get, ctx1. rewrite Value_WithValue, bool_decide_false by congruence. done.
      * intros <-. rewrite Hf in Ha; [done|lia].
Qed.

(** The filtered informers all select with one selector: the factories that the
    context has for the selectors of its list share the variable of the loop that
    made them, so each, also the one that is asked for by another selector, lists
    and watches the objects of the last selector of the list. *)
Theorem filtered_last_selector ctx w c sels s0 :
  (∀ a, (iw_Next w ≤ a)%nat → iw_Factories w !! a = None) →
  client_Get ctx = Ok c → labelSelectors ctx = Ok (sels ++ [s0]) →
  ∃ ctx' w', filtered_withInformerFactory ctx w = (w', Ok ctx') ∧
    ∀ s, s ∈ sels ++ [s0] → ∃ a ci,
      filtered_factory_Get ctx' s = Ok a ∧
      Cosigned_V1alpha1_ClusterImagePolicies a w' = (w', Ok ci) ∧
      ∀ options, tweaked (ci_tweakListOptions ci) (iw_Vars w') options = set_LabelSelector s0 options.
Proof.
  intros Hf Hc Hl. unfold filtered_withInformerFactory. rewrite Hc, Hl.
  unfold mbind, M_bind, lift. cbn.
  set (w1 := mkInfWorld _ _ _ _).
  destruct (filtered_loop_spec (iw_Next w) c (sels ++ [s0]) ctx w1) as (ctx' & w' & He & Hv & Hs).
  { intros a Ha. apply Hf. cbn in Ha. lia. }
  exists ctx', w'. split; [done|]. intros s Hin. destruct (Hs s (or_introl Hin)) as (a & f & Hg & Ha & Ht).
  exists a, (mkPolicyInformer a (f_tweakListOptions f)). split_and!; [done| |].
  - unfold Cosigned_V1alpha1_ClusterImagePolicies. unfold mbind, M_bind.
    by rewrite (factory_at_run _ _ _ Ha).
  - intros o. cbn. rewrite Ht. cbn. by rewrite Hv, last_snoc.
Qed.
End injection.

(** ** A process with two factories *)
Section witnesses.

#[local] Instance toy_Informer : InformerExt (CX := toy_Client) := {|
  Indexer := list Policy; Selector := string; labels_Everything := ""; Selector_String := id;
  Requirements := string; labels_ParseToRequirements := λ s, Ok s; Selector_Add := λ s r, s +:+ "," +:+ r;
  indexer_GetByKey := λ ps n, Ok (Some <$> List.find (λ p, p_Name p =?s n) ps);
  cache_ListAll := λ ps _, Ok (Some <$> ps);
  inf_GetIndexer := λ _, [toy_policy "policy"];
  cache_WaitForCacheSync := λ _, true |}.

Definition toy_interface : Interface (CX := toy_Client) := i_wrapClient (CX := toy_Client) ().
Definition toy_ctx : Ctx :=
  WithSelectors (mkCtx None None None 0 "" [(key_client, cv_client toy_interface)]) ["app=a"; "app=b"].

Definition toy_made : InfWorld := fst (NewSharedInformerFactory toy_interface 0 start_of).
Definition toy_asked : InfWorld :=
  fst (Informer (mkPolicyInformer 0%nat None) toy_made).

Lemma informers_shared_witness :
  snd (Informer (mkPolicyInformer 0%nat None) toy_made) = Ok 1%nat ∧
  (∃ w', Start 0%nat toy_asked = (w', Ok ()) ∧ ∃ inf, iw_Informers w' !! 1%nat = Some inf ∧ inf_Runs inf = 1%nat) ∧
  (∀ i inf, iw_Informers toy_asked !! i = Some inf → (inf_Runs inf ≤ 1)%nat).
Proof.
  assert (Hm : rtc fstep start_of toy_made).
  { apply rtc_once. by apply (step_New _ toy_interface 0 [] _ (Ok 0%nat)). }
  assert (Ha : rtc fstep start_of toy_asked).
  { eapply rtc_r; [exact Hm|].
    by apply (step_InformerFor _ 0%nat policy_Type (λ c, Some (c, None)) ["namespace"] _ (Ok 1%nat)). }
  split; [reflexivity|].
  destruct (informers_shared toy_asked Ha) as (H1 & H2 & _). split; [|exact H1].
  destruct (H2 0%nat _ eq_refl) as (w' & Hs & Hr). exists w'. split; [exact Hs|].
  by apply (Hr policy_Type).
Defined.

Lemma filtered_last_selector_witness :
  ∃ ctx' w', filtered_withInformerFactory toy_ctx start_of = (w', Ok ctx') ∧
    ∃ a ci, filtered_factory_Get ctx' "app=a" = Ok a ∧
      Cosigned_V1alpha1_ClusterImagePolicies a w' = (w', Ok ci) ∧
      lo_LabelSelector (tweaked (ci_tweakListOptions ci) (iw_Vars w') no_ListOptions) = "app=b".
Proof.
  destruct (filtered_last_selector toy_ctx start_of toy_interface ["app=a"] "app=b")
    as (ctx' & w' & He & Hs); [intros; apply lookup_empty|reflexivity|reflexivity|].
  exists ctx', w'. split; [exact He|].
  destruct (Hs "app=a") as (a & ci & Hg & Hci & Ht); [by left|].
  exists a, ci. split_and!; [exact Hg|exact Hci|by rewrite Ht].
Defined.
End witnesses.
