(* ===== verification/ControllerSetup.v ===== *)
(** * Setting up the controller, and what it notices

    pkg/client/injection/reconciler/cosigned/v1alpha1/clusterimagepolicy
    (controller.go's NewImpl, reconciler.go's NewReconciler) and
    pkg/reconciler/clusterimagepolicy/controller.go (NewController), which hook the
    reconciler of [Reconciler] to the informers of [Informers].

    The work queue and the tracker of knative, and its handlers and filters, are
    parameters ([KnativeExt]) with the laws of their documentation.  The theorems
    say that nothing that a policy depends on changes without the policy being
    queued: the policy itself, the secrets that it names, the config map; and that a
    new leader queues every policy. *)
From S2P Require Import Prelude GoStd External Concrete OciSignature OciSignatures OciEntity.
From S2P Require Import OciRemote Tuf Tlog Ctl Verify Keys Policy Webhook Reconciler.
From S2P Require Import Clients Informers.

Record NamespacedName := mkNN { nn_Namespace : string; nn_Name : string }.

(** An object as the handlers of the informers look at it. *)
Record K8sObject := mkObj {
  ob_APIVersion : string; ob_Kind : string; ob_Namespace : string; ob_Name : string }.
Definition ref_of (o : K8sObject) : TrackerRef :=
  mkTrackerRef (ob_APIVersion o) (ob_Kind o) (ob_Namespace o) (ob_Name o).

(** What an informer tells a handler. *)
Inductive Notification (O : Type) :=
  | n_Add (o : O) | n_Update (old new : O) | n_Delete (o : O).
Arguments n_Add {_}. Arguments n_Update {_}. Arguments n_Delete {_}.
Definition subject {O} (n : Notification O) : O :=
  match n with n_Add o | n_Delete o => o | n_Update _ new => new end.

Class KnativeExt := {
  ConfigStore : Type; DemoteFunc : Type; Recorder : Type;
  (* controller.Impl: its queue and its tracker *)
  Impl : Type;
  controller_NewContext : string → Impl;
  impl_Enqueue : NamespacedName → Impl → Impl;
  impl_GlobalResync : list NamespacedName → Impl → Impl;
  Tracker_TrackReference : TrackerRef → NamespacedName → Impl → Impl;
  Tracker_OnChanged : K8sObject → Impl → Impl;
  HandleAll : ∀ {O}, (O → Impl → Impl) → Notification O → Impl → Impl;
  FilteringResourceEventHandler : ∀ {O}, (O → bool) → (Notification O → Impl → Impl) →
    Notification O → Impl → Impl;
  EnsureTypeMeta : (K8sObject → Impl → Impl) → GroupVersionKind → K8sObject → Impl → Impl;
  ChainFilterFuncs : list (K8sObject → bool) → K8sObject → bool;
  NamespaceFilterFunc : string → K8sObject → bool;
  NameFilterFunc : string → K8sObject → bool;
  record_NewRecorder : string → Recorder;
  (* what is observed of an Impl *)
  queued : Impl → NamespacedName → Prop;
  tracks : Impl → TrackerRef → NamespacedName → Prop }.

(** The documentation of knative and client-go: Enqueue takes the key of an object,
    GlobalResync enqueues all objects of the informer; TrackReference makes the tracker
    hold a reference for the key of an object (until its lease ends), and OnChanged
    enqueues the keys for which it holds one to the object; HandleAll treats all three kinds of notification alike, with the new
    object of an update; a filter lets through what it accepts; EnsureTypeMeta sets
    the kind of the objects it passes on. *)
Class KnativeLaws `{KN : KnativeExt} := {
  enqueued k i : queued (impl_Enqueue k i) k;
  resynced ks i k : k ∈ ks → queued (impl_GlobalResync ks i) k;
  referenced r k i : tracks (Tracker_TrackReference r k i) r k;
  reference_kept r k r' k' i : tracks i r k → tracks (Tracker_TrackReference r' k' i) r k;
  on_changed o i k : tracks i (ref_of o) k → queued (Tracker_OnChanged o i) k;
  handled {O} (h : O → Impl → Impl) n i : HandleAll h n i = h (subject n) i;
  filtered_in {O} (f : O → bool) h n i : f (subject n) = true →
    (∀ old new, n = n_Update old new → f old = true) →
    FilteringResourceEventHandler f h n i = h n i;
  filtered_out {O} (f : O → bool) h n i : f (subject n) = false →
    (∀ old new, n = n_Update old new → f old = false) →
    FilteringResourceEventHandler f h n i = i;
  type_ensured f k o i :
    EnsureTypeMeta f k o i =
      f (mkObj ((if gvk_Group k =?s "" then "" else gvk_Group k +:+ "/") +:+ gvk_Version k) (gvk_Kind k)
           (ob_Namespace o) (ob_Name o)) i;
  chained fs o : ChainFilterFuncs fs o = forallb (λ f, f o) fs;
  in_namespace ns o : NamespaceFilterFunc ns o = (ob_Namespace o =?s ns);
  by_name n o : NameFilterFunc n o = (ob_Name o =?s n) }.

Section setup.
Context `{IX : InformerExt, KN : KnativeExt, R : Registry, K : !Kube, E : !ReconcileExt}.

(** ** controller.go and reconciler.go of the generated controller *)

Definition defaultControllerAgentName : string := "clusterimagepolicy-controller".
Definition defaultFinalizerName : string := "clusterimagepolicies.cosigned.sigstore.dev".

(** controller.Options *)
Record Options := mkOptions {
  op_ConfigStore : option ConfigStore; op_FinalizerName : string; op_AgentName : string;
  op_DemoteFunc : option DemoteFunc; op_PromoteFilterFunc : option (Policy → bool) }.

(** The lister of an informer. *)
Inductive PolicyLister :=
  | pl_indexer (i : Indexer)
  | pl_wrapper (client : Interface) (resourceVersion : string)
  | pl_filtered (client : Interface) (selector : string).
Definition Lister (i : PolicyInformer) : M InfWorld PolicyLister :=
  match i with
  | pi_shared ci => a ← Informer ci; mret (pl_indexer (inf_GetIndexer a))
  | pi_wrapper c rv => mret (pl_wrapper c rv)
  | pi_filtered c s => mret (pl_filtered c s)
  end.
Definition Lister_List (l : PolicyLister) (selector : Selector) : M ClientWorld (list Policy) :=
  match l with
  | pl_indexer i => lift (lister_List i selector)
  | pl_wrapper c rv => wrapper_List c rv selector
  | pl_filtered c s => filtered_List c s selector
  end.

Record reconcilerImpl := mkReconcilerImpl {
  ri_Client : Interface; ri_Lister : PolicyLister; ri_Recorder : option Recorder;
  ri_configStore : option ConfigStore; ri_finalizerName : string;
  ri_DemoteFunc : option DemoteFunc; ri_promoteFilter : option (Policy → bool) }.

Definition key_of (elt : Policy) : NamespacedName := mkNN (p_Namespace elt) (p_Name elt).
(** The loop of PromoteFunc: the keys that it enqueues, in order. *)
Fixpoint promote_each (filter : option (Policy → bool)) (all : list Policy) : list NamespacedName :=
  match all with
  | [] => []
  | elt :: all =>
      match filter with
      | Some f => if f elt then key_of elt :: promote_each filter all else promote_each filter all
      | None => key_of elt :: promote_each filter all
      end
  end.
Definition PromoteFunc (r : reconcilerImpl) : M ClientWorld (list NamespacedName) :=
  all ← Lister_List (ri_Lister r) labels_Everything; mret (promote_each (ri_promoteFilter r) all).

(** What an option that is set overrides. *)
Definition apply_options (r : reconcilerImpl) (opts : Options) : reconcilerImpl :=
  mkReconcilerImpl (ri_Client r) (ri_Lister r) (ri_Recorder r)
    (match op_ConfigStore opts with Some s => Some s | None => ri_configStore r end)
    (if op_FinalizerName opts =?s "" then ri_finalizerName r else op_FinalizerName opts)
    (match op_DemoteFunc opts with Some d => Some d | None => ri_DemoteFunc r end)
    (ri_promoteFilter r).
Definition set_promoteFilter (r : reconcilerImpl) (opts : Options) : reconcilerImpl :=
  mkReconcilerImpl (ri_Client r) (ri_Lister r) (ri_Recorder r) (ri_configStore r) (ri_finalizerName r)
    (ri_DemoteFunc r)
    (match op_PromoteFilterFunc opts with Some f => Some f | None => ri_promoteFilter r end).

(** NewReconciler takes the options themselves and has no filter for promotions. *)
Definition NewReconciler (client : Interface) (lister : PolicyLister) (recorder : Recorder)
    (leaderAware : bool) (options : list Options) : res reconcilerImpl :=
  if bool_decide (1 < length options) then Panic "Up to one options struct is supported"
  else if leaderAware then Panic "implements the incorrect LeaderAware interface"
  else Ok (foldl apply_options
             (mkReconcilerImpl client lister (Some recorder) None defaultFinalizerName None None) options).

Definition createRecorder (ctx_Recorder : option Recorder) (agentName : string) : Recorder :=
  match ctx_Recorder with Some r => r | None => record_NewRecorder agentName end.

Definition agent_name (opts : list Options) : string :=
  foldl (λ name o, if op_AgentName o =?s "" then name else op_AgentName o) defaultControllerAgentName opts.

(** NewImpl, for a reconciler whose type has the given name.  The filter is a variable
    that PromoteFunc reads when it runs, after the options were applied. *)
Definition NewImpl (ctx : Ctx) (ctx_Recorder : option Recorder) (ctrTypeName : string)
    (optionsFns : list (Impl → Options)) : M InfWorld (reconcilerImpl * Impl) :=
  if bool_decide (1 < length optionsFns) then
    lift (Panic "Up to one options function is supported")
  else
    clusterimagepolicyInformer ← lift (informer_Get ctx);
    lister ← Lister clusterimagepolicyInformer;
    client ← lift (client_Get ctx);
    let impl := controller_NewContext ctrTypeName in
    let opts := (λ fn, fn impl) <$> optionsFns in
    let rec := foldl (λ r o, set_promoteFilter (apply_options r o) o)
                 (mkReconcilerImpl client lister None None defaultFinalizerName None None) opts in
    mret (mkReconcilerImpl (ri_Client rec) (ri_Lister rec)
            (Some (createRecorder ctx_Recorder (agent_name opts))) (ri_configStore rec)
            (ri_finalizerName rec) (ri_DemoteFunc rec) (ri_promoteFilter rec), impl).

(** ** NewController *)

Definition finalizerName : string := "clusterimagepolicies.cosigned.sigstore.dev".
Definition ImagePoliciesConfigName : string := "config-image-policies".

(** The handlers that NewController adds to the three informers; the config map's
    takes the policies that the policy informer holds then. *)
Definition on_policy : Notification Policy → Impl → Impl :=
  HandleAll (λ p, impl_Enqueue (key_of p)).
Definition on_secret : Notification K8sObject → Impl → Impl :=
  HandleAll (EnsureTypeMeta Tracker_OnChanged (mkGVK "" "v1" "Secret")).
Definition grCb (policies : list Policy) (obj : K8sObject) : Impl → Impl :=
  impl_GlobalResync (key_of <$> policies).
Definition on_configmap (policies : list Policy) : Notification K8sObject → Impl → Impl :=
  FilteringResourceEventHandler
    (ChainFilterFuncs [NamespaceFilterFunc system_Namespace; NameFilterFunc ImagePoliciesConfigName])
    (HandleAll (grCb policies)).

Definition NewController (ctx : Ctx) (ctx_Recorder : option Recorder) : M InfWorld (reconcilerImpl * Impl) :=
  NewImpl ctx ctx_Recorder "github.com.sigstore.cosign.pkg.reconciler.clusterimagepolicy.Reconciler"
    [λ _, mkOptions None finalizerName "" None None].

(** ** What is queued *)

Lemma promote_each_filter filter all :
  promote_each filter all = key_of <$> match filter with
                                       | Some f => base.filter (λ p, f p) all
                                       | None => all
                                       end.
Proof.
  destruct filter as [f|]; induction all as [|p all IH]; cbn; [done| |done|by rewrite IH].
  destruct (f p); cbn; [by rewrite IH|done].
Qed.

Lemma NewController_made ctx rec w w' r impl :
  NewController ctx rec w = (w', Ok (r, impl)) →
  ri_finalizerName r = finalizerName ∧ ri_promoteFilter r = None ∧
  ri_Recorder r = Some (createRecorder rec defaultControllerAgentName) ∧
  client_Get ctx = Ok (ri_Client r) ∧
  ∃ i, informer_Get ctx = Ok i ∧ Lister i w = (w', Ok (ri_Lister r)).
Proof.
  unfold NewController, NewImpl. cbn. intros H.
  apply M_bind_Ok in H as (w1 & i & Hi & H). apply lift_Ok in Hi as [Hi ->].
  apply M_bind_Ok in H as (w2 & l & Hl & H). apply M_bind_Ok in H as (w3 & c & Hc & H).
  apply lift_Ok in Hc as [Hc ->]. apply M_ret_Ok in H as [[= -> ->] ->]. cbn.
  split_and!; eauto.
Qed.

Context `{KL : !KnativeLaws}.

(** What the controller notices.  Once NewController has set the controller up: any
    notification about a policy queues it; one about a secret, whether or not the
    object carries its kind, queues every policy that tracks it; one about the config
    map of policies queues every policy that is known, and one about another config
    map does nothing; and a replica that becomes the leader queues every policy. *)
Theorem controller_notices ctx rec w w' r impl0 impl :
  NewController ctx rec w = (w', Ok (r, impl0)) →
  (∀ n, queued (on_policy n impl) (key_of (subject n))) ∧
  (∀ n k, tracks impl (mkTrackerRef "v1" "Secret" (ob_Namespace (subject n)) (ob_Name (subject n))) k →
     queued (on_secret n impl) k) ∧
  (∀ ps n, (∀ old new, n = n_Update old new → ob_Namespace old = ob_Namespace new ∧ ob_Name old = ob_Name new) →
     if bool_decide (ob_Namespace (subject n) = system_Namespace ∧ ob_Name (subject n) = ImagePoliciesConfigName)
     then ∀ p, p ∈ ps → queued (on_configmap ps n impl) (key_of p)
     else on_configmap ps n impl = impl) ∧
  (∀ cw cw' ps, Lister_List (ri_Lister r) labels_Everything cw = (cw', Ok ps) →
     PromoteFunc r cw = (cw', Ok (key_of <$> ps))).
Proof.
  intros Hc. destruct (NewController_made _ _ _ _ _ _ Hc) as (_ & Hf & _). split_and!.
  - intros n. unfold on_policy. rewrite handled. apply enqueued.
  - intros n k Ht. unfold on_secret. rewrite handled, type_ensured. by apply on_changed.
  - intros ps n Hsame.
    assert (Hflt : ∀ o, ChainFilterFuncs [NamespaceFilterFunc system_Namespace;
      NameFilterFunc ImagePoliciesConfigName] o =
      bool_decide (ob_Namespace o = system_Namespace ∧ ob_Name o = ImagePoliciesConfigName)).
    { intros o. rewrite chained. cbn. rewrite in_namespace, by_name, andb_true_r, bool_decide_and. done. }
    unfold on_configmap. case_bool_decide as Hd.
    + intros p Hp. rewrite filtered_in, handled; [by apply resynced, list_elem_of_fmap_2| |].
      * rewrite Hflt. by apply bool_decide_true.
      * intros old new ->. rewrite Hflt. apply bool_decide_true.
        destruct (Hsame _ _ eq_refl) as [-> ->]. exact Hd.
    + apply filtered_out; [rewrite Hflt; by apply bool_decide_false|].
      intros old new ->. rewrite Hflt. apply bool_decide_false.
      destruct (Hsame _ _ eq_refl) as [-> ->]. exact Hd.
  - intros cw cw' ps Hl. unfold PromoteFunc. unfold mbind, M_bind. rewrite Hl.
    unfold mret, M_ret. by rewrite promote_each_filter, Hf.
Qed.
End setup.

(** ** The secrets of a policy *)
Section secrets.
Context `{X : Ext, KX : KeyExt, R : Registry, J : !PolicyJson, K : !Kube, E : !ReconcileExt}.

Definition ref_secrets (k : option v1alpha1.KeyRef) : list string :=
  match k with
  | Some k => match v1alpha1.SecretRef k with Some s => [s] | None => [] end
  | None => []
  end.
(** The secrets that a policy names, in the order in which they are read. *)
Definition authority_secrets (a : v1alpha1.Authority) : list string :=
  ref_secrets (v1alpha1.Key a) ++ ref_secrets (v1alpha1.Keyless a ≫= v1alpha1.CACert).
Definition policy_secrets (cip : v1alpha1.ClusterImagePolicy) : list string :=
  concat (authority_secrets <$> v1alpha1.Authorities (v1alpha1.Spec cip)).

(** One entry, a valid key. *)
Definition usable (s : string) : Prop := ∃ k v,
  secret_Get s = Ok {[k := v]} ∧ IsValidKey v = true.
(** A failure that is none of a secret's: the tracker, a lookup that panics, or the
    KMS of a key that an authority names. *)
Definition secret_fails (cip s : string) : Prop :=
  is_ok (tracker_TrackReference (secret_reference s) cip) = false ∨ is_panic (secret_Get s) = true.
Definition authority_fails (cip : string) (a : v1alpha1.Authority) : Prop :=
  (∃ s, s ∈ authority_secrets a ∧ secret_fails cip s) ∨
  (∃ k, v1alpha1.Key a = Some k ∧ strings_Contains (v1alpha1.KMS k) "://" = true ∧
        is_ok (getKMSPublicKey (v1alpha1.KMS k)) = false).
Definition other_failure (cip : v1alpha1.ClusterImagePolicy) : Prop := ∃ a,
  a ∈ v1alpha1.Authorities (v1alpha1.Spec cip) ∧ authority_fails (v1alpha1.cip_Name cip) a.

(** The references that the policy [cip] makes to secrets. *)
Definition references (cip : string) (secrets : list string) : list (TrackerRef * string) :=
  (λ s, (mkTrackerRef "v1" "Secret" system_Namespace s, cip)) <$> secrets.

(** A run of [m] tracks the secrets [refs]: all of them if it succeeds, and one that
    cannot be used if it fails, unless [F] is the reason. *)
Definition tracks_all {A} (cip : string) (F : Prop) (refs : list string) (m : M Cluster A) : Prop := ∀ w, ∃ new,
  cl_Tracked (fst (m w)) = references cip new ++ cl_Tracked w ∧ (∀ s, s ∈ new → s ∈ refs) ∧
  match snd (m w) with
  | Ok _ => ∀ s, s ∈ refs → s ∈ new
  | _ => (∃ s, s ∈ new ∧ ¬ usable s) ∨ F
  end.

Lemma tracks_all_ret {A} cip F (a : A) : tracks_all cip F [] (mret a).
Proof. intros w. exists []. cbn. by split_and!. Qed.
Lemma tracks_all_weaken {A} cip (F F' : Prop) refs (m : M Cluster A) :
  (F → F') → tracks_all cip F refs m → tracks_all cip F' refs m.
Proof.
  intros HF Hm w. destruct (Hm w) as (new & Hn & Hsub & Ho). exists new. split_and!; [done|done|].
  destruct (snd (m w)); naive_solver.
Qed.
Lemma tracks_all_bind {A B} cip F refs refs' (m : M Cluster A) (f : A → M Cluster B) :
  tracks_all cip F refs m → (∀ w w' a, m w = (w', Ok a) → tracks_all cip F refs' (f a)) →
  tracks_all cip F (refs ++ refs') (m ≫= f).
Proof.
  intros Hm Hf w. destruct (Hm w) as (new & Hn & Hsub & Ho). unfold mbind, M_bind.
  destruct (m w) as [w1 [a|e|x]] eqn:Hmw; cbn in *.
  - destruct (Hf _ _ _ Hmw w1) as (new' & Hn' & Hsub' & Ho'). exists (new' ++ new).
    split_and!; [by rewrite Hn', Hn, app_assoc; unfold references; rewrite fmap_app|set_solver|].
    destruct (snd (f a w1)); [set_solver|..];
      (destruct Ho' as [(s & ? & ?)|?]; [left; exists s; set_solver|by right]).
  - exists new. split_and!; [done|set_solver|done].
  - exists new. split_and!; [done|set_solver|done].
Qed.
Lemma tracks_all_fmap {A B} cip F refs (m : M Cluster A) (f : A → B) :
  tracks_all cip F refs m → tracks_all cip F refs (a ← m; mret (f a)).
Proof.
  intros Hm. rewrite <- (app_nil_r refs). apply tracks_all_bind; [done|]. intros. apply tracks_all_ret.
Qed.

(** The entries of a secret's data are inlined only when each is a valid key. *)
Lemma inline_entries_usable s k v keyref :
  secret_Get s = Ok {[k := v]} → is_ok (inline_entries s [(k, v)] keyref) = false → ¬ usable s.
Proof.
  intros Hs Hf (k' & v' & Hs' & Hv).
  assert (Heq : ({[k := v]} : gmap string bytes) = {[k' := v']}) by congruence.
  assert (({[k := v]} : gmap string bytes) !! k' = Some v') as [<- <-]%lookup_singleton_Some.
  { rewrite Heq. apply lookup_singleton_eq. }
  cbn in Hf. by rewrite Hv in Hf.
Qed.

Lemma tracks_secret cip name k :
  tracks_all cip (secret_fails cip name) [name] (inlineAndTrackSecret cip name k).
Proof.
  intros w. unfold inlineAndTrackSecret, tracked_secret_data. unfold mbind, M_bind, lift. cbn.
  destruct (tracker_TrackReference _ _) as [[]|e|x] eqn:Ht; cbn.
  2,3: exists []; split_and!; [done|set_solver|right; left; by rewrite Ht].
  destruct (secret_Get name) as [data|e|x] eqn:Hs; cbn.
  - destruct (decide (size data = 1)) as [H1|H1].
    + rewrite !bool_decide_false by lia. cbn.
      destruct (size_1_singleton _ H1) as (k0 & v0 & ->). rewrite map_to_list_singleton.
      exists [name]. destruct (inline_entries name [(k0, v0)] k) eqn:Hi; cbn.
      * split_and!; [done|set_solver|set_solver].
      * split_and!; [done|set_solver|]. left. exists name. split; [set_solver|].
        eapply inline_entries_usable; [done|]. by rewrite Hi.
      * split_and!; [done|set_solver|]. left. exists name. split; [set_solver|].
        eapply inline_entries_usable; [done|]. by rewrite Hi.
    + assert (Hu : ¬ usable name).
      { intros (k' & v' & Hs' & _). assert (data = {[k' := v']}) as -> by congruence.
        apply H1. by rewrite map_size_singleton. }
      exists [name]. destruct (bool_decide_reflect (size data = 0));
        [|rewrite bool_decide_true by lia];
        (split_and!; [done|set_solver|]; left; exists name; split; [set_solver|done]).
  - exists [name]. split_and!; [done|set_solver|]. left. exists name. split; [set_solver|].
    intros (? & ? & Hs' & _). by rewrite Hs in Hs'.
  - exists [name]. split_and!; [done|set_solver|]. right. right. by rewrite Hs.
Qed.

Lemma tracks_ref cip k :
  tracks_all cip (∃ s, s ∈ ref_secrets k ∧ secret_fails cip s) (ref_secrets k) (inline_ref cip k).
Proof.
  destruct k as [k|]; cbn; [|apply tracks_all_ret].
  destruct (v1alpha1.SecretRef k) as [s|]; [|apply tracks_all_ret].
  apply tracks_all_fmap. eapply tracks_all_weaken, tracks_secret. exists s. set_solver.
Qed.

(** Inlining a secret keeps the KMS reference. *)
Lemma inline_entries_KMS name data k k' : inline_entries name data k = Ok k' → v1alpha1.KMS k' = v1alpha1.KMS k.
Proof.
  revert k. induction data as [|[? v] data IH]; intros k; cbn; [by intros [= <-]|].
  destruct (negb _); [done|]. intros H. by rewrite (IH _ H).
Qed.
Lemma inline_ref_KMS cip o w w' o' : inline_ref cip o w = (w', Ok o') → v1alpha1.KMS <$> o' = v1alpha1.KMS <$> o.
Proof.
  destruct o as [k|]; cbn; [|by intros [= _ <-]].
  destruct (v1alpha1.SecretRef k) as [s|]; [|by intros [= _ <-]].
  intros H. M_inv. unfold inlineAndTrackSecret in *. M_inv. cbn. f_equal. by eapply inline_entries_KMS.
Qed.

Lemma tracks_kms cip o :
  tracks_all cip (∃ k, o = Some k ∧ strings_Contains (v1alpha1.KMS k) "://" = true ∧
                   is_ok (getKMSPublicKey (v1alpha1.KMS k)) = false) []
    (lift (W := Cluster) (inline_kms o)).
Proof.
  intros w. exists []. split_and!; [done|done|]. cbn. destruct o as [k|]; cbn; [|done].
  destruct (negb _ && _) eqn:Hb; [|done]. apply andb_true_iff in Hb as [_ Hb].
  destruct (getKMSPublicKey (v1alpha1.KMS k)) eqn:Hk; cbn; [done|..].
  all: right; exists k; by rewrite Hk.
Qed.

Lemma tracks_authority cip a :
  tracks_all cip (authority_fails cip a) (authority_secrets a) (inline_authority cip a).
Proof.
  unfold inline_authority. unfold authority_secrets at 1. apply tracks_all_bind.
  { eapply tracks_all_weaken, tracks_ref. intros (s & ? & ?). left. exists s. unfold authority_secrets. set_solver. }
  intros w w' key Hkey. rewrite <- (app_nil_r (ref_secrets _)). apply tracks_all_bind.
  - destruct (v1alpha1.Keyless a) as [kl|] eqn:Hkl; cbn; [|apply tracks_all_ret].
    apply tracks_all_fmap. eapply tracks_all_weaken, tracks_ref. intros (s & ? & ?).
    left. exists s. unfold authority_secrets. rewrite Hkl. set_solver.
  - intros ? ? kl _. apply tracks_all_fmap. eapply tracks_all_weaken, tracks_kms.
    intros (k & -> & Hs & Hf). apply inline_ref_KMS in Hkey.
    destruct (v1alpha1.Key a) as [k0|] eqn:Hk0; [|done]. cbn in Hkey. injection Hkey as Heq.
    right. exists k0. rewrite <- Heq. done.
Qed.

Lemma tracks_inline cip :
  tracks_all (v1alpha1.cip_Name cip) (other_failure cip) (policy_secrets cip) (inlinePublicKeys cip).
Proof.
  unfold policy_secrets, inlinePublicKeys, other_failure. apply tracks_all_fmap.
  induction (v1alpha1.Authorities (v1alpha1.Spec cip)) as [|a l IH]; cbn; [apply tracks_all_ret|].
  apply tracks_all_bind.
  - eapply tracks_all_weaken, tracks_authority. exists a. split; [by left|done].
  - intros ? ? a' _. apply tracks_all_fmap. eapply tracks_all_weaken, IH.
    intros (a0 & ? & ?). exists a0. split; [by right|done].
Qed.

(** Publishing does not touch the tracker. *)
Definition keeps_tracked {A} (m : M Cluster A) : Prop := ∀ w, cl_Tracked (fst (m w)) = cl_Tracked w.
Lemma keeps_tracked_ret {A} (a : A) : keeps_tracked (mret a).
Proof. done. Qed.
Lemma keeps_tracked_lift {A} (r : res A) : keeps_tracked (lift r).
Proof. done. Qed.
Lemma keeps_tracked_reads {A} (f : Cluster → res A) : keeps_tracked (reads f).
Proof. done. Qed.
Lemma keeps_tracked_set cm : keeps_tracked (modify (set_ConfigMap cm)).
Proof. done. Qed.
Lemma keeps_tracked_bind {A B} (m : M Cluster A) (f : A → M Cluster B) :
  keeps_tracked m → (∀ a, keeps_tracked (f a)) → keeps_tracked (m ≫= f).
Proof.
  intros Hm Hf w. specialize (Hm w). unfold mbind, M_bind. destruct (m w) as [w1 []]; cbn in *; [|done..].
  by rewrite Hf.
Qed.
Lemma keeps_tracked_try {A} (m : M Cluster A) : keeps_tracked m → keeps_tracked (M_try m).
Proof. intros Hm w. specialize (Hm w). unfold M_try. by destruct (m w) as [? []]. Qed.
Create HintDb tracked discriminated.
#[local] Hint Resolve keeps_tracked_ret keeps_tracked_lift keeps_tracked_reads keeps_tracked_set
  keeps_tracked_bind keeps_tracked_try : tracked.

Lemma keeps_tracked_apply p : keeps_tracked (apply_patch p).
Proof. unfold apply_patch, patch. destruct (bool_decide _); auto with tracked. Qed.
#[local] Hint Resolve keeps_tracked_apply : tracked.
Lemma keeps_tracked_error name : keeps_tracked (handleCIPError name).
Proof.
  unfold handleCIPError, configmaplister_Get, removeCIPEntry. apply keeps_tracked_bind; [auto with tracked|].
  intros []; auto with tracked.
Qed.
Lemma keeps_tracked_publish name cip : keeps_tracked (publish name cip).
Proof.
  unfold publish, configmaplister_Get. apply keeps_tracked_bind; [auto with tracked|].
  intros []; [auto with tracked| |auto with tracked].
  destruct (negb _); unfold create; auto with tracked.
Qed.

(** However a run of the reconciler ends, it has tracked all secrets of the policy,
    or one that cannot be used, or something else than a secret failed. *)
Lemma reconcile_tracks cip w w' r :
  ReconcileKind cip w = (w', r) →
  ∃ new, cl_Tracked w' = references (v1alpha1.cip_Name cip) new ++ cl_Tracked w ∧
    ((∀ s, s ∈ policy_secrets cip → s ∈ new) ∨
     (∃ s, s ∈ policy_secrets cip ∧ s ∈ new ∧ ¬ usable s) ∨ other_failure cip).
Proof.
  intros H. destruct (tracks_inline cip w) as (new & Hn & Hsub & Ho). exists new.
  assert (Hw : cl_Tracked w' = cl_Tracked (fst (inlinePublicKeys cip w))).
  { unfold ReconcileKind in H. unfold mbind at 1, M_bind at 1, M_try in H.
    destruct (inlinePublicKeys cip w) as [w1 [cip'|e|x]]; cbn.
    - rewrite <- (keeps_tracked_publish (v1alpha1.cip_Name cip)
        (webhookcip.ConvertClusterImagePolicyV1alpha1ToWebhook cip') w1), H. done.
    - rewrite <- (keeps_tracked_error (v1alpha1.cip_Name cip) w1). unfold mbind, M_bind in H.
      destruct (handleCIPError _ w1) as [? []]; by injection H as <- <-.
    - by injection H as <- <-. }
  rewrite Hw, Hn. split; [done|].
  destruct (snd (inlinePublicKeys cip w)); [by left|..]; right;
    (destruct Ho as [(s & ? & ?)|?]; [left; exists s; auto|by right]).
Qed.
End secrets.

Section requeue.
Context `{X : Ext, KX : KeyExt, R : Registry, J : !PolicyJson, K : !Kube, E : !ReconcileExt}.
Context `{IX : InformerExt, KN : KnativeExt, KL : !KnativeLaws}.

(** The tracker after the calls of TrackReference that a run made: each for the object
    of the policy, which is in no namespace. *)
Definition tracked_by (impl : Impl) (new : list (TrackerRef * string)) : Impl :=
  foldr (λ '(ref, cip), Tracker_TrackReference ref (mkNN "" cip)) impl new.

Lemma tracked_by_tracks impl new ref cip :
  (ref, cip) ∈ new → tracks (tracked_by impl new) ref (mkNN "" cip).
Proof.
  induction new as [|[ref' cip'] new IH]; [by intros ?%elem_of_nil|].
  intros [[= -> ->]|Hin]%elem_of_cons; cbn; [apply referenced|]. by apply reference_kept, IH.
Qed.

(** C12: changes of secrets reach the policies.  However a reconciliation of a policy
    ended, and unless a call of the tracker, a panic or a KMS was the reason: while the
    tracker holds the references that the run made, a notification about any secret of
    the system namespace that the policy names queues the key of the policy again; or,
    when the reconciliation stopped at a secret that is missing or holds no single
    valid key, a notification about that secret does. *)
Theorem secret_changes_requeue cip w w' r impl :
  ReconcileKind cip w = (w', r) → ¬ other_failure cip →
  ∃ new, cl_Tracked w' = new ++ cl_Tracked w ∧
  let requeues s := ∀ n, ob_Namespace (subject n) = system_Namespace → ob_Name (subject n) = s →
    queued (on_secret n (tracked_by impl new)) (mkNN "" (v1alpha1.cip_Name cip)) in
  ((∀ s, s ∈ policy_secrets cip → requeues s) ∨
   (∃ s, s ∈ policy_secrets cip ∧ ¬ usable s ∧ requeues s)).
Proof.
  intros Hr Hno. destruct (reconcile_tracks _ _ _ _ Hr) as (new & Hn & Ho).
  eexists. split; [exact Hn|]. intros requeues.
  assert (Hq : ∀ s, s ∈ new → requeues s).
  { intros s Hs n Hns Hname. unfold on_secret. rewrite handled, type_ensured.
    apply on_changed. unfold ref_of. cbn. rewrite Hns, Hname. apply tracked_by_tracks.
    unfold references. apply list_elem_of_fmap. by exists s. }
  destruct Ho as [Hall|[(s & ? & ? & ?)|?]]; [left; auto|right; exists s; auto|done].
Qed.
End requeue.

(** ** A controller with a list for its queue *)
Section witnesses.

#[local] Instance toy_Knative : KnativeExt := {|
  ConfigStore := unit; DemoteFunc := unit; Recorder := string;
  Impl := list NamespacedName * list (TrackerRef * NamespacedName);
  controller_NewContext := λ _, ([], []);
  impl_Enqueue := λ k i, (k :: i.1, i.2);
  impl_GlobalResync := λ ks i, (ks ++ i.1, i.2);
  Tracker_TrackReference := λ r k i, (i.1, (r, k) :: i.2);
  Tracker_OnChanged := λ o i,
    ((base.filter (λ t, t.1 = ref_of o) i.2).*2 ++ i.1, i.2);
  HandleAll := λ O h n i, h (subject n) i;
  FilteringResourceEventHandler := λ O f h n i, if f (subject n) then h n i else i;
  EnsureTypeMeta := λ f k o i,
    f (mkObj ((if gvk_Group k =?s "" then "" else gvk_Group k +:+ "/") +:+ gvk_Version k) (gvk_Kind k)
         (ob_Namespace o) (ob_Name o)) i;
  ChainFilterFuncs := λ fs o, forallb (λ f, f o) fs;
  NamespaceFilterFunc := λ ns o, ob_Namespace o =?s ns;
  NameFilterFunc := λ n o, ob_Name o =?s n;
  record_NewRecorder := id;
  queued := λ i k, k ∈ i.1;
  tracks := λ i r k, (r, k) ∈ i.2 |}.

#[local] Instance toy_KnativeLaws : KnativeLaws.
Proof.
  split; cbn.
  - intros k i. by left.
  - intros ks i k Hk. apply elem_of_app. by left.
  - intros r k i. by left.
  - intros r k r' k' i H. by right.
  - intros o i k Ht. apply elem_of_app. left. apply list_elem_of_fmap. exists (ref_of o, k). split; [done|].
    by apply list_elem_of_filter.
  - done.
  - intros O f h n i -> _. done.
  - intros O f h n i -> _. done.
  - done.
  - done.
  - done.
  - done.
Qed.

#[local] Existing Instances toy_Informer toy_Registry toy_Kube toy_Reconcile.

Definition toy_setup_ctx : Ctx :=
  WithValue toy_ctx key_informer (cv_informer (pi_shared (mkPolicyInformer 0%nat None))).

Lemma controller_notices_witness :
  ∃ w' r impl0, NewController toy_setup_ctx None toy_made = (w', Ok (r, impl0)) ∧
    ∀ cw, PromoteFunc r cw = (cw, Ok [mkNN "" "policy"]).
Proof.
  destruct (ok_run (NewController toy_setup_ctx None toy_made)) as (w' & [r impl0] & Hc);
    [vm_compute; reflexivity|].
  exists w', r, impl0. split; [exact Hc|]. intros cw.
  destruct (controller_notices (R := toy_Registry) (E := toy_Reconcile) toy_setup_ctx None toy_made w' r impl0 impl0 Hc) as (_ & _ & _ & Hp).
  apply (Hp cw cw [toy_policy "policy"]).
  destruct (NewController_made _ _ _ _ _ _ Hc) as (_ & _ & _ & _ & i & Hi & Hl).
  injection Hi as <-. injection Hl as _ <-. reflexivity.
Defined.

Definition toy_impl : Impl := ([], []).

Lemma secret_changes_requeue_witness :
  queued (on_secret (n_Delete (mkObj "" "" "cosign-system" "policy-key"))
    (tracked_by toy_impl (cl_Tracked toy_after))) (mkNN "" "policy").
Proof.
  destruct (secret_changes_requeue (X := toy) (KX := toy_Keys) (R := toy_Registry) (J := toy_Json)
    (K := toy_Kube) (E := toy_Reconcile) toy_secret_policy toy_cluster toy_after (Ok ()) toy_impl)
    as (new & Hn & [H|(s & Hs & _ & H)]).
  - exact toy_reconcile.
  - intros (a & [->|[]%elem_of_nil]%elem_of_cons & [(s & _ & [Hs|Hs])|(k & [= <-] & Hs & _)]); done.
  - change (cl_Tracked toy_after = new ++ []) in Hn. rewrite app_nil_r in Hn. rewrite Hn.
    apply (H "policy-key"); [by left|reflexivity|reflexivity].
  - change (cl_Tracked toy_after = new ++ []) in Hn. rewrite app_nil_r in Hn. rewrite Hn.
    apply elem_of_cons in Hs as [->|Hs%elem_of_nil]; [|done]. by apply H.
Defined.
End witnesses.
