(* ===== verification/WebhookMain.v ===== *)
(** * The two webhook processes

    cmd/cosign/webhook/main.go (cosigned: it resolves the tags of workloads and
    admits them) and cmd/cosign/policy_webhook/main.go (it admits policies and runs
    the controller of [ControllerSetup]).

    An admission controller of knative is the record of what the processes pass to
    its constructor; what it does with a request is a parameter ([WebhookExt]) with
    the laws of its documentation.  The main theorem takes a policy from the API to
    the containers of a workload: what was submitted by tag runs by the digest that
    the tag named, and that digest satisfies the policy. *)
From S2P Require Import Prelude GoStd External Concrete OciSignature OciSignatures OciEntity.
From S2P Require Import OciRemote Tuf Tlog Ctl Verify Keys Policy Webhook Reconciler ConfigStore.
From S2P Require Import Clients.

(** webhook.Options *)
Record WebhookOptions := mkWebhookOptions { wo_ServiceName : string; wo_Port : Z; wo_SecretName : string }.
Definition set_Port (p : Z) (o : WebhookOptions) : WebhookOptions :=
  mkWebhookOptions (wo_ServiceName o) p (wo_SecretName o).

Inductive Operation := op_Create | op_Update | op_Delete | op_Connect.
Definition create_or_update (op : Operation) : bool :=
  match op with op_Create | op_Update => true | _ => false end.

(** A workload as the handlers read it: whether it is being deleted, its namespace
    and the pod spec in it. *)
Record Workload := mkWorkload { wl_Deleting : bool; wl_Namespace : string; wl_PodSpec : PodSpec }.
Definition set_PodSpec (ps : PodSpec) (o : Workload) : Workload :=
  mkWorkload (wl_Deleting o) (wl_Namespace o) ps.

(** resourcesemantics.GenericCRD, the types that the processes register. *)
Inductive GenericCRD := crd_Pod | crd_WithPod | crd_CronJob | crd_ClusterImagePolicy.
Inductive AdmissionObject := obj_Workload (o : Workload) | obj_Policy (p : v1alpha1.ClusterImagePolicy).

Section processes.
Context `{X : Ext, TR : TrustRoot, C : CtExt, R : Registry, J : !PolicyJson, K : !Kube, U : !StoreExt}.

(** The context of a request: the configuration under the key of [ConfigStore], the
    operation, and the functions under the keys of duckv1. *)
Record RequestCtx := mkRequestCtx {
  rx_Config : Context_; rx_Operation : Operation;
  rx_PodValidator : option (Context_ → Workload → res FieldError);
  rx_PodSpecValidator : option (Context_ → Workload → res FieldError);
  rx_CronJobValidator : option (Context_ → Workload → res FieldError);
  rx_PodDefaulter : option (Operation → Workload → Workload);
  rx_PodSpecDefaulter : option (Operation → Workload → Workload);
  rx_CronJobDefaulter : option (Operation → Workload → Workload) }.
Definition request (op : Operation) : RequestCtx := mkRequestCtx None op None None None None None None.

(** What validation.NewAdmissionController and defaulting.NewAdmissionController are
    given. *)
Record AdmissionController := mkAdmissionController {
  ac_name : string; ac_path : string; ac_types : list (GroupVersionKind * GenericCRD);
  ac_context : RequestCtx → res RequestCtx; ac_disallowUnknownFields : bool }.

(** ** cmd/cosign/webhook/main.go *)

Definition types : list (GroupVersionKind * GenericCRD) :=
  [ (mkGVK "" "v1" "Pod", crd_Pod);
    (mkGVK "apps" "v1" "ReplicaSet", crd_WithPod);
    (mkGVK "apps" "v1" "Deployment", crd_WithPod);
    (mkGVK "apps" "v1" "StatefulSet", crd_WithPod);
    (mkGVK "apps" "v1" "DaemonSet", crd_WithPod);
    (mkGVK "batch" "v1" "Job", crd_WithPod);
    (mkGVK "batch" "v1" "CronJob", crd_CronJob);
    (mkGVK "batch" "v1beta1" "CronJob", crd_CronJob) ].

(** A validator, as far as it differs between processes: the name of its secret. *)
Record Validator := mkValidator { v_secretName : string }.
Definition NewValidator (secretName : string) : Validator := mkValidator secretName.

Section cosigned.
(** The registry as it is, and what the flags say. *)
Context (reg : Reg) (depth : nat) (fulcioroots : res CertPool) (secretName webhookName : string).

Definition validating_context (store : UntypedStore) (ctx : RequestCtx) : res RequestCtx :=
  let v := NewValidator secretName in
  cfg ← Store_ToContext store (rx_Config ctx);
  let validate f := Some (λ (c : Context_) (o : Workload),
    f (v_secretName v) (FromContext c) (wl_Deleting o) (wl_Namespace o) (wl_PodSpec o)) in
  Ok (mkRequestCtx cfg (rx_Operation ctx)
        (validate (ValidatePod reg depth fulcioroots))
        (validate (ValidatePodSpecable reg depth fulcioroots))
        (validate (ValidateCronJob reg depth fulcioroots))
        (rx_PodDefaulter ctx) (rx_PodSpecDefaulter ctx) (rx_CronJobDefaulter ctx)).
Definition NewValidatingAdmissionController (store : UntypedStore) : AdmissionController :=
  mkAdmissionController webhookName "/validations" types (validating_context store) false.

Definition mutating_context (ctx : RequestCtx) : res RequestCtx :=
  let resolve f := Some (λ (op : Operation) (o : Workload),
    set_PodSpec (f (create_or_update op) (wl_Deleting o) (wl_Namespace o) (wl_PodSpec o)) o) in
  Ok (mkRequestCtx (rx_Config ctx) (rx_Operation ctx)
        (rx_PodValidator ctx) (rx_PodSpecValidator ctx) (rx_CronJobValidator ctx)
        (resolve (ResolvePod reg)) (resolve (ResolvePodSpecable reg)) (resolve (ResolveCronJob reg))).
Definition NewMutatingAdmissionController : AdmissionController :=
  mkAdmissionController webhookName "/mutations" types mutating_context false.
End cosigned.

(** ** cmd/cosign/policy_webhook/main.go *)

Definition policy_types : list (GroupVersionKind * GenericCRD) :=
  [(WithKind SchemeGroupVersion "ClusterImagePolicy", crd_ClusterImagePolicy)].
Definition NewPolicyValidatingAdmissionController (validatingWebhookName : string) : AdmissionController :=
  mkAdmissionController validatingWebhookName "/validating" policy_types (λ ctx, Ok ctx) true.
Definition NewPolicyMutatingAdmissionController (mutatingWebhookName : string) : AdmissionController :=
  mkAdmissionController mutatingWebhookName "/defaulting" policy_types (λ ctx, Ok ctx) true.

(** ** main

    The options are a variable.  WithOptions is given its value; the flag is bound to
    the variable, and sharedmain parses the flags and then serves with the options
    that the context has. *)
Record Process := mkProcess { pr_component : string; pr_options : WebhookOptions; pr_controllers : list string }.

Definition run_main (opts : WebhookOptions) (component : string) (controllers : list string)
    (secure_port : option Z) : WebhookOptions * Process :=
  let ctx_options := opts in                                   (* webhook.WithOptions(ctx, opts) *)
  let opts := match secure_port with Some p => set_Port p opts | None => opts end in (* flag.Parse *)
  (opts, mkProcess component ctx_options controllers).

Definition cosigned_main : option Z → WebhookOptions * Process :=
  run_main (mkWebhookOptions "webhook" 8443 "webhook-certs") "cosigned"
    ["certificates.NewController"; "NewValidatingAdmissionController"; "NewMutatingAdmissionController"].
Definition policy_webhook_main : option Z → WebhookOptions * Process :=
  run_main (mkWebhookOptions "policy-webhook" 8443 "policy-webhook-certs") "clusterimagepolicy"
    ["certificates.NewController"; "clusterimagepolicy.NewController";
     "NewPolicyValidatingAdmissionController"; "NewPolicyMutatingAdmissionController"].

(** The flag --secure-port has no effect: the variable gets its value, but both
    processes serve on 8443, the port that was copied before the flag was bound. *)
Theorem secure_port_ignored p :
  wo_Port (fst (cosigned_main (Some p))) = p ∧ wo_Port (pr_options (snd (cosigned_main (Some p)))) = 8443%Z ∧
  wo_Port (fst (policy_webhook_main (Some p))) = p ∧
  wo_Port (pr_options (snd (policy_webhook_main (Some p)))) = 8443%Z.
Proof. done. Qed.
End processes.

(** ** What knative does with a request *)
Section knative.
Context `{X : Ext, TR : TrustRoot, C : CtExt, R : Registry, J : !PolicyJson, K : !Kube, U : !StoreExt}.

Class WebhookExt := {
  validation_Admit : AdmissionController → GroupVersionKind → Operation → AdmissionObject → res FieldError;
  defaulting_Admit : AdmissionController → GroupVersionKind → Operation → AdmissionObject →
    res AdmissionObject }.

(** The duck types of knative hand the object to the function that the context has for
    them, a policy is validated and defaulted by its own methods. *)
Definition validated (t : GenericCRD) (ctx : RequestCtx) (o : AdmissionObject) : res FieldError :=
  let run v o := match v with Some v => v (rx_Config ctx) o | None => Ok [] end in
  match t, o with
  | crd_Pod, obj_Workload o => run (rx_PodValidator ctx) o
  | crd_WithPod, obj_Workload o => run (rx_PodSpecValidator ctx) o
  | crd_CronJob, obj_Workload o => run (rx_CronJobValidator ctx) o
  | crd_ClusterImagePolicy, obj_Policy p => Ok (v1alpha1.Validate p)
  | _, _ => Err (error_New "cannot decode incoming new object")
  end.
Definition defaulted (t : GenericCRD) (ctx : RequestCtx) (o : AdmissionObject) : res AdmissionObject :=
  let run d o := match d with Some d => Ok (obj_Workload (d (rx_Operation ctx) o)) | None => Ok (obj_Workload o) end in
  match t, o with
  | crd_Pod, obj_Workload o => run (rx_PodDefaulter ctx) o
  | crd_WithPod, obj_Workload o => run (rx_PodSpecDefaulter ctx) o
  | crd_CronJob, obj_Workload o => run (rx_CronJobDefaulter ctx) o
  | crd_ClusterImagePolicy, obj_Policy p => Ok (obj_Policy p)
  | _, _ => Err (error_New "cannot decode incoming new object")
  end.

(** knative: of the objects that are created or updated, those of the registered kinds
    are decoded, defaulted or validated with the context that the controller was given;
    other kinds are refused. *)
Class WebhookLaws `{W : WebhookExt} := {
  admit_validates ac k t op o : NoDup (ac_types ac).*1 → (k, t) ∈ ac_types ac → create_or_update op = true →
    validation_Admit ac k op o = (ctx ← ac_context ac (request op); validated t ctx o);
  admit_unhandled ac k op o : k ∉ (ac_types ac).*1 → create_or_update op = true →
    validation_Admit ac k op o ≠ Ok [];
  admit_defaults ac k t op o : NoDup (ac_types ac).*1 → (k, t) ∈ ac_types ac → create_or_update op = true →
    defaulting_Admit ac k op o = (ctx ← ac_context ac (request op); defaulted t ctx o) }.
End knative.

(** ** From a policy to the containers that run *)
Section enforcement.
Context `{X : Ext, TR : TrustRoot, C : CtExt, KX : KeyExt, R : Registry, J : !PolicyJson, K : !Kube,
  E : !ReconcileExt, L : !ReconcileLaws, U : !StoreExt, UL : !StoreLaws, W : !WebhookExt, WL : !WebhookLaws}.
Context (reg : Reg) (depth : nat) (fulcioroots : res CertPool) (secretName webhookName : string).

Lemma types_NoDup : NoDup (types).*1.
Proof.
  unfold types. cbn. repeat (apply NoDup_cons; split; [rewrite ?elem_of_cons, elem_of_nil; naive_solver|]).
  apply NoDup_nil_2.
Qed.

Definition workload_of (t : GenericCRD) : option workload :=
  match t with
  | crd_Pod => Some Pod | crd_WithPod => Some PodSpecable | crd_CronJob => Some CronJob
  | crd_ClusterImagePolicy => None
  end.

(** Every kind that cosigned registers has a validator and a defaulter. *)
Lemma types_workload k t : (k, t) ∈ types → ∃ w, workload_of t = Some w.
Proof. unfold types. rewrite !elem_of_cons, elem_of_nil. naive_solver. Qed.

Lemma cosigned_validates store k t w op o :
  (k, t) ∈ types → workload_of t = Some w → create_or_update op = true →
  validation_Admit (NewValidatingAdmissionController reg depth fulcioroots secretName webhookName store)
    k op (obj_Workload o) =
  (cfg ← Store_ToContext store None;
   Validate_ reg depth fulcioroots w secretName (FromContext cfg) (wl_Deleting o) (wl_Namespace o) (wl_PodSpec o)).
Proof.
  intros Hk Hw Hop. rewrite (admit_validates _ k t op); [|apply types_NoDup|done|done].
  cbn. unfold validating_context. cbn. destruct (Store_ToContext store None); cbn; [|done..].
  by destruct t; simplify_eq/=.
Qed.

(** What the mutating webhook makes of a container. *)
Definition resolved_in (reg0 : Reg) (kc : Keychain) (c c' : Container) : Prop :=
  c_Name c' = c_Name c ∧
  (c' = c ∨ ∃ ref digest, name_ParseReference (c_Image c) = Ok ref ∧
     ResolveDigest reg0 ref [WithRemoteOptions [remote_WithAuthFromKeychain kc]] = Ok digest ∧
     c_Image c' = Reference_String digest).

Lemma resolve_container_resolved reg0 b kc c : resolved_in reg0 kc c (resolve_container reg0 b kc c).
Proof.
  unfold resolve_container, resolved_in.
  destruct (name_ParseReference (c_Image c)) as [ref| |]; [|auto..].
  destruct b; [|auto]. destruct (ResolveDigest reg0 ref _) as [digest| |] eqn:Hd; [|auto..].
  split; [done|]. right. by exists ref, digest.
Qed.

Lemma resolvePodSpec_resolved reg0 b ps opt kc :
  k8schain_New opt = Ok kc →
  Forall2 (resolved_in reg0 kc) (InitContainers ps ++ Containers ps)
    (InitContainers (resolvePodSpec reg0 b ps opt) ++ Containers (resolvePodSpec reg0 b ps opt)).
Proof.
  intros Hkc. unfold resolvePodSpec. rewrite Hkc. cbn.
  apply Forall2_app; apply Forall2_fmap_r, Forall_Forall2_diag, Forall_true;
    intros c; apply resolve_container_resolved.
Qed.

(** Resolving keeps what the credentials are made from. *)
Lemma chain_options_resolved reg0 b ns ps opt :
  chain_options ns (resolvePodSpec reg0 b ps opt) = chain_options ns ps.
Proof. unfold resolvePodSpec. by destruct (k8schain_New opt). Qed.

Lemma cosigned_defaults reg0 k t op o o' :
  (k, t) ∈ types → create_or_update op = true → wl_Deleting o = false →
  defaulting_Admit (NewMutatingAdmissionController reg0 webhookName) k op (obj_Workload o)
    = Ok (obj_Workload o') →
  o' = set_PodSpec (resolvePodSpec reg0 true (wl_PodSpec o) (chain_options (wl_Namespace o) (wl_PodSpec o))) o.
Proof.
  intros Hk Hop Hd. rewrite (admit_defaults _ k t op); [|apply types_NoDup|done|done].
  destruct (types_workload _ _ Hk) as [w Hw].
  destruct t; simplify_eq/=; rewrite Hop; cbn;
    unfold ResolvePod, ResolvePodSpecable, ResolveCronJob; rewrite Hd; by intros [= <-].
Qed.

(** C5: what the two processes promise together, from a policy in the API to the
    containers that run.  The controller has published the policy [cip], reading the
    current config map; the policy is not named _example, which the webhook skips,
    encoding/json and YAML keep what is written of it, and as the webhook reads it it
    has authorities, each with a public key or a Fulcio URL (what happens otherwise is
    [ineffective_policy_admits]).  The webhook's store has read the config map that
    holds the policy, and a workload of any of the registered kinds, which is not being
    deleted, is created or updated: the mutating webhook makes [o'] of it, with the
    registry as it is then ([reg0]), and the validating webhook admits [o'], with the
    registry as it is then.  Then every container of [o'] is the container of [o] in
    its place, with the image it had or the digest that its reference resolved to; and
    each container whose image a pattern of the policy matches runs a digest of which a
    signature satisfies one of the policy's authorities. *)
Theorem cosigned_enforces cip cl cl' cms s s' cfg reg0 k t op o o' :
  ReconcileKind cip cl = (cl', Ok ()) → cl_Cached cl = cl_ConfigMap cl → v1alpha1.cip_Name cip ≠ "_example" →
  (∀ cip', policy_inlined cip cip' →
     json_faithful (webhookcip.ConvertClusterImagePolicyV1alpha1ToWebhook cip')) →
  follow cms NewStore = Ok s → us_OnConfigChanged (in_force cl') s = Ok s' →
  NewImagePoliciesConfigFromMap (in_force cl') = Ok cfg →
  (∀ p, cfg !! v1alpha1.cip_Name cip = Some p →
     webhookcip.Authorities p ≠ [] ∧ ∀ a, a ∈ webhookcip.Authorities p → effective a) →
  (k, t) ∈ types → create_or_update op = true → wl_Deleting o = false →
  defaulting_Admit (NewMutatingAdmissionController reg0 webhookName) k op (obj_Workload o)
    = Ok (obj_Workload o') →
  validation_Admit (NewValidatingAdmissionController reg depth fulcioroots secretName webhookName s')
    k op (obj_Workload o') = Ok [] →
  let containers o := InitContainers (wl_PodSpec o) ++ Containers (wl_PodSpec o) in
  ∃ kc auths, Forall2 authority_delivered (v1alpha1.Authorities (v1alpha1.Spec cip)) auths
    ∧ Forall2 (resolved_in reg0 kc) (containers o) (containers o')
    ∧ ∀ c ref pat, c ∈ containers o' → name_ParseReference (c_Image c) = Ok ref →
      pat ∈ v1alpha1.Images (v1alpha1.Spec cip) → pattern_matches (ref_Name ref) pat = Ok true →
      (∃ repo d, ref = name_Digest repo d) ∧ policy_satisfied reg depth ref kc auths.
Proof.
  intros Hr Hcur Hn Hj Hf Hc Hcfg He Hk Hop Hd Hdef Hval containers.
  destruct (types_workload _ _ Hk) as [w Hw].
  apply (cosigned_defaults _ _ t) in Hdef as ->; [|done..].
  rewrite (cosigned_validates _ k t w) in Hval by done. apply bind_Ok in Hval as (ctx & Hctx & Hval).
  cbn in Hval. rewrite Hd in Hval.
  destruct (policy_enforced reg depth fulcioroots cip cl cl' cms s s' None ctx w secretName _ _ cfg
    Hr Hcur Hn Hj Hf Hc Hcfg He Hctx Hval) as (kc & auths & Hkc & Ha & Hall).
  exists kc, auths. split_and!; [done| |done].
  apply resolvePodSpec_resolved. by rewrite <- Hkc, chain_options_resolved.
Qed.

(** A policy is validated when it is created or updated, whatever the name of the
    webhook. *)
Lemma policy_webhook_validates name op p :
  create_or_update op = true →
  validation_Admit (NewPolicyValidatingAdmissionController name)
    (mkGVK "cosigned.sigstore.dev" "v1alpha1" "ClusterImagePolicy") op (obj_Policy p) = Ok (v1alpha1.Validate p).
Proof.
  intros Hop. rewrite (admit_validates _ _ crd_ClusterImagePolicy); [done| |by left|done].
  apply NoDup_singleton.
Qed.
End enforcement.

(** ** A run *)
Section witnesses.

(** The first entry for the kind decides. *)
Definition toy_lookup (k : GroupVersionKind) (l : list (GroupVersionKind * GenericCRD)) : option GenericCRD :=
  snd <$> List.find (λ e, bool_decide (e.1 = k)) l.

Lemma toy_lookup_NoDup k t l : NoDup l.*1 → (k, t) ∈ l → toy_lookup k l = Some t.
Proof.
  unfold toy_lookup. induction l as [|[k' t'] l IH]; cbn; [by rewrite elem_of_nil|].
  intros [Hn Hl]%NoDup_cons [[= -> ->]|Hin]%elem_of_cons.
  - by rewrite bool_decide_true.
  - rewrite bool_decide_false; [by apply IH|]. cbn. intros ->. apply Hn.
    apply list_elem_of_fmap. by exists (k, t).
Qed.
Lemma toy_lookup_None k l : k ∉ l.*1 → toy_lookup k l = None.
Proof.
  unfold toy_lookup. induction l as [|[k' t'] l IH]; cbn; [done|].
  rewrite not_elem_of_cons. intros [Hne Hl]. rewrite bool_decide_false by (by intros ->). by apply IH.
Qed.

#[local] Instance toy_Webhook : WebhookExt (R := toy_Registry) := {|
  validation_Admit ac k op o :=
    match toy_lookup k (ac_types ac) with
    | Some t => ctx ← ac_context ac (request op); validated (X := toy) t ctx o
    | None => Err (error_New "unhandled kind")
    end;
  defaulting_Admit ac k op o :=
    match toy_lookup k (ac_types ac) with
    | Some t => ctx ← ac_context ac (request op); defaulted t ctx o
    | None => Err (error_New "unhandled kind")
    end |}.
#[local] Instance toy_WebhookLaws : WebhookLaws (X := toy) (R := toy_Registry).
Proof.
  split; cbn.
  - intros ac k t op o Hn Hk _. by rewrite (toy_lookup_NoDup k t).
  - intros ac k op o Hk _. by rewrite (toy_lookup_None k).
  - intros ac k t op o Hn Hk _. by rewrite (toy_lookup_NoDup k t).
Qed.

Definition toy_workload : Workload := mkWorkload false "ns" toy_pod.

Lemma cosigned_enforces_witness :
  ∃ kc auths, policy_satisfied (X := toy) (TR := toy_TrustRoot) (C := toy_Ct) (R := toy_Registry)
    (K := toy_Kube) toy_digest_reg 1 (name_Digest "repo" "sha256:d") kc auths.
Proof.
  destruct (cosigned_enforces (X := toy) (TR := toy_TrustRoot) (C := toy_Ct) (KX := toy_Keys)
    (R := toy_Registry) (J := toy_Json) (K := toy_Kube) (E := toy_Reconcile) (U := toy_Store)
    toy_digest_reg 1 (Ok None) "secret" "cosigned.sigstore.dev" toy_secret_policy toy_cluster toy_after []
    (NewStore (X := toy) (R := toy_Registry) (J := toy_Json) (U := toy_Store))
    (NewImagePoliciesConfigFromConfigMap (X := toy) (R := toy_Registry) (J := toy_Json), Some toy_config)
    toy_config toy_digest_reg (mkGVK "apps" "v1" "Deployment") crd_WithPod op_Create toy_workload toy_workload)
    as (kc & auths & _ & _ & Hall).
  - exact toy_reconcile.
  - reflexivity.
  - done.
  - exact toy_policy_faithful.
  - reflexivity.
  - cbn. change (in_force toy_after) with toy_entries. unfold NewImagePoliciesConfigFromConfigMap.
    by rewrite toy_config_parsed.
  - exact toy_config_parsed.
  - exact (toy_config_effective _).
  - unfold types. rewrite !elem_of_cons. auto.
  - reflexivity.
  - reflexivity.
  - vm_compute. reflexivity.
  - vm_compute. reflexivity.
  - exists kc, auths. eapply (Hall (mkContainer "c" "repo@sha256:d")); [by left|reflexivity|by left|reflexivity].
Defined.
End witnesses.
